(** * Kibana saved-object exporter: the content script, verified

    A shallow embedding of [content/content.js]: the URL classifier
    ([detectSavedObject]), the record synthesizer ([constructPanelExport]),
    the two panel harvesters ([getEmbeddedPanelsFromAPI],
    [detectEmbeddedPanels]), the aggregator ([getAllResources]) and the
    message handlers of [chrome.runtime.onMessage].

    The script runs in a browser; what it reads from the page, the network
    and the clock is gathered in a [world] record.  Values are the ones
    [JSON.parse] produces; exceptions are explicit ([outcome]). *)

From Stdlib Require Import List String Ascii ZArith Bool Lia Permutation Sorted.
Import ListNotations.
Local Open Scope string_scope.
Local Open Scope Z_scope.

(* ================================================================== *)
(** * JavaScript values *)
(* ================================================================== *)

(** The values of the script are JSON values: they come from
    [JSON.parse], from [response.json()] or from a runtime message.
    - numbers: the integers a double holds exactly ([safe_int]); a number
      with a fraction or an exponent is outside the model;
    - strings: sequences of code units below 256, one [ascii] each;
    - objects: the properties in insertion order.  Engines enumerate keys
      that are array indices first; the model keeps them where they were
      inserted. *)
Unset Elimination Schemes.
Inductive json : Type :=
| JNull
| JBool (b : bool)
| JNum (n : Z)
| JStr (s : string)
| JArr (items : list json)
| JObj (fields : list (string * json)).
Set Elimination Schemes.

(** Induction on values, through the lists of arrays and objects. *)
Section json_induction.
Variable P : json -> Prop.
Hypothesis HNull : P JNull.
Hypothesis HBool : forall b, P (JBool b).
Hypothesis HNum : forall n, P (JNum n).
Hypothesis HStr : forall s, P (JStr s).
Hypothesis HArr : forall l, Forall P l -> P (JArr l).
Hypothesis HObj : forall l, Forall (fun kv => P (snd kv)) l -> P (JObj l).

Fixpoint json_ind (v : json) : P v :=
  match v with
  | JNull => HNull
  | JBool b => HBool b
  | JNum n => HNum n
  | JStr s => HStr s
  | JArr l =>
      HArr l ((fix all (l : list json) : Forall P l :=
                 match l with
                 | [] => Forall_nil P
                 | x :: r => Forall_cons x (json_ind x) (all r)
                 end) l)
  | JObj l =>
      HObj l ((fix all (l : list (string * json))
                 : Forall (fun kv => P (snd kv)) l :=
                 match l with
                 | [] => Forall_nil _
                 | kv :: r => Forall_cons kv (json_ind (snd kv)) (all r)
                 end) l)
  end.
End json_induction.

(** A value or [undefined]. *)
Definition jsval : Type := option json.
Definition undefined : jsval := None.

Inductive js_error : Type :=
| Error (message : string)   (* [new Error(message)], thrown by the script *)
| TypeError                  (* raised by the engine *)
| SyntaxError.               (* raised by [JSON.parse] *)

(** What evaluating an expression gives: a value, an exception, or
    [Unmodelled] where JavaScript's answer depends on something the model
    leaves out (a coercion of an object, a number that is not an integer).
    [try]/[catch] never catches [Unmodelled]. *)
Inductive outcome (A : Type) : Type :=
| Ok (a : A)
| Throw (e : js_error)
| Unmodelled.
Arguments Ok {A} a.
Arguments Throw {A} e.
Arguments Unmodelled {A}.

Definition bind {A B : Type} (m : outcome A) (k : A -> outcome B) : outcome B :=
  match m with
  | Ok a => k a
  | Throw e => Throw e
  | Unmodelled => Unmodelled
  end.

Declare Scope js_scope.
Delimit Scope js_scope with js.
Notation "x <- m ;; k" := (bind m (fun x => k))
  (at level 61, m at next level, right associativity) : js_scope.
Local Open Scope js_scope.

Definition dquote : ascii := "034"%char.

Definition safe_int (n : Z) : bool := (- 2 ^ 53 <=? n) && (n <=? 2 ^ 53).

(** [!!v] *)
Definition truthy (v : jsval) : bool :=
  match v with
  | None => false
  | Some JNull => false
  | Some (JBool b) => b
  | Some (JNum n) => negb (n =? 0)
  | Some (JStr s) => negb (s =? "")%string
  | Some (JArr _) => true
  | Some (JObj _) => true
  end.

(** [a || d] where [d] is a literal, hence never [undefined]. *)
Definition or_default (a : jsval) (d : json) : json :=
  match a with
  | Some v => if truthy a then v else d
  | None => d
  end.

Fixpoint assoc (k : string) (l : list (string * json)) : jsval :=
  match l with
  | [] => None
  | (k', v) :: l' => if (k =? k')%string then Some v else assoc k l'
  end.

(** [o.k] for a receiver that is neither [null] nor [undefined].  The
    property names the script reads are own properties of objects only:
    none of them is a property of [Array.prototype], [String.prototype],
    [Number.prototype], [Boolean.prototype] or [Object.prototype], except
    [sort], which the script reads once (see [attributes_sort]). *)
Definition lookup (o : json) (k : string) : jsval :=
  match o with
  | JObj l => assoc k l
  | _ => None
  end.

(** [v.k]: reading a property of [null] or [undefined] is a TypeError. *)
Definition member (v : jsval) (k : string) : outcome jsval :=
  match v with
  | None => Throw TypeError
  | Some JNull => Throw TypeError
  | Some o => Ok (lookup o k)
  end.

(** [v?.k] *)
Definition opt_member (v : jsval) (k : string) : jsval :=
  match v with
  | None => None
  | Some JNull => None
  | Some o => lookup o k
  end.

(** [a === b].  Two arrays or objects are equal only when they are the
    same object; the script compares values from different sources, never
    an object with itself. *)
Definition strict_eq (a b : jsval) : bool :=
  match a, b with
  | None, None => true
  | Some JNull, Some JNull => true
  | Some (JBool x), Some (JBool y) => Bool.eqb x y
  | Some (JNum x), Some (JNum y) => x =? y
  | Some (JStr x), Some (JStr y) => (x =? y)%string
  | _, _ => false
  end.

(** Set property [k] of an object: an existing property keeps its place. *)
Fixpoint set_field (k : string) (v : json) (l : list (string * json))
  : list (string * json) :=
  match l with
  | [] => [(k, v)]
  | (k', v') :: l' =>
      if (k =? k')%string then (k, v) :: l' else (k', v') :: set_field k v l'
  end.

Fixpoint remove_field (k : string) (l : list (string * json))
  : list (string * json) :=
  match l with
  | [] => []
  | (k', v') :: l' =>
      if (k =? k')%string then remove_field k l' else (k', v') :: remove_field k l'
  end.

(** An object literal [{k1: v1, ...}] as [JSON.stringify] and the message
    channel see it: a property whose value is [undefined] is skipped by
    both, and the script's records are only ever passed to one of them. *)
Fixpoint literal (fields : list (string * jsval)) : list (string * json) :=
  match fields with
  | [] => []
  | (k, Some v) :: fs => (k, v) :: literal fs
  | (_, None) :: fs => literal fs
  end.

(* ================================================================== *)
(** * Strings *)
(* ================================================================== *)

(** [s] without its prefix [p], when it starts with [p]. *)
Fixpoint strip_prefix (p s : string) : option string :=
  match p, s with
  | EmptyString, _ => Some s
  | String a p', String b s' => if (a =? b)%char then strip_prefix p' s' else None
  | String _ _, EmptyString => None
  end.

(** [s] without its first character, when that is [c]. *)
Definition starts_with (c : ascii) (s : string) : option string :=
  match s with
  | String d r => if (d =? c)%char then Some r else None
  | EmptyString => None
  end.

(** [hay.includes(needle)] *)
Fixpoint includes (needle hay : string) : bool :=
  match strip_prefix needle hay with
  | Some _ => true
  | None =>
      match hay with
      | String _ r => includes needle r
      | EmptyString => false
      end
  end.

Fixpoint mem_char (c : ascii) (set : string) : bool :=
  match set with
  | EmptyString => false
  | String d set' => (c =? d)%char || mem_char c set'
  end.

(* ================================================================== *)
(** * Decimal numbers *)
(* ================================================================== *)

Definition digit_char (d : Z) : ascii := ascii_of_nat (48 + Z.to_nat d).

Definition digit_val (c : ascii) : option Z :=
  let n := Z.of_nat (nat_of_ascii c) in
  if (48 <=? n) && (n <=? 57) then Some (n - 48) else None.

Definition is_digit (c : ascii) : bool :=
  match digit_val c with Some _ => true | None => false end.

(** The decimal digits of [n >= 0] in front of [acc]. *)
Fixpoint digits (fuel : nat) (n : Z) (acc : string) : string :=
  match fuel with
  | O => acc
  | S f =>
      let acc' := String (digit_char (n mod 10)) acc in
      if n <? 10 then acc' else digits f (n / 10) acc'
  end.

Definition print_nat (n : Z) : string :=
  digits (S (Z.to_nat (Z.log2 n))) n "".

(** [String(n)] for an integer. *)
Definition print_Z (n : Z) : string :=
  if n <? 0 then String "-" (print_nat (- n)) else print_nat n.

Fixpoint read_digits (acc : Z) (s : string) : Z * string :=
  match s with
  | String c r =>
      match digit_val c with
      | Some d => read_digits (acc * 10 + d) r
      | None => (acc, s)
      end
  | EmptyString => (acc, s)
  end.

Definition starts_with_digit (s : string) : bool :=
  match s with
  | String c _ => is_digit c
  | EmptyString => false
  end.

(** [String(v)], the coercion of template literals and property keys.
    Arrays and objects go through [toString]/[valueOf], which the model
    leaves out. *)
Definition to_js_string (v : jsval) : outcome string :=
  match v with
  | None => Ok "undefined"
  | Some JNull => Ok "null"
  | Some (JBool true) => Ok "true"
  | Some (JBool false) => Ok "false"
  | Some (JNum n) => if safe_int n then Ok (print_Z n) else Unmodelled
  | Some (JStr s) => Ok s
  | Some (JArr _) => Unmodelled
  | Some (JObj _) => Unmodelled
  end.

(** [Number(v)] as the subtraction of the sort comparators applies it;
    [None] is NaN.  Strings, arrays and objects are left out. *)
Definition to_number (v : jsval) : outcome (option Z) :=
  match v with
  | None => Ok None
  | Some JNull => Ok (Some 0)
  | Some (JBool true) => Ok (Some 1)
  | Some (JBool false) => Ok (Some 0)
  | Some (JNum n) => Ok (Some n)
  | Some (JStr _) => Unmodelled
  | Some (JArr _) => Unmodelled
  | Some (JObj _) => Unmodelled
  end.

(** [a - b] *)
Definition js_sub (a b : jsval) : outcome (option Z) :=
  x <- to_number a ;;
  y <- to_number b ;;
  Ok (match x, y with
      | Some n, Some m => Some (n - m)
      | _, _ => None
      end).

(* ================================================================== *)
(** * [JSON.stringify] and [JSON.parse] *)
(* ================================================================== *)

Module JSON.

Definition hex_char (d : Z) : ascii :=
  if d <? 10 then digit_char d else ascii_of_nat (87 + Z.to_nat d).

(** The escape [JSON.stringify] writes for one code unit. *)
Definition escape_char (c : ascii) : string :=
  if (c =? dquote)%char then String "\" (String dquote "")
  else if (c =? "\")%char then "\\"
  else if (c =? "008")%char then "\b"
  else if (c =? "012")%char then "\f"
  else if (c =? "010")%char then "\n"
  else if (c =? "013")%char then "\r"
  else if (c =? "009")%char then "\t"
  else
    let n := Z.of_nat (nat_of_ascii c) in
    if n <? 32
    then "\u00" ++ String (hex_char (n / 16)) (String (hex_char (n mod 16)) "")
    else String c "".

Fixpoint escape (s : string) : string :=
  match s with
  | EmptyString => ""
  | String c r => escape_char c ++ escape r
  end.

Definition quote (s : string) : string :=
  String dquote (escape s ++ String dquote "").

Fixpoint join_comma (l : list string) : string :=
  match l with
  | [] => ""
  | [s] => s
  | s :: l' => s ++ "," ++ join_comma l'
  end.

(** [JSON.stringify(v)], without indentation. *)
Fixpoint stringify (v : json) : string :=
  match v with
  | JNull => "null"
  | JBool true => "true"
  | JBool false => "false"
  | JNum n => print_Z n
  | JStr s => quote s
  | JArr l => "[" ++ join_comma (map stringify l) ++ "]"
  | JObj l =>
      "{" ++ join_comma
               (map (fun kv => quote (fst kv) ++ ":" ++ stringify (snd kv)) l)
          ++ "}"
  end.

Definition newline : string := String "010" "".

Fixpoint join_with (sep : string) (l : list string) : string :=
  match l with
  | [] => ""
  | [s] => s
  | s :: l' => s ++ sep ++ join_with sep l'
  end.

(** [JSON.stringify(v, null, 2)] at the indentation [ind]. *)
Fixpoint indented (ind : string) (v : json) : string :=
  let ind' := ind ++ "  " in
  match v with
  | JArr [] => "[]"
  | JArr l =>
      "[" ++ newline ++ ind'
          ++ join_with ("," ++ newline ++ ind') (map (indented ind') l)
          ++ newline ++ ind ++ "]"
  | JObj [] => "{}"
  | JObj l =>
      "{" ++ newline ++ ind'
          ++ join_with ("," ++ newline ++ ind')
               (map (fun kv => quote (fst kv) ++ ": " ++ indented ind' (snd kv)) l)
          ++ newline ++ ind ++ "}"
  | _ => stringify v
  end.

Definition stringify_indented (v : json) : string := indented "" v.

(** What a parser step gives: a value and the text after it, a syntax
    error, or text the model has no value for. *)
Inductive parsed (A : Type) : Type :=
| Parsed (a : A) (rest : string)
| Malformed
| Beyond.
Arguments Parsed {A} a rest.
Arguments Malformed {A}.
Arguments Beyond {A}.

Definition is_ws (c : ascii) : bool :=
  (c =? " ")%char || (c =? "009")%char || (c =? "010")%char || (c =? "013")%char.

Fixpoint skip_ws (s : string) : string :=
  match s with
  | String c r => if is_ws c then skip_ws r else s
  | EmptyString => s
  end.

Definition hex_val (c : ascii) : option Z :=
  let n := Z.of_nat (nat_of_ascii c) in
  if (48 <=? n) && (n <=? 57) then Some (n - 48)
  else if (97 <=? n) && (n <=? 102) then Some (n - 87)
  else if (65 <=? n) && (n <=? 70) then Some (n - 55)
  else None.

Definition hex4 (a b c d : ascii) : option Z :=
  match hex_val a, hex_val b, hex_val c, hex_val d with
  | Some x, Some y, Some z, Some w => Some (((x * 16 + y) * 16 + z) * 16 + w)
  | _, _, _, _ => None
  end.

Definition unescape (e : ascii) : option ascii :=
  if (e =? dquote)%char then Some dquote
  else if (e =? "\")%char then Some "\"%char
  else if (e =? "/")%char then Some "/"%char
  else if (e =? "b")%char then Some "008"%char
  else if (e =? "f")%char then Some "012"%char
  else if (e =? "n")%char then Some "010"%char
  else if (e =? "r")%char then Some "013"%char
  else if (e =? "t")%char then Some "009"%char
  else None.

Definition push (c : ascii) (p : parsed string) : parsed string :=
  match p with
  | Parsed s r => Parsed (String c s) r
  | Malformed => Malformed
  | Beyond => Beyond
  end.

(** The characters of a string literal, after its opening quote. *)
Fixpoint parse_chars (s : string) : parsed string :=
  match s with
  | EmptyString => Malformed
  | String c r =>
      if (c =? dquote)%char then Parsed "" r
      else if (c =? "\")%char then
        match r with
        | EmptyString => Malformed
        | String e r1 =>
            if (e =? "u")%char then
              match r1 with
              | String h1 (String h2 (String h3 (String h4 r2))) =>
                  match hex4 h1 h2 h3 h4 with
                  | Some n =>
                      if n <? 256
                      then push (ascii_of_nat (Z.to_nat n)) (parse_chars r2)
                      else Beyond
                  | None => Malformed
                  end
              | _ => Malformed
              end
            else
              match unescape e with
              | Some c' => push c' (parse_chars r1)
              | None => Malformed
              end
        end
      else if Z.of_nat (nat_of_ascii c) <? 32 then Malformed
      else push c (parse_chars r)
  end.

(** An unsigned integer: no leading zero, no fraction, no exponent. *)
Definition parse_nat (s : string) : parsed Z :=
  match s with
  | EmptyString => Malformed
  | String c r =>
      if is_digit c then
        if (c =? "0")%char && starts_with_digit r then Malformed
        else
          let (n, r') := read_digits 0 s in
          match r' with
          | String d _ =>
              if (d =? ".")%char || (d =? "e")%char || (d =? "E")%char
              then Beyond
              else if safe_int n then Parsed n r' else Beyond
          | EmptyString => if safe_int n then Parsed n r' else Beyond
          end
      else Malformed
  end.

Definition negated (p : parsed Z) : parsed json :=
  match p with
  | Parsed n r => Parsed (JNum (- n)) r
  | Malformed => Malformed
  | Beyond => Beyond
  end.

Definition positive (p : parsed Z) : parsed json :=
  match p with
  | Parsed n r => Parsed (JNum n) r
  | Malformed => Malformed
  | Beyond => Beyond
  end.

Definition parse_number (s : string) : parsed json :=
  match starts_with "-" s with
  | Some r => negated (parse_nat r)
  | None => positive (parse_nat s)
  end.

Definition keyword (w : string) (v : json) (s : string) : parsed json :=
  match strip_prefix w s with
  | Some r => Parsed v r
  | None => Malformed
  end.

(** The elements of a non-empty array, up to its closing bracket.  [pv]
    parses one value; [n] bounds the number of elements. *)
Fixpoint parse_elements (pv : string -> parsed json) (n : nat) (s : string)
  : parsed (list json) :=
  match n with
  | O => Beyond
  | S n' =>
      match pv s with
      | Parsed v r =>
          match skip_ws r with
          | String c r' =>
              if (c =? ",")%char then
                match parse_elements pv n' r' with
                | Parsed vs r'' => Parsed (v :: vs) r''
                | Malformed => Malformed
                | Beyond => Beyond
                end
              else if (c =? "]")%char then Parsed [v] r'
              else Malformed
          | EmptyString => Malformed
          end
      | Malformed => Malformed
      | Beyond => Beyond
      end
  end.

(** The members of a non-empty object, in the order of the text. *)
Fixpoint parse_members (pv : string -> parsed json) (n : nat) (s : string)
  : parsed (list (string * json)) :=
  match n with
  | O => Beyond
  | S n' =>
      match skip_ws s with
      | String q r0 =>
          if (q =? dquote)%char then
            match parse_chars r0 with
            | Parsed k r1 =>
                match skip_ws r1 with
                | String colon r2 =>
                    if (colon =? ":")%char then
                      match pv r2 with
                      | Parsed v r3 =>
                          match skip_ws r3 with
                          | String c r4 =>
                              if (c =? ",")%char then
                                match parse_members pv n' r4 with
                                | Parsed kvs r5 => Parsed ((k, v) :: kvs) r5
                                | Malformed => Malformed
                                | Beyond => Beyond
                                end
                              else if (c =? "}")%char then Parsed [(k, v)] r4
                              else Malformed
                          | EmptyString => Malformed
                          end
                      | Malformed => Malformed
                      | Beyond => Beyond
                      end
                    else Malformed
                | EmptyString => Malformed
                end
            | Malformed => Malformed
            | Beyond => Beyond
            end
          else Malformed
      | EmptyString => Malformed
      end
  end.

(** The object a member list denotes: a repeated key keeps its first
    place and takes its last value. *)
Definition object_of (members : list (string * json)) : list (string * json) :=
  fold_left (fun acc kv => set_field (fst kv) (snd kv) acc) members [].

(** One value; [fuel] bounds the nesting depth. *)
Fixpoint parse_value (fuel : nat) (s : string) : parsed json :=
  match fuel with
  | O => Beyond
  | S f =>
      match skip_ws s with
      | EmptyString => Malformed
      | String c r =>
          if (c =? "n")%char then keyword "ull" JNull r
          else if (c =? "t")%char then keyword "rue" (JBool true) r
          else if (c =? "f")%char then keyword "alse" (JBool false) r
          else if (c =? dquote)%char then
            match parse_chars r with
            | Parsed str r' => Parsed (JStr str) r'
            | Malformed => Malformed
            | Beyond => Beyond
            end
          else if (c =? "[")%char then
            match starts_with "]" (skip_ws r) with
            | Some r' => Parsed (JArr []) r'
            | None =>
                match parse_elements (parse_value f) (String.length r) r with
                | Parsed vs r' => Parsed (JArr vs) r'
                | Malformed => Malformed
                | Beyond => Beyond
                end
            end
          else if (c =? "{")%char then
            match starts_with "}" (skip_ws r) with
            | Some r' => Parsed (JObj []) r'
            | None =>
                match parse_members (parse_value f) (String.length r) r with
                | Parsed kvs r' => Parsed (JObj (object_of kvs)) r'
                | Malformed => Malformed
                | Beyond => Beyond
                end
            end
          else parse_number (String c r)
      end
  end.

(** [JSON.parse(text)] *)
Definition parse (text : string) : outcome json :=
  match parse_value (S (String.length text)) text with
  | Parsed v r =>
      match skip_ws r with
      | EmptyString => Ok v
      | String _ _ => Throw SyntaxError
      end
  | Malformed => Throw SyntaxError
  | Beyond => Unmodelled
  end.

(** The values that stand for a JavaScript value: every number is an
    integer a double holds exactly, and no object has a key twice. *)
Fixpoint distinct (keys : list string) : bool :=
  match keys with
  | [] => true
  | k :: rest => negb (existsb (String.eqb k) rest) && distinct rest
  end.

Fixpoint valid (v : json) : bool :=
  match v with
  | JNum n => safe_int n
  | JArr l => forallb valid l
  | JObj l => distinct (map fst l) && forallb (fun kv => valid (snd kv)) l
  | _ => true
  end.

(** A text that does not go on as a number. *)
Definition ends_number (rest : string) : Prop :=
  match rest with
  | EmptyString => True
  | String c _ =>
      is_digit c = false /\ c <> "."%char /\ c <> "e"%char /\ c <> "E"%char
  end.

(** What follows a value inside a text that [stringify] wrote. *)
Definition delimited (rest : string) : Prop :=
  match rest with
  | EmptyString => True
  | String c _ => c = ","%char \/ c = "]"%char \/ c = "}"%char
  end.

(** No value's text starts with white space or a closing bracket. *)
Definition opens_value (c : ascii) : Prop :=
  is_ws c = false /\ (c =? "]")%char = false /\ (c =? "}")%char = false.

(** The text of one member of an object. *)
Definition member_text (kv : string * json) : string :=
  quote (fst kv) ++ ":" ++ stringify (snd kv).

Fixpoint depth (v : json) : nat :=
  match v with
  | JArr l => S (fold_right (fun x d => Nat.max (depth x) d) O l)
  | JObj l => S (fold_right (fun kv d => Nat.max (depth (snd kv)) d) O l)
  | _ => O
  end.

End JSON.

(* ================================================================== *)
(** * Regular expressions of the classifier *)
(* ================================================================== *)

(** Every pattern of [KIBANA_PATTERNS] has the shape
    [/prefix([^excluded]+)/]: a literal prefix, then a non-empty capture
    of characters outside a class. *)
Record pattern : Type := { prefix : string; excluded : string }.

(** The longest prefix of [s] without a character of [set]: what the
    greedy [[^set]+] consumes. *)
Fixpoint take_run (set : string) (s : string) : string :=
  match s with
  | EmptyString => ""
  | String c r => if mem_char c set then "" else String c (take_run set r)
  end.

(** The capture of a match that starts at the first character of [s]. *)
Definition match_at (pat : pattern) (s : string) : option string :=
  match strip_prefix (prefix pat) s with
  | Some r =>
      match take_run (excluded pat) r with
      | EmptyString => None
      | String c id => Some (String c id)
      end
  | None => None
  end.

(** [url.match(pattern)[1]]: the capture of the leftmost match. *)
Fixpoint regex_capture (pat : pattern) (url : string) : option string :=
  match match_at pat url with
  | Some id => Some id
  | None =>
      match url with
      | String _ r => regex_capture pat r
      | EmptyString => None
      end
  end.

(* ================================================================== *)
(** * The tables *)
(* ================================================================== *)

Definition KIBANA_PATTERNS : list (string * pattern) :=
  [ ("dashboard", {| prefix := "/app/dashboards#/view/"; excluded := "?&" |});
    ("visualization", {| prefix := "/app/visualize#/edit/"; excluded := "?&" |});
    ("lens", {| prefix := "/app/lens#/edit/"; excluded := "?&" |});
    ("search", {| prefix := "/app/discover#/view/"; excluded := "?&" |});
    ("map", {| prefix := "/app/maps#/map/"; excluded := "?&" |});
    ("index-pattern",
     {| prefix := "/app/management/kibana/indexPatterns/patterns/";
        excluded := "?&" |});
    ("query",
     {| prefix := "/app/management/kibana/objects/savedQueries/";
        excluded := "?&" |});
    ("slo", {| prefix := "/app/slos/"; excluded := "?&/" |});
    ("alert",
     {| prefix := "/app/management/insightsAndAlerting/triggersActions/rule/";
        excluded := "?&" |});
    ("cases", {| prefix := "/app/security/cases/"; excluded := "?&" |}) ].

(** The tables are plain objects, so [table[key]] also finds what they
    inherit from [Object.prototype]; each of these is a function or an
    object, hence truthy. *)
Definition object_prototype_names : list string :=
  [ "constructor"; "hasOwnProperty"; "isPrototypeOf"; "propertyIsEnumerable";
    "toLocaleString"; "toString"; "valueOf"; "__proto__";
    "__defineGetter__"; "__defineSetter__"; "__lookupGetter__";
    "__lookupSetter__" ].

Inductive entry (A : Type) : Type :=
| Own (a : A)
| Inherited
| Absent.
Arguments Own {A} a.
Arguments Inherited {A}.
Arguments Absent {A}.

Fixpoint own_entry {A : Type} (table : list (string * A)) (key : string)
  : option A :=
  match table with
  | [] => None
  | (k, a) :: t => if (key =? k)%string then Some a else own_entry t key
  end.

(** [table[key]] for a key that is already a string. *)
Definition table_get {A : Type} (table : list (string * A)) (key : string)
  : entry A :=
  match own_entry table key with
  | Some a => Own a
  | None =>
      if existsb (String.eqb key) object_prototype_names
      then Inherited else Absent
  end.

Definition entry_truthy {A : Type} (e : entry A) : bool :=
  match e with
  | Own _ => true
  | Inherited => true
  | Absent => false
  end.

Record api_config : Type :=
  { apiPath : string -> string;   (* applied to [String(id)] *)
    fileExtension : string }.

Definition ALTERNATIVE_API_TYPES : list (string * api_config) :=
  [ ("slo",
     {| apiPath := fun id => "/api/observability/slos/" ++ id;
        fileExtension := "json" |});
    ("alert",
     {| apiPath := fun id => "/api/alerting/rule/" ++ id;
        fileExtension := "json" |}) ].

Definition NON_EXPORTABLE_TYPES : list (string * string) :=
  [ ("cases", "Cases are not exportable via any known API") ].

(* ================================================================== *)
(** * The browser *)
(* ================================================================== *)

Record http_request : Type :=
  { req_method : string;
    req_url : string;
    req_body : option string }.

Record http_response : Type :=
  { resp_ok : bool;
    resp_status : Z;
    resp_statusText : string;
    resp_text : string }.

(** What [extractPanelInfo] returns for a panel container. *)
Record panel_info : Type :=
  { pi_type : string;
    pi_id : option string;   (* [None] is [null]: unsaved or inline *)
    pi_title : string }.

(** A panel container of the page.  [extractPanelInfo] is a cascade of
    selector and attribute probes on the container's markup; the container
    carries what the cascade yields for it, and its bounding rectangle.
    Offsets are in whole units. *)
Record element : Type :=
  { el_panelInfo : outcome (option panel_info);
    el_top : Z;
    el_left : Z }.

(** The message the export handler sends to the background worker. *)
Record download_request : Type :=
  { dl_content : string;
    dl_title : jsval;
    dl_type : jsval;
    dl_fileExtension : string }.

Record world : Type :=
  { href : string;                                   (* [window.location.href] *)
    baseUrl : string;                                (* protocol and host of [href] *)
    pageTitle : json;                                (* what [extractTitle()] finds *)
    fetch : http_request -> outcome http_response;
    querySelectorAll : string -> list element;
    now : string;                                    (* [new Date().toISOString()] *)
    randomUUID : string;                             (* [crypto.randomUUID()] *)
    sendMessage : download_request -> outcome jsval  (* the background's answer *) }.

(** A computation that may call [fetch]: it extends the list of requests
    made so far. *)
Definition io (A : Type) : Type :=
  list http_request -> list http_request * outcome A.

Definition ret {A : Type} (a : A) : io A := fun tr => (tr, Ok a).

Definition lift {A : Type} (m : outcome A) : io A := fun tr => (tr, m).

Definition throw {A : Type} (e : js_error) : io A := fun tr => (tr, Throw e).

Definition bind_io {A B : Type} (m : io A) (k : A -> io B) : io B :=
  fun tr =>
    match m tr with
    | (tr', Ok a) => k a tr'
    | (tr', Throw e) => (tr', Throw e)
    | (tr', Unmodelled) => (tr', Unmodelled)
    end.

Notation "x <~ m ;; k" := (bind_io m (fun x => k))
  (at level 61, m at next level, right associativity) : js_scope.

(** [try { m } catch (error) { handler }] *)
Definition try_catch {A : Type} (m : io A) (handler : js_error -> io A) : io A :=
  fun tr =>
    match m tr with
    | (tr', Throw e) => handler e tr'
    | r => r
    end.

(** [await fetch(url, init)] *)
Definition do_fetch (w : world) (rq : http_request) : io http_response :=
  fun tr => ((tr ++ [rq])%list, fetch w rq).

(** The requests a computation makes, and its result. *)
Definition run {A : Type} (m : io A) : list http_request * outcome A := m [].

Definition getKibanaBaseUrl (w : world) : string := baseUrl w.

(** [response.json()] *)
Definition response_json (r : http_response) : outcome json :=
  JSON.parse (resp_text r).

Definition export_failed (r : http_response) : js_error :=
  Error ("Export failed: " ++ print_Z (resp_status r) ++ " "
         ++ resp_statusText r ++ " - " ++ resp_text r).

Definition bulk_export_path : string := "/api/saved_objects/_export".

Definition exportSavedObject (w : world) (type id : jsval) : io string :=
  let baseUrl := getKibanaBaseUrl w in
  let exportUrl := baseUrl ++ bulk_export_path in
  let body :=
    JObj [ ("objects", JArr [JObj (literal [("type", type); ("id", id)])]);
           ("includeReferencesDeep", JBool true) ] in
  response <~ do_fetch w {| req_method := "POST"; req_url := exportUrl;
                            req_body := Some (JSON.stringify body) |} ;;
  if negb (resp_ok response) then throw (export_failed response)
  else ret (resp_text response).

Definition exportViaAlternativeApi (w : world) (type id : jsval) : io string :=
  key <~ lift (to_js_string type) ;;
  match table_get ALTERNATIVE_API_TYPES key with
  | Absent => throw (Error ("No alternative API configured for type: " ++ key))
  | Inherited => throw TypeError   (* [apiConfig.apiPath] is not a function *)
  | Own apiConfig =>
      let baseUrl := getKibanaBaseUrl w in
      id_text <~ lift (to_js_string id) ;;
      let url := baseUrl ++ apiPath apiConfig id_text in
      response <~ do_fetch w {| req_method := "GET"; req_url := url;
                                req_body := None |} ;;
      if negb (resp_ok response) then throw (export_failed response)
      else
        data <~ lift (response_json response) ;;
        ret (JSON.stringify_indented data)
  end.

Definition dashboard_path : string := "/api/saved_objects/dashboard/".

Definition fetchDashboardData (w : world) (dashboardId : jsval) : io json :=
  let baseUrl := getKibanaBaseUrl w in
  id_text <~ lift (to_js_string dashboardId) ;;
  let url := baseUrl ++ dashboard_path ++ id_text in
  response <~ do_fetch w {| req_method := "GET"; req_url := url;
                            req_body := None |} ;;
  if negb (resp_ok response)
  then throw (Error ("Failed to fetch dashboard: " ++ print_Z (resp_status response)))
  else lift (response_json response).

(* ================================================================== *)
(** * Panel titles and subtypes *)
(* ================================================================== *)

Definition empty_object : json := JObj [].

(** The first truthy candidate, else the default: a chain of
    [if (c) return c;] closed by [return d]. *)
Fixpoint first_truthy (candidates : list jsval) (d : json) : json :=
  match candidates with
  | [] => d
  | c :: rest => or_default c (first_truthy rest d)
  end.

Definition extractPanelTitle (panel : json) : outcome json :=
  ec <- member (Some panel) "embeddableConfig" ;;
  let embeddableConfig := or_default ec empty_object in
  let attributes := lookup embeddableConfig "attributes" in
  Ok (first_truthy
        [ lookup embeddableConfig "title";
          opt_member attributes "title";
          opt_member (lookup embeddableConfig "savedVis") "title";
          opt_member (lookup embeddableConfig "vis") "title";
          opt_member (opt_member (opt_member attributes "state") "visualization")
                     "title";
          lookup panel "title" ]
        (JStr "Untitled Panel")).

(** [s.replace(/_/g, ' ')] *)
Fixpoint underscores_to_spaces (s : string) : string :=
  match s with
  | EmptyString => ""
  | String c r =>
      String (if (c =? "_")%char then " "%char else c) (underscores_to_spaces r)
  end.

Definition lower_char (c : ascii) : ascii :=
  let n := Z.of_nat (nat_of_ascii c) in
  if ((65 <=? n) && (n <=? 90))
     || ((192 <=? n) && (n <=? 222) && negb (n =? 215))
  then ascii_of_nat (nat_of_ascii c + 32) else c.

(** [s.toLowerCase()] *)
Fixpoint toLowerCase (s : string) : string :=
  match s with
  | EmptyString => ""
  | String c r => String (lower_char c) (toLowerCase r)
  end.

(** [s.replace(/^lns/, '')] *)
Definition drop_lns (s : string) : string :=
  match strip_prefix "lns" s with
  | Some r => r
  | None => s
  end.

Definition typeMap : list (string * string) :=
  [ ("lnsXY", "xy"); ("lnsMetric", "metric"); ("lnsPie", "pie");
    ("lnsDatatable", "table"); ("lnsLegacyMetric", "metric");
    ("lnsGauge", "gauge"); ("lnsHeatmap", "heatmap");
    ("lnsTagcloud", "tag cloud"); ("lnsMosaic", "mosaic");
    ("lnsPartition", "partition") ].

(** [v === 'name'] *)
Definition is_type (v : jsval) (name : string) : bool :=
  strict_eq v (Some (JStr name)).

(** The lens part of [extractPanelSubType]; [None] when it falls through
    to the rest of the function. *)
Definition lens_subType (visualization attributes : json)
  : outcome (option json) :=
  let preferred := lookup visualization "preferredSeriesType" in
  if truthy preferred then
    match preferred with
    | Some (JStr s) => Ok (Some (JStr (underscores_to_spaces s)))
    | _ => Throw TypeError            (* [.replace] is not a function *)
    end
  else
    let vizType := lookup attributes "visualizationType" in
    if truthy vizType then
      key <- to_js_string vizType ;;
      match table_get typeMap key with
      | Own friendly => Ok (Some (JStr friendly))
      | Inherited => Unmodelled       (* a built-in function is returned *)
      | Absent =>
          match vizType with
          | Some (JStr s) => Ok (Some (JStr (toLowerCase (drop_lns s))))
          | _ => Throw TypeError      (* [.replace] is not a function *)
          end
      end
    else Ok None.

Definition extractPanelSubType (panel : json) : outcome json :=
  ec <- member (Some panel) "embeddableConfig" ;;
  let embeddableConfig := or_default ec empty_object in
  let attributes := or_default (lookup embeddableConfig "attributes") empty_object in
  let state := or_default (lookup attributes "state") empty_object in
  let visualization := or_default (lookup state "visualization") empty_object in
  from_lens <-
    (if is_type (lookup panel "type") "lens"
     then lens_subType visualization attributes else Ok None) ;;
  match from_lens with
  | Some subType => Ok subType
  | None =>
      if is_type (lookup panel "type") "visualization" then
        let savedVis := or_default (lookup embeddableConfig "savedVis") empty_object in
        if truthy (lookup savedVis "type")
        then Ok (or_default (lookup savedVis "type") JNull)
        else Ok JNull
      else Ok JNull
  end.

(* ================================================================== *)
(** * Record synthesizer *)
(* ================================================================== *)

Definition exportSummary : json :=
  JObj [ ("excludedObjects", JArr []);
         ("excludedObjectsCount", JNum 0);
         ("exportedCount", JNum 1);
         ("missingRefCount", JNum 0);
         ("missingReferences", JArr []) ].

(** [typeof v === 'string' ? v : JSON.stringify(v || d)] *)
Definition string_or_stringify (v : jsval) (d : json) : json :=
  match v with
  | Some (JStr s) => JStr s
  | _ => JStr (JSON.stringify (or_default v d))
  end.

Fixpoint indexed {A : Type} (i : Z) (l : list A) : list (string * A) :=
  match l with
  | [] => []
  | a :: l' => (print_Z i, a) :: indexed (i + 1) l'
  end.

Fixpoint chars (s : string) : list json :=
  match s with
  | EmptyString => []
  | String c r => JStr (String c "") :: chars r
  end.

(** [{...base, ...v}]: the own enumerable properties of [v] written over
    [base].  The indices of an array or a string are array-index keys,
    which come first. *)
Definition spread_over (base : list (string * json)) (v : json)
  : list (string * json) :=
  match v with
  | JObj l => fold_left (fun acc kv => set_field (fst kv) (snd kv) acc) l base
  | JArr l => (indexed 0 l ++ base)%list
  | JStr s => (indexed 0 (chars s) ++ base)%list
  | _ => base
  end.

(** [attributes.sort || []].  On an array [attributes.sort] is
    [Array.prototype.sort], a function: truthy, and skipped by
    [JSON.stringify] like [undefined]. *)
Definition attributes_sort (attributes : json) : jsval :=
  match attributes with
  | JArr _ => None
  | _ => Some (or_default (lookup attributes "sort") (JArr []))
  end.

Definition default_searchSource : json :=
  JObj [ ("query", JObj [("language", JStr "kuery"); ("query", JStr "")]);
         ("filter", JArr []) ].

(** The [savedObject] that [constructPanelExport] builds. *)
Definition savedObject (w : world) (panel : json) : outcome json :=
  let now := JStr (now w) in
  panelType <- member (Some panel) "type" ;;
  let embeddableConfig :=
    or_default (lookup panel "embeddableConfig") empty_object in
  title <- extractPanelTitle panel ;;
  let panelId := or_default (lookup panel "panelIndex") (JStr (randomUUID w)) in
  if is_type panelType "lens" then
    let attributes := or_default (lookup embeddableConfig "attributes") empty_object in
    let state := or_default (lookup attributes "state") empty_object in
    Ok (JObj
      [ ("attributes", JObj
          [ ("title", title);
            ("description", or_default (lookup attributes "description") (JStr ""));
            ("visualizationType",
             or_default (lookup attributes "visualizationType") (JStr "lnsXY"));
            ("state", JStr (JSON.stringify state)) ]);
        ("type", JStr "lens");
        ("id", panelId);
        ("managed", JBool false);
        ("references", or_default (lookup attributes "references") (JArr []));
        ("coreMigrationVersion", JStr "8.8.0");
        ("typeMigrationVersion", JStr "8.9.0");
        ("created_at", now);
        ("updated_at", now) ])
  else if is_type panelType "visualization" then
    let savedVis := or_default (lookup embeddableConfig "savedVis") empty_object in
    let visState :=
      JObj [ ("type", or_default (lookup savedVis "type") (JStr "markdown"));
             ("params", or_default (lookup savedVis "params") empty_object);
             ("aggs", or_default (opt_member (lookup savedVis "data") "aggs") (JArr []));
             ("title", title) ] in
    let searchSource :=
      or_default (opt_member (lookup savedVis "data") "searchSource")
                 default_searchSource in
    Ok (JObj
      [ ("attributes", JObj
          [ ("title", title);
            ("visState", JStr (JSON.stringify visState));
            ("uiStateJSON",
             JStr (JSON.stringify (or_default (lookup savedVis "uiState") empty_object)));
            ("description", or_default (lookup savedVis "description") (JStr ""));
            ("version", JNum 1);
            ("kibanaSavedObjectMeta", JObj
              [ ("searchSourceJSON", JStr (JSON.stringify searchSource)) ]) ]);
        ("type", JStr "visualization");
        ("id", panelId);
        ("managed", JBool false);
        ("references", JArr []);
        ("coreMigrationVersion", JStr "8.8.0");
        ("typeMigrationVersion", JStr "8.5.0");
        ("created_at", now);
        ("updated_at", now) ])
  else if is_type panelType "map" then
    let attributes := or_default (lookup embeddableConfig "attributes") empty_object in
    Ok (JObj
      [ ("attributes", JObj
          [ ("title", title);
            ("description", or_default (lookup attributes "description") (JStr ""));
            ("layerListJSON",
             string_or_stringify (lookup attributes "layerListJSON") (JArr []));
            ("mapStateJSON",
             string_or_stringify (lookup attributes "mapStateJSON") empty_object);
            ("uiStateJSON",
             string_or_stringify (lookup attributes "uiStateJSON") empty_object) ]);
        ("type", JStr "map");
        ("id", panelId);
        ("managed", JBool false);
        ("references", or_default (lookup attributes "references") (JArr []));
        ("coreMigrationVersion", JStr "8.8.0");
        ("created_at", now);
        ("updated_at", now) ])
  else if is_type panelType "search" then
    let attributes := or_default (lookup embeddableConfig "attributes") empty_object in
    Ok (JObj
      [ ("attributes", JObj (literal
          [ ("title", Some title);
            ("description",
             Some (or_default (lookup attributes "description") (JStr "")));
            ("columns", Some (or_default (lookup attributes "columns") (JArr [])));
            ("sort", attributes_sort attributes);
            ("kibanaSavedObjectMeta",
             Some (or_default (lookup attributes "kibanaSavedObjectMeta")
                     (JObj [("searchSourceJSON", JStr "{}")]))) ]));
        ("type", JStr "search");
        ("id", panelId);
        ("managed", JBool false);
        ("references", or_default (lookup attributes "references") (JArr []));
        ("coreMigrationVersion", JStr "8.8.0");
        ("created_at", now);
        ("updated_at", now) ])
  else
    let attributes := or_default (lookup embeddableConfig "attributes") empty_object in
    Ok (JObj (literal
      [ ("attributes", Some (JObj (spread_over [("title", title)] attributes)));
        ("type", panelType);
        ("id", Some panelId);
        ("managed", Some (JBool false));
        ("references", Some (or_default (lookup attributes "references") (JArr [])));
        ("coreMigrationVersion", Some (JStr "8.8.0"));
        ("created_at", Some now);
        ("updated_at", Some now) ])).

(** The record and the export summary, one per line.  [dashboardTitle] is
    not used by the function. *)
Definition constructPanelExport (w : world) (panel : json) (dashboardTitle : json)
  : outcome string :=
  record <- savedObject w panel ;;
  Ok (JSON.stringify record ++ JSON.newline ++ JSON.stringify exportSummary).

(** [JSON.parse(v)]: the argument is first converted to a string. *)
Definition JSON_parse_value (v : jsval) : outcome json :=
  text <- to_js_string v ;;
  JSON.parse text.

(** The receiver of [panels.sort(...)] or [panels.find(...)]: on anything
    but an array the method is missing or not callable. *)
Definition as_array (v : json) : outcome (list json) :=
  match v with
  | JArr l => Ok l
  | _ => Throw TypeError
  end.

(** [panels.find(p => p.panelIndex === panelIndex)]; [None] is [undefined]. *)
Fixpoint find_panel (panelIndex : jsval) (panels : list json) : outcome jsval :=
  match panels with
  | [] => Ok None
  | p :: rest =>
      idx <- member (Some p) "panelIndex" ;;
      if strict_eq idx panelIndex then Ok (Some p) else find_panel panelIndex rest
  end.

Definition exportEmbeddedPanel (w : world) (dashboardId panelIndex : jsval)
  : io string :=
  dashboard <~ fetchDashboardData w dashboardId ;;
  attributes <~ lift (member (Some dashboard) "attributes") ;;
  let panelsJSON := opt_member attributes "panelsJSON" in
  if negb (truthy panelsJSON) then throw (Error "Dashboard has no panels")
  else
    parsed <~ lift (JSON_parse_value panelsJSON) ;;
    panels <~ lift (as_array parsed) ;;
    found <~ lift (find_panel panelIndex panels) ;;
    match found with
    | Some panel =>
        if truthy found then
          let dashboardTitle :=
            or_default (opt_member attributes "title") (JStr "Dashboard") in
          lift (constructPanelExport w panel dashboardTitle)
        else
          text <~ lift (to_js_string panelIndex) ;;
          throw (Error ("Panel " ++ text ++ " not found in dashboard"))
    | None =>
        text <~ lift (to_js_string panelIndex) ;;
        throw (Error ("Panel " ++ text ++ " not found in dashboard"))
    end.

(* ================================================================== *)
(** * URL classifier *)
(* ================================================================== *)

(** [extractTitle()] probes the page; the page's answer is part of the
    world. *)
Definition extractTitle (w : world) : json := pageTitle w.

(** The result object for a match of [type] with capture [id]. *)
Definition detected (w : world) (type id : string) : json :=
  JObj (literal
    [ ("type", Some (JStr type));
      ("id", Some (JStr id));
      ("title", Some (extractTitle w));
      ("url", Some (JStr (href w)));
      ("useAlternativeApi",
       if entry_truthy (table_get ALTERNATIVE_API_TYPES type)
       then Some (JBool true) else None);
      ("notExportable",
       if entry_truthy (table_get NON_EXPORTABLE_TYPES type)
       then Some (JBool true) else None);
      ("notExportableReason",
       match table_get NON_EXPORTABLE_TYPES type with
       | Own reason => Some (JStr reason)
       | _ => None
       end) ]).

(** The loop over [Object.entries(KIBANA_PATTERNS)]. *)
Fixpoint detect_in (w : world) (patterns : list (string * pattern)) : jsval :=
  match patterns with
  | [] => None
  | (type, pat) :: rest =>
      match regex_capture pat (href w) with
      | Some id => Some (detected w type id)
      | None => detect_in w rest
      end
  end.

(** [None] is [null]. *)
Definition detectSavedObject (w : world) : jsval := detect_in w KIBANA_PATTERNS.

(* ================================================================== *)
(** * [Array.prototype.sort] *)
(* ================================================================== *)

(** A comparator result [c] asks for the second argument first when
    [c > 0]; NaN counts as [+0]. *)
Definition goes_after (c : option Z) : bool :=
  match c with
  | Some n => 0 <? n
  | None => false
  end.

Fixpoint sort_insert {A : Type} (cmp : A -> A -> outcome (option Z))
  (x : A) (sorted : list A) : outcome (list A) :=
  match sorted with
  | [] => Ok [x]
  | y :: rest =>
      c <- cmp x y ;;
      if goes_after c
      then (r <- sort_insert cmp x rest ;; Ok (y :: r))
      else Ok (x :: sorted)
  end.

(** [l.sort(cmp)] as a stable insertion sort.  The language requires the
    sort to be stable; for a consistent comparator every engine returns
    the list this one returns. *)
Fixpoint Array_sort {A : Type} (cmp : A -> A -> outcome (option Z))
  (l : list A) : outcome (list A) :=
  match l with
  | [] => Ok []
  | x :: rest =>
      sorted <- Array_sort cmp rest ;;
      sort_insert cmp x sorted
  end.

(** The same sort for a comparator that never fails: [after x y] tells
    whether the comparator is positive on [(x, y)]. *)
Fixpoint insert_by {A : Type} (after : A -> A -> bool) (x : A) (sorted : list A)
  : list A :=
  match sorted with
  | [] => [x]
  | y :: rest => if after x y then y :: insert_by after x rest else x :: sorted
  end.

Fixpoint sort_by {A : Type} (after : A -> A -> bool) (l : list A) : list A :=
  match l with
  | [] => []
  | x :: rest => insert_by after x (sort_by after rest)
  end.

Fixpoint map_outcome {A B : Type} (f : A -> outcome B) (l : list A)
  : outcome (list B) :=
  match l with
  | [] => Ok []
  | a :: rest =>
      b <- f a ;;
      bs <- map_outcome f rest ;;
      Ok (b :: bs)
  end.

(* ================================================================== *)
(** * Panel harvester, API path *)
(* ================================================================== *)

Definition default_grid : json := JObj [("y", JNum 0); ("x", JNum 0)].

(** The comparator of [panels.sort] in [getEmbeddedPanelsFromAPI]. *)
Definition compareGrid (a b : json) : outcome (option Z) :=
  ag <- member (Some a) "gridData" ;;
  let aGrid := or_default ag default_grid in
  bg <- member (Some b) "gridData" ;;
  let bGrid := or_default bg default_grid in
  if negb (strict_eq (lookup aGrid "y") (lookup bGrid "y"))
  then js_sub (lookup aGrid "y") (lookup bGrid "y")
  else js_sub (lookup aGrid "x") (lookup bGrid "x").

(** The resource pushed for one panel. *)
Definition panel_resource (dashboardId : jsval) (panel : json) : outcome json :=
  title <- extractPanelTitle panel ;;
  subType <- extractPanelSubType panel ;;
  Ok (JObj (literal
    [ ("type", lookup panel "type");
      ("subType", Some subType);
      ("id", Some JNull);
      ("title", Some title);
      ("panelIndex", lookup panel "panelIndex");
      ("dashboardId", dashboardId);
      ("isEmbedded", Some (JBool true)) ])).

(** The sort and the loop of [getEmbeddedPanelsFromAPI], on the parsed
    panel list. *)
Definition harvest_panels (dashboardId : jsval) (panels : list json)
  : outcome (list json) :=
  sorted <- Array_sort compareGrid panels ;;
  map_outcome (panel_resource dashboardId) sorted.

(** [getEmbeddedPanelsFromAPI] after the fetch. *)
Definition panels_of_dashboard (dashboardId : jsval) (dashboard : json)
  : outcome (list json) :=
  attributes <- member (Some dashboard) "attributes" ;;
  let panelsJSON := opt_member attributes "panelsJSON" in
  if negb (truthy panelsJSON) then Ok []
  else
    parsed <- JSON_parse_value panelsJSON ;;
    panels <- as_array parsed ;;
    harvest_panels dashboardId panels.

Definition getEmbeddedPanelsFromAPI (w : world) (dashboardId : jsval)
  : io (list json) :=
  dashboard <~ fetchDashboardData w dashboardId ;;
  lift (panels_of_dashboard dashboardId dashboard).

(* ================================================================== *)
(** * Panel harvester, DOM path *)
(* ================================================================== *)

Definition panelSelectors : list string :=
  [ String "[" ("data-test-subj=" ++ String dquote ("embeddablePanel"
      ++ String dquote "]"));
    ".embPanel";
    "[data-test-embeddable-id]";
    ".dshDashboardGrid__item" ].

(** The elements of the first selector that matches any. *)
Fixpoint first_matching (w : world) (selectors : list string) : list element :=
  match selectors with
  | [] => []
  | selector :: rest =>
      match querySelectorAll w selector with
      | [] => first_matching w rest
      | elements => elements
      end
  end.

(** The object literal [extractPanelInfo] returns. *)
Definition panelInfo_fields (info : panel_info) : list (string * json) :=
  [ ("type", JStr (pi_type info));
    ("id", match pi_id info with Some id => JStr id | None => JNull end);
    ("title", JStr (pi_title info)) ].

Definition extractPanelInfo (panel : element) : outcome (option panel_info) :=
  el_panelInfo panel.

(** The loop that collects the panels with their position. *)
Fixpoint collect_panels (elements : list element) : outcome (list json) :=
  match elements with
  | [] => Ok []
  | panel :: rest =>
      panelInfo <- extractPanelInfo panel ;;
      more <- collect_panels rest ;;
      match panelInfo with
      | Some info =>
          let position :=
            JObj [("top", JNum (el_top panel)); ("left", JNum (el_left panel))] in
          Ok (JObj (set_field "position" position (panelInfo_fields info)) :: more)
      | None => Ok more
      end
  end.

Definition rowThreshold : Z := 50.

(** The comparator of [panels.sort] in [detectEmbeddedPanels]. *)
Definition comparePosition (a b : json) : outcome (option Z) :=
  apos <- member (Some a) "position" ;;
  atop <- member apos "top" ;;
  bpos <- member (Some b) "position" ;;
  btop <- member bpos "top" ;;
  rowDiff <- js_sub atop btop ;;
  if match rowDiff with Some d => rowThreshold <? Z.abs d | None => false end
  then Ok rowDiff
  else
    aleft <- member apos "left" ;;
    bleft <- member bpos "left" ;;
    js_sub aleft bleft.

(** [({ position, ...rest }) => rest] *)
Definition without_position (p : json) : outcome json :=
  match p with
  | JNull => Throw TypeError
  | _ => Ok (JObj (remove_field "position" (spread_over [] p)))
  end.

(** The panels of the page with their position, sorted. *)
Definition positioned_panels (w : world) : outcome (list json) :=
  let panelElements := first_matching w panelSelectors in
  panels <- collect_panels panelElements ;;
  Array_sort comparePosition panels.

Definition detectEmbeddedPanels (w : world) : outcome (list json) :=
  sorted <- positioned_panels w ;;
  map_outcome without_position sorted.

(* ================================================================== *)
(** * Resource aggregator *)
(* ================================================================== *)

Definition getAllResources (w : world) : io (list json) :=
  let mainResource := detectSavedObject w in
  let resources := match mainResource with Some r => [r] | None => [] end in
  let url := href w in
  if includes "/app/dashboards" url && truthy (opt_member mainResource "id")
  then
    try_catch
      (panels <~ getEmbeddedPanelsFromAPI w (opt_member mainResource "id") ;;
       ret (resources ++ panels)%list)
      (fun error =>
         domPanels <~ lift (detectEmbeddedPanels w) ;;
         ret (resources ++ domPanels)%list)
  else ret resources.

(* ================================================================== *)
(** * Message handlers *)
(* ================================================================== *)

(** The answer to [getAllResources]: [{ resources }]. *)
Record scan_response : Type := { resources : list json }.

Definition onGetAllResources (w : world) : io scan_response :=
  try_catch
    (found <~ getAllResources w ;;
     ret {| resources := found |})
    (fun error => ret {| resources := [] |}).

Record export_request : Type :=
  { rq_type : jsval;
    rq_id : jsval;
    rq_title : jsval;
    rq_panelIndex : jsval;
    rq_dashboardId : jsval;
    rq_isEmbedded : jsval;
    rq_useAlternativeApi : jsval }.

(** The answer to [exportSavedObject]: the background's answer to the
    download, or [{ success: false, error: error.message }]. *)
Inductive export_response : Type :=
| Downloaded (answer : jsval)
| Failed (error : js_error).

(** [ALTERNATIVE_API_TYPES[type]] for any value of [type]. *)
Definition alternative_api (type : jsval) : outcome (entry api_config) :=
  key <- to_js_string type ;;
  Ok (table_get ALTERNATIVE_API_TYPES key).

(** [ALTERNATIVE_API_TYPES[type].fileExtension || 'json'] *)
Definition alternative_extension (alternative : entry api_config) : string :=
  match alternative with
  | Own config =>
      if (fileExtension config =? "")%string then "json" else fileExtension config
  | _ => "json"
  end.

(** The branches that compute [content] and [fileExtension]. *)
Definition export_content (w : world) (request : export_request)
  : io (string * string) :=
  let ndjson := "ndjson" in
  if truthy (rq_isEmbedded request) && truthy (rq_dashboardId request)
     && truthy (rq_panelIndex request)
  then
    content <~ exportEmbeddedPanel w (rq_dashboardId request)
                 (rq_panelIndex request) ;;
    ret (content, ndjson)
  else
    alternative <~
      (if truthy (rq_useAlternativeApi request)
       then lift (alternative_api (rq_type request))
       else ret Absent) ;;
    if entry_truthy alternative then
      content <~ exportViaAlternativeApi w (rq_type request) (rq_id request) ;;
      ret (content, alternative_extension alternative)
    else if truthy (rq_id request) then
      content <~ exportSavedObject w (rq_type request) (rq_id request) ;;
      ret (content, ndjson)
    else throw (Error "No valid export target specified").

Definition onExportSavedObject (w : world) (request : export_request)
  : io export_response :=
  try_catch
    (target <~ export_content w request ;;
     downloadResponse <~
       lift (sendMessage w {| dl_content := fst target;
                              dl_title := rq_title request;
                              dl_type := rq_type request;
                              dl_fileExtension := snd target |}) ;;
     ret (Downloaded downloadResponse))
    (fun error => ret (Failed error)).

(* ================================================================== *)
(** * Notions of the properties *)
(* ================================================================== *)

(** ** Grid order of the API path *)

(** [panel.gridData || { y: 0, x: 0 }] *)
Definition grid_of (p : json) : json :=
  or_default (lookup p "gridData") default_grid.

(** Row and column of a panel whose grid data, when present, holds a
    number for [y] and for [x]. *)
Definition grid_key (p : json) : option (Z * Z) :=
  match p with
  | JNull => None
  | _ =>
      match lookup (grid_of p) "y", lookup (grid_of p) "x" with
      | Some (JNum y), Some (JNum x) => Some (y, x)
      | _, _ => None
      end
  end.

Definition gridded (p : json) : Prop := grid_key p <> None.

(** Row first, then column. *)
Definition key_le (a b : Z * Z) : Prop :=
  fst a < fst b \/ (fst a = fst b /\ snd a <= snd b).

Definition grid_le (a b : json) : Prop :=
  match grid_key a, grid_key b with
  | Some ka, Some kb => key_le ka kb
  | _, _ => False
  end.

Definition grid_after (a b : json) : bool :=
  match grid_key a, grid_key b with
  | Some (ya, xa), Some (yb, xb) =>
      if ya =? yb then 0 <? xa - xb else 0 <? ya - yb
  | _, _ => false
  end.

(** The panels at row [fst k], column [snd k]. *)
Definition at_grid (k : Z * Z) (p : json) : bool :=
  match grid_key p with
  | Some (y, x) => (y =? fst k) && (x =? snd k)
  | None => false
  end.

(** [a] comes before [b] in [l]. *)
Definition precedes {A : Type} (a b : A) (l : list A) : Prop :=
  exists l1 l2 l3, l = (l1 ++ a :: l2 ++ b :: l3)%list.

(** ** Scenarios *)

Definition ok_response (text : string) : http_response :=
  {| resp_ok := true; resp_status := 200; resp_statusText := "OK";
     resp_text := text |}.

(** A dashboard page whose server answers every request with [text], and
    whose markup holds the panel containers [elements]. *)
Definition dashboard_page (text : string) (elements : list element) : world :=
  {| href := "https://kibana.example.com/app/dashboards#/view/abc-123?x=1";
     baseUrl := "https://kibana.example.com";
     pageTitle := JStr "Web traffic";
     fetch := fun _ => Ok (ok_response text);
     querySelectorAll := fun selector =>
       if (selector =? ".embPanel")%string then elements else [];
     now := "2024-05-01T12:00:00.000Z";
     randomUUID := "3f2b8c1e-5d4a-4c6b-9e7f-0a1b2c3d4e5f";
     sendMessage := fun _ => Ok (Some (JObj [("success", JBool true)])) |}.

Definition grid_panel (type index : string) (y x : Z) : json :=
  JObj [ ("type", JStr type);
         ("panelIndex", JStr index);
         ("gridData", JObj [("x", JNum x); ("y", JNum y)]) ].

(** Scenario B: the panel at column 1 is declared before the one at
    column 0. *)
Definition scenario_B_panels : list json :=
  [ grid_panel "lens" "right" 0 1; grid_panel "lens" "left" 0 0 ].

Definition dashboard_document (panels : list json) : json :=
  JObj [ ("id", JStr "abc-123");
         ("type", JStr "dashboard");
         ("attributes", JObj [ ("title", JStr "Web traffic");
                               ("panelsJSON", JStr (JSON.stringify (JArr panels))) ]) ].

Definition scenario_B : world :=
  dashboard_page (JSON.stringify (dashboard_document scenario_B_panels)) [].

(** Row of a panel whose grid data, or the default, holds a number for
    [y]. *)
Definition grid_row (p : json) : option Z :=
  match lookup (grid_of p) "y" with
  | Some (JNum y) => Some y
  | _ => None
  end.

(** The claim of the API-path order, for one fetched list: in the list
    the sort returns, no panel comes before a panel of a lower row. *)
Definition api_order_claim (panels : list json) : Prop :=
  forall sorted a b ya yb,
    Array_sort compareGrid panels = Ok sorted ->
    precedes a b sorted ->
    grid_row a = Some ya -> grid_row b = Some yb -> ya <= yb.

(** A panel whose grid data has no [y], declared between a panel at row
    1 and a panel at row 0. *)
Definition rowless_panel : json :=
  JObj [ ("type", JStr "lens");
         ("panelIndex", JStr "gap");
         ("gridData", JObj [("x", JNum 0)]) ].

Definition rowless_panels : list json :=
  [ grid_panel "lens" "low" 1 0; rowless_panel; grid_panel "lens" "top" 0 0 ].

Definition rowless_page : world :=
  dashboard_page (JSON.stringify (dashboard_document rowless_panels)) [].

(** ** Position order of the DOM path *)

(** A harvested panel: what [extractPanelInfo] found, and the top and
    left offset of its container. *)
Definition placed : Type := panel_info * (Z * Z).

(** The object pushed for a harvested panel: [panelInfo] with its
    [position]. *)
Definition placed_json (p : placed) : json :=
  JObj (set_field "position"
          (JObj [("top", JNum (fst (snd p))); ("left", JNum (snd (snd p)))])
          (panelInfo_fields (fst p))).

(** The containers for which [extractPanelInfo] found something. *)
Fixpoint placed_of (elements : list element) : list placed :=
  match elements with
  | [] => []
  | e :: rest =>
      match el_panelInfo e with
      | Ok (Some info) => (info, (el_top e, el_left e)) :: placed_of rest
      | _ => placed_of rest
      end
  end.

(** Two offsets in the same row: tops at most [rowThreshold] apart. *)
Definition near (a b : Z * Z) : Prop := Z.abs (fst a - fst b) <= rowThreshold.

(** The order the sort is meant to produce between a panel and a later
    one: by left offset within a row, by top offset across rows. *)
Definition dom_le (a b : Z * Z) : Prop :=
  (near a b /\ snd a <= snd b) \/ (~ near a b /\ fst a < fst b).

Definition dom_leb (a b : Z * Z) : bool :=
  if Z.abs (fst a - fst b) <=? rowThreshold
  then snd a <=? snd b else fst a <? fst b.

(** Every two offsets of the list, in list order, are in [dom_leb]. *)
Fixpoint dom_ordered (l : list (Z * Z)) : bool :=
  match l with
  | [] => true
  | a :: rest => forallb (dom_leb a) rest && dom_ordered rest
  end.

Definition placed_after (a b : placed) : bool :=
  let rowDiff := fst (snd a) - fst (snd b) in
  if rowThreshold <? Z.abs rowDiff then 0 <? rowDiff
  else 0 <? snd (snd a) - snd (snd b).

(** The rows of a page are apart when being in the same row is
    transitive among its panels. *)
Definition rows_apart (l : list placed) : Prop :=
  forall a b c, In a l -> In b l -> In c l ->
  near (snd a) (snd b) -> near (snd b) (snd c) -> near (snd a) (snd c).

(** Offsets of an object that still has its [position]. *)
Definition position_key (p : json) : option (Z * Z) :=
  match opt_member (lookup p "position") "top",
        opt_member (lookup p "position") "left" with
  | Some (JNum t), Some (JNum l) => Some (t, l)
  | _, _ => None
  end.

Fixpoint position_keys (l : list json) : list (Z * Z) :=
  match l with
  | [] => []
  | p :: rest =>
      match position_key p with
      | Some k => k :: position_keys rest
      | None => position_keys rest
      end
  end.

(** The claim of the DOM-path order, for one page: the sorted panels are
    pairwise in [dom_leb]. *)
Definition dom_order_claim (w : world) : Prop :=
  forall sorted, positioned_panels w = Ok sorted ->
  dom_ordered (position_keys sorted) = true.

Definition container (type title : string) (top left : Z) : element :=
  {| el_panelInfo := Ok (Some {| pi_type := type; pi_id := None;
                                 pi_title := title |});
     el_top := top;
     el_left := left |}.

(** Three containers of different heights: the first and second tops are
    40 apart, the second and third 40 apart, the first and third 80. *)
Definition staggered_elements : list element :=
  [ container "lens" "A" 0 200;
    container "lens" "B" 40 100;
    container "lens" "C" 80 0 ].

Definition staggered_page : world := dashboard_page "" staggered_elements.

Definition staggered_offsets : list (Z * Z) := [ (0, 200); (40, 100); (80, 0) ].

(** Two rows: two containers near the top, one further down. *)
Definition two_row_elements : list element :=
  [ container "map" "Sites" 400 0;
    container "lens" "Sales" 0 600;
    container "visualization" "Notes" 12 0 ].

Definition two_row_page : world := dashboard_page "" two_row_elements.

(** ** The classifier *)

(** A text whose first character, if any, is in [set]. *)
Definition stops (set rest : string) : Prop :=
  match rest with
  | EmptyString => True
  | String c _ => mem_char c set = true
  end.

(** At the position after [before], the pattern matches [url] and
    captures [id]: the prefix, then [id], non-empty and free of excluded
    characters, then the end of the URL or an excluded character. *)
Definition captured_at (pat : pattern) (url before id : string) : Prop :=
  exists rest,
    url = before ++ prefix pat ++ id ++ rest
    /\ id <> ""
    /\ (forall c, mem_char c id = true -> mem_char c (excluded pat) = false)
    /\ stops (excluded pat) rest.

(** [id] is the capture of the leftmost match. *)
Definition leftmost_capture (pat : pattern) (url id : string) : Prop :=
  exists before,
    captured_at pat url before id
    /\ forall b i, (String.length b < String.length before)%nat ->
                   ~ captured_at pat url b i.

Definition unmatched (pat : pattern) (url : string) : Prop :=
  forall b i, ~ captured_at pat url b i.

(** Following the spec: the identifier is "the URL segment between the
    known prefix and the first [?]/[&]/fragment boundary".  [boundaries]
    are the characters that end the segment. *)
Fixpoint after_first (p url : string) : option string :=
  match strip_prefix p url with
  | Some r => Some r
  | None =>
      match url with
      | String _ r => after_first p r
      | EmptyString => None
      end
  end.

Definition claimed_identifier (boundaries p url : string) : option string :=
  match after_first p url with
  | Some r => Some (take_run boundaries r)
  | None => None
  end.

(** The claim on one page: the classifier's type is a type of the table
    and its id is the claimed segment for that type's prefix. *)
Definition classifier_claim (boundaries : string) (w : world) : Prop :=
  forall d, detectSavedObject w = Some d ->
  exists type pat id,
    In (type, pat) KIBANA_PATTERNS
    /\ lookup d "type" = Some (JStr type)
    /\ claimed_identifier boundaries (prefix pat) (href w) = Some id
    /\ lookup d "id" = Some (JStr id).

Definition scenario_A_url : string :=
  "https://kibana.example.com/app/dashboards#/view/abc-123?x=1".

(** The history tab of an SLO. *)
Definition slo_page : world :=
  {| href := "https://kibana.example.com/app/slos/abc/history?x=1";
     baseUrl := "https://kibana.example.com";
     pageTitle := JStr "Checkout latency";
     fetch := fun _ => Throw TypeError;
     querySelectorAll := fun _ => [];
     now := "2024-05-01T12:00:00.000Z";
     randomUUID := "3f2b8c1e-5d4a-4c6b-9e7f-0a1b2c3d4e5f";
     sendMessage := fun _ => Ok None |}.

(** ** The export router *)

(** The three endpoints, as the requests that reach them. *)
Definition is_bulk_export (w : world) (q : http_request) : Prop :=
  req_method q = "POST" /\ req_url q = baseUrl w ++ bulk_export_path.

Definition is_alternate_read (w : world) (q : http_request) : Prop :=
  req_method q = "GET"
  /\ exists type config id,
       In (type, config) ALTERNATIVE_API_TYPES
       /\ req_url q = baseUrl w ++ apiPath config id.

Definition is_dashboard_read (w : world) (q : http_request) : Prop :=
  req_method q = "GET"
  /\ exists id, req_url q = baseUrl w ++ dashboard_path ++ id.

(** [isEmbedded && dashboardId && panelIndex] *)
Definition embedded_request (request : export_request) : bool :=
  truthy (rq_isEmbedded request) && truthy (rq_dashboardId request)
  && truthy (rq_panelIndex request).

(** The type of the request is a key of the alternate-type table. *)
Definition alternate_type (request : export_request) : Prop :=
  exists key config,
    to_js_string (rq_type request) = Ok key
    /\ own_entry ALTERNATIVE_API_TYPES key = Some config.

(** The type of the request is a key of the non-exportable table, with
    the reason configured for it. *)
Definition non_exportable (request : export_request) (reason : string) : Prop :=
  exists key,
    to_js_string (rq_type request) = Ok key
    /\ own_entry NON_EXPORTABLE_TYPES key = Some reason.

(** The requests a handler makes. *)
Definition requests_of {A : Type} (m : io A) : list http_request := fst (run m).

(** Every request [m] adds satisfies [S]. *)
Definition emits {A : Type} (m : io A) (S : http_request -> Prop) : Prop :=
  forall tr, exists extra, fst (m tr) = (tr ++ extra)%list /\ Forall S extra.

(** What may be requested, by the branch the request takes. *)
Definition routed (w : world) (request : export_request) (q : http_request)
  : Prop :=
  (embedded_request request = true /\ is_dashboard_read w q)
  \/ (embedded_request request = false
      /\ truthy (rq_useAlternativeApi request) = true
      /\ alternate_type request
      /\ is_alternate_read w q)
  \/ (embedded_request request = false
      /\ truthy (rq_id request) = true
      /\ (truthy (rq_useAlternativeApi request) = false
          \/ exists key, to_js_string (rq_type request) = Ok key
                         /\ table_get ALTERNATIVE_API_TYPES key = Absent)
      /\ is_bulk_export w q).

(** The claim of the alternate flag, for one request: with the flag set
    the bulk endpoint is not called. *)
Definition alternate_flag_claim (w : world) (request : export_request) : Prop :=
  truthy (rq_useAlternativeApi request) = true ->
  forall q, In q (requests_of (onExportSavedObject w request)) ->
            ~ is_bulk_export w q.

(** The claim of scenario C, for one request: a non-exportable type is
    refused with its reason and without a network call. *)
Definition non_exportable_claim (w : world) (request : export_request) : Prop :=
  forall reason, non_exportable request reason ->
  run (onExportSavedObject w request) = ([], Ok (Failed (Error reason))).

(** A request as the side panel sends it for a primary resource. *)
Definition primary_request (type id : string) (useAlternativeApi : bool)
  : export_request :=
  {| rq_type := Some (JStr type);
     rq_id := Some (JStr id);
     rq_title := Some (JStr "Untitled");
     rq_panelIndex := None;
     rq_dashboardId := None;
     rq_isEmbedded := None;
     rq_useAlternativeApi := Some (JBool useAlternativeApi) |}.

(** A server that answers every request with an empty export. *)
Definition plain_server : world := dashboard_page "{}" [].

(** ** The synthesizer *)

(** [panel.embeddableConfig || {}] and what the branches read from it. *)
Definition embeddableConfig_of (panel : json) : json :=
  or_default (lookup panel "embeddableConfig") empty_object.

Definition attributes_of (panel : json) : json :=
  or_default (lookup (embeddableConfig_of panel) "attributes") empty_object.

Definition savedVis_of (panel : json) : json :=
  or_default (lookup (embeddableConfig_of panel) "savedVis") empty_object.

(** The [visState] of the visualization branch. *)
Definition visState_of (panel title : json) : json :=
  JObj [ ("type", or_default (lookup (savedVis_of panel) "type") (JStr "markdown"));
         ("params", or_default (lookup (savedVis_of panel) "params") empty_object);
         ("aggs",
          or_default (opt_member (lookup (savedVis_of panel) "data") "aggs") (JArr []));
         ("title", title) ].

(** A string holds the text of [v]. *)
Definition encodes (field : jsval) (v : json) : Prop :=
  exists text, field = Some (JStr text) /\ JSON.parse text = Ok v.

(** Following the spec, for a lens panel: decoding the record "reproduces
    the source configuration's title/description/state losslessly", the
    source configuration being [embeddableConfig.attributes]. *)
Definition lens_roundtrip_claim (w : world) (panel : json) : Prop :=
  forall record attributes source,
    savedObject w panel = Ok record ->
    lookup record "attributes" = Some attributes ->
    opt_member (lookup panel "embeddableConfig") "attributes" = Some source ->
    (forall title, lookup source "title" = Some title ->
                   lookup attributes "title" = Some title)
    /\ (forall description, lookup source "description" = Some description ->
                            lookup attributes "description" = Some description)
    /\ (forall state, lookup source "state" = Some state ->
                      encodes (lookup attributes "state") state).

(** Scenario D: an inline lens panel titled "Sales". *)
Definition sales_state : json :=
  JObj [ ("visualization",
          JObj [ ("preferredSeriesType", JStr "bar_stacked");
                 ("layers", JArr [JObj [("layerId", JStr "layer-1");
                                        ("seriesType", JStr "bar_stacked")]]) ]);
         ("query", JObj [("language", JStr "kuery"); ("query", JStr "")]);
         ("filters", JArr []) ].

Definition sales_panel : json :=
  JObj [ ("type", JStr "lens");
         ("panelIndex", JStr "p-sales");
         ("gridData", JObj [("x", JNum 0); ("y", JNum 0); ("w", JNum 24);
                            ("h", JNum 15); ("i", JStr "p-sales")]);
         ("embeddableConfig",
          JObj [ ("attributes",
                  JObj [ ("title", JStr "Sales");
                         ("description", JStr "Monthly sales");
                         ("visualizationType", JStr "lnsXY");
                         ("state", sales_state);
                         ("references", JArr []) ]) ]) ].

Definition scenario_D : world :=
  dashboard_page (JSON.stringify (dashboard_document [sales_panel])) [].

Definition sales_request : export_request :=
  {| rq_type := Some (JStr "lens");
     rq_id := Some JNull;
     rq_title := Some (JStr "Sales");
     rq_panelIndex := Some (JStr "p-sales");
     rq_dashboardId := Some (JStr "abc-123");
     rq_isEmbedded := Some (JBool true);
     rq_useAlternativeApi := Some (JBool false) |}.

(** An inline lens panel whose own title is empty and which has no other
    title. *)
Definition untitled_panel : json :=
  JObj [ ("type", JStr "lens");
         ("panelIndex", JStr "p-1");
         ("gridData", JObj [("x", JNum 0); ("y", JNum 0)]);
         ("embeddableConfig",
          JObj [ ("attributes",
                  JObj [ ("title", JStr "");
                         ("description", JStr "Monthly sales");
                         ("visualizationType", JStr "lnsXY");
                         ("state", sales_state) ]) ]) ].

(** ** The aggregator *)

(** The fallback of [getAllResources]: the primary resource, then the
    panels of the DOM path. *)
Definition dom_fallback (w : world) (main : json) : outcome (list json) :=
  domPanels <- detectEmbeddedPanels w ;;
  Ok (main :: domPanels).

(** The request [fetchDashboardData] makes for the dashboard [id]. *)
Definition dashboard_request (w : world) (id : string) : http_request :=
  {| req_method := "GET";
     req_url := baseUrl w ++ dashboard_path ++ id;
     req_body := None |}.

(** The scan after a failed API harvest that made the requests [tr]: it
    is the fallback, which returns the primary resource followed by the
    panels of the DOM path when the DOM harvest returns, and throws what
    the DOM harvest throws. *)
Definition falls_back (w : world) (main : json) (tr : list http_request) : Prop :=
  run (getAllResources w) = (tr, dom_fallback w main)
  /\ (forall dom,
      detectEmbeddedPanels w = Ok dom ->
      run (getAllResources w) = (tr, Ok (main :: dom)))
  /\ (forall e,
      detectEmbeddedPanels w = Throw e ->
      run (getAllResources w) = (tr, Throw e)).

(** The claim that a failed API harvest does not abort the scan, on one
    page: the scan returns the primary resource followed by panels. *)
Definition no_abort_claim (w : world) : Prop :=
  forall main tr e,
    detectSavedObject w = Some main ->
    run (getEmbeddedPanelsFromAPI w (lookup main "id")) = (tr, Throw e) ->
    exists panels, snd (run (getAllResources w)) = Ok (main :: panels).

(** The claim of the fallback for a missing panel list, on one page: the
    scan returns the primary resource followed by the DOM panels. *)
Definition missing_list_claim (w : world) : Prop :=
  forall main tr dashboard dom,
    detectSavedObject w = Some main ->
    run (fetchDashboardData w (lookup main "id")) = (tr, Ok dashboard) ->
    opt_member (lookup dashboard "attributes") "panelsJSON" = None ->
    detectEmbeddedPanels w = Ok dom ->
    snd (run (getAllResources w)) = Ok (main :: dom).

(** A dashboard whose document has no panel list, on a page that shows
    three panels. *)
Definition listless_document : json :=
  JObj [ ("id", JStr "abc-123");
         ("type", JStr "dashboard");
         ("attributes", JObj [("title", JStr "Web traffic")]) ].

Definition listless_page : world :=
  dashboard_page (JSON.stringify listless_document) two_row_elements.

(** A dashboard page where the fetch fails and one container makes
    [extractPanelInfo] throw. *)
Definition broken_page : world :=
  {| href := scenario_A_url;
     baseUrl := "https://kibana.example.com";
     pageTitle := JNull;
     fetch := fun _ => Throw TypeError;
     querySelectorAll := fun _ =>
       [ {| el_panelInfo := Throw TypeError; el_top := 0; el_left := 0 |} ];
     now := "2024-05-01T12:00:00.000Z";
     randomUUID := "3f2b8c1e-5d4a-4c6b-9e7f-0a1b2c3d4e5f";
     sendMessage := fun _ => Ok None |}.

(** A page the classifier does not recognize. *)
Definition home_page : world :=
  {| href := "https://kibana.example.com/app/home";
     baseUrl := "https://kibana.example.com";
     pageTitle := JStr "Home";
     fetch := fun _ => Throw TypeError;
     querySelectorAll := fun _ => [];
     now := "2024-05-01T12:00:00.000Z";
     randomUUID := "3f2b8c1e-5d4a-4c6b-9e7f-0a1b2c3d4e5f";
     sendMessage := fun _ => Ok None |}.

(** A value, when there is one, stands for a JavaScript value. *)
Definition valid_opt (v : jsval) : bool :=
  match v with
  | Some x => JSON.valid x
  | None => true
  end.

(** A field of a map record: the source's string as it is, or the text
    of the source's value ([d] when that is falsy). *)
Definition copied_or_encoded (source : jsval) (d : json) (field : jsval) : Prop :=
  match source with
  | Some (JStr s) => field = Some (JStr s)
  | _ => encodes field (or_default source d)
  end.

(** A dashboard page that shows three panels while the server cannot be
    reached. *)
Definition offline_page : world :=
  {| href := scenario_A_url;
     baseUrl := "https://kibana.example.com";
     pageTitle := JStr "Web traffic";
     fetch := fun _ => Throw TypeError;
     querySelectorAll := fun selector =>
       if (selector =? ".embPanel")%string then two_row_elements else [];
     now := "2024-05-01T12:00:00.000Z";
     randomUUID := "3f2b8c1e-5d4a-4c6b-9e7f-0a1b2c3d4e5f";
     sendMessage := fun _ => Ok None |}.

(* ================================================================== *)
(** * The handler of [getSavedObjectInfo] *)
(* ================================================================== *)

(** The answer [{ savedObject, baseUrl, isKibanaPage,
    additionalResourceCount }]. *)
Record info_response : Type :=
  { info_savedObject : jsval;              (* [None] is [null] *)
    info_baseUrl : string;
    info_isKibanaPage : bool;
    info_additionalResourceCount : Z }.

Definition onGetSavedObjectInfo (w : world) : io info_response :=
  let main := detectSavedObject w in
  let baseUrl := getKibanaBaseUrl w in
  additionalResourceCount <~
    (if truthy main && includes "/app/dashboards" (href w)
     then try_catch
            (found <~ getAllResources w ;;
             ret (Z.max 0 (Z.of_nat (List.length found) - 1)))
            (fun error => ret 0)
     else ret 0) ;;
  ret {| info_savedObject := main;
         info_baseUrl := baseUrl;
         info_isKibanaPage := match main with Some _ => true | None => false end;
         info_additionalResourceCount := additionalResourceCount |}.

(* ================================================================== *)
(** * Side panel and popup *)
(* ================================================================== *)

(** [sidepanel/sidepanel.js] and [popup/popup.js] talk to the content
    script through [chrome.tabs.sendMessage]; a message is the request
    record, the answer what the handler passes to [sendResponse]. *)

(** [!resource.notExportable &&
     (resource.id || resource.isEmbedded || resource.useAlternativeApi)],
    as a condition. *)
Definition canExport (resource : json) : bool :=
  negb (truthy (lookup resource "notExportable"))
  && (truthy (lookup resource "id")
      || truthy (lookup resource "isEmbedded")
      || truthy (lookup resource "useAlternativeApi")).

(** The message [handleDownload] sends for a resource. *)
Definition export_message (resource : json) : export_request :=
  {| rq_type := lookup resource "type";
     rq_id := lookup resource "id";
     rq_title := lookup resource "title";
     rq_panelIndex := lookup resource "panelIndex";
     rq_dashboardId := lookup resource "dashboardId";
     rq_isEmbedded := lookup resource "isEmbedded";
     rq_useAlternativeApi :=
       Some (or_default (lookup resource "useAlternativeApi") (JBool false)) |}.

(** [handleDownload(index, button)], up to the answer of the content
    script; [None] when it returns without sending. *)
Definition handleDownload (w : world) (panelResources : list json) (index : nat)
  : io (option export_response) :=
  match nth_error panelResources index with
  | None => ret None
  | Some resource =>
      if negb (truthy (Some resource)) then ret None
      else if negb (canExport resource) then ret None
      else
        response <~ onExportSavedObject w (export_message resource) ;;
        ret (Some response)
  end.

(** The label of [renderResources]:
    [`${n} resource${n !== 1 ? 's' : ''} (${exportableCount} exportable)`]. *)
Definition resourceCount (found : list json) : string :=
  let n := Z.of_nat (List.length found) in
  let exportableCount := Z.of_nat (List.length (filter canExport found)) in
  print_Z n ++ " resource" ++ (if negb (n =? 1) then "s" else "")
  ++ " (" ++ print_Z exportableCount ++ " exportable)".

(** The message the popup's [exportSavedObject] sends for the object it
    holds. *)
Definition popup_message (current : json) : export_request :=
  {| rq_type := lookup current "type";
     rq_id := lookup current "id";
     rq_title := lookup current "title";
     rq_panelIndex := None;
     rq_dashboardId := None;
     rq_isEmbedded := None;
     rq_useAlternativeApi :=
       Some (or_default (lookup current "useAlternativeApi") (JBool false)) |}.

(** The text [updateExploreBtnText] writes on the button. *)
Definition updateExploreBtnText (count : Z) : string :=
  if 0 <? count
  then "Explore " ++ print_Z count ++ " more in Side Panel"
  else "Open Side Panel".

Inductive popup_state : Type :=
| st_notDetected
| st_notExportable
| st_detected (exploreText : string).

(** The popup's [getSavedObjectInfo], after the script is injected: the
    state it shows. *)
Definition popup_getSavedObjectInfo (w : world) : io popup_state :=
  try_catch
    (response <~ onGetSavedObjectInfo w ;;
     match info_savedObject response with
     | Some current =>
         if info_isKibanaPage response && truthy (Some current) then
           if truthy (lookup current "notExportable") then ret st_notExportable
           else
             ret (st_detected
                    (updateExploreBtnText (info_additionalResourceCount response)))
         else ret st_notDetected
     | None => ret st_notDetected
     end)
    (fun error => ret st_notDetected).

(* ================================================================== *)
(** * Background worker: file names and downloads *)
(* ================================================================== *)

(** The class of the first [replace]: the angle brackets, the colon, the
    double quote, both slashes, the bar, the question mark and the star. *)
Definition invalid_chars : string := "<>:" ++ String dquote "/\|?*".

(** [\s] on code units below 256: tab to carriage return, space and the
    no-break space. *)
Definition is_space (c : ascii) : bool :=
  let n := Z.of_nat (nat_of_ascii c) in
  ((9 <=? n) && (n <=? 13)) || (n =? 32) || (n =? 160).

Definition is_dash (c : ascii) : bool := (c =? "-")%char.

(** [s.replace(/[set]/g, '-')] *)
Fixpoint replace_chars (set : string) (s : string) : string :=
  match s with
  | EmptyString => ""
  | String c r =>
      String (if mem_char c set then "-"%char else c) (replace_chars set r)
  end.

(** [s.replace(/p+/g, '-')] for a class [p]: every maximal run of [p]
    becomes one dash.  [inside] tells that the run has begun. *)
Fixpoint replace_runs (p : ascii -> bool) (inside : bool) (s : string) : string :=
  match s with
  | EmptyString => ""
  | String c r =>
      if p c then
        if inside then replace_runs p true r
        else String "-" (replace_runs p true r)
      else String c (replace_runs p false r)
  end.

Fixpoint drop_last_dash (s : string) : string :=
  match s with
  | EmptyString => ""
  | String c EmptyString => if is_dash c then "" else s
  | String c r => String c (drop_last_dash r)
  end.

(** [s.replace(/^-|-$/g, '')]: the dash at the start, then the dash at
    the end of what is left. *)
Definition trim_dashes (s : string) : string :=
  match s with
  | String c r => if is_dash c then drop_last_dash r else drop_last_dash s
  | EmptyString => ""
  end.

Definition sanitizeFilename (name : string) : string :=
  String.substring 0 200
    (trim_dashes
       (replace_runs is_dash false
          (replace_runs is_space false
             (replace_chars invalid_chars name)))).

(** [title] and [type] are what the message holds; [extension] is
    ['ndjson'] when the message has none. *)
Definition generateFilename (title type : jsval) (extension : string)
  : outcome string :=
  sanitizedTitle <-
    match or_default title (JStr "untitled") with
    | JStr name => Ok (sanitizeFilename name)
    | _ => Throw TypeError             (* [name.replace] is not a function *)
    end ;;
  type_text <- to_js_string type ;;
  Ok (sanitizedTitle ++ "-" ++ type_text ++ "." ++ extension).

Definition mimeTypes : list (string * string) :=
  [ ("ndjson", "application/x-ndjson"); ("json", "application/json") ].

(** [mimeTypes[extension] || 'application/octet-stream'] *)
Definition getMimeType (extension : string) : outcome string :=
  match table_get mimeTypes extension with
  | Own mimeType =>
      Ok (if (mimeType =? "")%string then "application/octet-stream" else mimeType)
  | Inherited => Unmodelled            (* a built-in function is returned *)
  | Absent => Ok "application/octet-stream"
  end.

(** The code unit of a character, and back. *)
Definition code (c : ascii) : Z := Z.of_nat (nat_of_ascii c).

Definition char_of (n : Z) : ascii := ascii_of_nat (Z.to_nat n).

(** [unescape(encodeURIComponent(s))]: the UTF-8 bytes of [s], one
    character each. *)
Fixpoint utf8 (s : string) : string :=
  match s with
  | EmptyString => ""
  | String c r =>
      let n := code c in
      if n <? 128 then String c (utf8 r)
      else String (char_of (192 + n / 64))
             (String (char_of (128 + n mod 64)) (utf8 r))
  end.

Definition base64_alphabet : string :=
  "ABCDEFGHIJKLMNOPQRSTUVWXYZabcdefghijklmnopqrstuvwxyz0123456789+/".

Definition base64_char (n : Z) : ascii :=
  match String.get (Z.to_nat n) base64_alphabet with
  | Some c => c
  | None => "="%char
  end.

(** [btoa(bytes)] *)
Fixpoint btoa (bytes : string) : string :=
  match bytes with
  | EmptyString => ""
  | String a EmptyString =>
      let x := code a in
      String (base64_char (x / 4))
        (String (base64_char (x mod 4 * 16)) "==")
  | String a (String b EmptyString) =>
      let x := code a in
      let y := code b in
      String (base64_char (x / 4))
        (String (base64_char (x mod 4 * 16 + y / 16))
           (String (base64_char (y mod 16 * 4)) "="))
  | String a (String b (String c r)) =>
      let x := code a in
      let y := code b in
      let z := code c in
      String (base64_char (x / 4))
        (String (base64_char (x mod 4 * 16 + y / 16))
           (String (base64_char (y mod 16 * 4 + z / 64))
              (String (base64_char (z mod 64)) (btoa r))))
  end.

(** The data URL [downloadAsFile] hands to the browser. *)
Definition dataUrl (mimeType content : string) : string :=
  "data:" ++ mimeType ++ ";base64," ++ btoa (utf8 content).

(** [download url filename] is [chrome.downloads.download({ url,
    filename, saveAs: true })]: the id of the download. *)
Definition downloadAsFile (download : string -> string -> outcome Z)
  (content filename extension : string) : outcome Z :=
  mimeType <- getMimeType extension ;;
  download (dataUrl mimeType content) filename.

(** The answer to [downloadFile]: [{ success: true, filename }] or
    [{ success: false, error: error.message }]. *)
Inductive download_response : Type :=
| Saved (filename : string)
| NotSaved (error : js_error).

Definition onDownloadFile (download : string -> string -> outcome Z)
  (request : download_request) : outcome download_response :=
  match
    (filename <- generateFilename (dl_title request) (dl_type request)
                   (dl_fileExtension request) ;;
     downloadId <- downloadAsFile download (dl_content request) filename
                     (dl_fileExtension request) ;;
     Ok (Saved filename))
  with
  | Throw error => Ok (NotSaved error)
  | answer => answer
  end.

(* ================================================================== *)
(** * Panel highlight *)
(* ================================================================== *)

(** The selectors of [highlightPanel]: those of [detectEmbeddedPanels]
    and one more. *)
Definition highlightSelectors : list string :=
  (panelSelectors ++ ["[data-grid-item-id]"])%list.

(** The overlay element: a node of the document with the position copied
    from a panel's rectangle (width and height are copied with it). *)
Record overlay : Type := { ov_node : nat; ov_top : Z; ov_left : Z }.

(** The two variables of the script, the overlays attached to
    [document.body], and the number of nodes created so far.
    [highlightOverlay] refers to a node. *)
Record highlight_state : Type :=
  { highlightedElement : option element;
    highlightOverlay : option nat;
    body : list overlay;
    created : nat }.

Definition initial_state : highlight_state :=
  {| highlightedElement := None; highlightOverlay := None;
     body := []; created := O |}.

Definition unhighlightPanel (s : highlight_state) : highlight_state :=
  {| highlightedElement := None;
     highlightOverlay := None;
     body := match highlightOverlay s with
             | Some node => filter (fun o => negb (ov_node o =? node)%nat) (body s)
             | None => body s
             end;
     created := created s |}.

(** The comparator of [panelElements.sort] in [highlightPanel]. *)
Definition compareRect (a b : element) : outcome (option Z) :=
  let rowDiff := el_top a - el_top b in
  if rowThreshold <? Z.abs rowDiff then Ok (Some rowDiff)
  else Ok (Some (el_left a - el_left b)).

Definition highlightPanel (w : world) (panelIndex resourceIndex : jsval)
  (s : highlight_state) : outcome highlight_state :=
  let s := unhighlightPanel s in
  match first_matching w highlightSelectors with
  | [] => Ok s
  | panelElements =>
      sorted <- Array_sort compareRect panelElements ;;
      panelElementIndex <- js_sub resourceIndex (Some (JNum 1)) ;;
      match panelElementIndex with
      | Some i =>
          if (0 <=? i) && (i <? Z.of_nat (List.length sorted)) then
            match nth_error sorted (Z.to_nat i) with
            | Some panel =>
                let node := created s in
                Ok {| highlightedElement := Some panel;
                      highlightOverlay := Some node;
                      body := (body s
                               ++ [{| ov_node := node; ov_top := el_top panel;
                                      ov_left := el_left panel |}])%list;
                      created := S node |}
            | None => Ok s
            end
          else Ok s
      | None => Ok s
      end
  end.

(** [updateHighlightPosition] on a scroll or a resize; [rect] is where
    the elements are by then. *)
Definition updateHighlightPosition (rect : element -> Z * Z) (s : highlight_state)
  : highlight_state :=
  match highlightedElement s, highlightOverlay s with
  | Some panel, Some node =>
      {| highlightedElement := highlightedElement s;
         highlightOverlay := highlightOverlay s;
         body := map (fun o => if (ov_node o =? node)%nat
                               then {| ov_node := node;
                                       ov_top := fst (rect panel);
                                       ov_left := snd (rect panel) |}
                               else o) (body s);
         created := created s |}
  | _, _ => s
  end.

(** The events that reach the script. *)
Inductive highlight_event : Type :=
| on_highlightPanel (panelIndex index : jsval)
| on_unhighlightPanel
| on_scroll (rect : element -> Z * Z).

Definition handle_event (w : world) (e : highlight_event) (s : highlight_state)
  : outcome highlight_state :=
  match e with
  | on_highlightPanel panelIndex index => highlightPanel w panelIndex index s
  | on_unhighlightPanel => Ok (unhighlightPanel s)
  | on_scroll rect => Ok (updateHighlightPosition rect s)
  end.

Fixpoint handle_events (w : world) (events : list highlight_event)
  (s : highlight_state) : outcome highlight_state :=
  match events with
  | [] => Ok s
  | e :: rest =>
      s' <- handle_event w e s ;;
      handle_events w rest s'
  end.

(* ================================================================== *)
(** * The page title *)
(* ================================================================== *)

(** No character of [s] satisfies [p]. *)
Fixpoint free_of (p : ascii -> bool) (s : string) : bool :=
  match s with
  | EmptyString => true
  | String c r => negb (p c) && free_of p r
  end.

(** Every character of [s] satisfies [p]. *)
Definition all_of (p : ascii -> bool) (s : string) : bool :=
  free_of (fun c => negb (p c)) s.

Fixpoint skip_spaces (s : string) : string :=
  match s with
  | String c r => if is_space c then skip_spaces r else s
  | EmptyString => ""
  end.

Fixpoint trim_end (s : string) : string :=
  match s with
  | EmptyString => ""
  | String c r =>
      match trim_end r with
      | EmptyString => if is_space c then "" else String c ""
      | kept => String c kept
      end
  end.

(** [s.trim()] *)
Definition trim (s : string) : string := skip_spaces (trim_end s).

(** [s] starts with [word], whatever the case of its letters; [word] is
    in lower case. *)
Fixpoint starts_with_word (word s : string) : bool :=
  match word, s with
  | EmptyString, _ => true
  | String k word', String c s' =>
      (lower_char c =? k)%char && starts_with_word word' s'
  | String _ _, EmptyString => false
  end.

Fixpoint drop (n : nat) (s : string) : string :=
  match n, s with
  | O, _ => s
  | S n', String _ r => drop n' r
  | S _, EmptyString => ""
  end.

(** [.] matches every character but a line terminator. *)
Definition is_line_terminator (c : ascii) : bool :=
  (c =? "010")%char || (c =? "013")%char.

(** The words of the suffix pattern, in lower case. *)
Definition products : list string := ["elastic"; "kibana"].

(** A match of [/\s*[-–—]\s*(Elastic|Kibana).*$/i] that starts at the
    first character of [s]: white space, a dash, white space, one of
    the words, and no line terminator up to the end.  The two long
    dashes of the class are not code units below 256. *)
Definition suffix_at (s : string) : bool :=
  match skip_spaces s with
  | String c r =>
      is_dash c
      && existsb (fun word =>
                    starts_with_word word (skip_spaces r)
                    && free_of is_line_terminator
                         (drop (String.length word) (skip_spaces r)))
           products
  | EmptyString => false
  end.

(** [s.replace(/\s*[-–—]\s*(Elastic|Kibana).*$/i, '')]: [s] up to the
    leftmost match. *)
Fixpoint strip_suffix (s : string) : string :=
  if suffix_at s then ""
  else match s with
       | String c r => String c (strip_suffix r)
       | EmptyString => ""
       end.

(** What the script reads from the document: the text content of the
    first element a selector matches, and the document's title. *)
Record document_view : Type :=
  { doc_querySelector : string -> option string;
    doc_title : string }.

Module Title.

Definition selectors : list string :=
  [ String "[" ("data-test-subj=" ++ String dquote ("dashboardTitle"
      ++ String dquote "]"));
    ".euiPageHeaderContent h1";
    ".euiPageHeader h1";
    ".euiBreadcrumb:last-child";
    "h1.euiTitle";
    String "[" ("data-test-subj=" ++ String dquote ("lnsApp_topNavTitle"
      ++ String dquote "]"));
    String "[" ("data-test-subj=" ++ String dquote ("discoverSavedSearchTitle"
      ++ String dquote "]")) ].

(** The loop over the selectors: the trimmed text of the first element
    that has any. *)
Fixpoint first_text (d : document_view) (selectors : list string) : option string :=
  match selectors with
  | [] => None
  | selector :: rest =>
      match doc_querySelector d selector with
      | Some textContent =>
          if negb (trim textContent =? "")%string then Some (trim textContent)
          else first_text d rest
      | None => first_text d rest
      end
  end.

(** [JNull] is [null]. *)
Definition extractTitle (d : document_view) : json :=
  match first_text d selectors with
  | Some title => JStr title
  | None =>
      let docTitle := doc_title d in
      if negb (docTitle =? "")%string then JStr (trim (strip_suffix docTitle))
      else JNull
  end.

End Title.

(* ================================================================== *)
(** * Panel information from the markup *)
(* ================================================================== *)

(** An element as the script sees it: its text and its attributes. *)
Record node : Type :=
  { textContent : string;
    attributes : list (string * string) }.

(** [el.getAttribute(name)]; [None] is [null]. *)
Fixpoint getAttribute (name : string) (attrs : list (string * string))
  : option string :=
  match attrs with
  | [] => None
  | (k, v) :: rest => if (name =? k)%string then Some v else getAttribute name rest
  end.

(** A panel container as [extractPanelInfo] sees it: itself, what its
    selector queries give, its markup and its class. *)
Record panel_view : Type :=
  { pv_self : node;
    pv_querySelector : string -> option node;
    pv_querySelectorAll : string -> list node;
    pv_innerHTML : string;
    pv_className : string }.

(** A string or [null] is truthy. *)
Definition present (v : option string) : bool :=
  match v with
  | Some s => negb (s =? "")%string
  | None => false
  end.

(** [a || b] on strings or [null]. *)
Definition or_else (a b : option string) : option string :=
  if present a then a else b.

Definition is_hex (c : ascii) : bool :=
  let n := Z.of_nat (nat_of_ascii c) in
  ((48 <=? n) && (n <=? 57)) || ((97 <=? n) && (n <=? 102))
  || ((65 <=? n) && (n <=? 70)).

(** [n] hexadecimal digits at the start of [s]: what follows them. *)
Fixpoint hex_run (n : nat) (s : string) : option string :=
  match n, s with
  | O, _ => Some s
  | S n', String c r => if is_hex c then hex_run n' r else None
  | S _, EmptyString => None
  end.

(** The groups of the UUID pattern, each but the last followed by a
    dash. *)
Fixpoint uuid_groups (groups : list nat) (s : string) : bool :=
  match groups with
  | [] => true
  | [n] => match hex_run n s with Some _ => true | None => false end
  | n :: rest =>
      match hex_run n s with
      | Some (String c r) => is_dash c && uuid_groups rest r
      | _ => false
      end
  end.

(** [value.match(/([a-f0-9]{8}-[a-f0-9]{4}-[a-f0-9]{4}-[a-f0-9]{4}-[a-f0-9]{12})/i)[1]]:
    the leftmost match. *)
Fixpoint uuid_match (value : string) : option string :=
  if uuid_groups [8; 4; 4; 4; 12]%nat value
  then Some (String.substring 0 36 value)
  else match value with
       | String _ r => uuid_match r
       | EmptyString => None
       end.

Module Dom.

Definition titleSelectors : list string :=
  [ String "[" ("data-test-subj=" ++ String dquote ("embeddablePanelTitleInner"
      ++ String dquote "]"));
    String "[" ("data-test-subj=" ++ String dquote ("embeddablePanelTitleText"
      ++ String dquote "]"));
    ".embPanel__titleText";
    ".embPanel__title";
    String "[" ("data-test-subj=" ++ String dquote ("dashboardPanelTitle"
      ++ String dquote "]"));
    ".embPanel__titleInner";
    "figcaption";
    String "[" ("class*=" ++ String dquote ("panelTitle" ++ String dquote "]")) ].

Definition dataAttrs : list string :=
  [ "data-test-embeddable-id"; "data-saved-object-id"; "data-panel-id";
    "data-embeddable-id" ].

(** The loop over the title selectors; [None] is [null]. *)
Fixpoint find_title (panel : panel_view) (selectors : list string) : option string :=
  match selectors with
  | [] => None
  | selector :: rest =>
      match pv_querySelector panel selector with
      | Some titleEl =>
          if negb (trim (textContent titleEl) =? "")%string
          then Some (trim (textContent titleEl))
          else find_title panel rest
      | None => find_title panel rest
      end
  end.

(** Method 1: the first of the data attributes of the container that is
    not empty. *)
Fixpoint own_id (panel : panel_view) (attrs : list string) : option string :=
  match attrs with
  | [] => None
  | attr :: rest =>
      let value := getAttribute attr (attributes (pv_self panel)) in
      if present value then value else own_id panel rest
  end.

Definition childSelector : string :=
  "[data-saved-object-id], [data-test-embeddable-id], [data-embeddable-id]".

(** Method 2: the loop assigns [id] for every element it visits and
    stops at the first truthy one. *)
Fixpoint child_id (id : option string) (elementsWithData : list node)
  : option string :=
  match elementsWithData with
  | [] => id
  | el :: rest =>
      let id :=
        or_else (getAttribute "data-saved-object-id" (attributes el))
          (or_else (getAttribute "data-test-embeddable-id" (attributes el))
             (getAttribute "data-embeddable-id" (attributes el))) in
      if present id then id else child_id id rest
  end.

Definition editSelector : string :=
  "a[href*=" ++ String dquote ("/edit/" ++ String dquote ("], a[href*="
    ++ String dquote ("#/edit/" ++ String dquote "]"))).

Definition editPattern : pattern := {| prefix := "/edit/"; excluded := "?&/#" |}.

(** The type an edit link tells; [stay] when it tells none. *)
Definition link_type (href : string) (stay : option string) : option string :=
  if includes "/lens" href then Some "lens"
  else if includes "/visualize" href then Some "visualization"
  else if includes "/maps" href then Some "map"
  else if includes "/discover" href then Some "search"
  else stay.

(** Method 3: the first edit link whose target has an id. *)
Fixpoint link_id (id type : option string) (editLinks : list node)
  : outcome (option string * option string) :=
  match editLinks with
  | [] => Ok (id, type)
  | link :: rest =>
      match getAttribute "href" (attributes link) with
      | None => Throw TypeError        (* [href.match] on [null] *)
      | Some href =>
          match regex_capture editPattern href with
          | Some captured => Ok (Some captured, link_type href type)
          | None => link_id id type rest
          end
      end
  end.

Definition lensSelector : string :=
  String "[" ("data-test-subj*=" ++ String dquote ("lns" ++ String dquote
    ("], [class*=" ++ String dquote ("lns" ++ String dquote "]")))).

Definition visSelector : string :=
  String "[" ("data-test-subj*=" ++ String dquote ("embeddable" ++ String dquote
    ("], [class*=" ++ String dquote ("embeddable" ++ String dquote "]")))).

(** Method 4. *)
Definition content_id (panel : panel_view) (id type : option string)
  : option string * option string :=
  let type :=
    match pv_querySelector panel lensSelector with
    | Some _ => Some "lens"
    | None => type
    end in
  match pv_querySelector panel visSelector with
  | Some visContainer =>
      let visId :=
        or_else (getAttribute "data-render-complete-id" (attributes visContainer))
          (getAttribute "data-embeddable-id" (attributes visContainer)) in
      (if present visId then visId else id, type)
  | None => (id, type)
  end.

(** The inner loop of method 5, over [el.getAttributeNames()]. *)
Fixpoint uuid_in (el : node) (id : option string) (names : list string)
  : option string :=
  match names with
  | [] => id
  | attr :: rest =>
      match getAttribute attr (attributes el) with
      | Some value =>
          if negb (value =? "")%string then
            match uuid_match value with
            | Some captured =>
                if negb (present id) then Some captured else uuid_in el id rest
            | None => uuid_in el id rest
            end
          else uuid_in el id rest
      | None => uuid_in el id rest
      end
  end.

(** Method 5: the first UUID in any attribute of any element. *)
Fixpoint uuid_id (id : option string) (allElements : list node) : option string :=
  match allElements with
  | [] => id
  | el :: rest =>
      let id := uuid_in el id (map fst (attributes el)) in
      if present id then id else uuid_id id rest
  end.

(** The type read from the container's own attributes and markup. *)
Definition guess_type (panel : panel_view) : string :=
  let panelContent := toLowerCase (pv_innerHTML panel) in
  let testSubj :=
    match or_else (getAttribute "data-test-subj" (attributes (pv_self panel)))
            (Some "") with
    | Some s => s
    | None => ""
    end in
  let panelAttrs := toLowerCase testSubj ++ toLowerCase (pv_className panel) in
  if includes "lens" panelAttrs || includes "lnsvis" panelContent then "lens"
  else if includes "map" panelAttrs || includes "mapcontainer" panelContent
  then "map"
  else if includes "search" panelAttrs || includes "discover" panelAttrs
  then "search"
  else if includes "vis" panelAttrs || includes "visualization" panelContent
  then "visualization"
  else "lens".

(** [None] is [null]: neither a title nor an id. *)
Definition extractPanelInfo (panel : panel_view) : outcome (option panel_info) :=
  let title := find_title panel titleSelectors in
  let id := own_id panel dataAttrs in
  let type : option string := None in
  let id :=
    if negb (present id)
    then child_id id (pv_querySelectorAll panel childSelector) else id in
  found <-
    (if negb (present id)
     then link_id id type (pv_querySelectorAll panel editSelector)
     else Ok (id, type)) ;;
  let (id, type) :=
    if negb (present (fst found))
    then content_id panel (fst found) (snd found) else found in
  let id :=
    if negb (present id) then uuid_id id (pv_querySelectorAll panel "*") else id in
  let type :=
    if negb (present type) then guess_type panel
    else match type with Some t => t | None => "" end in
  if present title || present id then
    Ok (Some {| pi_type := type;
                pi_id := if present id then id else None;
                pi_title := match title with
                            | Some t => if present title then t else "Untitled Panel"
                            | None => "Untitled Panel"
                            end |})
  else Ok None.

End Dom.

(* ================================================================== *)
(** * Notions of the further properties *)
(* ================================================================== *)

(** [m] makes at most [n] requests. *)
Definition at_most {A : Type} (n : nat) (m : io A) : Prop :=
  forall tr, exists extra,
    fst (m tr) = (tr ++ extra)%list /\ (List.length extra <= n)%nat.

(** The request [exportSavedObject] makes. *)
Definition bulk_request (w : world) (type id : jsval) : http_request :=
  {| req_method := "POST";
     req_url := baseUrl w ++ bulk_export_path;
     req_body := Some (JSON.stringify
       (JObj [ ("objects", JArr [JObj (literal [("type", type); ("id", id)])]);
               ("includeReferencesDeep", JBool true) ])) |}.

(** The request [exportViaAlternativeApi] makes for a configured type. *)
Definition alternate_request (w : world) (config : api_config) (id : string)
  : http_request :=
  {| req_method := "GET";
     req_url := baseUrl w ++ apiPath config id;
     req_body := None |}.

(** No two dashes in a row. *)
Fixpoint single_dashes (s : string) : bool :=
  match s with
  | String c ((String d _) as r) => negb (is_dash c && is_dash d) && single_dashes r
  | _ => true
  end.

Definition starts_with_dash (s : string) : bool :=
  match s with
  | String c _ => is_dash c
  | EmptyString => false
  end.

Fixpoint ends_with_dash (s : string) : bool :=
  match s with
  | EmptyString => false
  | String c EmptyString => is_dash c
  | String _ r => ends_with_dash r
  end.

(** A character that cannot stay in a file name. *)
Definition unsafe_char (c : ascii) : bool := mem_char c invalid_chars || is_space c.

(** A name [sanitizeFilename] has nothing to do on. *)
Definition tidy (s : string) : bool :=
  free_of unsafe_char s && single_dashes s
  && negb (starts_with_dash s) && negb (ends_with_dash s)
  && (String.length s <=? 200)%nat.

(** A name in which every character is replaced or is a dash. *)
Definition dashes_only (s : string) : bool :=
  free_of (fun c => negb (unsafe_char c || is_dash c)) s.

(** A text of white space only. *)
Fixpoint blank (s : string) : bool :=
  match s with
  | EmptyString => true
  | String c r => JSON.is_ws c && blank r
  end.

(** What follows a value inside a text that [JSON.stringify] wrote with
    an indentation. *)
Definition closes (rest : string) : Prop :=
  match rest with
  | EmptyString => True
  | String c _ =>
      c = ","%char \/ c = "]"%char \/ c = "}"%char \/ JSON.is_ws c = true
  end.

(** The text of one member of an indented object. *)
Definition member_line (text : json -> string) (kv : string * json) : string :=
  JSON.quote (fst kv) ++ ": " ++ text (snd kv).

(** The six places [extractPanelTitle] looks at, in its order. *)
Definition title_candidates (panel : json) : list jsval :=
  let embeddableConfig := embeddableConfig_of panel in
  let attributes := lookup embeddableConfig "attributes" in
  [ lookup embeddableConfig "title";
    opt_member attributes "title";
    opt_member (lookup embeddableConfig "savedVis") "title";
    opt_member (lookup embeddableConfig "vis") "title";
    opt_member (opt_member (opt_member attributes "state") "visualization") "title";
    lookup panel "title" ].

(** [c] is the first truthy value of [candidates]. *)
Definition first_truthy_of (candidates : list jsval) (c : json) : Prop :=
  exists before rest,
    candidates = (before ++ Some c :: rest)%list
    /\ Forall (fun x => truthy x = false) before
    /\ truthy (Some c) = true.

Definition is_newline (c : ascii) : bool := (c =? "010")%char.

Definition is_underscore (c : ascii) : bool := (c =? "_")%char.

(** The kinds [constructPanelExport] has a branch for. *)
Definition known_kinds : list string := ["lens"; "visualization"; "map"; "search"].

(** The fields every harvested panel resource has. *)
Definition embedded_resource (dashboardId : jsval) (r : json) : Prop :=
  lookup r "id" = Some JNull
  /\ lookup r "isEmbedded" = Some (JBool true)
  /\ lookup r "dashboardId" = dashboardId
  /\ lookup r "useAlternativeApi" = None
  /\ lookup r "notExportable" = None.

(** The attributes a panel carries are an object, or missing. *)
Definition object_attributes (panel : json) : Prop :=
  exists fields, attributes_of panel = JObj fields.

(** No two panels of the list share a panel index. *)
Definition unique_indexes (panels : list json) : Prop :=
  forall p q, In p panels -> In q panels ->
  lookup p "panelIndex" = lookup q "panelIndex" -> p = q.

(** A value that [===] compares by content: neither an array nor an
    object. *)
Definition primitive (v : jsval) : Prop := strict_eq v v = true.

(** The types of the pattern table. *)
Definition recognized_types : list string := map fst KIBANA_PATTERNS.

(** The requests that exporting the recognized object of a page takes:
    none for a type that is not exportable, a read of the alternate API
    for an SLO or an alerting rule, the bulk export otherwise. *)
Definition primary_route (w : world) (type id : string) : list http_request :=
  if (type =? "cases")%string then []
  else if (type =? "slo")%string then
    [ {| req_method := "GET";
         req_url := baseUrl w ++ "/api/observability/slos/" ++ id;
         req_body := None |} ]
  else if (type =? "alert")%string then
    [ {| req_method := "GET";
         req_url := baseUrl w ++ "/api/alerting/rule/" ++ id;
         req_body := None |} ]
  else [ bulk_request w (Some (JStr type)) (Some (JStr id)) ].

(** A name of 201 characters whose 200th is a dash. *)
Definition cut_name : string := String.concat "" (List.repeat "a" 199) ++ "-b".

(** ** Reading a data URL back *)

(** The place of a character in an alphabet. *)
Fixpoint index_in (c : ascii) (alphabet : string) : option Z :=
  match alphabet with
  | EmptyString => None
  | String d r =>
      if (c =? d)%char then Some 0
      else match index_in c r with
           | Some i => Some (i + 1)
           | None => None
           end
  end.

Definition base64_index (c : ascii) : option Z := index_in c base64_alphabet.

(** The bytes a padded base64 text stands for: what the browser decodes
    when it saves a data URL. *)
Fixpoint atob (s : string) : option string :=
  match s with
  | EmptyString => Some ""
  | String a (String b (String c (String d r))) =>
      match base64_index a, base64_index b with
      | Some x, Some y =>
          let first := char_of (x * 4 + y / 16) in
          if (c =? "=")%char then
            if (d =? "=")%char then
              match r with
              | EmptyString => Some (String first "")
              | _ => None
              end
            else None
          else
            match base64_index c with
            | Some z =>
                let second := char_of (y mod 16 * 16 + z / 4) in
                if (d =? "=")%char then
                  match r with
                  | EmptyString => Some (String first (String second ""))
                  | _ => None
                  end
                else
                  match base64_index d, atob r with
                  | Some u, Some rest =>
                      Some (String first
                              (String second
                                 (String (char_of (z mod 4 * 64 + u)) rest)))
                  | _, _ => None
                  end
            | None => None
            end
      | _, _ => None
      end
  | _ => None
  end.

(** The string a UTF-8 byte sequence stands for, for code points below
    256. *)
Fixpoint utf8_decode (bytes : string) : option string :=
  match bytes with
  | EmptyString => Some ""
  | String a r =>
      let x := code a in
      if x <? 128 then
        match utf8_decode r with
        | Some s => Some (String a s)
        | None => None
        end
      else
        match r with
        | String b r' =>
            let y := code b in
            if (192 <=? x) && (x <? 196) && (128 <=? y) && (y <? 192) then
              match utf8_decode r' with
              | Some s => Some (String (char_of ((x - 192) * 64 + (y - 128))) s)
              | None => None
              end
            else None
        | EmptyString => None
        end
  end.

(** The content a data URL stands for. *)
Definition data_of (url : string) (mimeType : string) : option string :=
  match strip_prefix ("data:" ++ mimeType ++ ";base64,") url with
  | Some payload =>
      match atob payload with
      | Some bytes => utf8_decode bytes
      | None => None
      end
  | None => None
  end.

(** ** The highlight *)

(** The comparator of [highlightPanel] is positive. *)
Definition rect_after (a b : element) : bool :=
  let rowDiff := el_top a - el_top b in
  if rowThreshold <? Z.abs rowDiff then 0 <? rowDiff
  else 0 <? el_left a - el_left b.

(** The containers of the page in the order [highlightPanel] sorts them. *)
Definition highlight_order (w : world) : list element :=
  sort_by rect_after (first_matching w highlightSelectors).

(** The variables and the document agree: either nothing is highlighted
    and the document holds no overlay, or an element is highlighted and
    the document holds exactly the overlay the script refers to. *)
Definition consistent (s : highlight_state) : Prop :=
  match highlightedElement s, highlightOverlay s with
  | None, None => body s = []
  | Some _, Some node =>
      (node < created s)%nat
      /\ exists o, body s = [o] /\ ov_node o = node
  | _, _ => False
  end.

(** An index as the side panel sends it: a number, or nothing. *)
Definition numeric (v : jsval) : Prop :=
  match v with
  | None => True
  | Some (JNum _) => True
  | _ => False
  end.

Definition numeric_event (e : highlight_event) : Prop :=
  match e with
  | on_highlightPanel _ index => numeric index
  | _ => True
  end.

(** What [extractPanelInfo] found for a container, and where it is. *)
Definition placed_at (e : element) : placed :=
  (match el_panelInfo e with
   | Ok (Some info) => info
   | _ => {| pi_type := ""; pi_id := None; pi_title := "" |}
   end, (el_top e, el_left e)).

(** ** The page title *)

(** No selector of the list finds an element with text. *)
Definition no_text (d : document_view) (selectors : list string) : bool :=
  forallb (fun selector =>
             match doc_querySelector d selector with
             | Some text => (trim text =? "")%string
             | None => true
             end) selectors.

(** A document without any of the title elements. *)
Definition bare_document (title : string) : document_view :=
  {| doc_querySelector := fun _ => None; doc_title := title |}.

(** ** Panel information from the markup *)

(** [null], or one of the four kinds. *)
Definition kind_or_null (type : option string) : Prop :=
  type = None \/ exists k, type = Some k /\ In k known_kinds.




Definition leaf (text : string) (attrs : list (string * string)) : node :=
  {| textContent := text; attributes := attrs |}.

(** A container with a caption and an edit link into the visualize
    application. *)
Definition linked_panel : panel_view :=
  {| pv_self := leaf "Revenue Edit" [("class", "embPanel")];
     pv_querySelector := fun selector =>
       if (selector =? "figcaption")%string then Some (leaf " Revenue " [])
       else None;
     pv_querySelectorAll := fun selector =>
       if (selector =? Dom.editSelector)%string
       then [leaf "Edit" [("href", "/app/visualize#/edit/7f3a?mode=edit")]]
       else [];
     pv_innerHTML := "<figcaption> Revenue </figcaption><a>Edit</a>";
     pv_className := "embPanel" |}.

(** A container with a caption only, and one with its own id only. *)
Definition captioned_panel : panel_view :=
  {| pv_self := leaf "Sites" [("class", "embPanel mapPanel")];
     pv_querySelector := fun selector =>
       if (selector =? ".embPanel__title")%string then Some (leaf "Sites" [])
       else None;
     pv_querySelectorAll := fun _ => [];
     pv_innerHTML := "<div>Sites</div>";
     pv_className := "embPanel mapPanel" |}.





(* ================================================================== *)
(** * Strings *)
(* ================================================================== *)

Lemma append_assoc (a b c : string) : (a ++ b) ++ c = a ++ (b ++ c).
Proof. induction a as [|x a IH]; simpl; [reflexivity | now rewrite IH]. Qed.

Lemma append_nil_r (a : string) : a ++ "" = a.
Proof. induction a as [|x a IH]; simpl; [reflexivity | now rewrite IH]. Qed.

Lemma length_append (a b : string) :
  String.length (a ++ b) = (String.length a + String.length b)%nat.
Proof. induction a as [|x a IH]; simpl; [reflexivity | now rewrite IH]. Qed.

(* ================================================================== *)
(** * Decimal numbers *)
(* ================================================================== *)

#[local] Arguments digit_char : simpl never.
#[local] Arguments digit_val : simpl never.
#[local] Arguments is_digit : simpl never.
#[local] Arguments safe_int : simpl never.
#[local] Arguments Z.pow : simpl never.
#[local] Arguments Z.mul : simpl never.
#[local] Arguments Z.add : simpl never.
#[local] Arguments Z.div : simpl never.
#[local] Arguments Z.modulo : simpl never.

Lemma digit_cases (d : Z) :
  0 <= d < 10 ->
  d = 0 \/ d = 1 \/ d = 2 \/ d = 3 \/ d = 4 \/ d = 5 \/ d = 6 \/ d = 7
  \/ d = 8 \/ d = 9.
Proof. lia. Qed.

Ltac each_digit d H :=
  destruct (digit_cases d H) as [?|[?|[?|[?|[?|[?|[?|[?|[?|?]]]]]]]]]; subst d.

Lemma digit_val_char (d : Z) : 0 <= d < 10 -> digit_val (digit_char d) = Some d.
Proof. intros H. each_digit d H; reflexivity. Qed.

Lemma digit_char_zero (d : Z) :
  0 <= d < 10 -> (digit_char d =? "0")%char = (d =? 0).
Proof. intros H. each_digit d H; reflexivity. Qed.

Lemma is_digit_char (d : Z) : 0 <= d < 10 -> is_digit (digit_char d) = true.
Proof. intros H. unfold is_digit. now rewrite digit_val_char. Qed.

Lemma digits_append (f : nat) : forall n acc rest,
  digits f n acc ++ rest = digits f n (acc ++ rest).
Proof.
  induction f as [|f IH]; intros n acc rest; simpl; [reflexivity|].
  destruct (n <? 10); [reflexivity|]. now rewrite IH.
Qed.

(** Reading the digits of [n] multiplies what was read so far by a power
    of ten and adds [n]. *)
Lemma read_digits_digits (f : nat) : forall n acc,
  0 <= n < 10 ^ Z.of_nat f ->
  exists p, forall a, read_digits a (digits f n acc) = read_digits (a * p + n) acc.
Proof.
  induction f as [|f IH]; intros n acc Hn.
  - exists 1. intros a. cbn [digits].
    assert (n = 0) by (change (10 ^ Z.of_nat 0) with 1 in Hn; lia). subst n.
    replace (a * 1 + 0) with a by lia. reflexivity.
  - assert (Hmod : 0 <= n mod 10 < 10) by (apply Z.mod_pos_bound; lia).
    simpl digits. destruct (Z.ltb_spec n 10) as [Hlt|Hge].
    + exists 10. intros a. cbn [read_digits]. rewrite Z.mod_small by lia.
      rewrite digit_val_char by lia. reflexivity.
    + assert (Hdiv : 0 <= n / 10 < 10 ^ Z.of_nat f).
      { split; [apply Z.div_pos; lia|].
        apply Z.div_lt_upper_bound; [lia|].
        rewrite Nat2Z.inj_succ, Z.pow_succ_r in Hn by lia. lia. }
      destruct (IH (n / 10) (String (digit_char (n mod 10)) acc) Hdiv) as [p Hp].
      exists (p * 10). intros a. rewrite Hp. cbn [read_digits].
      rewrite digit_val_char by lia. f_equal.
      pose proof (Z.div_mod n 10). lia.
Qed.

(** The first digit written is zero only for the number zero. *)
Lemma digits_head (f : nat) : forall n acc,
  0 <= n < 10 ^ Z.of_nat (S f) ->
  exists d r, digits (S f) n acc = String (digit_char d) r
              /\ 0 <= d < 10 /\ (d = 0 -> n = 0 /\ r = acc).
Proof.
  induction f as [|f IH]; intros n acc Hn.
  - assert (n < 10) by (change (10 ^ Z.of_nat 1) with 10 in Hn; lia).
    exists (n mod 10), acc. cbn [digits]. rewrite Z.mod_small by lia.
    destruct (n <? 10); repeat split; try lia.
  - assert (Hmod : 0 <= n mod 10 < 10) by (apply Z.mod_pos_bound; lia).
    cbn [digits]. destruct (Z.ltb_spec n 10) as [Hlt|Hge].
    + exists (n mod 10), acc. rewrite Z.mod_small by lia.
      repeat split; try lia.
    + assert (Hdiv : 1 <= n / 10 < 10 ^ Z.of_nat (S f)).
      { split; [apply Z.div_le_lower_bound; lia|].
        apply Z.div_lt_upper_bound; [lia|].
        rewrite (Nat2Z.inj_succ (S f)), Z.pow_succ_r in Hn by lia. lia. }
      destruct (IH (n / 10) (String (digit_char (n mod 10)) acc)) as (d & r & E & Hd & Hz);
        [lia|].
      exists d, r. repeat split; try lia; try assumption.
      all: intros ->; destruct Hz as [Hz _]; [reflexivity|lia].
Qed.

Lemma print_nat_fuel (n : Z) :
  0 <= n -> n < 10 ^ Z.of_nat (S (Z.to_nat (Z.log2 n))).
Proof.
  intros Hn. rewrite Nat2Z.inj_succ, Z2Nat.id by apply Z.log2_nonneg.
  destruct (Z.eq_dec n 0) as [->|Hnz]; [reflexivity|].
  pose proof (Z.log2_spec n ltac:(lia)) as [_ Hlt].
  eapply Z.lt_le_trans; [exact Hlt|].
  apply Z.pow_le_mono_l. lia.
Qed.

Lemma read_digits_stop (a : Z) (rest : string) :
  JSON.ends_number rest -> read_digits a rest = (a, rest).
Proof.
  destruct rest as [|c r]; simpl; [reflexivity|].
  unfold is_digit. intros (H & _). destruct (digit_val c); [discriminate|reflexivity].
Qed.

Lemma starts_with_digit_stop (rest : string) :
  JSON.ends_number rest -> starts_with_digit rest = false.
Proof. destruct rest as [|c r]; simpl; [reflexivity|]. now intros (H & _). Qed.

Lemma parse_nat_print (n : Z) (rest : string) :
  0 <= n -> safe_int n = true -> JSON.ends_number rest ->
  JSON.parse_nat (print_nat n ++ rest) = JSON.Parsed n rest.
Proof.
  intros Hn Hsafe Hrest. unfold print_nat.
  rewrite digits_append. simpl append.
  pose proof (print_nat_fuel n Hn) as Hfuel.
  destruct (digits_head (Z.to_nat (Z.log2 n)) n rest (conj Hn Hfuel))
    as (d & r & E & Hd & Hz).
  destruct (read_digits_digits _ n rest (conj Hn Hfuel)) as [p Hp].
  specialize (Hp 0). rewrite (read_digits_stop _ rest Hrest) in Hp.
  replace (0 * p + n) with n in Hp by lia. rewrite E in *. unfold JSON.parse_nat.
  rewrite is_digit_char by assumption.
  rewrite digit_char_zero by assumption.
  assert (Hlead : (d =? 0) && starts_with_digit r = false).
  { destruct (Z.eqb_spec d 0) as [->|]; [|reflexivity].
    destruct Hz as [_ ->]; [reflexivity|]. now apply starts_with_digit_stop. }
  rewrite Hlead, Hp.
  destruct rest as [|c rest']; [now rewrite Hsafe|].
  destruct Hrest as (_ & H1 & H2 & H3).
  apply Ascii.eqb_neq in H1, H2, H3. rewrite H1, H2, H3. cbn [orb]. now rewrite Hsafe.
Qed.

Lemma print_nat_head (n : Z) :
  0 <= n -> exists d r, print_nat n = String (digit_char d) r /\ 0 <= d < 10.
Proof.
  intros Hn. unfold print_nat.
  destruct (digits_head (Z.to_nat (Z.log2 n)) n "" (conj Hn (print_nat_fuel n Hn)))
    as (d & r & E & Hd & _).
  now exists d, r.
Qed.

Lemma safe_int_opp (n : Z) : safe_int (- n) = safe_int n.
Proof. unfold safe_int. lia. Qed.

Lemma digit_char_not (c : ascii) (d : Z) :
  0 <= d < 10 -> is_digit c = false -> (digit_char d =? c)%char = false.
Proof.
  intros Hd Hc. apply Ascii.eqb_neq. intros <-.
  rewrite is_digit_char in Hc by assumption. discriminate.
Qed.

Lemma parse_number_print (n : Z) (rest : string) :
  safe_int n = true -> JSON.ends_number rest ->
  JSON.parse_number (print_Z n ++ rest) = JSON.Parsed (JNum n) rest.
Proof.
  intros Hsafe Hrest. unfold print_Z, JSON.parse_number.
  destruct (Z.ltb_spec n 0) as [Hneg|Hpos].
  - cbn [append starts_with]. change ("-" =? "-")%char with true. cbv iota.
    rewrite parse_nat_print; try lia; try assumption.
    + cbn [JSON.negated]. now rewrite Z.opp_involutive.
    + now rewrite safe_int_opp.
  - destruct (print_nat_head n Hpos) as (d & r & E & Hd).
    assert (Hs : starts_with "-" (print_nat n ++ rest) = None).
    { rewrite E. cbn [append starts_with]. now rewrite digit_char_not. }
    rewrite Hs, parse_nat_print by assumption. reflexivity.
Qed.

(* ================================================================== *)
(** * String literals *)
(* ================================================================== *)

Lemma parse_chars_escape_char (c : ascii) (tail : string) :
  JSON.parse_chars (JSON.escape_char c ++ tail) = JSON.push c (JSON.parse_chars tail).
Proof.
  destruct c as [b0 b1 b2 b3 b4 b5 b6 b7].
  destruct b0, b1, b2, b3, b4, b5, b6, b7; reflexivity.
Qed.

Lemma parse_chars_escape (s rest : string) :
  JSON.parse_chars (JSON.escape s ++ String dquote rest) = JSON.Parsed s rest.
Proof.
  induction s as [|c s IH]; [reflexivity|].
  cbn [JSON.escape]. rewrite append_assoc, parse_chars_escape_char, IH. reflexivity.
Qed.

Lemma parse_chars_quote (s rest : string) :
  exists body, JSON.quote s ++ rest = String dquote body
               /\ JSON.parse_chars body = JSON.Parsed s rest.
Proof.
  exists (JSON.escape s ++ String dquote rest). split.
  - unfold JSON.quote. cbn [append]. now rewrite append_assoc.
  - apply parse_chars_escape.
Qed.

(* ================================================================== *)
(** * [JSON.parse] undoes [JSON.stringify] *)
(* ================================================================== *)

Lemma delimited_ends_number (rest : string) :
  JSON.delimited rest -> JSON.ends_number rest.
Proof.
  destruct rest as [|c r]; simpl; [trivial|].
  intros [ -> | [ -> | -> ] ]; repeat split; discriminate.
Qed.

Lemma skip_ws_head (c : ascii) (r : string) :
  JSON.is_ws c = false -> JSON.skip_ws (String c r) = String c r.
Proof. intros H. cbn [JSON.skip_ws]. now rewrite H. Qed.

(** A number's text starts with a sign or a digit. *)
Lemma print_Z_head (n : Z) :
  exists c r, print_Z n = String c r
              /\ (c = "-"%char \/ exists d, 0 <= d < 10 /\ c = digit_char d).
Proof.
  unfold print_Z. destruct (Z.ltb_spec n 0) as [Hneg|Hpos].
  - exists "-"%char, (print_nat (- n)). split; [reflexivity | now left].
  - destruct (print_nat_head n Hpos) as (d & r & E & Hd).
    exists (digit_char d), r. split; [assumption|]. right. now exists d.
Qed.

Lemma parse_value_number (f : nat) (c : ascii) (r : string) :
  (c = "-"%char \/ exists d, 0 <= d < 10 /\ c = digit_char d) ->
  JSON.parse_value (S f) (String c r) = JSON.parse_number (String c r).
Proof.
  intros [ -> | (d & Hd & ->) ]; [reflexivity|].
  each_digit d Hd; reflexivity.
Qed.

Lemma stringify_head (v : json) :
  exists c r, JSON.stringify v = String c r /\ JSON.opens_value c.
Proof.
  destruct v as [|[|]|n|s|l|l]; cbn [JSON.stringify].
  - exists "n"%char, "ull". repeat split.
  - exists "t"%char, "rue". repeat split.
  - exists "f"%char, "alse". repeat split.
  - destruct (print_Z_head n) as (c & r & E & [ -> | (d & Hd & ->) ]).
    + exists "-"%char, r. split; [exact E | repeat split].
    + exists (digit_char d), r. split; [exact E|].
      each_digit d Hd; repeat split.
  - eexists _, _. split; [reflexivity | repeat split].
  - eexists _, _. split; [reflexivity | repeat split].
  - eexists _, _. split; [reflexivity | repeat split].
Qed.

Lemma stringify_length (v : json) : (1 <= String.length (JSON.stringify v))%nat.
Proof.
  destruct (stringify_head v) as (c & r & E & _). rewrite E. simpl. lia.
Qed.

Lemma join_comma_cons (s : string) (t : string) (l : list string) :
  JSON.join_comma (s :: t :: l) = s ++ "," ++ JSON.join_comma (t :: l).
Proof. reflexivity. Qed.

Lemma join_comma_length (l : list string) :
  Forall (fun s => (1 <= String.length s)%nat) l ->
  (List.length l <= String.length (JSON.join_comma l))%nat.
Proof.
  induction 1 as [|s l Hs Hl IH]; [simpl; lia|].
  destruct l as [|t l]; [simpl; lia|].
  rewrite join_comma_cons, !length_append. simpl in *. lia.
Qed.

(** The elements of an array, given a parser that reads each of them. *)
Lemma parse_elements_stringify (pv : string -> JSON.parsed json) :
  forall l,
  l <> [] ->
  Forall (fun x => forall rest, JSON.delimited rest ->
                     pv (JSON.stringify x ++ rest) = JSON.Parsed x rest) l ->
  forall n rest,
  (List.length l <= n)%nat ->
  JSON.parse_elements pv n
    (JSON.join_comma (map JSON.stringify l) ++ String "]" rest)
  = JSON.Parsed l rest.
Proof.
  induction l as [|x l IH]; intros Hne Hall n rest Hn; [congruence|].
  inversion Hall as [|? ? Hx Hl]; subst.
  destruct n as [|n]; [simpl in Hn; lia|].
  destruct l as [|y l].
  - cbn [map JSON.join_comma JSON.parse_elements].
    rewrite Hx by (simpl; auto). reflexivity.
  - cbn [map]. rewrite join_comma_cons, !append_assoc.
    cbn [JSON.parse_elements]. rewrite Hx by (simpl; auto).
    cbn [append JSON.skip_ws].
    change (JSON.is_ws ",") with false. cbv iota.
    change ("," =? ",")%char with true. cbv iota.
    change (JSON.stringify y :: map JSON.stringify l)
      with (map JSON.stringify (y :: l)).
    rewrite IH; [reflexivity | discriminate | assumption | simpl in *; lia].
Qed.

(** The members of an object, given a parser that reads each value. *)
Lemma parse_members_stringify (pv : string -> JSON.parsed json) :
  forall l,
  l <> [] ->
  Forall (fun kv => forall rest, JSON.delimited rest ->
                      pv (JSON.stringify (snd kv) ++ rest)
                      = JSON.Parsed (snd kv) rest) l ->
  forall n rest,
  (List.length l <= n)%nat ->
  JSON.parse_members pv n
    (JSON.join_comma (map JSON.member_text l) ++ String "}" rest)
  = JSON.Parsed l rest.
Proof.
  induction l as [|[k v] l IH]; intros Hne Hall n rest Hn; [congruence|].
  inversion Hall as [|? ? Hx Hl]; subst. cbn [snd] in Hx.
  destruct n as [|n]; [simpl in Hn; lia|].
  assert (Hstep : forall tail c,
    c = ","%char \/ c = "}"%char ->
    JSON.parse_members pv (S n) (JSON.member_text (k, v) ++ String c tail)
    = if (c =? ",")%char
      then match JSON.parse_members pv n tail with
           | JSON.Parsed kvs r => JSON.Parsed ((k, v) :: kvs) r
           | JSON.Malformed => JSON.Malformed
           | JSON.Beyond => JSON.Beyond
           end
      else JSON.Parsed [(k, v)] tail).
  { intros tail c Hc. unfold JSON.member_text. cbn [fst snd].
    rewrite !append_assoc.
    destruct (parse_chars_quote k (":" ++ JSON.stringify v ++ String c tail))
      as (body & -> & Hbody).
    cbn [JSON.parse_members JSON.skip_ws].
    change (JSON.is_ws dquote) with false. cbv iota.
    change (dquote =? dquote)%char with true. cbv iota.
    rewrite Hbody. cbn [append JSON.skip_ws].
    change (JSON.is_ws ":") with false. cbv iota.
    change (":" =? ":")%char with true. cbv iota.
    rewrite Hx by (destruct Hc as [ -> | -> ]; simpl; auto).
    destruct Hc as [ -> | -> ]; reflexivity. }
  destruct l as [|y l].
  - cbn [map JSON.join_comma]. rewrite Hstep by auto. reflexivity.
  - cbn [map]. rewrite join_comma_cons, !append_assoc. cbn [append].
    rewrite Hstep by auto.
    change (JSON.member_text y :: map JSON.member_text l)
      with (map JSON.member_text (y :: l)).
    rewrite IH; [reflexivity | discriminate | assumption | simpl in *; lia].
Qed.

(* ------------------------------------------------------------------ *)
(** ** Objects without a repeated key *)

Lemma existsb_eqb_false (k : string) (keys : list string) :
  existsb (String.eqb k) keys = false -> ~ In k keys.
Proof.
  intros H Hin. assert (existsb (String.eqb k) keys = true); [|congruence].
  apply existsb_exists. exists k. split; [assumption | apply String.eqb_refl].
Qed.

Lemma set_field_fresh (k : string) (v : json) (l : list (string * json)) :
  ~ In k (map fst l) -> set_field k v l = (l ++ [(k, v)])%list.
Proof.
  induction l as [|[k' v'] l IH]; intros Hk; [reflexivity|].
  cbn [set_field]. destruct (String.eqb_spec k k') as [->|Hne].
  - exfalso. apply Hk. now left.
  - rewrite IH; [reflexivity|]. intros Hin. apply Hk. now right.
Qed.

Lemma object_of_distinct_from (l acc : list (string * json)) :
  JSON.distinct (map fst l) = true ->
  (forall k, In k (map fst l) -> ~ In k (map fst acc)) ->
  fold_left (fun a kv => set_field (fst kv) (snd kv) a) l acc = (acc ++ l)%list.
Proof.
  revert acc. induction l as [|[k v] l IH]; intros acc Hd Hdisj.
  - cbn. now rewrite app_nil_r.
  - cbn [map fst JSON.distinct] in Hd. apply andb_true_iff in Hd as [Hk Hd].
    apply negb_true_iff in Hk. apply existsb_eqb_false in Hk.
    cbn [fold_left fst snd]. rewrite set_field_fresh by (apply Hdisj; now left).
    rewrite IH; [now rewrite <- app_assoc | assumption |].
    intros k' Hin. rewrite map_app, in_app_iff. cbn.
    intros [H|[->|[]]]; [apply (Hdisj k'); [now right | assumption] | contradiction].
Qed.

Lemma object_of_distinct (l : list (string * json)) :
  JSON.distinct (map fst l) = true -> JSON.object_of l = l.
Proof.
  intros H. unfold JSON.object_of.
  rewrite object_of_distinct_from; [reflexivity | assumption | intros ? ? []].
Qed.

(* ------------------------------------------------------------------ *)
(** ** The round trip *)

Lemma depth_element (x : json) (l : list json) :
  In x l -> (JSON.depth x <= fold_right (fun x d => Nat.max (JSON.depth x) d) O l)%nat.
Proof.
  induction l as [|y l IH]; [intros []|].
  intros [->|Hin]; cbn [fold_right]; [lia|]. specialize (IH Hin). lia.
Qed.

Lemma depth_member (kv : string * json) (l : list (string * json)) :
  In kv l ->
  (JSON.depth (snd kv)
   <= fold_right (fun kv d => Nat.max (JSON.depth (snd kv)) d) O l)%nat.
Proof.
  induction l as [|y l IH]; [intros []|].
  intros [->|Hin]; cbn [fold_right]; [lia|]. specialize (IH Hin). lia.
Qed.

Lemma parse_value_stringify (v : json) :
  JSON.valid v = true ->
  forall fuel rest,
  (JSON.depth v < fuel)%nat -> JSON.delimited rest ->
  JSON.parse_value fuel (JSON.stringify v ++ rest) = JSON.Parsed v rest.
Proof.
  induction v as [|b|n|s|l IH|l IH] using json_ind;
    intros Hv [|f] rest Hf Hrest; try (exfalso; lia).
  - reflexivity.
  - destruct b; reflexivity.
  - cbn [JSON.stringify JSON.valid] in *.
    destruct (print_Z_head n) as (c & r & E & Hc).
    pose proof (parse_number_print n rest Hv (delimited_ends_number _ Hrest)) as Hp.
    rewrite E in *. cbn [append] in *. now rewrite parse_value_number.
  - cbn [JSON.stringify].
    destruct (parse_chars_quote s rest) as (body & -> & Hbody).
    cbn [JSON.parse_value JSON.skip_ws].
    change (JSON.is_ws dquote) with false. cbv iota.
    change (dquote =? "n")%char with false.
    change (dquote =? "t")%char with false.
    change (dquote =? "f")%char with false.
    change (dquote =? dquote)%char with true. cbv iota.
    now rewrite Hbody.
  - cbn [JSON.stringify JSON.valid JSON.depth] in *.
    rewrite !append_assoc. cbn [append JSON.parse_value JSON.skip_ws].
    change (JSON.is_ws "[") with false. cbv iota.
    change ("[" =? "n")%char with false.
    change ("[" =? "t")%char with false.
    change ("[" =? "f")%char with false.
    change ("[" =? dquote)%char with false.
    change ("[" =? "[")%char with true. cbv iota.
    destruct l as [|x l]; [reflexivity|].
    destruct (stringify_head x) as (c & r & E & Hws & Hc & _).
    assert (Hbody : exists r', JSON.join_comma (map JSON.stringify (x :: l))
                               ++ String "]" rest = String c r').
    { destruct l as [|y l]; cbn [map].
      - cbn [JSON.join_comma]. rewrite E. now eexists.
      - rewrite join_comma_cons, E. now eexists. }
    destruct Hbody as (r' & Hbody).
    assert (Hhead : starts_with "]"
                      (JSON.skip_ws (JSON.join_comma (map JSON.stringify (x :: l))
                                     ++ String "]" rest)) = None).
    { rewrite Hbody, skip_ws_head by assumption. cbn [starts_with]. now rewrite Hc. }
    rewrite Hhead.
    rewrite parse_elements_stringify; [reflexivity | discriminate | |].
    + rewrite Forall_forall in IH |- *. intros y Hy rest' Hrest'.
      apply IH; [assumption | | | assumption].
      * rewrite forallb_forall in Hv. now apply Hv.
      * pose proof (depth_element y _ Hy). lia.
    + rewrite length_append.
      pose proof (join_comma_length (map JSON.stringify (x :: l))) as Hlen.
      rewrite length_map in Hlen. 
      assert (Hall : Forall (fun s => (1 <= String.length s)%nat)
                       (map JSON.stringify (x :: l))).
      { rewrite Forall_forall. intros s' Hin. apply in_map_iff in Hin as (y & <- & _).
        apply stringify_length. }
      specialize (Hlen Hall). lia.
  - cbn [JSON.stringify JSON.valid JSON.depth] in *.
    apply andb_true_iff in Hv as [Hkeys Hv].
    change (map (fun kv : string * json =>
                   JSON.quote (fst kv) ++ ":" ++ JSON.stringify (snd kv)) l)
      with (map JSON.member_text l).
    rewrite !append_assoc. cbn [append JSON.parse_value JSON.skip_ws].
    change (JSON.is_ws "{") with false. cbv iota.
    change ("{" =? "n")%char with false.
    change ("{" =? "t")%char with false.
    change ("{" =? "f")%char with false.
    change ("{" =? dquote)%char with false.
    change ("{" =? "[")%char with false.
    change ("{" =? "{")%char with true. cbv iota.
    destruct l as [|kv l]; [reflexivity|].
    assert (Hbody : exists r', JSON.join_comma (map JSON.member_text (kv :: l))
                               ++ String "}" rest = String dquote r').
    { destruct l as [|y l]; cbn [map].
      - cbn [JSON.join_comma]. unfold JSON.member_text, JSON.quote.
        cbn [append]. now eexists.
      - rewrite join_comma_cons. unfold JSON.member_text at 1. unfold JSON.quote.
        cbn [append]. now eexists. }
    destruct Hbody as (r' & Hbody).
    assert (Hhead : starts_with "}"
                      (JSON.skip_ws (JSON.join_comma (map JSON.member_text (kv :: l))
                                     ++ String "}" rest)) = None).
    { rewrite Hbody. reflexivity. }
    rewrite Hhead.
    rewrite parse_members_stringify; [| discriminate | |].
    + now rewrite object_of_distinct.
    + rewrite Forall_forall in IH |- *. intros y Hy rest' Hrest'.
      apply IH; [assumption | | | assumption].
      * rewrite forallb_forall in Hv. now apply Hv.
      * pose proof (depth_member y _ Hy). lia.
    + rewrite length_append.
      pose proof (join_comma_length (map JSON.member_text (kv :: l))) as Hlen.
      rewrite length_map in Hlen.
      assert (Hall : Forall (fun s => (1 <= String.length s)%nat)
                       (map JSON.member_text (kv :: l))).
      { rewrite Forall_forall. intros s' Hin. apply in_map_iff in Hin as (y & <- & _).
        unfold JSON.member_text, JSON.quote. cbn [append String.length]. lia. }
      specialize (Hlen Hall). lia.
Qed.

(** A value's text is at least as long as the value is deep. *)
Lemma depth_le_length (v : json) :
  (JSON.depth v <= String.length (JSON.stringify v))%nat.
Proof.
  induction v as [|b|n|s|l IH|l IH] using json_ind;
    cbn [JSON.depth JSON.stringify]; try lia.
  - rewrite !length_append. cbn [String.length].
    enough (fold_right (fun x d => Nat.max (JSON.depth x) d) O l
            <= String.length (JSON.join_comma (map JSON.stringify l)))%nat by lia.
    induction IH as [|x l Hx Hl IHl]; [simpl; lia|].
    destruct l as [|y l]; [simpl in *; lia|].
    cbn [map fold_right] in *. rewrite join_comma_cons, !length_append. lia.
  - rewrite !length_append. cbn [String.length].
    change (map (fun kv : string * json =>
                   JSON.quote (fst kv) ++ ":" ++ JSON.stringify (snd kv)) l)
      with (map JSON.member_text l).
    enough (fold_right (fun kv d => Nat.max (JSON.depth (snd kv)) d) O l
            <= String.length (JSON.join_comma (map JSON.member_text l)))%nat by lia.
    assert (Hm : forall kv, (String.length (JSON.stringify (snd kv))
                             <= String.length (JSON.member_text kv))%nat).
    { intros kv. unfold JSON.member_text. rewrite !length_append. lia. }
    induction IH as [|x l Hx Hl IHl]; [simpl; lia|].
    pose proof (Hm x).
    destruct l as [|y l]; [simpl in *; lia|].
    cbn [map fold_right] in *. rewrite join_comma_cons, !length_append. lia.
Qed.

(** [JSON.parse(JSON.stringify(v))] is [v]. *)
Lemma parse_stringify (v : json) :
  JSON.valid v = true -> JSON.parse (JSON.stringify v) = Ok v.
Proof.
  intros Hv. unfold JSON.parse.
  pose proof (parse_value_stringify v Hv (S (String.length (JSON.stringify v))) ""
                ltac:(pose proof (depth_le_length v); lia) I) as H.
  rewrite append_nil_r in H. now rewrite H.
Qed.

(* ================================================================== *)
(** * The sort *)
(* ================================================================== *)

Section Sorting.
Context {A : Type} (after : A -> A -> bool).

Lemma insert_by_perm (x : A) (l : list A) :
  Permutation (x :: l) (insert_by after x l).
Proof.
  induction l as [|y l IH]; cbn [insert_by]; [reflexivity|].
  destruct (after x y); [|reflexivity].
  rewrite perm_swap. now apply perm_skip.
Qed.

Lemma sort_by_perm (l : list A) : Permutation l (sort_by after l).
Proof.
  induction l as [|x l IH]; cbn [sort_by]; [reflexivity|].
  rewrite <- insert_by_perm. now apply perm_skip.
Qed.

Lemma sort_by_in (l : list A) (x : A) : In x (sort_by after l) <-> In x l.
Proof.
  split; apply Permutation_in; [symmetry|]; apply sort_by_perm.
Qed.

Section Order.
(** [dom] holds of the elements that are sorted; on them [after] agrees
    with the transitive relation [R]. *)
Variables (dom : A -> Prop) (R : A -> A -> Prop).
Hypothesis after_true : forall x y, dom x -> dom y -> after x y = true -> R y x.
Hypothesis after_false : forall x y, dom x -> dom y -> after x y = false -> R x y.
Hypothesis R_trans :
  forall x y z, dom x -> dom y -> dom z -> R x y -> R y z -> R x z.

Lemma insert_by_sorted (x : A) (l : list A) :
  dom x -> Forall dom l -> StronglySorted R l ->
  StronglySorted R (insert_by after x l).
Proof.
  intros Hx Hdom Hsorted.
  induction Hsorted as [|y l Hl IH Hy]; cbn [insert_by].
  - constructor; constructor.
  - inversion Hdom as [|? ? Hdy Hdl]; subst.
    destruct (after x y) eqn:E.
    + constructor; [now apply IH|].
      apply (Permutation_Forall (insert_by_perm x l)).
      constructor; [now apply after_true | assumption].
    + constructor; [now constructor|].
      assert (Rxy : R x y) by now apply after_false.
      constructor; [assumption|].
      rewrite Forall_forall in Hy, Hdl |- *. intros z Hz.
      apply (R_trans x y z); auto.
Qed.

Lemma sort_by_sorted (l : list A) :
  Forall dom l -> StronglySorted R (sort_by after l).
Proof.
  induction 1 as [|x l Hx Hl IH]; cbn [sort_by]; [constructor|].
  apply insert_by_sorted; [assumption | | assumption].
  now apply (Permutation_Forall (sort_by_perm l)).
Qed.
End Order.

Section Stability.
(** Elements that [same] selects are never moved past each other. *)
Variables (dom : A -> Prop) (same : A -> bool).
Hypothesis after_apart :
  forall x y, dom x -> dom y -> after x y = true -> same x = true -> same y = false.

Lemma insert_by_stable (x : A) (l : list A) :
  dom x -> Forall dom l ->
  filter same (insert_by after x l) = filter same (x :: l).
Proof.
  intros Hx. induction 1 as [|y l Hy Hl IH]; [reflexivity|].
  cbn [insert_by]. destruct (after x y) eqn:E; [|reflexivity].
  cbn [filter] in *. rewrite IH.
  destruct (same x) eqn:Ex; [|reflexivity].
  now rewrite (after_apart x y).
Qed.

Lemma sort_by_stable (l : list A) :
  Forall dom l -> filter same (sort_by after l) = filter same l.
Proof.
  induction 1 as [|x l Hx Hl IH]; [reflexivity|].
  cbn [sort_by]. rewrite insert_by_stable; try assumption.
  - cbn [filter]. now rewrite IH.
  - now apply (Permutation_Forall (sort_by_perm l)).
Qed.
End Stability.

Section Unique.
(** A sorted arrangement that keeps the order within each class is the
    only one: two elements that are each below the other are in one
    class. *)
Variables (dom : A -> Prop) (R : A -> A -> Prop) (K : Type) (same : K -> A -> bool).
Hypothesis R_class :
  forall x y, dom x -> dom y -> R x y -> R y x ->
  exists k, same k x = true /\ same k y = true.

Lemma sorted_stable_unique (l1 : list A) : forall l2,
  Forall dom l1 ->
  Permutation l1 l2 -> StronglySorted R l1 -> StronglySorted R l2 ->
  (forall k, filter (same k) l1 = filter (same k) l2) ->
  l1 = l2.
Proof.
  induction l1 as [|x t1 IH]; intros l2 Hdom Hp Hs1 Hs2 Hf.
  - now apply Permutation_nil in Hp.
  - destruct l2 as [|y t2]; [now apply Permutation_sym, Permutation_nil in Hp|].
    inversion Hs1 as [|? ? Hs1' Hx]; subst. inversion Hs2 as [|? ? Hs2' Hy]; subst.
    inversion Hdom as [|? ? Hdx Hdt]; subst.
    rewrite Forall_forall in Hx, Hy.
    assert (Hyin : In y (x :: t1))
      by (apply (Permutation_in _ (Permutation_sym Hp)); now left).
    assert (Hxin : In x (y :: t2)) by (apply (Permutation_in _ Hp); now left).
    assert (Hdy : dom y) by (rewrite Forall_forall in Hdom; now apply Hdom).
    assert (E : x = y).
    { destruct Hyin as [E|Hyin]; [exact E|].
      destruct Hxin as [E|Hxin]; [now symmetry|].
      destruct (R_class x y Hdx Hdy (Hx y Hyin) (Hy x Hxin)) as (k & Kx & Ky).
      specialize (Hf k). cbn [filter] in Hf. rewrite Kx, Ky in Hf. congruence. }
    subst y. f_equal. apply IH; try assumption.
    + now apply Permutation_cons_inv in Hp.
    + intros k. specialize (Hf k). cbn [filter] in Hf.
      destruct (same k x); congruence.
Qed.
End Unique.

(** [Array_sort] with a comparator that succeeds on the elements is
    [sort_by]. *)
Section Pure.
Context {B : Type} (f : A -> B) (cmp : B -> B -> outcome (option Z)).
Variable dom : A -> Prop.
Hypothesis cmp_pure :
  forall x y, dom x -> dom y ->
  exists r, cmp (f x) (f y) = Ok r /\ goes_after r = after x y.

Lemma sort_insert_pure (x : A) (l : list A) :
  dom x -> Forall dom l ->
  sort_insert cmp (f x) (map f l) = Ok (map f (insert_by after x l)).
Proof.
  intros Hx. induction 1 as [|y l Hy Hl IH]; [reflexivity|].
  cbn [map sort_insert insert_by].
  destruct (cmp_pure x y Hx Hy) as (r & -> & <-). cbn [bind].
  destruct (goes_after r); [|reflexivity].
  now rewrite IH.
Qed.

Lemma Array_sort_pure (l : list A) :
  Forall dom l -> Array_sort cmp (map f l) = Ok (map f (sort_by after l)).
Proof.
  induction 1 as [|x l Hx Hl IH]; [reflexivity|].
  cbn [map Array_sort sort_by]. rewrite IH. cbn [bind].
  apply sort_insert_pure; [assumption|].
  now apply (Permutation_Forall (sort_by_perm l)).
Qed.
End Pure.
End Sorting.

(* ================================================================== *)
(** * Panel harvester, API path *)
(* ================================================================== *)

Lemma member_not_null (v : json) (k : string) :
  v <> JNull -> member (Some v) k = Ok (lookup v k).
Proof. destruct v; intros H; try reflexivity. congruence. Qed.

Lemma gridded_not_null (p : json) : gridded p -> p <> JNull.
Proof. intros H ->. now apply H. Qed.

Lemma compareGrid_pure (a b : json) :
  gridded a -> gridded b ->
  exists r, compareGrid a b = Ok r /\ goes_after r = grid_after a b.
Proof.
  intros Ha Hb. unfold compareGrid.
  rewrite !member_not_null by now apply gridded_not_null.
  cbn [bind]. fold (grid_of a) (grid_of b).
  unfold gridded, grid_after in *.
  assert (Ka : grid_key a =
               match lookup (grid_of a) "y", lookup (grid_of a) "x" with
               | Some (JNum y), Some (JNum x) => Some (y, x)
               | _, _ => None
               end) by (destruct a; try reflexivity; now elim Ha).
  assert (Kb : grid_key b =
               match lookup (grid_of b) "y", lookup (grid_of b) "x" with
               | Some (JNum y), Some (JNum x) => Some (y, x)
               | _, _ => None
               end) by (destruct b; try reflexivity; now elim Hb).
  rewrite Ka, Kb in *.
  destruct (lookup (grid_of a) "y") as [[| |ya| | |]|]; try now elim Ha.
  destruct (lookup (grid_of a) "x") as [[| |xa| | |]|]; try now elim Ha.
  destruct (lookup (grid_of b) "y") as [[| |yb| | |]|]; try now elim Hb.
  destruct (lookup (grid_of b) "x") as [[| |xb| | |]|]; try now elim Hb.
  cbn [strict_eq]. destruct (ya =? yb); cbn [negb]; eexists; split; reflexivity.
Qed.

Lemma grid_after_true (a b : json) :
  gridded a -> gridded b -> grid_after a b = true -> grid_le b a.
Proof.
  unfold gridded, grid_after, grid_le, key_le.
  destruct (grid_key a) as [[ya xa]|], (grid_key b) as [[yb xb]|];
    try congruence; intros _ _. cbn [fst snd].
  destruct (Z.eqb_spec ya yb); intros Hd; apply Z.ltb_lt in Hd; lia.
Qed.

Lemma grid_after_false (a b : json) :
  gridded a -> gridded b -> grid_after a b = false -> grid_le a b.
Proof.
  unfold gridded, grid_after, grid_le, key_le.
  destruct (grid_key a) as [[ya xa]|], (grid_key b) as [[yb xb]|];
    try congruence; intros _ _. cbn [fst snd].
  destruct (Z.eqb_spec ya yb); intros Hd; apply Z.ltb_ge in Hd; lia.
Qed.

Lemma grid_le_trans (a b c : json) :
  gridded a -> gridded b -> gridded c -> grid_le a b -> grid_le b c -> grid_le a c.
Proof.
  unfold gridded, grid_le, key_le.
  destruct (grid_key a) as [[ya xa]|], (grid_key b) as [[yb xb]|],
    (grid_key c) as [[yc xc]|]; try congruence; cbn [fst snd]; lia.
Qed.

Lemma grid_after_apart (k : Z * Z) (a b : json) :
  gridded a -> gridded b ->
  grid_after a b = true -> at_grid k a = true -> at_grid k b = false.
Proof.
  unfold gridded, grid_after, at_grid.
  destruct (grid_key a) as [[ya xa]|], (grid_key b) as [[yb xb]|];
    try congruence; intros _ _.
  destruct (Z.eqb_spec ya yb); intros Hd; apply Z.ltb_lt in Hd; lia.
Qed.

Lemma grid_le_class (a b : json) :
  gridded a -> gridded b -> grid_le a b -> grid_le b a ->
  exists k, at_grid k a = true /\ at_grid k b = true.
Proof.
  unfold gridded, grid_le, key_le, at_grid.
  destruct (grid_key a) as [[ya xa]|], (grid_key b) as [[yb xb]|];
    try congruence; intros _ _. cbn [fst snd]. intros Hab Hba.
  exists (ya, xa). cbn [fst snd]. split; lia.
Qed.

(** In a sorted list an element does not follow one that is not below it. *)
Lemma sorted_precedes {A : Type} (R : A -> A -> Prop) (a b : A) (l : list A) :
  StronglySorted R l -> In a l -> In b l -> a <> b -> ~ R b a -> precedes a b l.
Proof.
  intros Hs Ha Hb Hne Hnot.
  induction Hs as [|x l Hl IH Hx]; [contradiction|].
  destruct Ha as [->|Ha].
  - destruct Hb as [->|Hb]; [congruence|].
    apply in_split in Hb as (l2 & l3 & ->). now exists [], l2, l3.
  - destruct Hb as [->|Hb].
    + exfalso. apply Hnot. rewrite Forall_forall in Hx. now apply Hx.
    + destruct (IH Ha Hb) as (l1 & l2 & l3 & ->). now exists (x :: l1), l2, l3.
Qed.

Lemma harvest_panels_sorted (dashboardId : jsval) (panels : list json) :
  Forall gridded panels ->
  harvest_panels dashboardId panels
  = map_outcome (panel_resource dashboardId) (sort_by grid_after panels).
Proof.
  intros H. unfold harvest_panels.
  pose proof (Array_sort_pure grid_after (fun p : json => p) compareGrid gridded
                compareGrid_pure panels H) as E.
  rewrite !map_id in E. now rewrite E.
Qed.

Lemma parse_truthy (text : string) (v : json) :
  JSON.parse text = Ok v -> truthy (Some (JStr text)) = true.
Proof. destruct text; [discriminate | reflexivity]. Qed.

Lemma run_bind {A B : Type} (m : io A) (k : A -> io B) (tr : list http_request)
  (a : A) :
  run m = (tr, Ok a) -> run (bind_io m k) = k a tr.
Proof. unfold run, bind_io. now intros ->. Qed.

(** C6. The API-path harvester describes the panels of the fetched list
    in ascending grid row, then ascending grid column, panels at the same
    cell in the order of the list, and no other arrangement of the list
    is in that order; a panel at row 0, column 0 comes before one at row
    0, column 1.  The list is one whose panels carry no grid data or
    numbers for [y] and [x]. *)
Theorem api_harvest_order (w : world) (dashboardId : jsval)
  (tr : list http_request) (dashboard : json) (text : string)
  (panels : list json) :
  run (fetchDashboardData w dashboardId) = (tr, Ok dashboard) ->
  opt_member (lookup dashboard "attributes") "panelsJSON" = Some (JStr text) ->
  JSON.parse text = Ok (JArr panels) ->
  Forall gridded panels ->
  exists sorted,
    run (getEmbeddedPanelsFromAPI w dashboardId)
    = (tr, map_outcome (panel_resource dashboardId) sorted)
    /\ Permutation panels sorted
    /\ StronglySorted grid_le sorted
    /\ (forall k, filter (at_grid k) sorted = filter (at_grid k) panels)
    /\ (forall other,
        Permutation panels other -> StronglySorted grid_le other ->
        (forall k, filter (at_grid k) other = filter (at_grid k) panels) ->
        other = sorted)
    /\ (forall a b, In a panels -> In b panels ->
        grid_key a = Some (0, 0) -> grid_key b = Some (0, 1) ->
        precedes a b sorted).
Proof.
  intros Hfetch Hjson Hparse Hgrid.
  exists (sort_by grid_after panels).
  assert (Hsorted : StronglySorted grid_le (sort_by grid_after panels)).
  { apply (sort_by_sorted grid_after gridded grid_le);
      auto using grid_after_true, grid_after_false.
    intros x y z. apply grid_le_trans. }
  repeat split.
  - unfold getEmbeddedPanelsFromAPI. rewrite (run_bind _ _ _ _ Hfetch).
    unfold lift, panels_of_dashboard.
    assert (Hnn : dashboard <> JNull) by (intros ->; discriminate).
    rewrite member_not_null by assumption. cbn [bind].
    rewrite Hjson, (parse_truthy _ _ Hparse). cbn [negb].
    unfold JSON_parse_value. cbn [to_js_string bind]. rewrite Hparse.
    cbn [bind as_array]. now rewrite harvest_panels_sorted.
  - apply sort_by_perm.
  - exact Hsorted.
  - intros k. apply (sort_by_stable grid_after gridded); [|assumption].
    intros x y. apply grid_after_apart.
  - intros other Hp Hs Hf.
    apply (sorted_stable_unique gridded grid_le (Z * Z)%type at_grid grid_le_class).
    + now apply (Permutation_Forall Hp).
    + rewrite <- Hp. apply sort_by_perm.
    + assumption.
    + assumption.
    + intros k. rewrite Hf. symmetry.
      apply (sort_by_stable grid_after gridded); [|assumption].
      intros x y. apply grid_after_apart.
  - intros a b Ha Hb Ka Kb.
    apply (sorted_precedes grid_le); try (now apply sort_by_in); try assumption.
    + intros ->. congruence.
    + unfold grid_le, key_le. rewrite Ka, Kb. cbn [fst snd]. lia.
Qed.

(** Scenario B through the harvester: the list declares the panel at
    column 1 first, the harvest has the one at column 0 first. *)
Lemma api_harvest_order_witness :
  exists sorted,
    run (getEmbeddedPanelsFromAPI scenario_B (Some (JStr "abc-123")))
    = ([ {| req_method := "GET";
            req_url := "https://kibana.example.com/api/saved_objects/dashboard/abc-123";
            req_body := None |} ],
       map_outcome (panel_resource (Some (JStr "abc-123"))) sorted)
    /\ Permutation scenario_B_panels sorted
    /\ StronglySorted grid_le sorted
    /\ (forall k, filter (at_grid k) sorted = filter (at_grid k) scenario_B_panels)
    /\ (forall other,
        Permutation scenario_B_panels other -> StronglySorted grid_le other ->
        (forall k, filter (at_grid k) other = filter (at_grid k) scenario_B_panels) ->
        other = sorted)
    /\ (forall a b, In a scenario_B_panels -> In b scenario_B_panels ->
        grid_key a = Some (0, 0) -> grid_key b = Some (0, 1) ->
        precedes a b sorted).
Proof.
  apply (api_harvest_order scenario_B (Some (JStr "abc-123")) _
           (dashboard_document scenario_B_panels)
           (JSON.stringify (JArr scenario_B_panels)) scenario_B_panels).
  - vm_compute. reflexivity.
  - reflexivity.
  - vm_compute. reflexivity.
  - repeat constructor; discriminate.
Defined.

Example scenario_B_harvest :
  snd (run (getEmbeddedPanelsFromAPI scenario_B (Some (JStr "abc-123"))))
  = Ok [ JObj [ ("type", JStr "lens"); ("subType", JNull); ("id", JNull);
                ("title", JStr "Untitled Panel"); ("panelIndex", JStr "left");
                ("dashboardId", JStr "abc-123"); ("isEmbedded", JBool true) ];
         JObj [ ("type", JStr "lens"); ("subType", JNull); ("id", JNull);
                ("title", JStr "Untitled Panel"); ("panelIndex", JStr "right");
                ("dashboardId", JStr "abc-123"); ("isEmbedded", JBool true) ] ].
Proof. vm_compute. reflexivity. Qed.

(** C6 as stated fails for a list with a panel whose grid data has no
    row.  The comparator subtracts without looking at what it subtracts:
    against that panel the difference is not a number, which the sort
    reads as no order at all, so the panel at row 1 declared before it
    never meets the panel at row 0 declared after it.  The sort leaves
    the list as it is and the harvest has row 1 before row 0. *)
Lemma api_order_counterexample :
  ~ api_order_claim rowless_panels
  /\ ~ Forall gridded rowless_panels
  /\ compareGrid (grid_panel "lens" "low" 1 0) rowless_panel = Ok None
  /\ compareGrid rowless_panel (grid_panel "lens" "top" 0 0) = Ok None
  /\ Array_sort compareGrid rowless_panels = Ok rowless_panels
  /\ run (getEmbeddedPanelsFromAPI rowless_page (Some (JStr "abc-123")))
     = ([ {| req_method := "GET";
             req_url := "https://kibana.example.com/api/saved_objects/dashboard/abc-123";
             req_body := None |} ],
        Ok [ JObj [ ("type", JStr "lens"); ("subType", JNull); ("id", JNull);
                    ("title", JStr "Untitled Panel"); ("panelIndex", JStr "low");
                    ("dashboardId", JStr "abc-123"); ("isEmbedded", JBool true) ];
             JObj [ ("type", JStr "lens"); ("subType", JNull); ("id", JNull);
                    ("title", JStr "Untitled Panel"); ("panelIndex", JStr "gap");
                    ("dashboardId", JStr "abc-123"); ("isEmbedded", JBool true) ];
             JObj [ ("type", JStr "lens"); ("subType", JNull); ("id", JNull);
                    ("title", JStr "Untitled Panel"); ("panelIndex", JStr "top");
                    ("dashboardId", JStr "abc-123"); ("isEmbedded", JBool true) ] ]).
Proof.
  split; [|split; [|repeat split; vm_compute; reflexivity]].
  - intros H.
    assert (Hp : precedes (grid_panel "lens" "low" 1 0) (grid_panel "lens" "top" 0 0)
                   rowless_panels)
      by (exists [], [rowless_panel], []; reflexivity).
    assert (Hs : Array_sort compareGrid rowless_panels = Ok rowless_panels)
      by (vm_compute; reflexivity).
    pose proof (H _ _ _ 1 0 Hs Hp eq_refl eq_refl). lia.
  - intros H. inversion H as [|p l _ Hl]; subst.
    inversion Hl as [|q l' Hq _]; subst. now apply Hq.
Qed.

(* ================================================================== *)
(** * Panel harvester, DOM path *)
(* ================================================================== *)

Lemma comparePosition_pure (a b : placed) :
  exists r, comparePosition (placed_json a) (placed_json b) = Ok r
            /\ goes_after r = placed_after a b.
Proof.
  destruct a as [ia [ta la]], b as [ib [tb lb]].
  unfold comparePosition, placed_after, placed_json. cbn.
  destruct (rowThreshold <? Z.abs (ta - tb)); eexists; split; reflexivity.
Qed.

Lemma without_position_placed (p : placed) :
  without_position (placed_json p) = Ok (JObj (panelInfo_fields (fst p))).
Proof. reflexivity. Qed.

Lemma strip_placed (l : list placed) :
  map_outcome without_position (map placed_json l)
  = Ok (map (fun p => JObj (panelInfo_fields (fst p))) l).
Proof.
  induction l as [|p l IH]; [reflexivity|].
  cbn [map map_outcome]. rewrite without_position_placed, IH. reflexivity.
Qed.

Lemma collect_panels_placed (elements : list element) :
  Forall (fun e => exists found, extractPanelInfo e = Ok found) elements ->
  collect_panels elements = Ok (map placed_json (placed_of elements)).
Proof.
  induction 1 as [|e l [found He] Hl IH]; [reflexivity|].
  cbn [collect_panels placed_of]. unfold extractPanelInfo in He.
  unfold extractPanelInfo at 1. rewrite He, IH. cbn [bind].
  destruct found; reflexivity.
Qed.

Lemma near_sym (a b : Z * Z) : near a b -> near b a.
Proof. unfold near. lia. Qed.

Lemma placed_after_true (a b : placed) :
  placed_after a b = true -> dom_le (snd b) (snd a).
Proof.
  destruct a as [ia [ta la]], b as [ib [tb lb]].
  unfold placed_after, dom_le, near, rowThreshold. cbn [fst snd].
  destruct (Z.ltb_spec 50 (Z.abs (ta - tb))); intros Hd; apply Z.ltb_lt in Hd; lia.
Qed.

Lemma placed_after_false (a b : placed) :
  placed_after a b = false -> dom_le (snd a) (snd b).
Proof.
  destruct a as [ia [ta la]], b as [ib [tb lb]].
  unfold placed_after, dom_le, near, rowThreshold. cbn [fst snd].
  destruct (Z.ltb_spec 50 (Z.abs (ta - tb))); intros Hd; apply Z.ltb_ge in Hd; lia.
Qed.

(** Where being in the same row is transitive, the intended order is
    transitive too. *)
Lemma dom_le_trans (l : list placed) (a b c : placed) :
  rows_apart l -> In a l -> In b l -> In c l ->
  dom_le (snd a) (snd b) -> dom_le (snd b) (snd c) -> dom_le (snd a) (snd c).
Proof.
  intros Hrows Ha Hb Hc Hab Hbc.
  pose proof (Hrows a b c Ha Hb Hc) as Tabc.
  pose proof (Hrows b a c Hb Ha Hc) as Tbac.
  pose proof (Hrows a c b Ha Hc Hb) as Tacb.
  pose proof (near_sym (snd a) (snd b)) as Sab.
  pose proof (near_sym (snd b) (snd c)) as Sbc.
  pose proof (near_sym (snd c) (snd b)) as Scb.
  pose proof (near_sym (snd b) (snd a)) as Sba.
  destruct a as [ia [ta la]], b as [ib [tb lb]], c as [ic [tc lc]].
  unfold dom_le, near, rowThreshold in *. cbn [fst snd] in *.
  destruct (Z_le_gt_dec (Z.abs (ta - tc)) 50) as [Hn|Hf];
    [left | right]; (split; [lia|]);
    destruct Hab as [[Nab Lab]|[Fab Tab]], Hbc as [[Nbc Lbc]|[Fbc Tbc]];
    first [ lia
          | exfalso; apply Fbc; apply Tbac; [apply Sab; exact Nab | exact Hn]
          | exfalso; apply Fab; apply Tacb; [exact Hn | apply Scb; exact Nbc]
          | exfalso; specialize (Tabc Nab Nbc); lia ].
Qed.

Lemma no_position (fields : list (string * json)) :
  assoc "position" (remove_field "position" fields) = None.
Proof.
  induction fields as [|[k v] l IH]; [reflexivity|].
  cbn [remove_field]. destruct ("position" =? k)%string eqn:E; [assumption|].
  cbn [assoc]. now rewrite E.
Qed.

Lemma without_position_stripped (p d : json) :
  without_position p = Ok d -> lookup d "position" = None.
Proof.
  destruct p; cbn [without_position]; intros H; try discriminate;
    injection H as <-; cbn [lookup]; first [apply no_position | reflexivity].
Qed.

Lemma map_outcome_in {A B : Type} (f : A -> outcome B) (l : list A) (r : list B)
  (b : B) :
  map_outcome f l = Ok r -> In b r -> exists a, In a l /\ f a = Ok b.
Proof.
  revert r. induction l as [|a l IH]; intros r H Hin.
  - inversion H; subst. contradiction.
  - cbn [map_outcome] in H. destruct (f a) as [b'| |] eqn:E; try discriminate.
    cbn [bind] in H. destruct (map_outcome f l) as [bs| |]; try discriminate.
    inversion H; subst. destruct Hin as [->|Hin].
    + exists a. split; [now left | assumption].
    + destruct (IH bs eq_refl Hin) as (a' & Ha & Hf). exists a'. split; [now right | assumption].
Qed.

(** The descriptors the DOM path returns never carry a position. *)
Lemma detectEmbeddedPanels_stripped (w : world) (result : list json) (d : json) :
  detectEmbeddedPanels w = Ok result -> In d result -> lookup d "position" = None.
Proof.
  unfold detectEmbeddedPanels. destruct (positioned_panels w) as [sorted| |];
    try discriminate. cbn [bind]. intros H Hin.
  destruct (map_outcome_in _ _ _ _ H Hin) as (p & _ & Hp).
  now apply without_position_stripped in Hp.
Qed.

(** C7, as the code has it.  On a page whose rows are apart (being within
    50 units of top offset is transitive among the harvested panels), the
    DOM path returns the panels so that of any two, the earlier one has
    the smaller or equal left offset when their tops are at most 50 apart,
    and the strictly smaller top offset otherwise; no returned descriptor
    has a position. *)
Theorem dom_harvest_order (w : world) :
  let elements := first_matching w panelSelectors in
  Forall (fun e => exists found, extractPanelInfo e = Ok found) elements ->
  rows_apart (placed_of elements) ->
  exists sorted : list placed,
    Permutation (placed_of elements) sorted
    /\ StronglySorted (fun a b => dom_le (snd a) (snd b)) sorted
    /\ positioned_panels w = Ok (map placed_json sorted)
    /\ detectEmbeddedPanels w
       = Ok (map (fun p => JObj (panelInfo_fields (fst p))) sorted)
    /\ forall d, In d (map (fun p => JObj (panelInfo_fields (fst p))) sorted) ->
                 lookup d "position" = None.
Proof.
  intros elements Hinfo Hrows.
  set (l := placed_of elements) in *.
  exists (sort_by placed_after l).
  assert (Hpos : positioned_panels w = Ok (map placed_json (sort_by placed_after l))).
  { unfold positioned_panels. fold elements.
    rewrite (collect_panels_placed elements Hinfo). cbn [bind].
    apply (Array_sort_pure placed_after placed_json comparePosition (fun _ => True)).
    - intros x y _ _. apply comparePosition_pure.
    - rewrite Forall_forall. trivial. }
  assert (Hdet : detectEmbeddedPanels w
                 = Ok (map (fun p => JObj (panelInfo_fields (fst p)))
                         (sort_by placed_after l))).
  { unfold detectEmbeddedPanels. rewrite Hpos. cbn [bind]. apply strip_placed. }
  repeat split; try assumption.
  - apply sort_by_perm.
  - apply (sort_by_sorted placed_after (fun p => In p l)).
    + intros x y _ _. apply placed_after_true.
    + intros x y _ _. apply placed_after_false.
    + intros x y z. now apply dom_le_trans.
    + rewrite Forall_forall. trivial.
  - intros d Hd. now apply (detectEmbeddedPanels_stripped w _ d Hdet).
Qed.

Lemma dom_harvest_order_witness :
  exists sorted : list placed,
    Permutation (placed_of (first_matching two_row_page panelSelectors)) sorted
    /\ StronglySorted (fun a b => dom_le (snd a) (snd b)) sorted
    /\ positioned_panels two_row_page = Ok (map placed_json sorted)
    /\ detectEmbeddedPanels two_row_page
       = Ok (map (fun p => JObj (panelInfo_fields (fst p))) sorted)
    /\ forall d, In d (map (fun p => JObj (panelInfo_fields (fst p))) sorted) ->
                 lookup d "position" = None.
Proof.
  apply (dom_harvest_order two_row_page).
  - repeat constructor; eexists; reflexivity.
  - intros a b c Ha Hb Hc.
    cbn in Ha, Hb, Hc.
    destruct Ha as [<-|[<-|[<-|[]]]], Hb as [<-|[<-|[<-|[]]]],
      Hc as [<-|[<-|[<-|[]]]]; unfold near, rowThreshold; cbn [fst snd]; lia.
Defined.

Example two_row_harvest :
  detectEmbeddedPanels two_row_page
  = Ok [ JObj [("type", JStr "visualization"); ("id", JNull); ("title", JStr "Notes")];
         JObj [("type", JStr "lens"); ("id", JNull); ("title", JStr "Sales")];
         JObj [("type", JStr "map"); ("id", JNull); ("title", JStr "Sites")] ].
Proof. vm_compute. reflexivity. Qed.

(** C7 as stated fails.  With tops 0, 40 and 80 the first two panels are
    in one row, the last two are in one row, the first and last are not:
    left offsets 200, 100 and 0 then ask for a cycle.  The sort leaves a
    pair out of order, and so would any other arrangement of the three. *)
Lemma dom_order_counterexample :
  ~ dom_order_claim staggered_page
  /\ position_keys
       match positioned_panels staggered_page with Ok l => l | _ => [] end
     = [ (0, 200); (80, 0); (40, 100) ]
  /\ forall l, Permutation staggered_offsets l -> dom_ordered l = false.
Proof.
  split; [|split].
  - intros H. specialize (H _ eq_refl). vm_compute in H. discriminate.
  - vm_compute. reflexivity.
  - intros l Hp.
    assert (Hnd : NoDup l).
    { apply (Permutation_NoDup Hp). unfold staggered_offsets.
      repeat constructor; cbn; intuition congruence. }
    pose proof (Permutation_length Hp) as Hlen.
    destruct l as [|x [|y [|z [|]]]]; try discriminate.
    assert (Hx : In x staggered_offsets)
      by (apply (Permutation_in _ (Permutation_sym Hp)); cbn; tauto).
    assert (Hy : In y staggered_offsets)
      by (apply (Permutation_in _ (Permutation_sym Hp)); cbn; tauto).
    assert (Hz : In z staggered_offsets)
      by (apply (Permutation_in _ (Permutation_sym Hp)); cbn; tauto).
    clear Hp Hlen. cbn in Hx, Hy, Hz.
    destruct Hx as [<-|[<-|[<-|[]]]], Hy as [<-|[<-|[<-|[]]]],
      Hz as [<-|[<-|[<-|[]]]];
      first [ reflexivity
            | exfalso;
              repeat match goal with
                     | H : NoDup (_ :: _) |- _ => inversion H; clear H; subst
                     end; cbn in *; tauto ].
Qed.

(* ================================================================== *)
(** * URL classifier *)
(* ================================================================== *)

Lemma strip_prefix_spec (p s r : string) :
  strip_prefix p s = Some r <-> s = p ++ r.
Proof.
  revert s. induction p as [|a p IH]; intros s; cbn [strip_prefix append].
  - split; congruence.
  - destruct s as [|b s]; [split; discriminate|].
    destruct (Ascii.eqb_spec a b) as [->|Hne].
    + rewrite IH. split; congruence.
    + split; [discriminate | congruence].
Qed.

Lemma append_cancel (a x y : string) : a ++ x = a ++ y -> x = y.
Proof. induction a as [|c a IH]; cbn [append]; [trivial|]. intros H. apply IH. congruence. Qed.

Lemma take_run_split (set s : string) :
  exists rest, s = take_run set s ++ rest
               /\ (forall c, mem_char c (take_run set s) = true -> mem_char c set = false)
               /\ stops set rest.
Proof.
  induction s as [|a s (rest & E & Hin & Hstop)]; cbn [take_run].
  - exists "". repeat split. intros c. discriminate.
  - destruct (mem_char a set) eqn:Ea.
    + exists (String a s). repeat split; [intros c; discriminate | exact Ea].
    + exists rest. cbn [append]. rewrite <- E. repeat split; [|assumption].
      intros c. cbn [mem_char]. destruct (Ascii.eqb_spec c a) as [->|]; auto.
Qed.

Lemma take_run_unique (set id rest : string) :
  (forall c, mem_char c id = true -> mem_char c set = false) ->
  stops set rest -> take_run set (id ++ rest) = id.
Proof.
  intros Hin Hstop. induction id as [|a id IH]; cbn [append].
  - destruct rest as [|c r]; [reflexivity|]. cbn [take_run]. cbn in Hstop.
    now rewrite Hstop.
  - cbn [take_run]. rewrite (Hin a) by (cbn; now rewrite Ascii.eqb_refl).
    rewrite IH; [reflexivity|]. intros c Hc. apply Hin. cbn. rewrite Hc.
    apply orb_true_r.
Qed.

Lemma match_at_spec (pat : pattern) (s id : string) :
  match_at pat s = Some id <-> captured_at pat s "" id.
Proof.
  unfold match_at, captured_at. cbn [append]. split.
  - destruct (strip_prefix (prefix pat) s) as [r|] eqn:E; [|discriminate].
    apply strip_prefix_spec in E.
    destruct (take_run_split (excluded pat) r) as (rest & Er & Hin & Hstop).
    destruct (take_run (excluded pat) r) as [|c run] eqn:Erun; [discriminate|].
    intros H. injection H as <-. exists rest.
    repeat split; [congruence | discriminate | assumption | exact Hstop].
  - intros (rest & E & Hne & Hin & Hstop).
    apply strip_prefix_spec in E. rewrite E.
    rewrite take_run_unique by assumption.
    destruct id; [congruence | reflexivity].
Qed.

Lemma captured_at_shift (pat : pattern) (c : ascii) (url before id : string) :
  captured_at pat (String c url) (String c before) id
  <-> captured_at pat url before id.
Proof.
  unfold captured_at. cbn [append].
  split; intros (rest & E & H); exists rest; (split; [congruence | exact H]).
Qed.

Lemma captured_at_head (pat : pattern) (url before id : string) (c : ascii) :
  captured_at pat (String c url) before id ->
  before = "" \/ exists b, before = String c b.
Proof.
  intros (rest & E & _). destruct before as [|c' b]; [now left|].
  right. exists b. cbn [append] in E. congruence.
Qed.

Lemma regex_capture_some (pat : pattern) (url id : string) :
  regex_capture pat url = Some id -> leftmost_capture pat url id.
Proof.
  induction url as [|c url IH]; cbn [regex_capture].
  - destruct (match_at pat "") as [i|] eqn:E; [|discriminate].
    intros H. injection H as ->. exists "". split; [now apply match_at_spec|].
    intros b i Hb. cbn in Hb. lia.
  - destruct (match_at pat (String c url)) as [i|] eqn:E.
    + intros H. injection H as ->. exists "". split; [now apply match_at_spec|].
      intros b i Hb. cbn in Hb. lia.
    + intros H. destruct (IH H) as (before & Hcap & Hleft).
      exists (String c before). split; [now apply captured_at_shift|].
      intros b i Hb Hc.
      destruct (captured_at_head _ _ _ _ _ Hc) as [->|(b' & ->)].
      * apply match_at_spec in Hc. congruence.
      * apply captured_at_shift in Hc. apply (Hleft b' i); [cbn in Hb; lia | assumption].
Qed.

Lemma regex_capture_none (pat : pattern) (url : string) :
  regex_capture pat url = None -> unmatched pat url.
Proof.
  induction url as [|c url IH]; cbn [regex_capture].
  - destruct (match_at pat "") as [i|] eqn:E; [discriminate|].
    intros _ b i Hc. assert (b = "") as ->.
    { destruct Hc as (rest & Er & _). destruct b; [reflexivity | discriminate]. }
    apply match_at_spec in Hc. congruence.
  - destruct (match_at pat (String c url)) as [i|] eqn:E; [discriminate|].
    intros H b i Hc.
    destruct (captured_at_head _ _ _ _ _ Hc) as [->|(b' & ->)].
    + apply match_at_spec in Hc. congruence.
    + apply captured_at_shift in Hc. now apply (IH H b' i).
Qed.

Lemma detected_id (w : world) (type id : string) :
  lookup (detected w type id) "id" = Some (JStr id).
Proof. reflexivity. Qed.

Lemma detect_in_spec (w : world) (patterns : list (string * pattern)) :
  match detect_in w patterns with
  | Some d =>
      exists type pat id earlier later,
        patterns = (earlier ++ (type, pat) :: later)%list
        /\ (forall t p, In (t, p) earlier -> unmatched p (href w))
        /\ leftmost_capture pat (href w) id
        /\ d = detected w type id
  | None => forall t p, In (t, p) patterns -> unmatched p (href w)
  end.
Proof.
  induction patterns as [|[type pat] rest IH]; cbn [detect_in].
  - intros t p [].
  - destruct (regex_capture pat (href w)) as [id|] eqn:E.
    + exists type, pat, id, [], rest. repeat split.
      * intros t p [].
      * now apply regex_capture_some.
    + apply regex_capture_none in E.
      destruct (detect_in w rest) as [d|].
      * destruct IH as (t & p & id & earlier & later & -> & Hearlier & Hcap & ->).
        exists t, p, id, ((type, pat) :: earlier), later. repeat split; try assumption.
        intros t' p' [H|H]; [injection H as <- <-; exact E | now apply (Hearlier t')].
      * intros t p [H|H]; [injection H as <- <-; exact E | now apply (IH t)].
Qed.

(** C3, as the code has it.  The classifier answers with the first type
    of the table whose pattern matches the URL anywhere, and with the
    capture of that pattern's leftmost match: the non-empty run of
    characters after the prefix up to the end of the URL or the first
    excluded character ([?] or [&]; for [slo] also [/]; never [#]).  It
    answers [null] exactly when no pattern matches.  The URL of scenario A
    gives type "dashboard" and id "abc-123". *)
Theorem classifier_correct (w : world) :
  match detectSavedObject w with
  | Some d =>
      exists type pat id earlier later,
        KIBANA_PATTERNS = (earlier ++ (type, pat) :: later)%list
        /\ (forall t p, In (t, p) earlier -> unmatched p (href w))
        /\ leftmost_capture pat (href w) id
        /\ lookup d "type" = Some (JStr type)
        /\ lookup d "id" = Some (JStr id)
  | None => forall t p, In (t, p) KIBANA_PATTERNS -> unmatched p (href w)
  end
  /\ (href w = scenario_A_url ->
      exists d, detectSavedObject w = Some d
                /\ lookup d "type" = Some (JStr "dashboard")
                /\ lookup d "id" = Some (JStr "abc-123")).
Proof.
  split.
  - unfold detectSavedObject. pose proof (detect_in_spec w KIBANA_PATTERNS) as H.
    destruct (detect_in w KIBANA_PATTERNS) as [d|]; [|exact H].
    destruct H as (type & pat & id & earlier & later & E & He & Hc & ->).
    exists type, pat, id, earlier, later. repeat split; assumption.
  - intros E. unfold detectSavedObject, KIBANA_PATTERNS. cbn [detect_in].
    rewrite E. eexists. split; [vm_compute regex_capture; reflexivity|].
    split; reflexivity.
Qed.

Lemma classifier_correct_witness :
  exists d, detectSavedObject scenario_B = Some d
            /\ lookup d "type" = Some (JStr "dashboard")
            /\ lookup d "id" = Some (JStr "abc-123").
Proof.
  apply (proj2 (classifier_correct scenario_B)). reflexivity.
Defined.

Example scenario_A :
  detectSavedObject scenario_B
  = Some (JObj [ ("type", JStr "dashboard"); ("id", JStr "abc-123");
                 ("title", JStr "Web traffic"); ("url", JStr scenario_A_url) ]).
Proof. reflexivity. Qed.

Example unrecognized_url (w : world) :
  href w = "https://kibana.example.com/app/home" -> detectSavedObject w = None.
Proof. intros E. unfold detectSavedObject, KIBANA_PATTERNS. cbn [detect_in]. now rewrite E. Qed.

(** C3 as stated fails: on the history tab of an SLO the id stops at the
    slash, while the segment up to the first [?], [&] or [#] is
    "abc/history". *)
Lemma classifier_counterexample :
  ~ classifier_claim "?&" slo_page /\ ~ classifier_claim "?&#" slo_page
  /\ exists d, detectSavedObject slo_page = Some d
               /\ lookup d "type" = Some (JStr "slo")
               /\ lookup d "id" = Some (JStr "abc")
               /\ claimed_identifier "?&" "/app/slos/" (href slo_page)
                  = Some "abc/history".
Proof.
  assert (Hno : forall boundaries,
            claimed_identifier boundaries "/app/slos/" (href slo_page)
            = Some "abc/history" ->
            ~ classifier_claim boundaries slo_page).
  { intros boundaries Hclaimed H.
    destruct (H _ eq_refl) as (type & pat & id & Hin & Htype & Hid & Hd).
    cbn in Htype, Hd. injection Htype as <-. injection Hd as <-.
    unfold KIBANA_PATTERNS in Hin. cbn [In] in Hin.
    repeat (destruct Hin as [Hin|Hin]; [try discriminate|]); [|contradiction].
    injection Hin as <-. cbn [prefix] in Hid. rewrite Hclaimed in Hid. discriminate. }
  split; [apply Hno; reflexivity|]. split; [apply Hno; reflexivity|].
  eexists. repeat split.
Qed.

(* ================================================================== *)
(** * Requests of a computation *)
(* ================================================================== *)

Lemma emits_quiet {A : Type} (m : io A) (S : http_request -> Prop) :
  (forall tr, fst (m tr) = tr) -> emits m S.
Proof. intros H tr. exists []. rewrite H, app_nil_r. now split. Qed.

Lemma emits_ret {A : Type} (a : A) S : emits (ret a) S.
Proof. now apply emits_quiet. Qed.

Lemma emits_lift {A : Type} (o : outcome A) S : emits (lift o) S.
Proof. now apply emits_quiet. Qed.

Lemma emits_throw {A : Type} (e : js_error) S : emits (@throw A e) S.
Proof. now apply emits_quiet. Qed.

Lemma emits_fetch (w : world) (q : http_request) (S : http_request -> Prop) :
  S q -> emits (do_fetch w q) S.
Proof. intros H tr. exists [q]. split; [reflexivity | now repeat constructor]. Qed.

Lemma emits_bind {A B : Type} (m : io A) (k : A -> io B) S :
  emits m S -> (forall a, emits (k a) S) -> emits (bind_io m k) S.
Proof.
  intros Hm Hk tr. unfold bind_io.
  destruct (Hm tr) as (e1 & E1 & F1).
  destruct (m tr) as [tr' [a| |]]; cbn [fst] in *; subst tr'.
  - destruct (Hk a (tr ++ e1)%list) as (e2 & E2 & F2).
    exists (e1 ++ e2)%list. rewrite E2, app_assoc. split; [reflexivity|].
    apply Forall_app. now split.
  - now exists e1.
  - now exists e1.
Qed.

Lemma emits_catch {A : Type} (m : io A) (h : js_error -> io A) S :
  emits m S -> (forall e, emits (h e) S) -> emits (try_catch m h) S.
Proof.
  intros Hm Hh tr. unfold try_catch.
  destruct (Hm tr) as (e1 & E1 & F1).
  destruct (m tr) as [tr' [a|e|]]; cbn [fst] in *; subst tr'.
  - now exists e1.
  - destruct (Hh e (tr ++ e1)%list) as (e2 & E2 & F2).
    exists (e1 ++ e2)%list. rewrite E2, app_assoc. split; [reflexivity|].
    apply Forall_app. now split.
  - now exists e1.
Qed.

Lemma emits_weaken {A : Type} (m : io A) (S T : http_request -> Prop) :
  (forall q, S q -> T q) -> emits m S -> emits m T.
Proof.
  intros H Hm tr. destruct (Hm tr) as (e & E & F). exists e. split; [assumption|].
  eapply Forall_impl; eassumption.
Qed.

Lemma emits_requests {A : Type} (m : io A) S (q : http_request) :
  emits m S -> In q (requests_of m) -> S q.
Proof.
  intros Hm Hin. unfold requests_of, run in Hin.
  destruct (Hm []) as (e & E & F). rewrite E in Hin. cbn in Hin.
  rewrite Forall_forall in F. now apply F.
Qed.

Create HintDb emits.
#[local] Hint Resolve emits_ret emits_lift emits_throw : emits.

Ltac emits_step :=
  first [ apply emits_bind; [|intros ?]
        | apply emits_ret | apply emits_lift | apply emits_throw
        | match goal with
          | |- emits (if ?c then _ else _) _ => destruct c
          | |- emits (match ?x with _ => _ end) _ => destruct x
          end ].

(* ================================================================== *)
(** * The three endpoints *)
(* ================================================================== *)

Lemma exportSavedObject_emits (w : world) (type id : jsval) :
  emits (exportSavedObject w type id) (is_bulk_export w).
Proof.
  unfold exportSavedObject. apply emits_bind.
  - apply emits_fetch. now split.
  - intros r. destruct (negb (resp_ok r)); auto with emits.
Qed.

Lemma own_entry_in {A : Type} (table : list (string * A)) (key : string) (a : A) :
  own_entry table key = Some a -> In (key, a) table.
Proof.
  induction table as [|[k v] t IH]; cbn [own_entry]; [discriminate|].
  destruct (String.eqb_spec key k) as [->|];
    [intros H; injection H as ->; now left | intros H; right; auto].
Qed.

Lemma exportViaAlternativeApi_emits (w : world) (type id : jsval) :
  emits (exportViaAlternativeApi w type id) (is_alternate_read w).
Proof.
  unfold exportViaAlternativeApi. apply emits_bind; [auto with emits|].
  intros key. unfold table_get.
  destruct (own_entry ALTERNATIVE_API_TYPES key) as [config|] eqn:E.
  - apply emits_bind; [auto with emits|]. intros text.
    apply emits_bind.
    + apply emits_fetch. split; [reflexivity|].
      exists key, config, text. split; [now apply own_entry_in | reflexivity].
    + intros r. destruct (negb (resp_ok r)); [auto with emits|].
      apply emits_bind; auto with emits.
  - destruct (existsb (String.eqb key) object_prototype_names); auto with emits.
Qed.

Lemma fetchDashboardData_emits (w : world) (dashboardId : jsval) :
  emits (fetchDashboardData w dashboardId) (is_dashboard_read w).
Proof.
  unfold fetchDashboardData. apply emits_bind; [auto with emits|].
  intros text. apply emits_bind.
  - apply emits_fetch. split; [reflexivity|]. now exists text.
  - intros r. destruct (negb (resp_ok r)); auto with emits.
Qed.

Lemma exportEmbeddedPanel_emits (w : world) (dashboardId panelIndex : jsval) :
  emits (exportEmbeddedPanel w dashboardId panelIndex) (is_dashboard_read w).
Proof.
  unfold exportEmbeddedPanel.
  apply emits_bind; [apply fetchDashboardData_emits|]. intros dashboard.
  repeat emits_step.
Qed.

(** The endpoints are distinct. *)
Lemma dashboard_not_bulk (w : world) (q : http_request) :
  is_dashboard_read w q -> ~ is_bulk_export w q.
Proof. intros [Hm _] [Hm' _]. congruence. Qed.

Lemma alternate_not_bulk (w : world) (q : http_request) :
  is_alternate_read w q -> ~ is_bulk_export w q.
Proof. intros [Hm _] [Hm' _]. congruence. Qed.

Lemma dashboard_not_alternate (w : world) (q : http_request) :
  is_dashboard_read w q -> ~ is_alternate_read w q.
Proof.
  intros [_ (id & E)] [_ (type & config & id' & Hin & E')].
  rewrite E in E'. apply append_cancel in E'.
  unfold ALTERNATIVE_API_TYPES in Hin. cbn [In] in Hin.
  destruct Hin as [H|[H|[]]]; injection H as <- <-; cbn in E'; discriminate.
Qed.

(* ================================================================== *)
(** * The export router *)
(* ================================================================== *)

Lemma alternative_api_own (request : export_request) (a : entry api_config) :
  alternative_api (rq_type request) = Ok a ->
  match a with
  | Own _ => alternate_type request
  | Inherited => True
  | Absent => exists key, to_js_string (rq_type request) = Ok key
                          /\ table_get ALTERNATIVE_API_TYPES key = Absent
  end.
Proof.
  unfold alternative_api, alternate_type.
  destruct (to_js_string (rq_type request)) as [key| |]; try discriminate.
  cbn [bind]. intros H. injection H as <-. unfold table_get.
  destruct (own_entry ALTERNATIVE_API_TYPES key) as [config|] eqn:E.
  - now exists key, config.
  - destruct (existsb (String.eqb key) object_prototype_names) eqn:Ex; [trivial|].
    exists key. split; [reflexivity|]. unfold table_get. now rewrite E, Ex.
Qed.

Lemma inherited_no_request (w : world) (type id : jsval) (S : http_request -> Prop) :
  alternative_api type = Ok Inherited -> emits (exportViaAlternativeApi w type id) S.
Proof.
  unfold alternative_api, exportViaAlternativeApi.
  destruct (to_js_string type) as [key| |]; try discriminate.
  cbn [bind]. intros H. injection H as H.
  apply emits_quiet. intros tr. unfold bind_io, lift. now rewrite H.
Qed.

Lemma export_content_emits (w : world) (request : export_request) :
  emits (export_content w request) (routed w request).
Proof.
  unfold export_content. fold (embedded_request request).
  destruct (embedded_request request) eqn:Eemb.
  - apply emits_bind; [|auto with emits].
    apply (emits_weaken _ (is_dashboard_read w)); [|apply exportEmbeddedPanel_emits].
    intros q Hq. left. now split.
  - destruct (truthy (rq_useAlternativeApi request)) eqn:Eflag.
    + intros tr. unfold bind_io at 1, lift.
      destruct (alternative_api (rq_type request)) as [a| |] eqn:Ealt;
        try (exists []; rewrite app_nil_r; now split).
      pose proof (alternative_api_own request a Ealt) as Hown.
      revert tr. change (emits
        (if entry_truthy a
         then content <~ exportViaAlternativeApi w (rq_type request) (rq_id request) ;;
              ret (content, alternative_extension a)
         else if truthy (rq_id request)
              then content <~ exportSavedObject w (rq_type request) (rq_id request) ;;
                   ret (content, "ndjson")
              else throw (Error "No valid export target specified"))
        (routed w request)).
      destruct a as [config| |]; cbn [entry_truthy].
      * apply emits_bind; [|auto with emits].
        apply (emits_weaken _ (is_alternate_read w));
          [|apply exportViaAlternativeApi_emits].
        intros q Hq. right. left. auto.
      * apply emits_bind; [|auto with emits]. now apply inherited_no_request.
      * destruct (truthy (rq_id request)) eqn:Eid; [|auto with emits].
        apply emits_bind; [|auto with emits].
        apply (emits_weaken _ (is_bulk_export w)); [|apply exportSavedObject_emits].
        intros q Hq. right. right. auto.
    + intros tr. unfold bind_io at 1, ret at 1. cbn [entry_truthy]. revert tr.
      change (emits
        (if truthy (rq_id request)
         then content <~ exportSavedObject w (rq_type request) (rq_id request) ;;
              ret (content, "ndjson")
         else throw (Error "No valid export target specified"))
        (routed w request)).
      destruct (truthy (rq_id request)) eqn:Eid; [|auto with emits].
      apply emits_bind; [|auto with emits].
      apply (emits_weaken _ (is_bulk_export w)); [|apply exportSavedObject_emits].
      intros q Hq. right. right. auto.
Qed.

Lemma onExportSavedObject_emits (w : world) (request : export_request) :
  emits (onExportSavedObject w request) (routed w request).
Proof.
  unfold onExportSavedObject. apply emits_catch; [|auto with emits].
  apply emits_bind; [apply export_content_emits|]. intros target.
  apply emits_bind; auto with emits.
Qed.

Lemma own_not_absent (request : export_request) :
  alternate_type request ->
  ~ exists key, to_js_string (rq_type request) = Ok key
                /\ table_get ALTERNATIVE_API_TYPES key = Absent.
Proof.
  intros (key & config & Hk & Hown) (key' & Hk' & Habs).
  rewrite Hk in Hk'. injection Hk' as <-.
  unfold table_get in Habs. now rewrite Hown in Habs.
Qed.

(** C1, as the code has it.  A request reaches an alternate read endpoint
    only when the flag is set, the request is not embedded and its type is
    a key of the alternate-type table ([slo], [alert]); then the bulk
    endpoint is not called.  The bulk endpoint is called only for a
    request that is not embedded and has an id, and whose flag is unset or
    whose type is absent from the table. *)
Theorem alternate_flag_routing (w : world) (request : export_request)
  (q : http_request) :
  In q (requests_of (onExportSavedObject w request)) ->
  (is_alternate_read w q ->
   truthy (rq_useAlternativeApi request) = true
   /\ embedded_request request = false
   /\ alternate_type request)
  /\ (is_bulk_export w q ->
      embedded_request request = false
      /\ truthy (rq_id request) = true
      /\ (truthy (rq_useAlternativeApi request) = false
          \/ exists key, to_js_string (rq_type request) = Ok key
                         /\ table_get ALTERNATIVE_API_TYPES key = Absent))
  /\ (truthy (rq_useAlternativeApi request) = true ->
      alternate_type request -> ~ is_bulk_export w q).
Proof.
  intros Hin.
  pose proof (emits_requests _ _ q (onExportSavedObject_emits w request) Hin) as Hr.
  destruct Hr as [[Hemb Hd]|[(Hemb & Hflag & Hown & Ha)|(Hemb & Hid & Hwhy & Hb)]].
  - split; [|split].
    + intros Ha. now apply dashboard_not_alternate in Hd.
    + intros Hb. now apply dashboard_not_bulk in Hd.
    + intros _ _. now apply dashboard_not_bulk.
  - split; [|split].
    + auto.
    + intros Hb. now apply alternate_not_bulk in Ha.
    + intros _ _. now apply alternate_not_bulk.
  - split; [|split].
    + intros Ha. now apply alternate_not_bulk in Ha.
    + auto.
    + intros Hflag Hown _. destruct Hwhy as [Hoff|Habs]; [congruence|].
      now apply (own_not_absent request Hown).
Qed.

Lemma alternate_flag_routing_witness :
  let q := {| req_method := "GET";
              req_url := "https://kibana.example.com/api/observability/slos/abc";
              req_body := None |} in
  let request := primary_request "slo" "abc" true in
  In q (requests_of (onExportSavedObject plain_server request))
  /\ truthy (rq_useAlternativeApi request) = true
  /\ alternate_type request
  /\ ~ is_bulk_export plain_server q.
Proof.
  intros q request.
  assert (Hin : In q (requests_of (onExportSavedObject plain_server request)))
    by (vm_compute; left; reflexivity).
  assert (Hq : is_alternate_read plain_server q).
  { split; [reflexivity|]. eexists "slo", _, "abc". split; [left; reflexivity | reflexivity]. }
  destruct (alternate_flag_routing plain_server request q Hin) as (Ha & _ & Hn).
  destruct (Ha Hq) as (Hflag & _ & Hown). auto.
Defined.

(** C1 as stated fails: with the flag set on a dashboard, whose type is
    not in the alternate-type table, the bulk endpoint is called. *)
Lemma alternate_flag_counterexample :
  ~ alternate_flag_claim plain_server (primary_request "dashboard" "abc-123" true)
  /\ requests_of (onExportSavedObject plain_server
                    (primary_request "dashboard" "abc-123" true))
     = [ {| req_method := "POST";
            req_url := "https://kibana.example.com/api/saved_objects/_export";
            req_body := Some (JSON.stringify
              (JObj [ ("objects", JArr [JObj [("type", JStr "dashboard");
                                               ("id", JStr "abc-123")]]);
                      ("includeReferencesDeep", JBool true) ])) |} ].
Proof.
  split; [|vm_compute; reflexivity].
  intros H. apply (H eq_refl _ (or_introl eq_refl)). split; reflexivity.
Qed.

(* ================================================================== *)
(** * The synthesized record *)
(* ================================================================== *)

Lemma or_default_truthy (v d : json) :
  truthy (Some v) = true -> or_default (Some v) d = v.
Proof. unfold or_default. now intros ->. Qed.

Lemma strict_eq_eq (a b : jsval) : strict_eq a b = true -> a = b.
Proof.
  destruct a as [[|x|x|x|x|x]|], b as [[|y|y|y|y|y]|]; cbn [strict_eq];
    try discriminate; try reflexivity; intros H.
  - apply Bool.eqb_prop in H. congruence.
  - apply Z.eqb_eq in H. congruence.
  - apply String.eqb_eq in H. congruence.
Qed.

Lemma find_panel_some (panelIndex : jsval) (panels : list json) (panel : json) :
  find_panel panelIndex panels = Ok (Some panel) ->
  In panel panels /\ lookup panel "panelIndex" = panelIndex.
Proof.
  induction panels as [|p l IH]; cbn [find_panel]; [discriminate|].
  destruct (member (Some p) "panelIndex") as [idx| |] eqn:Em; try discriminate.
  cbn [bind]. destruct (strict_eq idx panelIndex) eqn:Eq.
  - intros H. injection H as <-. split; [now left|].
    apply strict_eq_eq in Eq. subst idx.
    destruct p; cbn [member] in Em; try discriminate; now injection Em.
  - intros H. destruct (IH H). split; [now right | assumption].
Qed.

(** The record's id is the panel's [panelIndex] when that is truthy, and
    a fresh UUID otherwise. *)
Lemma savedObject_id (w : world) (panel record : json) :
  savedObject w panel = Ok record ->
  lookup record "id"
  = Some (or_default (lookup panel "panelIndex") (JStr (randomUUID w))).
Proof.
  unfold savedObject.
  destruct (member (Some panel) "type") as [panelType| |] eqn:Et; try discriminate.
  cbn [bind].
  destruct (extractPanelTitle panel) as [title| |]; try discriminate.
  cbn [bind].
  destruct (is_type panelType "lens");
    [intros H; injection H as <-; reflexivity|].
  destruct (is_type panelType "visualization");
    [intros H; injection H as <-; reflexivity|].
  destruct (is_type panelType "map");
    [intros H; injection H as <-; reflexivity|].
  destruct (is_type panelType "search");
    [intros H; injection H as <-; reflexivity|].
  intros H; injection H as <-. destruct panelType; reflexivity.
Qed.

Lemma constructPanelExport_ok (w : world) (panel title : json) (content : string) :
  constructPanelExport w panel title = Ok content ->
  exists record,
    savedObject w panel = Ok record
    /\ content = JSON.stringify record ++ JSON.newline
                 ++ JSON.stringify exportSummary.
Proof.
  unfold constructPanelExport.
  destruct (savedObject w panel) as [record| |]; try discriminate.
  cbn [bind]. intros H. injection H as <-. now exists record.
Qed.

(** What a successful [exportEmbeddedPanel] went through. *)
Lemma exportEmbeddedPanel_ok (w : world) (dashboardId panelIndex : jsval)
  (tr : list http_request) (content : string) :
  snd (exportEmbeddedPanel w dashboardId panelIndex tr) = Ok content ->
  exists dashboard panels panel record,
    snd (fetchDashboardData w dashboardId tr) = Ok dashboard
    /\ JSON_parse_value (opt_member (lookup dashboard "attributes") "panelsJSON")
       = Ok (JArr panels)
    /\ In panel panels
    /\ lookup panel "panelIndex" = panelIndex
    /\ savedObject w panel = Ok record
    /\ content = JSON.stringify record ++ JSON.newline
                 ++ JSON.stringify exportSummary.
Proof.
  unfold exportEmbeddedPanel, bind_io at 1.
  destruct (fetchDashboardData w dashboardId tr) as [tr' [dashboard| |]];
    try discriminate.
  unfold bind_io at 1, lift at 1.
  destruct (member (Some dashboard) "attributes") as [attributes| |] eqn:Ea;
    try discriminate.
  assert (attributes = lookup dashboard "attributes") as ->
    by (destruct dashboard; cbn [member] in Ea; try discriminate; now injection Ea).
  destruct (truthy (opt_member (lookup dashboard "attributes") "panelsJSON"));
    [|discriminate]. cbn [negb].
  unfold bind_io at 1, lift at 1.
  destruct (JSON_parse_value _) as [parsed| |] eqn:Ep; try discriminate.
  unfold bind_io at 1, lift at 1.
  destruct (as_array parsed) as [panels| |] eqn:Earr; try discriminate.
  destruct parsed; try discriminate. cbn [as_array] in Earr. injection Earr as ->.
  unfold bind_io at 1, lift at 1.
  destruct (find_panel panelIndex panels) as [[panel|]| |] eqn:Ef; try discriminate.
  - destruct (truthy (Some panel)).
    + unfold lift. cbn [snd]. intros Hc.
      destruct (constructPanelExport_ok _ _ _ _ Hc) as (record & Hr & ->).
      destruct (find_panel_some _ _ _ Ef) as (Hin & Hidx).
      exists dashboard, panels, panel, record. repeat split; assumption.
    + unfold bind_io, lift, throw.
      destruct (to_js_string panelIndex); discriminate.
  - unfold bind_io, lift, throw. destruct (to_js_string panelIndex); discriminate.
Qed.

(* ================================================================== *)
(** * The embedded branch *)
(* ================================================================== *)

Lemma export_content_embedded (w : world) (request : export_request) :
  embedded_request request = true ->
  export_content w request
  = (content <~ exportEmbeddedPanel w (rq_dashboardId request)
                  (rq_panelIndex request) ;;
     ret (content, "ndjson")).
Proof.
  unfold export_content. fold (embedded_request request). now intros ->.
Qed.

(** Without the embedded and the alternate branch, the id decides. *)
Lemma export_content_plain (w : world) (request : export_request) :
  embedded_request request = false ->
  truthy (rq_useAlternativeApi request) = false
  \/ alternative_api (rq_type request) = Ok Absent ->
  export_content w request
  = if truthy (rq_id request)
    then content <~ exportSavedObject w (rq_type request) (rq_id request) ;;
         ret (content, "ndjson")
    else throw (Error "No valid export target specified").
Proof.
  intros Hemb Hwhy. unfold export_content. fold (embedded_request request).
  rewrite Hemb. destruct (truthy (rq_useAlternativeApi request)).
  - destruct Hwhy as [|Halt]; [discriminate|]. now rewrite Halt.
  - reflexivity.
Qed.

(** C10.  The embedded branch (the dashboard read and the synthesis) runs
    exactly when [isEmbedded], [dashboardId] and [panelIndex] are all
    truthy.  A request with a falsy [panelIndex] is not embedded: it reads
    no dashboard, each request it makes is an alternate read or a bulk
    export, and with no alternate branch to take and no id it fails as an
    invalid request.  When the embedded branch returns a content, that is the
    record of a panel of the dashboard whose [panelIndex] is the
    requested one, and the record's id is that [panelIndex]; in general a
    record's id is the panel's [panelIndex] whenever that is truthy. *)
Theorem embedded_routing (w : world) (request : export_request) :
  (truthy (rq_panelIndex request) = false -> embedded_request request = false)
  /\ (embedded_request request = false ->
      (forall q, In q (requests_of (onExportSavedObject w request)) ->
                 ~ is_dashboard_read w q
                 /\ (is_alternate_read w q \/ is_bulk_export w q))
      /\ (truthy (rq_useAlternativeApi request) = false
          \/ alternative_api (rq_type request) = Ok Absent ->
          truthy (rq_id request) = false ->
          run (onExportSavedObject w request)
          = ([], Ok (Failed (Error "No valid export target specified")))))
  /\ (embedded_request request = true ->
      (forall q, In q (requests_of (onExportSavedObject w request)) ->
                 is_dashboard_read w q)
      /\ forall content extension,
         snd (run (export_content w request)) = Ok (content, extension) ->
         exists panel record,
           lookup panel "panelIndex" = rq_panelIndex request
           /\ savedObject w panel = Ok record
           /\ lookup record "id" = rq_panelIndex request
           /\ content = JSON.stringify record ++ JSON.newline
                        ++ JSON.stringify exportSummary
           /\ extension = "ndjson")
  /\ (forall panel record v,
      savedObject w panel = Ok record ->
      lookup panel "panelIndex" = Some v -> truthy (Some v) = true ->
      lookup record "id" = Some v).
Proof.
  split; [|split; [|split]].
  - unfold embedded_request. intros ->. apply andb_false_r.
  - intros Hemb. split.
    + intros q Hin.
      pose proof (emits_requests _ _ q (onExportSavedObject_emits w request) Hin)
        as [[Hemb' _]|[(_ & _ & _ & Ha)|(_ & _ & _ & Hb)]]; [congruence| |].
      * split; [|now left]. intros Hd. now apply (dashboard_not_alternate w q).
      * split; [|now right]. intros Hd. now apply (dashboard_not_bulk w q).
    + intros Hwhy Hid.
      unfold run, onExportSavedObject, try_catch.
      rewrite (export_content_plain w request Hemb Hwhy). now rewrite Hid.
  - intros Hemb. split.
    + intros q Hin.
      pose proof (emits_requests _ _ q (onExportSavedObject_emits w request) Hin)
        as [[_ Hd]|[(Hemb' & _)|(Hemb' & _)]]; [assumption|congruence|congruence].
    + intros content extension.
      rewrite (export_content_embedded w request Hemb).
      unfold run, bind_io.
      destruct (exportEmbeddedPanel w (rq_dashboardId request)
                  (rq_panelIndex request) []) as [tr [c| |]] eqn:E;
        try discriminate.
      unfold ret. cbn [snd]. intros H. injection H as <- <-.
      assert (Hc : snd (exportEmbeddedPanel w (rq_dashboardId request)
                          (rq_panelIndex request) []) = Ok c) by now rewrite E.
      destruct (exportEmbeddedPanel_ok _ _ _ _ _ Hc)
        as (dashboard & panels & panel & record & _ & _ & _ & Hidx & Hrec & ->).
      exists panel, record. repeat split; try assumption.
      rewrite (savedObject_id w panel record Hrec), Hidx.
      unfold embedded_request in Hemb. apply andb_true_iff in Hemb as [_ Ht].
      destruct (rq_panelIndex request) as [v|]; [|discriminate].
      now rewrite or_default_truthy.
  - intros panel record v Hrec Hidx Ht.
    rewrite (savedObject_id w panel record Hrec), Hidx.
    now rewrite or_default_truthy.
Qed.

Lemma embedded_routing_witness :
  embedded_request sales_request = true
  /\ exists panel record,
       lookup panel "panelIndex" = Some (JStr "p-sales")
       /\ savedObject scenario_D panel = Ok record
       /\ lookup record "id" = Some (JStr "p-sales").
Proof.
  split; [reflexivity|].
  destruct (embedded_routing scenario_D sales_request) as (_ & _ & H & _).
  destruct (H eq_refl) as [_ Hc].
  destruct (Hc _ _ ltac:(vm_compute; reflexivity))
    as (panel & record & Hidx & Hrec & Hid & _).
  now exists panel, record.
Defined.

(* ================================================================== *)
(** * Non-exportable types *)
(* ================================================================== *)

Lemma non_exportable_cases (request : export_request) (reason : string) :
  non_exportable request reason ->
  to_js_string (rq_type request) = Ok "cases"
  /\ reason = "Cases are not exportable via any known API".
Proof.
  intros (key & Hk & Hown). unfold NON_EXPORTABLE_TYPES in Hown.
  cbn [own_entry] in Hown. destruct (String.eqb_spec key "cases") as [->|];
    [|discriminate]. injection Hown as <-. now split.
Qed.

Lemma alternative_api_cases (type : jsval) :
  to_js_string type = Ok "cases" -> alternative_api type = Ok Absent.
Proof. unfold alternative_api. now intros ->. Qed.

(** C2, as the code has it.  The export handler does not consult the
    non-exportable table.  A request of a non-exportable type that is not
    embedded and has an id goes to the bulk endpoint, with one request; one
    without an id fails as an invalid request, without a network call.
    The configured reason is what the classifier attaches to the page's
    descriptor. *)
Theorem non_exportable_routing (w : world) (request : export_request)
  (reason : string) :
  non_exportable request reason ->
  embedded_request request = false ->
  (truthy (rq_id request) = true ->
   requests_of (onExportSavedObject w request)
   = [ {| req_method := "POST";
          req_url := baseUrl w ++ bulk_export_path;
          req_body := Some (JSON.stringify
            (JObj [ ("objects",
                     JArr [JObj (literal [("type", rq_type request);
                                          ("id", rq_id request)])]);
                    ("includeReferencesDeep", JBool true) ])) |} ])
  /\ (truthy (rq_id request) = false ->
      run (onExportSavedObject w request)
      = ([], Ok (Failed (Error "No valid export target specified"))))
  /\ (forall id,
      lookup (detected w "cases" id) "notExportable" = Some (JBool true)
      /\ lookup (detected w "cases" id) "notExportableReason" = Some (JStr reason)).
Proof.
  intros Hne Hemb. destruct (non_exportable_cases _ _ Hne) as [Hkey ->].
  pose proof (export_content_plain w request Hemb
                (or_intror (alternative_api_cases _ Hkey))) as Hplain.
  split; [|split].
  - intros Hid. rewrite Hid in Hplain.
    unfold requests_of, run, onExportSavedObject, try_catch. rewrite Hplain.
    unfold bind_io, exportSavedObject, bind_io, do_fetch, getKibanaBaseUrl.
    cbn [app].
    destruct (fetch w _) as [r| |]; [|reflexivity|reflexivity].
    destruct (resp_ok r); cbn [negb]; unfold throw, ret, lift; cbn [fst snd];
      [|reflexivity].
    destruct (sendMessage w _); reflexivity.
  - intros Hid. rewrite Hid in Hplain.
    unfold run, onExportSavedObject, try_catch. now rewrite Hplain.
  - intros id. split; reflexivity.
Qed.

Lemma non_exportable_routing_witness :
  let request := primary_request "cases" "case-1" false in
  non_exportable request "Cases are not exportable via any known API"
  /\ requests_of (onExportSavedObject plain_server request)
     = [ {| req_method := "POST";
            req_url := "https://kibana.example.com/api/saved_objects/_export";
            req_body := Some (JSON.stringify
              (JObj [ ("objects", JArr [JObj [("type", JStr "cases");
                                               ("id", JStr "case-1")]]);
                      ("includeReferencesDeep", JBool true) ])) |} ].
Proof.
  intros request.
  assert (Hne : non_exportable request "Cases are not exportable via any known API")
    by (exists "cases"; split; reflexivity).
  split; [exact Hne|].
  destruct (non_exportable_routing plain_server request _ Hne eq_refl) as (H & _).
  exact (H eq_refl).
Defined.

(** C2 as stated fails: an export request for a case with an id is sent
    to the bulk endpoint and answered with the background's answer. *)
Lemma non_exportable_counterexample :
  ~ non_exportable_claim plain_server (primary_request "cases" "case-1" false)
  /\ snd (run (onExportSavedObject plain_server
                 (primary_request "cases" "case-1" false)))
     = Ok (Downloaded (Some (JObj [("success", JBool true)]))).
Proof.
  split; [|vm_compute; reflexivity].
  intros H.
  specialize (H "Cases are not exportable via any known API"
                (ex_intro _ "cases" (conj eq_refl eq_refl))).
  vm_compute in H. discriminate.
Qed.

Example cases_page_flagged (w : world) :
  href w = "https://kibana.example.com/app/security/cases/7c1f" ->
  exists d, detectSavedObject w = Some d
            /\ lookup d "type" = Some (JStr "cases")
            /\ lookup d "notExportable" = Some (JBool true)
            /\ lookup d "notExportableReason"
               = Some (JStr "Cases are not exportable via any known API").
Proof.
  intros E. unfold detectSavedObject, KIBANA_PATTERNS. cbn [detect_in]. rewrite E.
  eexists. split; [vm_compute regex_capture; reflexivity|]. repeat split.
Qed.

(* ================================================================== *)
(** * Record synthesizer *)
(* ================================================================== *)

Lemma valid_assoc (k : string) (l : list (string * json)) :
  forallb (fun kv => JSON.valid (snd kv)) l = true -> valid_opt (assoc k l) = true.
Proof.
  induction l as [|[k' v] l IH]; cbn [forallb assoc snd]; [reflexivity|].
  intros H. apply andb_true_iff in H as [Hv Hl].
  destruct (k =? k')%string; [exact Hv | now apply IH].
Qed.

Lemma valid_lookup (o : json) (k : string) :
  JSON.valid o = true -> valid_opt (lookup o k) = true.
Proof.
  destruct o; try reflexivity. cbn [JSON.valid lookup]. intros H.
  apply andb_true_iff in H as [_ H]. now apply valid_assoc.
Qed.

Lemma valid_opt_member (v : jsval) (k : string) :
  valid_opt v = true -> valid_opt (opt_member v k) = true.
Proof.
  destruct v as [o|]; [|reflexivity]. cbn [valid_opt]. intros H.
  destruct o; try reflexivity; cbn [opt_member]; now apply valid_lookup.
Qed.

Lemma valid_or_default (a : jsval) (d : json) :
  valid_opt a = true -> JSON.valid d = true -> JSON.valid (or_default a d) = true.
Proof.
  unfold or_default. destruct a as [v|]; [|trivial].
  destruct (truthy (Some v)); trivial.
Qed.

Lemma valid_not_null_member (panel : json) (k : string) (v : jsval) :
  member (Some panel) k = Ok v -> v = lookup panel k /\ panel <> JNull.
Proof.
  destruct panel; cbn [member]; try discriminate; intros H; injection H as <-;
    split; try reflexivity; discriminate.
Qed.

Create HintDb valid.
#[local] Hint Resolve valid_lookup valid_opt_member valid_or_default : valid.

Lemma valid_embeddableConfig (panel : json) :
  JSON.valid panel = true -> JSON.valid (embeddableConfig_of panel) = true.
Proof. intros H. unfold embeddableConfig_of. auto with valid. Qed.

Lemma valid_attributes (panel : json) :
  JSON.valid panel = true -> JSON.valid (attributes_of panel) = true.
Proof.
  intros H. unfold attributes_of. auto using valid_embeddableConfig with valid.
Qed.

Lemma valid_savedVis (panel : json) :
  JSON.valid panel = true -> JSON.valid (savedVis_of panel) = true.
Proof.
  intros H. unfold savedVis_of. auto using valid_embeddableConfig with valid.
Qed.

Lemma valid_title (panel title : json) :
  JSON.valid panel = true -> extractPanelTitle panel = Ok title ->
  JSON.valid title = true.
Proof.
  intros Hv. unfold extractPanelTitle.
  destruct (member (Some panel) "embeddableConfig") as [ec| |] eqn:E;
    try discriminate.
  apply valid_not_null_member in E as [-> _]. cbn [bind].
  fold (embeddableConfig_of panel). intros H. injection H as <-.
  pose proof (valid_embeddableConfig panel Hv) as Hec.
  repeat (apply valid_or_default; [auto 6 with valid|]). reflexivity.
Qed.

Lemma encodes_stringify (v : json) :
  JSON.valid v = true -> encodes (Some (JStr (JSON.stringify v))) v.
Proof. intros H. exists (JSON.stringify v). split; [reflexivity | now apply parse_stringify]. Qed.

Lemma string_or_stringify_spec (source : jsval) (d : json) :
  valid_opt source = true -> JSON.valid d = true ->
  copied_or_encoded source d (Some (string_or_stringify source d)).
Proof.
  intros Hs Hd. unfold copied_or_encoded, string_or_stringify.
  destruct source as [[| | |s| |]|]; try reflexivity;
    apply encodes_stringify; now apply valid_or_default.
Qed.

(** The head of [savedObject], for a panel with a type and a title. *)
Lemma savedObject_head (panel : json) (type : string) :
  lookup panel "type" = Some (JStr type) ->
  member (Some panel) "type" = Ok (Some (JStr type)).
Proof.
  intros Ht. destruct panel; try discriminate. cbn [member]. now rewrite Ht.
Qed.

(** C4.  For a lens panel whose harvested title is "Sales" the
    synthesizer builds a record of type "lens" whose [attributes.title] is
    "Sales" and whose [attributes.state] is a string, not an object: the
    JSON text of the source state (of [{}] when the source has none),
    which [JSON.parse] reads back. *)
Theorem lens_record (w : world) (panel : json) :
  lookup panel "type" = Some (JStr "lens") ->
  extractPanelTitle panel = Ok (JStr "Sales") ->
  exists record attributes,
    savedObject w panel = Ok record
    /\ constructPanelExport w panel (JStr "Dashboard")
       = Ok (JSON.stringify record ++ JSON.newline ++ JSON.stringify exportSummary)
    /\ lookup record "type" = Some (JStr "lens")
    /\ lookup record "attributes" = Some attributes
    /\ lookup attributes "title" = Some (JStr "Sales")
    /\ lookup attributes "state"
       = Some (JStr (JSON.stringify
                       (or_default (lookup (attributes_of panel) "state")
                                   empty_object)))
    /\ (forall state,
        lookup (attributes_of panel) "state" = Some state ->
        truthy (Some state) = true ->
        lookup attributes "state" = Some (JStr (JSON.stringify state)))
    /\ (JSON.valid panel = true ->
        encodes (lookup attributes "state")
                (or_default (lookup (attributes_of panel) "state") empty_object)).
Proof.
  intros Htype Htitle.
  assert (Hrec : exists record, savedObject w panel = Ok record
            /\ lookup record "type" = Some (JStr "lens")
            /\ exists attributes, lookup record "attributes" = Some attributes
            /\ lookup attributes "title" = Some (JStr "Sales")
            /\ lookup attributes "state"
               = Some (JStr (JSON.stringify
                       (or_default (lookup (attributes_of panel) "state")
                                   empty_object)))).
  { unfold savedObject.
    rewrite (savedObject_head panel "lens" Htype), Htitle. cbn [bind].
    change (is_type (Some (JStr "lens")) "lens") with true. cbv iota.
    eexists. split; [reflexivity|]. split; [reflexivity|].
    eexists. split; [reflexivity|]. split; reflexivity. }
  destruct Hrec as (record & Hrec & Hty & attributes & Hattr & Ht & Hs).
  exists record, attributes. repeat split; try assumption.
  - unfold constructPanelExport. now rewrite Hrec.
  - intros state Hstate Ht'. rewrite Hs, Hstate. now rewrite or_default_truthy.
  - intros Hv. rewrite Hs. apply encodes_stringify.
    apply valid_or_default; [|reflexivity]. apply valid_lookup.
    now apply valid_attributes.
Qed.

Lemma lens_record_witness :
  exists record attributes,
    savedObject scenario_D sales_panel = Ok record
    /\ lookup record "type" = Some (JStr "lens")
    /\ lookup record "attributes" = Some attributes
    /\ lookup attributes "title" = Some (JStr "Sales")
    /\ lookup attributes "state" = Some (JStr (JSON.stringify sales_state))
    /\ encodes (lookup attributes "state") sales_state.
Proof.
  destruct (lens_record scenario_D sales_panel eq_refl eq_refl)
    as (record & attributes & Hrec & _ & Hty & Hattr & Ht & Hs & _ & He).
  exists record, attributes. repeat split; try assumption.
  exact (He eq_refl).
Defined.

Lemma valid_visState (panel title : json) :
  JSON.valid panel = true -> JSON.valid title = true ->
  JSON.valid (visState_of panel title) = true.
Proof.
  intros Hp Ht. pose proof (valid_savedVis panel Hp) as Hs.
  unfold visState_of. cbn [JSON.valid map fst snd forallb].
  rewrite Ht, !valid_or_default; auto with valid.
Qed.

Lemma valid_default_searchSource : JSON.valid default_searchSource = true.
Proof. reflexivity. Qed.

Ltac open_record Htype Htitle kind :=
  unfold savedObject;
  rewrite (savedObject_head _ kind Htype), Htitle;
  cbn [bind].

(** C5, as the code has it.  For a panel of a known kind, decoding a
    string-encoded sub-field of the record gives the source sub-structure
    when that is truthy and the kind's default otherwise; a map sub-field
    that the source holds as a string is copied as it is; the description
    is the source's when truthy, else the empty string; the title is the
    harvested title.  A search record has no encoded sub-field of the
    synthesizer's: its [kibanaSavedObjectMeta] is the source's, or the
    default. *)
Theorem synthesizer_roundtrip (w : world) (panel title : json) :
  JSON.valid panel = true ->
  extractPanelTitle panel = Ok title ->
  (lookup panel "type" = Some (JStr "lens") ->
   exists record attributes,
     savedObject w panel = Ok record
     /\ lookup record "attributes" = Some attributes
     /\ lookup attributes "title" = Some title
     /\ lookup attributes "description"
        = Some (or_default (lookup (attributes_of panel) "description") (JStr ""))
     /\ encodes (lookup attributes "state")
          (or_default (lookup (attributes_of panel) "state") empty_object))
  /\ (lookup panel "type" = Some (JStr "visualization") ->
      exists record attributes meta,
        savedObject w panel = Ok record
        /\ lookup record "attributes" = Some attributes
        /\ lookup attributes "title" = Some title
        /\ lookup attributes "description"
           = Some (or_default (lookup (savedVis_of panel) "description") (JStr ""))
        /\ encodes (lookup attributes "visState") (visState_of panel title)
        /\ encodes (lookup attributes "uiStateJSON")
             (or_default (lookup (savedVis_of panel) "uiState") empty_object)
        /\ lookup attributes "kibanaSavedObjectMeta" = Some meta
        /\ encodes (lookup meta "searchSourceJSON")
             (or_default (opt_member (lookup (savedVis_of panel) "data")
                            "searchSource")
                default_searchSource))
  /\ (lookup panel "type" = Some (JStr "map") ->
      exists record attributes,
        savedObject w panel = Ok record
        /\ lookup record "attributes" = Some attributes
        /\ lookup attributes "title" = Some title
        /\ lookup attributes "description"
           = Some (or_default (lookup (attributes_of panel) "description") (JStr ""))
        /\ copied_or_encoded (lookup (attributes_of panel) "layerListJSON")
             (JArr []) (lookup attributes "layerListJSON")
        /\ copied_or_encoded (lookup (attributes_of panel) "mapStateJSON")
             empty_object (lookup attributes "mapStateJSON")
        /\ copied_or_encoded (lookup (attributes_of panel) "uiStateJSON")
             empty_object (lookup attributes "uiStateJSON"))
  /\ (lookup panel "type" = Some (JStr "search") ->
      exists record attributes,
        savedObject w panel = Ok record
        /\ lookup record "attributes" = Some attributes
        /\ lookup attributes "title" = Some title
        /\ lookup attributes "description"
           = Some (or_default (lookup (attributes_of panel) "description") (JStr ""))
        /\ lookup attributes "kibanaSavedObjectMeta"
           = Some (or_default (lookup (attributes_of panel) "kibanaSavedObjectMeta")
                     (JObj [("searchSourceJSON", JStr "{}")]))).
Proof.
  intros Hv Htitle.
  pose proof (valid_title panel title Hv Htitle) as Hvt.
  pose proof (valid_attributes panel Hv) as Hva.
  pose proof (valid_savedVis panel Hv) as Hvs.
  split; [|split; [|split]]; intros Htype.
  - open_record Htype Htitle "lens".
    change (is_type (Some (JStr "lens")) "lens") with true. cbv iota.
    eexists. eexists. split; [reflexivity|]. split; [reflexivity|].
    split; [reflexivity|]. split; [reflexivity|].
    apply encodes_stringify. auto with valid.
  - open_record Htype Htitle "visualization".
    change (is_type (Some (JStr "visualization")) "lens") with false.
    change (is_type (Some (JStr "visualization")) "visualization") with true.
    cbv iota.
    eexists. eexists. eexists. split; [reflexivity|]. split; [reflexivity|].
    split; [reflexivity|]. split; [reflexivity|].
    split; [apply encodes_stringify; now apply valid_visState|].
    split; [apply encodes_stringify; auto with valid|].
    split; [reflexivity|].
    apply encodes_stringify. auto using valid_default_searchSource with valid.
  - open_record Htype Htitle "map".
    change (is_type (Some (JStr "map")) "lens") with false.
    change (is_type (Some (JStr "map")) "visualization") with false.
    change (is_type (Some (JStr "map")) "map") with true.
    cbv iota.
    eexists. eexists. split; [reflexivity|]. split; [reflexivity|].
    split; [reflexivity|]. split; [reflexivity|].
    repeat split; apply string_or_stringify_spec; auto with valid.
  - open_record Htype Htitle "search".
    change (is_type (Some (JStr "search")) "lens") with false.
    change (is_type (Some (JStr "search")) "visualization") with false.
    change (is_type (Some (JStr "search")) "map") with false.
    change (is_type (Some (JStr "search")) "search") with true.
    cbv iota. fold (embeddableConfig_of panel). fold (attributes_of panel).
    eexists. eexists. split; [reflexivity|]. split; [reflexivity|].
    split; [reflexivity|]. split; [reflexivity|].
    destruct (attributes_of panel); reflexivity.
Qed.

Lemma synthesizer_roundtrip_witness :
  exists record attributes,
    savedObject scenario_D sales_panel = Ok record
    /\ lookup record "attributes" = Some attributes
    /\ lookup attributes "title" = Some (JStr "Sales")
    /\ lookup attributes "description" = Some (JStr "Monthly sales")
    /\ encodes (lookup attributes "state") sales_state.
Proof.
  destruct (synthesizer_roundtrip scenario_D sales_panel (JStr "Sales")
              eq_refl eq_refl) as (H & _).
  exact (H eq_refl).
Defined.

(** C5 as stated fails: an inline lens panel whose own title is the empty
    string, and which has no other title, gets the title "Untitled Panel"
    in its record. *)
Lemma roundtrip_counterexample :
  ~ lens_roundtrip_claim scenario_D untitled_panel
  /\ opt_member (opt_member (lookup untitled_panel "embeddableConfig")
                   "attributes") "title" = Some (JStr "")
  /\ exists record,
       savedObject scenario_D untitled_panel = Ok record
       /\ opt_member (lookup record "attributes") "title"
          = Some (JStr "Untitled Panel").
Proof.
  split; [|split; [reflexivity | eexists; split; reflexivity]].
  intros H.
  destruct (H _ _ _ eq_refl eq_refl eq_refl) as (Ht & _).
  specialize (Ht (JStr "") eq_refl). discriminate.
Qed.

(* ================================================================== *)
(** * Resource aggregator *)
(* ================================================================== *)

(** On a dashboard page with an id, the scan is decided by the API
    harvest. *)
Lemma getAllResources_dashboard (w : world) (main : json) :
  detectSavedObject w = Some main ->
  includes "/app/dashboards" (href w) = true ->
  truthy (lookup main "id") = true ->
  run (getAllResources w)
  = match run (getEmbeddedPanelsFromAPI w (lookup main "id")) with
    | (tr, Ok panels) => (tr, Ok (main :: panels))
    | (tr, Throw e) => (tr, dom_fallback w main)
    | (tr, Unmodelled) => (tr, Unmodelled)
    end.
Proof.
  intros Hd Hurl Hid. unfold getAllResources. rewrite Hd, Hurl.
  assert (Hm : opt_member (Some main) "id" = lookup main "id")
    by (destruct main; try reflexivity; discriminate).
  rewrite Hm, Hid. cbn [andb]. unfold run, try_catch, bind_io.
  destruct (getEmbeddedPanelsFromAPI w (lookup main "id") []) as [tr [panels|e|]];
    try reflexivity.
  unfold dom_fallback, lift, ret. destruct (detectEmbeddedPanels w); reflexivity.
Qed.

Lemma detected_id_truthy (w : world) (main : json) :
  detectSavedObject w = Some main ->
  exists id, lookup main "id" = Some (JStr id) /\ truthy (lookup main "id") = true.
Proof.
  intros Hd. unfold detectSavedObject in Hd.
  pose proof (detect_in_spec w KIBANA_PATTERNS) as H. rewrite Hd in H.
  destruct H as (type & pat & id & _ & _ & _ & _ & (before & (rest & _ & Hne & _) & _) & ->).
  exists id. rewrite detected_id. split; [reflexivity|].
  destruct id; [congruence | reflexivity].
Qed.

(** The harvest, by what the server answers. *)
Lemma harvest_by_answer (w : world) (id : string) :
  run (getEmbeddedPanelsFromAPI w (Some (JStr id)))
  = ([dashboard_request w id],
     match fetch w (dashboard_request w id) with
     | Ok r =>
         if resp_ok r
         then dashboard <- response_json r ;;
              panels_of_dashboard (Some (JStr id)) dashboard
         else Throw (Error ("Failed to fetch dashboard: " ++ print_Z (resp_status r)))
     | Throw e => Throw e
     | Unmodelled => Unmodelled
     end).
Proof.
  unfold run, getEmbeddedPanelsFromAPI, fetchDashboardData, bind_io, lift, do_fetch,
    getKibanaBaseUrl. cbn [to_js_string app].
  fold (dashboard_request w id).
  destruct (fetch w (dashboard_request w id)) as [r| |]; try reflexivity.
  destruct (resp_ok r); cbn [negb]; [|reflexivity].
  destruct (response_json r); reflexivity.
Qed.

(** What the fallback gives, by what the DOM harvest gives. *)
Lemma fallback_outcome (w : world) (main : json) (tr : list http_request) :
  run (getAllResources w) = (tr, dom_fallback w main) -> falls_back w main tr.
Proof.
  intros H. split; [exact H|].
  split; intros x Hx; rewrite H; unfold dom_fallback; now rewrite Hx.
Qed.

(** C8, as the code has it.  On a dashboard page with an id, whenever the
    API harvest throws (the fetch fails, the server answers with an error
    status, the panel list is not valid JSON or not an array) the scan
    falls back to the DOM path: when the DOM harvest returns, the scan
    returns the primary resource followed by the panels of the DOM path;
    the fallback is not guarded, so when the DOM harvest throws the scan
    aborts with that exception.  A document without a panel list is not a
    failure: the API harvest is empty, no fallback takes place and the
    scan returns the primary resource alone. *)
Theorem aggregator_fallback (w : world) (main : json) (id : string) :
  detectSavedObject w = Some main ->
  includes "/app/dashboards" (href w) = true ->
  lookup main "id" = Some (JStr id) ->
  (forall tr e,
     run (getEmbeddedPanelsFromAPI w (Some (JStr id))) = (tr, Throw e) ->
     falls_back w main tr)
  /\ (forall e,
      fetch w (dashboard_request w id) = Throw e ->
      falls_back w main [dashboard_request w id])
  /\ (forall r,
      fetch w (dashboard_request w id) = Ok r -> resp_ok r = false ->
      falls_back w main [dashboard_request w id])
  /\ (forall r dashboard text e,
      fetch w (dashboard_request w id) = Ok r -> resp_ok r = true ->
      response_json r = Ok dashboard ->
      opt_member (lookup dashboard "attributes") "panelsJSON" = Some (JStr text) ->
      text <> "" -> JSON.parse text = Throw e ->
      falls_back w main [dashboard_request w id])
  /\ (forall r dashboard text parsed,
      fetch w (dashboard_request w id) = Ok r -> resp_ok r = true ->
      response_json r = Ok dashboard ->
      opt_member (lookup dashboard "attributes") "panelsJSON" = Some (JStr text) ->
      JSON.parse text = Ok parsed -> (forall panels, parsed <> JArr panels) ->
      falls_back w main [dashboard_request w id])
  /\ (forall r dashboard,
      fetch w (dashboard_request w id) = Ok r -> resp_ok r = true ->
      response_json r = Ok dashboard -> dashboard <> JNull ->
      truthy (opt_member (lookup dashboard "attributes") "panelsJSON") = false ->
      run (getAllResources w) = ([dashboard_request w id], Ok [main])).
Proof.
  intros Hd Hurl Hid.
  destruct (detected_id_truthy w main Hd) as (id' & Hid' & Ht).
  pose proof (getAllResources_dashboard w main Hd Hurl Ht) as Hscan.
  rewrite Hid in Hscan.
  split; [|split; [|split; [|split; [|split]]]].
  - intros tr e H. apply fallback_outcome. now rewrite Hscan, H.
  - intros e Hf. apply fallback_outcome. rewrite Hscan, harvest_by_answer.
    now rewrite Hf.
  - intros r Hf Hok. apply fallback_outcome. rewrite Hscan, harvest_by_answer.
    now rewrite Hf, Hok.
  - intros r dashboard text e Hf Hok Hj Hp Hne Hparse. apply fallback_outcome.
    rewrite Hscan, harvest_by_answer. rewrite Hf, Hok, Hj. cbn [bind].
    unfold panels_of_dashboard.
    assert (Hnn : dashboard <> JNull) by (intros ->; discriminate).
    rewrite member_not_null by assumption. cbn [bind]. rewrite Hp.
    assert (Htr : truthy (Some (JStr text)) = true)
      by (destruct text; [congruence | reflexivity]).
    rewrite Htr. cbn [negb]. unfold JSON_parse_value. cbn [to_js_string bind].
    now rewrite Hparse.
  - intros r dashboard text parsed Hf Hok Hj Hp Hparse Hna. apply fallback_outcome.
    rewrite Hscan, harvest_by_answer. rewrite Hf, Hok, Hj. cbn [bind].
    unfold panels_of_dashboard.
    assert (Hnn : dashboard <> JNull) by (intros ->; discriminate).
    rewrite member_not_null by assumption. cbn [bind]. rewrite Hp.
    rewrite (parse_truthy _ _ Hparse). cbn [negb].
    unfold JSON_parse_value. cbn [to_js_string bind]. rewrite Hparse. cbn [bind].
    destruct parsed; try reflexivity. now elim (Hna items).
  - intros r dashboard Hf Hok Hj Hnn Hp.
    rewrite Hscan, harvest_by_answer. rewrite Hf, Hok, Hj. cbn [bind].
    unfold panels_of_dashboard. rewrite member_not_null by assumption.
    cbn [bind]. now rewrite Hp.
Qed.

(** With the server out of reach, a page that shows three panels is
    scanned through the DOM path; a page with a container that makes
    [extractPanelInfo] throw is not scanned at all. *)
Lemma aggregator_fallback_witness :
  run (getAllResources offline_page)
  = ([dashboard_request offline_page "abc-123"],
     Ok [ JObj [ ("type", JStr "dashboard"); ("id", JStr "abc-123");
                 ("title", JStr "Web traffic"); ("url", JStr scenario_A_url) ];
          JObj [("type", JStr "visualization"); ("id", JNull); ("title", JStr "Notes")];
          JObj [("type", JStr "lens"); ("id", JNull); ("title", JStr "Sales")];
          JObj [("type", JStr "map"); ("id", JNull); ("title", JStr "Sites")] ])
  /\ run (getAllResources broken_page)
     = ([dashboard_request broken_page "abc-123"], Throw TypeError).
Proof.
  split.
  - destruct (aggregator_fallback offline_page _ "abc-123" eq_refl eq_refl eq_refl)
      as (_ & H & _).
    destruct (H TypeError eq_refl) as (_ & Hok & _).
    exact (Hok _ eq_refl).
  - destruct (aggregator_fallback broken_page _ "abc-123" eq_refl eq_refl eq_refl)
      as (_ & H & _).
    destruct (H TypeError eq_refl) as (_ & _ & Hthrow).
    exact (Hthrow _ eq_refl).
Defined.

(** C8 as stated fails twice.  For a missing panel list: the document of
    the dashboard has no [panelsJSON], the page shows three panels, and
    the scan returns the dashboard alone.  For a failed fetch on a page
    where the DOM harvest throws: the fallback runs inside the catch
    block, nothing catches its exception, and the scan aborts. *)
Lemma aggregator_counterexample :
  ~ missing_list_claim listless_page
  /\ snd (run (getAllResources listless_page))
     = Ok [ JObj [ ("type", JStr "dashboard"); ("id", JStr "abc-123");
                   ("title", JStr "Web traffic"); ("url", JStr scenario_A_url) ] ]
  /\ (exists dom, detectEmbeddedPanels listless_page = Ok dom /\ List.length dom = 3%nat)
  /\ ~ no_abort_claim broken_page
  /\ fetch broken_page (dashboard_request broken_page "abc-123") = Throw TypeError
  /\ detectEmbeddedPanels broken_page = Throw TypeError
  /\ run (getAllResources broken_page)
     = ([dashboard_request broken_page "abc-123"], Throw TypeError).
Proof.
  split; [|split; [vm_compute; reflexivity|]].
  { intros H.
    specialize (H _ _ listless_document _ eq_refl
                  ltac:(vm_compute; reflexivity) eq_refl
                  ltac:(vm_compute; reflexivity)).
    vm_compute in H. discriminate. }
  split; [eexists; split; vm_compute; reflexivity|].
  split; [|repeat split; vm_compute; reflexivity].
  intros H.
  destruct (H _ _ _ eq_refl ltac:(vm_compute; reflexivity)) as [panels Hp].
  vm_compute in Hp. discriminate.
Qed.

(* ================================================================== *)
(** * The scan handler *)
(* ================================================================== *)

Lemma getAllResources_unrecognized (w : world) :
  detectSavedObject w = None -> run (getAllResources w) = ([], Ok []).
Proof.
  intros H. unfold getAllResources. rewrite H. cbn [opt_member truthy].
  now rewrite andb_false_r.
Qed.

(** C9.  The answer of the scan handler always holds a [resources] list:
    the resources gathered, or the empty list when gathering them threw.
    The handler never passes the error on, so a failed scan answers like a
    page where nothing is recognized. *)
Theorem scan_always_answers (w : world) :
  (forall tr found,
     run (getAllResources w) = (tr, Ok found) ->
     run (onGetAllResources w) = (tr, Ok {| resources := found |}))
  /\ (forall tr e,
      run (getAllResources w) = (tr, Throw e) ->
      run (onGetAllResources w) = (tr, Ok {| resources := [] |}))
  /\ (forall tr e, run (onGetAllResources w) <> (tr, Throw e))
  /\ (forall tr e w',
      run (getAllResources w) = (tr, Throw e) ->
      detectSavedObject w' = None ->
      snd (run (onGetAllResources w)) = snd (run (onGetAllResources w'))).
Proof.
  assert (Hok : forall tr found,
            run (getAllResources w) = (tr, Ok found) ->
            run (onGetAllResources w) = (tr, Ok {| resources := found |})).
  { intros tr found H. unfold run, onGetAllResources, try_catch, bind_io in *.
    now rewrite H. }
  assert (Hthrow : forall tr e,
            run (getAllResources w) = (tr, Throw e) ->
            run (onGetAllResources w) = (tr, Ok {| resources := [] |})).
  { intros tr e H. unfold run, onGetAllResources, try_catch, bind_io in *.
    now rewrite H. }
  split; [exact Hok|]. split; [exact Hthrow|]. split.
  - intros tr e. unfold run, onGetAllResources, try_catch, bind_io.
    destruct (getAllResources w []) as [tr' [found|e'|]]; unfold ret; congruence.
  - intros tr e w' H Hnone. rewrite (Hthrow tr e H).
    unfold run, onGetAllResources, try_catch, bind_io.
    pose proof (getAllResources_unrecognized w' Hnone) as E. unfold run in E.
    now rewrite E.
Qed.

Lemma scan_always_answers_witness :
  run (getAllResources broken_page)
  = ([dashboard_request broken_page "abc-123"], Throw TypeError)
  /\ run (onGetAllResources broken_page)
     = ([dashboard_request broken_page "abc-123"], Ok {| resources := [] |})
  /\ snd (run (onGetAllResources broken_page))
     = snd (run (onGetAllResources home_page)).
Proof.
  assert (H : run (getAllResources broken_page)
              = ([dashboard_request broken_page "abc-123"], Throw TypeError))
    by reflexivity.
  destruct (scan_always_answers broken_page) as (_ & Ht & _ & Hsame).
  split; [exact H|]. split; [exact (Ht _ _ H)|].
  exact (Hsame _ _ home_page H eq_refl).
Defined.

(* ================================================================== *)
(** * What [JSON.parse] returns *)
(* ================================================================== *)

Lemma parse_nat_safe (s : string) (n : Z) (r : string) :
  JSON.parse_nat s = JSON.Parsed n r -> safe_int n = true.
Proof.
  unfold JSON.parse_nat. destruct s as [|c s]; [discriminate|].
  destruct (is_digit c); [|discriminate].
  destruct ((c =? "0")%char && starts_with_digit s); [discriminate|].
  destruct (read_digits 0 (String c s)) as [m r'].
  destruct r' as [|d r'].
  - destruct (safe_int m) eqn:E; [|discriminate]. intros H. now injection H as <- _.
  - destruct ((d =? ".")%char || (d =? "e")%char || (d =? "E")%char);
      [discriminate|].
    destruct (safe_int m) eqn:E; [|discriminate]. intros H. now injection H as <- _.
Qed.

Lemma parse_number_valid (s : string) (v : json) (r : string) :
  JSON.parse_number s = JSON.Parsed v r -> JSON.valid v = true.
Proof.
  unfold JSON.parse_number.
  destruct (starts_with "-" s) as [t|].
  - destruct (JSON.parse_nat t) as [n r'| |] eqn:E; cbn [JSON.negated];
      try discriminate.
    intros H. injection H as <- _. cbn [JSON.valid].
    rewrite safe_int_opp. exact (parse_nat_safe _ _ _ E).
  - destruct (JSON.parse_nat s) as [n r'| |] eqn:E; cbn [JSON.positive];
      try discriminate.
    intros H. injection H as <- _. exact (parse_nat_safe _ _ _ E).
Qed.

Lemma keyword_valid (word : string) (v : json) (s : string) (x : json) (r : string) :
  JSON.valid v = true -> JSON.keyword word v s = JSON.Parsed x r ->
  JSON.valid x = true.
Proof.
  unfold JSON.keyword. destruct (strip_prefix word s); [|discriminate].
  intros Hv H. now injection H as <- _.
Qed.

Section Parser.
Variable pv : string -> JSON.parsed json.
Hypothesis pv_valid : forall s v r, pv s = JSON.Parsed v r -> JSON.valid v = true.

Lemma parse_elements_valid (n : nat) : forall s vs r,
  JSON.parse_elements pv n s = JSON.Parsed vs r -> forallb JSON.valid vs = true.
Proof.
  induction n as [|n IH]; intros s vs r; cbn [JSON.parse_elements]; [discriminate|].
  destruct (pv s) as [v r1| |] eqn:Ev; try discriminate.
  destruct (JSON.skip_ws r1) as [|c r2]; [discriminate|].
  destruct (c =? ",")%char.
  - destruct (JSON.parse_elements pv n r2) as [vs' r3| |] eqn:E; try discriminate.
    intros H. injection H as <- _. cbn [forallb].
    now rewrite (pv_valid _ _ _ Ev), (IH _ _ _ E).
  - destruct (c =? "]")%char; [|discriminate].
    intros H. injection H as <- _. cbn [forallb].
    now rewrite (pv_valid _ _ _ Ev).
Qed.

Lemma parse_members_valid (n : nat) : forall s kvs r,
  JSON.parse_members pv n s = JSON.Parsed kvs r ->
  forallb (fun kv => JSON.valid (snd kv)) kvs = true.
Proof.
  induction n as [|n IH]; intros s kvs r; cbn [JSON.parse_members]; [discriminate|].
  destruct (JSON.skip_ws s) as [|q r0]; [discriminate|].
  destruct (q =? dquote)%char; [|discriminate].
  destruct (JSON.parse_chars r0) as [k r1| |]; try discriminate.
  destruct (JSON.skip_ws r1) as [|colon r2]; [discriminate|].
  destruct (colon =? ":")%char; [|discriminate].
  destruct (pv r2) as [v r3| |] eqn:Ev; try discriminate.
  destruct (JSON.skip_ws r3) as [|c r4]; [discriminate|].
  destruct (c =? ",")%char.
  - destruct (JSON.parse_members pv n r4) as [kvs' r5| |] eqn:E; try discriminate.
    intros H. injection H as <- _. cbn [forallb snd].
    now rewrite (pv_valid _ _ _ Ev), (IH _ _ _ E).
  - destruct (c =? "}")%char; [|discriminate].
    intros H. injection H as <- _. cbn [forallb snd].
    now rewrite (pv_valid _ _ _ Ev).
Qed.
End Parser.

Lemma set_field_keys (a k : string) (v : json) (l : list (string * json)) :
  existsb (String.eqb a) (map fst (set_field k v l))
  = existsb (String.eqb a) (map fst l) || (a =? k)%string.
Proof.
  induction l as [|[k' v'] l IH]; cbn [set_field map fst existsb].
  - now rewrite orb_false_r.
  - destruct (String.eqb_spec k k') as [->|Hne]; cbn [map fst existsb].
    + destruct (a =? k')%string; [reflexivity | now rewrite orb_false_r].
    + rewrite IH. now rewrite orb_assoc.
Qed.

Lemma set_field_distinct (k : string) (v : json) (l : list (string * json)) :
  JSON.distinct (map fst l) = true ->
  JSON.distinct (map fst (set_field k v l)) = true.
Proof.
  induction l as [|[k' v'] l IH]; cbn [set_field map fst JSON.distinct];
    [reflexivity|].
  intros H. apply andb_true_iff in H as [Hk Hd].
  destruct (String.eqb_spec k k') as [->|Hne]; cbn [map fst JSON.distinct].
  - now rewrite Hk, Hd.
  - rewrite set_field_keys, IH by assumption.
    apply negb_true_iff in Hk. rewrite Hk.
    destruct (String.eqb_spec k' k) as [->|_]; [congruence | reflexivity].
Qed.

Lemma set_field_valid (k : string) (v : json) (l : list (string * json)) :
  JSON.valid v = true ->
  forallb (fun kv => JSON.valid (snd kv)) l = true ->
  forallb (fun kv => JSON.valid (snd kv)) (set_field k v l) = true.
Proof.
  intros Hv. induction l as [|[k' v'] l IH]; cbn [set_field forallb snd].
  - now rewrite Hv.
  - intros H. apply andb_true_iff in H as [H1 H2].
    destruct (k =? k')%string; cbn [forallb snd].
    + now rewrite Hv, H2.
    + now rewrite H1, IH.
Qed.

(** Writing valid members over a valid object gives a valid object. *)
Lemma spread_fields_valid (l acc : list (string * json)) :
  forallb (fun kv => JSON.valid (snd kv)) l = true ->
  JSON.valid (JObj acc) = true ->
  JSON.valid (JObj (fold_left (fun a kv => set_field (fst kv) (snd kv) a) l acc))
  = true.
Proof.
  revert acc. induction l as [|[k v] l IH]; intros acc Hl Hacc; [assumption|].
  cbn [forallb snd] in Hl. apply andb_true_iff in Hl as [Hv Hl].
  cbn [fold_left fst snd]. apply IH; [assumption|].
  cbn [JSON.valid] in *. apply andb_true_iff in Hacc as [Hd Ha].
  now rewrite set_field_distinct, set_field_valid.
Qed.

Lemma parse_value_valid (fuel : nat) : forall s v r,
  JSON.parse_value fuel s = JSON.Parsed v r -> JSON.valid v = true.
Proof.
  induction fuel as [|f IH]; intros s v r; cbn [JSON.parse_value]; [discriminate|].
  destruct (JSON.skip_ws s) as [|c t]; [discriminate|].
  destruct (c =? "n")%char; [now apply keyword_valid|].
  destruct (c =? "t")%char; [now apply keyword_valid|].
  destruct (c =? "f")%char; [now apply keyword_valid|].
  destruct (c =? dquote)%char.
  { destruct (JSON.parse_chars t); try discriminate.
    intros H. now injection H as <- _. }
  destruct (c =? "[")%char.
  { destruct (starts_with "]" (JSON.skip_ws t)).
    - intros H. now injection H as <- _.
    - destruct (JSON.parse_elements _ _ t) as [vs r'| |] eqn:E; try discriminate.
      intros H. injection H as <- _. cbn [JSON.valid].
      exact (parse_elements_valid _ IH _ _ _ _ E). }
  destruct (c =? "{")%char.
  { destruct (starts_with "}" (JSON.skip_ws t)).
    - intros H. now injection H as <- _.
    - destruct (JSON.parse_members _ _ t) as [kvs r'| |] eqn:E; try discriminate.
      intros H. injection H as <- _. unfold JSON.object_of.
      apply spread_fields_valid; [|reflexivity].
      exact (parse_members_valid _ IH _ _ _ _ E). }
  apply parse_number_valid.
Qed.

(** [JSON.parse] returns values that stand for a JavaScript value. *)
Lemma parse_valid (text : string) (v : json) :
  JSON.parse text = Ok v -> JSON.valid v = true.
Proof.
  unfold JSON.parse.
  destruct (JSON.parse_value _ text) as [x r| |] eqn:E; try discriminate.
  destruct (JSON.skip_ws r); [|discriminate].
  intros H. injection H as <-. exact (parse_value_valid _ _ _ _ E).
Qed.

(* ================================================================== *)
(** * [JSON.parse] undoes [JSON.stringify] with an indentation *)
(* ================================================================== *)

Lemma blank_app (a b : string) : blank a = true -> blank b = true -> blank (a ++ b) = true.
Proof.
  induction a as [|c a IH]; cbn [append blank]; [trivial|].
  intros H Hb. apply andb_true_iff in H as [-> H]. now apply IH.
Qed.

Lemma skip_ws_blank (b s : string) :
  blank b = true -> JSON.skip_ws (b ++ s) = JSON.skip_ws s.
Proof.
  induction b as [|c b IH]; cbn [append blank]; [trivial|].
  intros H. apply andb_true_iff in H as [Hc H]. cbn [JSON.skip_ws].
  rewrite Hc. now apply IH.
Qed.

Lemma parse_value_blank (fuel : nat) (b s : string) :
  blank b = true -> JSON.parse_value fuel (b ++ s) = JSON.parse_value fuel s.
Proof.
  intros H. destruct fuel; cbn [JSON.parse_value]; [reflexivity|].
  now rewrite skip_ws_blank.
Qed.

Lemma closes_ends_number (rest : string) : closes rest -> JSON.ends_number rest.
Proof.
  destruct rest as [|c r]; cbn [closes JSON.ends_number]; [trivial|].
  intros [ -> | [ -> | [ -> | H ] ] ]; try (repeat split; discriminate).
  unfold JSON.is_ws in H.
  repeat (apply orb_true_iff in H as [H|H]); apply Ascii.eqb_eq in H; subst c;
    repeat split; discriminate.
Qed.

Lemma closes_blank (b : string) (c : ascii) (rest : string) :
  blank b = true -> c = "]"%char \/ c = "}"%char -> closes (b ++ String c rest).
Proof.
  destruct b as [|d b]; cbn [append blank closes].
  - intros _ [ -> | -> ]; auto.
  - intros H _. apply andb_true_iff in H as [H _]. auto.
Qed.

(** A value that is neither an array nor an object is read back whatever
    closes it. *)
Lemma parse_scalar (v : json) (f : nat) (rest : string) :
  match v with JArr _ | JObj _ => False | _ => True end ->
  JSON.valid v = true -> closes rest ->
  JSON.parse_value (S f) (JSON.stringify v ++ rest) = JSON.Parsed v rest.
Proof.
  intros Hs Hv Hrest. destruct v as [|b|n|s|l|l]; try contradiction.
  - reflexivity.
  - destruct b; reflexivity.
  - cbn [JSON.stringify JSON.valid] in *.
    destruct (print_Z_head n) as (c & r & E & Hc).
    pose proof (parse_number_print n rest Hv (closes_ends_number _ Hrest)) as Hp.
    rewrite E in *. cbn [append] in *. now rewrite parse_value_number.
  - cbn [JSON.stringify].
    destruct (parse_chars_quote s rest) as (body & -> & Hbody).
    cbn [JSON.parse_value JSON.skip_ws].
    change (JSON.is_ws dquote) with false. cbv iota.
    change (dquote =? "n")%char with false.
    change (dquote =? "t")%char with false.
    change (dquote =? "f")%char with false.
    change (dquote =? dquote)%char with true. cbv iota.
    now rewrite Hbody.
Qed.

Lemma indented_scalar (ind : string) (v : json) :
  match v with JArr _ | JObj _ => False | _ => True end ->
  JSON.indented ind v = JSON.stringify v.
Proof. destruct v; try contradiction; reflexivity. Qed.

Lemma indented_head (ind : string) (v : json) :
  exists c r, JSON.indented ind v = String c r /\ JSON.opens_value c.
Proof.
  destruct v as [|b|n|s|l|l];
    try (rewrite indented_scalar by exact I; apply stringify_head).
  - destruct l; cbn [JSON.indented append]; eexists _, _;
      (split; [reflexivity | repeat split]).
  - destruct l; cbn [JSON.indented append]; eexists _, _;
      (split; [reflexivity | repeat split]).
Qed.

Lemma join_with_cons (sep s t : string) (l : list string) :
  JSON.join_with sep (s :: t :: l) = s ++ sep ++ JSON.join_with sep (t :: l).
Proof. reflexivity. Qed.

Lemma join_with_length (sep : string) (l : list string) :
  Forall (fun s => (1 <= String.length s)%nat) l ->
  (List.length l <= String.length (JSON.join_with sep l))%nat.
Proof.
  induction 1 as [|s l Hs Hl IH]; [simpl; lia|].
  destruct l as [|t l]; [simpl; lia|].
  rewrite join_with_cons, !length_append. simpl in *. lia.
Qed.

Section Lines.
Variable pv : string -> JSON.parsed json.
Variable text : json -> string.
Variable lead trail : string.
Hypothesis lead_blank : blank lead = true.
Hypothesis trail_blank : blank trail = true.

(** The elements of an indented array. *)
Lemma parse_elements_indented :
  forall l,
  l <> [] ->
  Forall (fun x => forall b rest, blank b = true -> closes rest ->
                     pv (b ++ text x ++ rest) = JSON.Parsed x rest) l ->
  forall n rest,
  (List.length l <= n)%nat ->
  JSON.parse_elements pv n
    (lead ++ JSON.join_with ("," ++ lead) (map text l) ++ trail ++ String "]" rest)
  = JSON.Parsed l rest.
Proof.
  induction l as [|x l IH]; intros Hne Hall n rest Hn; [congruence|].
  inversion Hall as [|? ? Hx Hl]; subst.
  destruct n as [|n]; [simpl in Hn; lia|].
  destruct l as [|y l].
  - cbn [map JSON.join_with JSON.parse_elements].
    rewrite Hx by (auto using closes_blank).
    rewrite skip_ws_blank by assumption. cbn [JSON.skip_ws].
    change (JSON.is_ws "]") with false. cbv iota. reflexivity.
  - cbn [map]. rewrite join_with_cons, !append_assoc.
    cbn [JSON.parse_elements]. rewrite Hx by (simpl; auto).
    cbn [append JSON.skip_ws].
    change (JSON.is_ws ",") with false. cbv iota.
    change ("," =? ",")%char with true. cbv iota.
    change (text y :: map text l) with (map text (y :: l)).
    rewrite IH; [reflexivity | discriminate | assumption | simpl in *; lia].
Qed.

(** The members of an indented object. *)
Lemma parse_members_indented :
  forall l,
  l <> [] ->
  Forall (fun kv => forall b rest, blank b = true -> closes rest ->
                      pv (b ++ text (snd kv) ++ rest) = JSON.Parsed (snd kv) rest) l ->
  forall n rest,
  (List.length l <= n)%nat ->
  JSON.parse_members pv n
    (lead ++ JSON.join_with ("," ++ lead) (map (member_line text) l)
     ++ trail ++ String "}" rest)
  = JSON.Parsed l rest.
Proof.
  induction l as [|[k v] l IH]; intros Hne Hall n rest Hn; [congruence|].
  inversion Hall as [|? ? Hx Hl]; subst. cbn [snd] in Hx.
  destruct n as [|n]; [simpl in Hn; lia|].
  assert (Hstep : forall tail,
    closes tail ->
    JSON.parse_members pv (S n) (lead ++ member_line text (k, v) ++ tail)
    = match JSON.skip_ws tail with
      | String c r4 =>
          if (c =? ",")%char
          then match JSON.parse_members pv n r4 with
               | JSON.Parsed kvs r => JSON.Parsed ((k, v) :: kvs) r
               | JSON.Malformed => JSON.Malformed
               | JSON.Beyond => JSON.Beyond
               end
          else if (c =? "}")%char then JSON.Parsed [(k, v)] r4
          else JSON.Malformed
      | EmptyString => JSON.Malformed
      end).
  { intros tail Htail. unfold member_line. cbn [fst snd].
    rewrite !append_assoc.
    destruct (parse_chars_quote k (": " ++ text v ++ tail))
      as (body & -> & Hbody).
    cbn [JSON.parse_members]. rewrite skip_ws_blank by assumption.
    cbn [JSON.skip_ws].
    change (JSON.is_ws dquote) with false. cbv iota.
    change (dquote =? dquote)%char with true. cbv iota.
    rewrite Hbody. cbn [append JSON.skip_ws].
    change (JSON.is_ws ":") with false. cbv iota.
    change (":" =? ":")%char with true. cbv iota.
    change (String " " (text v ++ tail)) with (" " ++ text v ++ tail).
    rewrite Hx by (auto). reflexivity. }
  destruct l as [|y l].
  - cbn [map JSON.join_with]. rewrite Hstep by (auto using closes_blank).
    rewrite skip_ws_blank by assumption. cbn [JSON.skip_ws].
    change (JSON.is_ws "}") with false. cbv iota. reflexivity.
  - cbn [map]. rewrite join_with_cons, !append_assoc.
    rewrite Hstep by (simpl; auto).
    cbn [append JSON.skip_ws].
    change (JSON.is_ws ",") with false. cbv iota.
    change ("," =? ",")%char with true. cbv iota.
    change (member_line text y :: map (member_line text) l)
      with (map (member_line text) (y :: l)).
    rewrite IH; [reflexivity | discriminate | assumption | simpl in *; lia].
Qed.
End Lines.

Lemma blank_newline (ind : string) :
  blank ind = true -> blank (JSON.newline ++ ind) = true.
Proof. intros H. cbn [JSON.newline append blank]. now rewrite H. Qed.

Lemma indented_length (ind : string) (v : json) :
  (1 <= String.length (JSON.indented ind v))%nat.
Proof.
  destruct (indented_head ind v) as (c & r & E & _). rewrite E. simpl. lia.
Qed.

Lemma parse_value_indented (v : json) :
  JSON.valid v = true ->
  forall fuel ind rest,
  (JSON.depth v < fuel)%nat -> blank ind = true -> closes rest ->
  JSON.parse_value fuel (JSON.indented ind v ++ rest) = JSON.Parsed v rest.
Proof.
  induction v as [|b|n|s|l IH|l IH] using json_ind;
    intros Hv [|f] ind rest Hf Hind Hrest; try (exfalso; lia);
    try (rewrite indented_scalar by exact I; now apply parse_scalar).
  - (* arrays *)
    destruct l as [|x l]; [reflexivity|].
    assert (Hind' : blank (ind ++ "  ") = true) by now apply blank_app.
    assert (Hlead : blank (JSON.newline ++ ind ++ "  ") = true)
      by now apply blank_newline.
    assert (Htrail : blank (JSON.newline ++ ind) = true)
      by now apply blank_newline.
    cbn [JSON.valid JSON.depth] in *.
    change (JSON.indented ind (JArr (x :: l)))
      with ("[" ++ JSON.newline ++ (ind ++ "  ")
            ++ JSON.join_with ("," ++ JSON.newline ++ (ind ++ "  "))
                 (map (JSON.indented (ind ++ "  ")) (x :: l))
            ++ JSON.newline ++ ind ++ "]").
    set (texts := map (JSON.indented (ind ++ "  ")) (x :: l)).
    assert (Eshape :
      ("[" ++ JSON.newline ++ (ind ++ "  ")
         ++ JSON.join_with ("," ++ JSON.newline ++ (ind ++ "  ")) texts
         ++ JSON.newline ++ ind ++ "]") ++ rest
      = String "[" ((JSON.newline ++ ind ++ "  ")
                    ++ JSON.join_with ("," ++ JSON.newline ++ ind ++ "  ") texts
                    ++ (JSON.newline ++ ind) ++ String "]" rest)).
    { rewrite !append_assoc. reflexivity. }
    rewrite Eshape. clear Eshape.
    set (lead := JSON.newline ++ ind ++ "  ") in *.
    set (trail := JSON.newline ++ ind) in *.
    cbn [JSON.parse_value JSON.skip_ws].
    change (JSON.is_ws "[") with false. cbv iota.
    change ("[" =? "n")%char with false.
    change ("[" =? "t")%char with false.
    change ("[" =? "f")%char with false.
    change ("[" =? dquote)%char with false.
    change ("[" =? "[")%char with true. cbv iota.
    destruct (indented_head (ind ++ "  ") x) as (c & r & E & Hws & Hc & _).
    assert (Hbody : exists r', JSON.join_with ("," ++ lead) texts
                               ++ trail ++ String "]" rest = String c r').
    { unfold texts. destruct l as [|y l]; cbn [map].
      - cbn [JSON.join_with]. rewrite E. now eexists.
      - rewrite join_with_cons, E. now eexists. }
    destruct Hbody as (r' & Hbody).
    rewrite skip_ws_blank by assumption.
    rewrite Hbody, skip_ws_head by assumption. cbn [starts_with]. rewrite Hc.
    rewrite <- Hbody.
    unfold texts.
    rewrite (parse_elements_indented (JSON.parse_value f)
               (JSON.indented (ind ++ "  ")) lead trail Hlead Htrail);
      [reflexivity | discriminate | |].
    + rewrite Forall_forall in IH |- *. intros y Hy b rest' Hb Hrest'.
      rewrite parse_value_blank by assumption.
      apply IH; [assumption | | | assumption | assumption].
      * rewrite forallb_forall in Hv. now apply Hv.
      * pose proof (depth_element y _ Hy). lia.
    + rewrite !length_append.
      pose proof (join_with_length ("," ++ lead)
                    (map (JSON.indented (ind ++ "  ")) (x :: l))) as Hlen.
      rewrite length_map in Hlen.
      assert (Hall : Forall (fun s => (1 <= String.length s)%nat)
                       (map (JSON.indented (ind ++ "  ")) (x :: l))).
      { rewrite Forall_forall. intros s' Hin. apply in_map_iff in Hin as (y & <- & _).
        apply indented_length. }
      specialize (Hlen Hall). lia.
  - (* objects *)
    destruct l as [|kv l]; [reflexivity|].
    assert (Hind' : blank (ind ++ "  ") = true) by now apply blank_app.
    assert (Hlead : blank (JSON.newline ++ ind ++ "  ") = true)
      by now apply blank_newline.
    assert (Htrail : blank (JSON.newline ++ ind) = true)
      by now apply blank_newline.
    cbn [JSON.valid JSON.depth] in *.
    apply andb_true_iff in Hv as [Hkeys Hv].
    change (JSON.indented ind (JObj (kv :: l)))
      with ("{" ++ JSON.newline ++ (ind ++ "  ")
            ++ JSON.join_with ("," ++ JSON.newline ++ (ind ++ "  "))
                 (map (member_line (JSON.indented (ind ++ "  "))) (kv :: l))
            ++ JSON.newline ++ ind ++ "}").
    set (texts := map (member_line (JSON.indented (ind ++ "  "))) (kv :: l)).
    assert (Eshape :
      ("{" ++ JSON.newline ++ (ind ++ "  ")
         ++ JSON.join_with ("," ++ JSON.newline ++ (ind ++ "  ")) texts
         ++ JSON.newline ++ ind ++ "}") ++ rest
      = String "{" ((JSON.newline ++ ind ++ "  ")
                    ++ JSON.join_with ("," ++ JSON.newline ++ ind ++ "  ") texts
                    ++ (JSON.newline ++ ind) ++ String "}" rest)).
    { rewrite !append_assoc. reflexivity. }
    rewrite Eshape. clear Eshape.
    set (lead := JSON.newline ++ ind ++ "  ") in *.
    set (trail := JSON.newline ++ ind) in *.
    cbn [JSON.parse_value JSON.skip_ws].
    change (JSON.is_ws "{") with false. cbv iota.
    change ("{" =? "n")%char with false.
    change ("{" =? "t")%char with false.
    change ("{" =? "f")%char with false.
    change ("{" =? dquote)%char with false.
    change ("{" =? "[")%char with false.
    change ("{" =? "{")%char with true. cbv iota.
    assert (Hbody : exists r', JSON.join_with ("," ++ lead) texts
                               ++ trail ++ String "}" rest = String dquote r').
    { unfold texts. destruct l as [|y l]; cbn [map].
      - cbn [JSON.join_with]. unfold member_line, JSON.quote.
        cbn [append]. now eexists.
      - rewrite join_with_cons. unfold member_line at 1. unfold JSON.quote.
        cbn [append]. now eexists. }
    destruct Hbody as (r' & Hbody).
    rewrite skip_ws_blank by assumption.
    rewrite Hbody. cbn [JSON.skip_ws].
    change (JSON.is_ws dquote) with false. cbv iota.
    cbn [starts_with]. change (dquote =? "}")%char with false. cbv iota.
    rewrite <- Hbody. unfold texts.
    rewrite (parse_members_indented (JSON.parse_value f)
               (JSON.indented (ind ++ "  ")) lead trail Hlead Htrail);
      [| discriminate | |].
    + now rewrite object_of_distinct.
    + rewrite Forall_forall in IH |- *. intros y Hy b rest' Hb Hrest'.
      rewrite parse_value_blank by assumption.
      apply IH; [assumption | | | assumption | assumption].
      * rewrite forallb_forall in Hv. now apply Hv.
      * pose proof (depth_member y _ Hy). lia.
    + rewrite !length_append.
      pose proof (join_with_length ("," ++ lead)
                    (map (member_line (JSON.indented (ind ++ "  "))) (kv :: l)))
        as Hlen.
      rewrite length_map in Hlen.
      assert (Hall : Forall (fun s => (1 <= String.length s)%nat)
                       (map (member_line (JSON.indented (ind ++ "  "))) (kv :: l))).
      { rewrite Forall_forall. intros s' Hin. apply in_map_iff in Hin as (y & <- & _).
        unfold member_line, JSON.quote. cbn [append String.length]. lia. }
      specialize (Hlen Hall). lia.
Qed.

(** An indented text is at least as long as the value is deep. *)
Lemma depth_le_indented (v : json) : forall ind,
  (JSON.depth v <= String.length (JSON.indented ind v))%nat.
Proof.
  induction v as [|b|n|s|l IH|l IH] using json_ind; intros ind;
    try (cbn [JSON.depth]; lia).
  - destruct l as [|x l]; [simpl; lia|].
    change (JSON.indented ind (JArr (x :: l)))
      with ("[" ++ JSON.newline ++ (ind ++ "  ")
            ++ JSON.join_with ("," ++ JSON.newline ++ (ind ++ "  "))
                 (map (JSON.indented (ind ++ "  ")) (x :: l))
            ++ JSON.newline ++ ind ++ "]").
    cbn [JSON.depth]. rewrite !length_append. cbn [String.length].
    enough (fold_right (fun x d => Nat.max (JSON.depth x) d) O (x :: l)
            <= String.length
                 (JSON.join_with ("," ++ JSON.newline ++ (ind ++ "  "))
                    (map (JSON.indented (ind ++ "  ")) (x :: l))))%nat by lia.
    generalize ("," ++ JSON.newline ++ (ind ++ "  ")) as sep.
    generalize (ind ++ "  ") as ind'. intros ind' sep.
    induction IH as [|y l' Hy Hl IHl]; [simpl; lia|].
    destruct l' as [|z l']; [specialize (Hy ind'); simpl in *; lia|].
    cbn [map fold_right] in *. rewrite join_with_cons, !length_append.
    specialize (Hy ind'). lia.
  - destruct l as [|kv l]; [simpl; lia|].
    change (JSON.indented ind (JObj (kv :: l)))
      with ("{" ++ JSON.newline ++ (ind ++ "  ")
            ++ JSON.join_with ("," ++ JSON.newline ++ (ind ++ "  "))
                 (map (member_line (JSON.indented (ind ++ "  "))) (kv :: l))
            ++ JSON.newline ++ ind ++ "}").
    cbn [JSON.depth]. rewrite !length_append. cbn [String.length].
    enough (fold_right (fun kv d => Nat.max (JSON.depth (snd kv)) d) O (kv :: l)
            <= String.length
                 (JSON.join_with ("," ++ JSON.newline ++ (ind ++ "  "))
                    (map (member_line (JSON.indented (ind ++ "  "))) (kv :: l))))%nat
      by lia.
    generalize ("," ++ JSON.newline ++ (ind ++ "  ")) as sep.
    generalize (ind ++ "  ") as ind'. intros ind' sep.
    assert (Hm : forall kv, (String.length (JSON.indented ind' (snd kv))
                             <= String.length
                                  (member_line (JSON.indented ind') kv))%nat).
    { intros kv'. unfold member_line. rewrite !length_append. lia. }
    induction IH as [|y l' Hy Hl IHl]; [simpl; lia|].
    destruct l' as [|z l'].
    + specialize (Hy ind'). specialize (Hm y). simpl in *. lia.
    + cbn [map fold_right] in *. rewrite join_with_cons, !length_append.
      specialize (Hy ind'). specialize (Hm y). lia.
Qed.

(** [JSON.parse(JSON.stringify(v, null, 2))] is [v]. *)
Lemma parse_stringify_indented (v : json) :
  JSON.valid v = true -> JSON.parse (JSON.stringify_indented v) = Ok v.
Proof.
  intros Hv. unfold JSON.parse, JSON.stringify_indented.
  pose proof (parse_value_indented v Hv
                (S (String.length (JSON.indented "" v))) "" "") as H.
  rewrite append_nil_r in H. rewrite H; [reflexivity | | reflexivity | exact I].
  pose proof (depth_le_indented v ""). lia.
Qed.

(* ================================================================== *)
(** * Counting requests *)
(* ================================================================== *)

Lemma at_most_quiet {A : Type} (m : io A) (n : nat) :
  (forall tr, fst (m tr) = tr) -> at_most n m.
Proof. intros H tr. exists []. rewrite H, app_nil_r. split; [reflexivity | simpl; lia]. Qed.

Lemma at_most_ret {A : Type} (a : A) (n : nat) : at_most n (ret a).
Proof. now apply at_most_quiet. Qed.

Lemma at_most_lift {A : Type} (o : outcome A) (n : nat) : at_most n (lift o).
Proof. now apply at_most_quiet. Qed.

Lemma at_most_throw {A : Type} (e : js_error) (n : nat) : at_most n (@throw A e).
Proof. now apply at_most_quiet. Qed.

Lemma at_most_fetch (w : world) (q : http_request) : at_most 1 (do_fetch w q).
Proof. intros tr. exists [q]. split; [reflexivity | simpl; lia]. Qed.

Lemma at_most_bind {A B : Type} (n k : nat) (m : io A) (f : A -> io B) :
  at_most n m -> (forall a, at_most k (f a)) -> at_most (n + k) (bind_io m f).
Proof.
  intros Hm Hf tr. unfold bind_io.
  destruct (Hm tr) as (e1 & E1 & L1).
  destruct (m tr) as [tr' [a| |]]; cbn [fst] in *; subst tr'.
  - destruct (Hf a (tr ++ e1)%list) as (e2 & E2 & L2).
    exists (e1 ++ e2)%list. rewrite E2, app_assoc. split; [reflexivity|].
    rewrite length_app. lia.
  - exists e1. split; [reflexivity | lia].
  - exists e1. split; [reflexivity | lia].
Qed.

Lemma at_most_catch {A : Type} (n k : nat) (m : io A) (h : js_error -> io A) :
  at_most n m -> (forall e, at_most k (h e)) -> at_most (n + k) (try_catch m h).
Proof.
  intros Hm Hh tr. unfold try_catch.
  destruct (Hm tr) as (e1 & E1 & L1).
  destruct (m tr) as [tr' [a|e|]]; cbn [fst] in *; subst tr'.
  - exists e1. split; [reflexivity | lia].
  - destruct (Hh e (tr ++ e1)%list) as (e2 & E2 & L2).
    exists (e1 ++ e2)%list. rewrite E2, app_assoc. split; [reflexivity|].
    rewrite length_app. lia.
  - exists e1. split; [reflexivity | lia].
Qed.

Lemma at_most_requests {A : Type} (n : nat) (m : io A) :
  at_most n m -> (List.length (requests_of m) <= n)%nat.
Proof.
  intros H. unfold requests_of, run. destruct (H []) as (e & -> & L). exact L.
Qed.

(** A computation that starts without a request. *)
Lemma at_most_after {A B : Type} (n : nat) (m : io A) (f : A -> io B) :
  at_most 0 m -> (forall a, at_most n (f a)) -> at_most n (bind_io m f).
Proof. intros Hm Hf. now apply (at_most_bind 0 n). Qed.

(** A computation that makes its request first. *)
Lemma at_most_first {A B : Type} (m : io A) (f : A -> io B) :
  at_most 1 m -> (forall a, at_most 0 (f a)) -> at_most 1 (bind_io m f).
Proof. intros Hm Hf. now apply (at_most_bind 1 0). Qed.

Ltac quiet_step :=
  first [ apply at_most_ret | apply at_most_lift | apply at_most_throw
        | apply at_most_after; [|intros ?]
        | match goal with
          | |- at_most _ (if ?c then _ else _) => destruct c
          | |- at_most _ (match ?x with _ => _ end) => destruct x
          end ].

Lemma exportSavedObject_once (w : world) (type id : jsval) :
  at_most 1 (exportSavedObject w type id).
Proof.
  unfold exportSavedObject. apply at_most_first; [apply at_most_fetch|].
  intros r. repeat quiet_step.
Qed.

Lemma exportViaAlternativeApi_once (w : world) (type id : jsval) :
  at_most 1 (exportViaAlternativeApi w type id).
Proof.
  unfold exportViaAlternativeApi. apply at_most_after; [apply at_most_lift|].
  intros key. destruct (table_get ALTERNATIVE_API_TYPES key);
    [|apply at_most_throw..].
  apply at_most_after; [apply at_most_lift|]. intros text.
  apply at_most_first; [apply at_most_fetch|].
  intros r. repeat quiet_step.
Qed.

Lemma fetchDashboardData_once (w : world) (dashboardId : jsval) :
  at_most 1 (fetchDashboardData w dashboardId).
Proof.
  unfold fetchDashboardData. apply at_most_after; [apply at_most_lift|].
  intros text. apply at_most_first; [apply at_most_fetch|].
  intros r. repeat quiet_step.
Qed.

Lemma exportEmbeddedPanel_once (w : world) (dashboardId panelIndex : jsval) :
  at_most 1 (exportEmbeddedPanel w dashboardId panelIndex).
Proof.
  unfold exportEmbeddedPanel.
  apply at_most_first; [apply fetchDashboardData_once|].
  intros dashboard. repeat quiet_step.
Qed.

Lemma export_content_once (w : world) (request : export_request) :
  at_most 1 (export_content w request).
Proof.
  unfold export_content.
  destruct (truthy (rq_isEmbedded request) && truthy (rq_dashboardId request)
            && truthy (rq_panelIndex request)).
  - apply at_most_first; [apply exportEmbeddedPanel_once|].
    intros content. apply at_most_ret.
  - apply at_most_after.
    + destruct (truthy (rq_useAlternativeApi request));
        [apply at_most_lift | apply at_most_ret].
    + intros alternative. destruct (entry_truthy alternative).
      * apply at_most_first; [apply exportViaAlternativeApi_once|].
        intros content. apply at_most_ret.
      * destruct (truthy (rq_id request)); [|apply at_most_throw].
        apply at_most_first; [apply exportSavedObject_once|].
        intros content. apply at_most_ret.
Qed.

Lemma onExportSavedObject_once (w : world) (request : export_request) :
  at_most 1 (onExportSavedObject w request).
Proof.
  unfold onExportSavedObject. apply (at_most_catch 1 0).
  - apply at_most_first; [apply export_content_once|].
    intros target. repeat quiet_step.
  - intros e. apply at_most_ret.
Qed.

Lemma getAllResources_once (w : world) : at_most 1 (getAllResources w).
Proof.
  unfold getAllResources.
  destruct (includes "/app/dashboards" (href w)
            && truthy (opt_member (detectSavedObject w) "id"));
    [|apply at_most_ret].
  apply (at_most_catch 1 0).
  - apply at_most_first; [|intros; apply at_most_ret].
    unfold getEmbeddedPanelsFromAPI.
    apply at_most_first; [apply fetchDashboardData_once|].
    intros dashboard. apply at_most_lift.
  - intros e. repeat quiet_step.
Qed.

Lemma onGetAllResources_once (w : world) : at_most 1 (onGetAllResources w).
Proof.
  unfold onGetAllResources. apply (at_most_catch 1 0).
  - apply at_most_first; [apply getAllResources_once | intros; apply at_most_ret].
  - intros e. apply at_most_ret.
Qed.

Lemma onGetSavedObjectInfo_once (w : world) : at_most 1 (onGetSavedObjectInfo w).
Proof.
  unfold onGetSavedObjectInfo. apply at_most_first; [|intros; apply at_most_ret].
  destruct (truthy (detectSavedObject w) && includes "/app/dashboards" (href w));
    [|apply at_most_ret].
  apply (at_most_catch 1 0).
  - apply at_most_first; [apply getAllResources_once | intros; apply at_most_ret].
  - intros e. apply at_most_ret.
Qed.

(** X1.  No handler of the content script retries or fans out: answering
    an export, a scan or an info message takes at most one HTTP request. *)
Theorem handlers_single_request (w : world) (request : export_request) :
  (List.length (requests_of (onExportSavedObject w request)) <= 1)%nat
  /\ (List.length (requests_of (onGetAllResources w)) <= 1)%nat
  /\ (List.length (requests_of (onGetSavedObjectInfo w)) <= 1)%nat.
Proof.
  split; [|split]; apply at_most_requests.
  - apply onExportSavedObject_once.
  - apply onGetAllResources_once.
  - apply onGetSavedObjectInfo_once.
Qed.

(* ================================================================== *)
(** * The export handler always answers *)
(* ================================================================== *)

Lemma export_failure_answer (w : world) (request : export_request)
  (tr : list http_request) (e : js_error) :
  run (export_content w request) = (tr, Throw e) ->
  run (onExportSavedObject w request) = (tr, Ok (Failed e)).
Proof.
  unfold onExportSavedObject, run, try_catch, bind_io. now intros ->.
Qed.

(** X2.  The export handler never lets an exception escape: an exception
    of the export is answered as a failure with that exception, and so is
    an exception of the message to the background worker; otherwise the
    answer is the background worker's. *)
Theorem export_always_answers (w : world) (request : export_request) :
  (forall tr e, run (onExportSavedObject w request) <> (tr, Throw e))
  /\ (forall tr e,
      run (export_content w request) = (tr, Throw e) ->
      run (onExportSavedObject w request) = (tr, Ok (Failed e)))
  /\ (forall tr content extension,
      run (export_content w request) = (tr, Ok (content, extension)) ->
      run (onExportSavedObject w request)
      = (tr, match sendMessage w {| dl_content := content;
                                    dl_title := rq_title request;
                                    dl_type := rq_type request;
                                    dl_fileExtension := extension |} with
             | Ok answer => Ok (Downloaded answer)
             | Throw e => Ok (Failed e)
             | Unmodelled => Unmodelled
             end)).
Proof.
  unfold onExportSavedObject, run, try_catch, bind_io, lift, ret.
  split; [|split].
  - intros tr e.
    destruct (export_content w request []) as [tr' [[content ext]|e'|]];
      [|discriminate..].
    cbn [fst snd]. destruct (sendMessage w _); discriminate.
  - intros tr e. fold (run (export_content w request)). intros ->. reflexivity.
  - intros tr content ext ->. cbn [fst snd].
    destruct (sendMessage w _); reflexivity.
Qed.

Lemma export_always_answers_witness :
  run (onExportSavedObject home_page (primary_request "dashboard" "abc" false))
  = ([bulk_request home_page (Some (JStr "dashboard")) (Some (JStr "abc"))],
     Ok (Failed TypeError)).
Proof.
  destruct (export_always_answers home_page
              (primary_request "dashboard" "abc" false)) as (_ & H & _).
  apply H. reflexivity.
Defined.

(* ================================================================== *)
(** * The bulk export *)
(* ================================================================== *)

Lemma literal_valid (type id : jsval) :
  valid_opt type = true -> valid_opt id = true ->
  JSON.valid (JObj (literal [("type", type); ("id", id)])) = true.
Proof.
  destruct type as [t|], id as [i|]; cbn [valid_opt literal JSON.valid map fst snd
    forallb JSON.distinct existsb]; intros Ht Hi; rewrite ?Ht, ?Hi; reflexivity.
Qed.

Lemma export_content_bulk_run (w : world) (request : export_request) :
  embedded_request request = false ->
  truthy (rq_useAlternativeApi request) = false
  \/ alternative_api (rq_type request) = Ok Absent ->
  truthy (rq_id request) = true ->
  run (export_content w request)
  = ([bulk_request w (rq_type request) (rq_id request)],
     match fetch w (bulk_request w (rq_type request) (rq_id request)) with
     | Ok r => if resp_ok r then Ok (resp_text r, "ndjson")
               else Throw (export_failed r)
     | Throw e => Throw e
     | Unmodelled => Unmodelled
     end).
Proof.
  intros Hemb Halt Hid.
  rewrite (export_content_plain w request Hemb Halt), Hid.
  unfold run, exportSavedObject, getKibanaBaseUrl, bind_io, do_fetch, throw, ret.
  cbn [app]. fold (bulk_request w (rq_type request) (rq_id request)).
  destruct (fetch w _) as [r| |]; [|reflexivity..].
  destruct (resp_ok r); reflexivity.
Qed.

(** X3.  An export that is neither embedded nor routed to an alternate
    API, with a truthy id, posts one bulk request whose body decodes to
    one object reference [{type, id}] with deep references; the content
    handed on is the response text as it is, with the extension
    [ndjson]; a response that is not OK is an [Export failed] error
    carrying the status, the status text and the body. *)
Theorem bulk_export_outcome (w : world) (request : export_request) :
  embedded_request request = false ->
  truthy (rq_useAlternativeApi request) = false
  \/ alternative_api (rq_type request) = Ok Absent ->
  truthy (rq_id request) = true ->
  let q := bulk_request w (rq_type request) (rq_id request) in
  run (export_content w request)
  = ([q],
     match fetch w q with
     | Ok r => if resp_ok r then Ok (resp_text r, "ndjson")
               else Throw (Error ("Export failed: " ++ print_Z (resp_status r)
                                  ++ " " ++ resp_statusText r ++ " - "
                                  ++ resp_text r))
     | Throw e => Throw e
     | Unmodelled => Unmodelled
     end)
  /\ (valid_opt (rq_type request) = true -> valid_opt (rq_id request) = true ->
      exists body,
        req_body q = Some body
        /\ JSON.parse body
           = Ok (JObj [ ("objects",
                         JArr [JObj (literal [("type", rq_type request);
                                              ("id", rq_id request)])]);
                        ("includeReferencesDeep", JBool true) ])).
Proof.
  intros Hemb Halt Hid q. split.
  - exact (export_content_bulk_run w request Hemb Halt Hid).
  - intros Ht Hi. eexists. split; [reflexivity|].
    apply parse_stringify.
    pose proof (literal_valid _ _ Ht Hi) as Hl.
    cbn [JSON.valid map fst snd forallb JSON.distinct existsb] in *.
    now rewrite Hl.
Qed.

Lemma bulk_export_outcome_witness :
  run (export_content plain_server (primary_request "dashboard" "abc-123" false))
  = ([bulk_request plain_server (Some (JStr "dashboard")) (Some (JStr "abc-123"))],
     Ok ("{}", "ndjson")).
Proof.
  destruct (bulk_export_outcome plain_server
              (primary_request "dashboard" "abc-123" false)
              eq_refl (or_introl eq_refl) eq_refl) as (H & _).
  exact H.
Defined.

(* ================================================================== *)
(** * The alternate export *)
(* ================================================================== *)

Lemma export_content_alternate (w : world) (request : export_request)
  (key : string) (config : api_config) :
  embedded_request request = false ->
  truthy (rq_useAlternativeApi request) = true ->
  to_js_string (rq_type request) = Ok key ->
  own_entry ALTERNATIVE_API_TYPES key = Some config ->
  export_content w request
  = (content <~ exportViaAlternativeApi w (rq_type request) (rq_id request) ;;
     ret (content, alternative_extension (Own config))).
Proof.
  intros Hemb Hflag Hkey Hown. unfold export_content.
  unfold embedded_request in Hemb. rewrite Hemb, Hflag.
  unfold alternative_api, table_get. rewrite Hkey. cbn [bind]. rewrite Hown.
  reflexivity.
Qed.

Lemma alternate_configs (key : string) (config : api_config) :
  own_entry ALTERNATIVE_API_TYPES key = Some config ->
  fileExtension config = "json"
  /\ ((key = "slo" /\ forall id, apiPath config id = "/api/observability/slos/" ++ id)
      \/ (key = "alert" /\ forall id, apiPath config id = "/api/alerting/rule/" ++ id)).
Proof.
  cbn [own_entry ALTERNATIVE_API_TYPES].
  destruct (String.eqb_spec key "slo") as [->|_].
  { intros H. injection H as <-. split; [reflexivity | left; now split]. }
  destruct (String.eqb_spec key "alert") as [->|_]; [|discriminate].
  intros H. injection H as <-. split; [reflexivity | right; now split].
Qed.

Lemma export_content_alternate_run (w : world) (request : export_request)
  (key : string) (config : api_config) (id : string) :
  embedded_request request = false ->
  truthy (rq_useAlternativeApi request) = true ->
  to_js_string (rq_type request) = Ok key ->
  own_entry ALTERNATIVE_API_TYPES key = Some config ->
  to_js_string (rq_id request) = Ok id ->
  run (export_content w request)
  = ([alternate_request w config id],
     match fetch w (alternate_request w config id) with
     | Ok r => if resp_ok r
               then data <- response_json r ;;
                    Ok (JSON.stringify_indented data, "json")
               else Throw (export_failed r)
     | Throw e => Throw e
     | Unmodelled => Unmodelled
     end).
Proof.
  intros Hemb Hflag Hkey Hown Hid.
  destruct (alternate_configs key config Hown) as (Hext & _).
  rewrite (export_content_alternate w request key config Hemb Hflag Hkey Hown).
  unfold alternative_extension. rewrite Hext. cbn [String.eqb Ascii.eqb].
  unfold run, exportViaAlternativeApi, getKibanaBaseUrl, bind_io, lift, table_get.
  rewrite Hkey, Hown, Hid. unfold do_fetch, throw, ret. cbn [app].
  fold (alternate_request w config id).
  destruct (fetch w _) as [r| |]; [|reflexivity..].
  destruct (resp_ok r); cbn [negb]; [|reflexivity].
  destruct (response_json r); reflexivity.
Qed.

(** X4.  An export routed to an alternate API reads one URL, the
    configured path for the id, and hands on a pretty-printed text that
    decodes to the very value the response decodes to, with the extension
    [json]; a response that is not OK is an [Export failed] error. *)
Theorem alternate_export_roundtrip (w : world) (request : export_request)
  (key : string) (config : api_config) (id : string) :
  embedded_request request = false ->
  truthy (rq_useAlternativeApi request) = true ->
  to_js_string (rq_type request) = Ok key ->
  own_entry ALTERNATIVE_API_TYPES key = Some config ->
  to_js_string (rq_id request) = Ok id ->
  let q := alternate_request w config id in
  run (export_content w request)
  = ([q],
     match fetch w q with
     | Ok r => if resp_ok r
               then data <- response_json r ;;
                    Ok (JSON.stringify_indented data, "json")
               else Throw (export_failed r)
     | Throw e => Throw e
     | Unmodelled => Unmodelled
     end)
  /\ (forall content extension,
      snd (run (export_content w request)) = Ok (content, extension) ->
      exists r, fetch w q = Ok r /\ resp_ok r = true
                /\ JSON.parse content = JSON.parse (resp_text r)
                /\ extension = "json")
  /\ (req_url q = baseUrl w ++ "/api/observability/slos/" ++ id
      \/ req_url q = baseUrl w ++ "/api/alerting/rule/" ++ id).
Proof.
  intros Hemb Hflag Hkey Hown Hid q.
  destruct (alternate_configs key config Hown) as (Hext & Hpath).
  pose proof (export_content_alternate_run w request key config id
                Hemb Hflag Hkey Hown Hid) as Hrun.
  fold q in Hrun.
  split; [exact Hrun|]. split.
  - intros content ext. rewrite Hrun. cbn [snd].
    destruct (fetch w q) as [r| |]; try discriminate.
    destruct (resp_ok r) eqn:Eok; try discriminate.
    unfold response_json.
    destruct (JSON.parse (resp_text r)) as [data| |] eqn:Ep; try discriminate.
    cbn [bind]. intros H. injection H as <- <-.
    exists r. split; [reflexivity|]. split; [exact Eok|]. split; [|reflexivity].
    rewrite Ep. apply parse_stringify_indented. exact (parse_valid _ _ Ep).
  - unfold q, alternate_request. cbn [req_url].
    destruct Hpath as [[_ H]|[_ H]]; rewrite H; auto.
Qed.

Lemma alternate_export_roundtrip_witness :
  let request := primary_request "slo" "checkout" true in
  exists r, fetch plain_server
              (alternate_request plain_server
                 {| apiPath := fun id => "/api/observability/slos/" ++ id;
                    fileExtension := "json" |} "checkout") = Ok r
            /\ resp_ok r = true
            /\ JSON.parse "{}" = JSON.parse (resp_text r)
            /\ "json" = "json".
Proof.
  intros request.
  destruct (alternate_export_roundtrip plain_server request "slo"
              {| apiPath := fun id => "/api/observability/slos/" ++ id;
                 fileExtension := "json" |} "checkout"
              eq_refl eq_refl eq_refl eq_refl eq_refl) as (_ & H & _).
  apply (H "{}" "json"). reflexivity.
Defined.

(* ================================================================== *)
(** * Panel titles *)
(* ================================================================== *)

Lemma or_default_falsy (a : jsval) (d : json) :
  truthy a = false -> or_default a d = d.
Proof. destruct a as [v|]; cbn [or_default]; [now intros ->|reflexivity]. Qed.

Lemma first_truthy_spec (candidates : list jsval) (d : json) :
  first_truthy_of candidates (first_truthy candidates d)
  \/ (Forall (fun x => truthy x = false) candidates
      /\ first_truthy candidates d = d).
Proof.
  induction candidates as [|c rest IH]; cbn [first_truthy].
  - right. now split.
  - destruct (truthy c) eqn:Ec.
    + left. destruct c as [v|]; [|discriminate].
      rewrite or_default_truthy by assumption.
      exists [], rest. repeat split; [constructor | assumption].
    + rewrite or_default_falsy by assumption.
      destruct IH as [(before & l & E & Hb & Ht)|[Hall E]].
      * left. exists (c :: before), l.
        split; [cbn [app]; now f_equal|]. split; [now constructor | assumption].
      * right. split; [now constructor | assumption].
Qed.

Lemma extractPanelTitle_candidates (panel title : json) :
  extractPanelTitle panel = Ok title ->
  title = first_truthy (title_candidates panel) (JStr "Untitled Panel").
Proof.
  unfold extractPanelTitle.
  destruct (member (Some panel) "embeddableConfig") as [ec| |] eqn:E;
    try discriminate.
  apply valid_not_null_member in E as [-> _]. cbn [bind].
  intros H. now injection H as <-.
Qed.

Lemma extractPanelTitle_truthy (panel title : json) :
  extractPanelTitle panel = Ok title -> truthy (Some title) = true.
Proof.
  intros H. apply extractPanelTitle_candidates in H. subst title.
  destruct (first_truthy_spec (title_candidates panel) (JStr "Untitled Panel"))
    as [(? & ? & _ & _ & Ht)|[_ ->]]; [exact Ht | reflexivity].
Qed.

(** X6.  The title of a panel is the first truthy value among six
    places, in the order the function names them, and "Untitled Panel"
    when none is truthy; it is never falsy.  The function fails only on
    a panel that is [null]. *)
Theorem panel_title_first_truthy (panel : json) :
  (panel <> JNull -> exists title, extractPanelTitle panel = Ok title)
  /\ forall title,
     extractPanelTitle panel = Ok title ->
     truthy (Some title) = true
     /\ (first_truthy_of (title_candidates panel) title
         \/ (Forall (fun x => truthy x = false) (title_candidates panel)
             /\ title = JStr "Untitled Panel")).
Proof.
  split.
  - intros Hp. unfold extractPanelTitle. rewrite member_not_null by assumption.
    cbn [bind]. now eexists.
  - intros title H. apply extractPanelTitle_candidates in H. subst title.
    destruct (first_truthy_spec (title_candidates panel) (JStr "Untitled Panel"))
      as [Hf|[Hall E]].
    + split; [|now left]. now destruct Hf as (? & ? & _ & _ & Ht).
    + rewrite E. split; [reflexivity | right; now split].
Qed.

Lemma panel_title_first_truthy_witness :
  exists title, extractPanelTitle sales_panel = Ok title.
Proof.
  apply (proj1 (panel_title_first_truthy sales_panel)). discriminate.
Defined.

(* ================================================================== *)
(** * Panel subtypes *)
(* ================================================================== *)

Lemma underscores_to_spaces_free (s : string) :
  free_of is_underscore (underscores_to_spaces s) = true.
Proof.
  induction s as [|c s IH]; cbn [underscores_to_spaces free_of]; [reflexivity|].
  rewrite IH, andb_true_r. unfold is_underscore.
  destruct (c =? "_")%char eqn:E; [reflexivity | now rewrite E].
Qed.

Lemma underscores_to_spaces_length (s : string) :
  String.length (underscores_to_spaces s) = String.length s.
Proof. induction s as [|c s IH]; cbn; congruence. Qed.

(** X7.  The subtype of a panel is [null] unless the panel's type is
    "lens" or "visualization".  For a visualization it is
    [savedVis.type] when that is truthy.  For a lens panel with a
    preferred series type it is that type with every underscore turned
    into a space, character for character. *)
Theorem panel_subtype_cases (panel : json) :
  panel <> JNull ->
  (is_type (lookup panel "type") "lens" = false ->
   is_type (lookup panel "type") "visualization" = false ->
   extractPanelSubType panel = Ok JNull)
  /\ (is_type (lookup panel "type") "visualization" = true ->
      extractPanelSubType panel
      = Ok (or_default (lookup (savedVis_of panel) "type") JNull))
  /\ (forall s,
      is_type (lookup panel "type") "lens" = true ->
      lookup (or_default (lookup (or_default (lookup (attributes_of panel) "state")
                                    empty_object) "visualization") empty_object)
        "preferredSeriesType" = Some (JStr s) ->
      s <> "" ->
      extractPanelSubType panel = Ok (JStr (underscores_to_spaces s))
      /\ free_of is_underscore (underscores_to_spaces s) = true
      /\ String.length (underscores_to_spaces s) = String.length s).
Proof.
  intros Hp. unfold extractPanelSubType. rewrite member_not_null by assumption.
  cbn [bind]. fold (embeddableConfig_of panel). fold (attributes_of panel).
  fold (savedVis_of panel).
  split; [|split].
  - intros -> ->. reflexivity.
  - intros Hv.
    assert (Hl : is_type (lookup panel "type") "lens" = false).
    { unfold is_type in *. apply strict_eq_eq in Hv. now rewrite Hv. }
    rewrite Hl, Hv. cbn [bind].
    destruct (truthy (lookup (savedVis_of panel) "type")) eqn:E; [reflexivity|].
    now rewrite or_default_falsy.
  - intros s -> Hs Hne. unfold lens_subType. rewrite Hs.
    assert (Ht : truthy (Some (JStr s)) = true) by (destruct s; [congruence|reflexivity]).
    rewrite Ht. cbn [bind].
    split; [reflexivity|]. split;
      [apply underscores_to_spaces_free | apply underscores_to_spaces_length].
Qed.

Lemma panel_subtype_cases_witness :
  extractPanelSubType sales_panel = Ok (JStr "bar stacked").
Proof.
  destruct (panel_subtype_cases sales_panel) as (_ & _ & H); [discriminate|].
  destruct (H "bar_stacked" eq_refl eq_refl) as (E & _); [discriminate|].
  exact E.
Defined.

(* ================================================================== *)
(** * The resources of the API harvest *)
(* ================================================================== *)

Lemma sort_insert_perm {A : Type} (cmp : A -> A -> outcome (option Z)) (x : A) :
  forall l r, sort_insert cmp x l = Ok r -> Permutation (x :: l) r.
Proof.
  induction l as [|y l IH]; cbn [sort_insert]; intros r.
  - intros H. now injection H as <-.
  - destruct (cmp x y) as [c| |]; try discriminate. cbn [bind].
    destruct (goes_after c).
    + destruct (sort_insert cmp x l) as [r'| |]; try discriminate. cbn [bind].
      intros H. injection H as <-. rewrite perm_swap. apply perm_skip. now apply IH.
    + intros H. now injection H as <-.
Qed.

Lemma Array_sort_perm {A : Type} (cmp : A -> A -> outcome (option Z)) :
  forall l r, Array_sort cmp l = Ok r -> Permutation l r.
Proof.
  induction l as [|x l IH]; cbn [Array_sort]; intros r.
  - intros H. now injection H as <-.
  - destruct (Array_sort cmp l) as [s| |]; try discriminate. cbn [bind].
    intros H. apply sort_insert_perm in H. rewrite <- H. apply perm_skip. now apply IH.
Qed.

Lemma map_outcome_Forall2 {A B : Type} (f : A -> outcome B) :
  forall l r, map_outcome f l = Ok r -> Forall2 (fun a b => f a = Ok b) l r.
Proof.
  induction l as [|a l IH]; cbn [map_outcome]; intros r.
  - intros H. injection H as <-. constructor.
  - destruct (f a) as [b| |] eqn:E; try discriminate. cbn [bind].
    destruct (map_outcome f l) as [bs| |]; try discriminate. cbn [bind].
    intros H. injection H as <-. constructor; [assumption | now apply IH].
Qed.

Lemma panel_resource_fields (dashboardId : jsval) (panel r : json) :
  panel_resource dashboardId panel = Ok r ->
  embedded_resource dashboardId r
  /\ lookup r "type" = lookup panel "type"
  /\ lookup r "panelIndex" = lookup panel "panelIndex"
  /\ extractPanelTitle panel = Ok (or_default (lookup r "title") JNull)
  /\ truthy (lookup r "title") = true
  /\ canExport r = true.
Proof.
  unfold panel_resource.
  destruct (extractPanelTitle panel) as [title| |] eqn:Et; try discriminate.
  cbn [bind].
  destruct (extractPanelSubType panel) as [subType| |]; try discriminate.
  cbn [bind]. intros H. injection H as <-.
  pose proof (extractPanelTitle_truthy panel title Et) as Ht.
  unfold embedded_resource, canExport.
  destruct (lookup panel "type"), (lookup panel "panelIndex"), dashboardId;
    cbn [literal lookup assoc String.eqb Ascii.eqb Bool.eqb truthy negb andb orb];
    rewrite ?or_default_truthy by assumption; rewrite ?Ht; repeat split;
    exact Ht.
Qed.

Lemma harvest_panels_spec (dashboardId : jsval) (panels found : list json) :
  harvest_panels dashboardId panels = Ok found ->
  exists sorted,
    Permutation panels sorted
    /\ Forall2 (fun p r => panel_resource dashboardId p = Ok r) sorted found.
Proof.
  unfold harvest_panels.
  destruct (Array_sort compareGrid panels) as [sorted| |] eqn:Es; try discriminate.
  cbn [bind]. intros Hm. exists sorted. split.
  - now apply Array_sort_perm in Es.
  - now apply map_outcome_Forall2.
Qed.

Lemma Forall2_in_right {A B : Type} (R : A -> B -> Prop) (l : list A) (r : list B)
  (b : B) :
  Forall2 R l r -> In b r -> exists a, In a l /\ R a b.
Proof.
  induction 1 as [|a b' l r Hab _ IH]; [contradiction|].
  intros [->|Hin].
  - exists a. split; [now left | assumption].
  - destruct (IH Hin) as (a' & Ha & Hr). exists a'. split; [now right | assumption].
Qed.

(** X8.  The API harvest drops no panel and invents none: its resources
    are those of the panels in some order.  Each has the id [null], the
    flag [isEmbedded], the dashboard's id, the type and the panel index
    of its panel and a truthy title, and the side panel offers each for
    export. *)
Theorem harvest_resources (dashboardId : jsval) (panels found : list json) :
  harvest_panels dashboardId panels = Ok found ->
  List.length found = List.length panels
  /\ (exists sorted,
        Permutation panels sorted
        /\ Forall2 (fun p r => panel_resource dashboardId p = Ok r) sorted found)
  /\ Forall (fun r => embedded_resource dashboardId r
                      /\ truthy (lookup r "title") = true
                      /\ canExport r = true) found
  /\ (forall r, In r found ->
      exists p, In p panels
                /\ lookup r "type" = lookup p "type"
                /\ lookup r "panelIndex" = lookup p "panelIndex"
                /\ extractPanelTitle p = Ok (or_default (lookup r "title") JNull)).
Proof.
  unfold harvest_panels.
  destruct (Array_sort compareGrid panels) as [sorted| |] eqn:Es; try discriminate.
  cbn [bind]. intros Hm.
  apply Array_sort_perm in Es. apply map_outcome_Forall2 in Hm.
  assert (Hlen : List.length found = List.length panels).
  { rewrite (Permutation_length Es). symmetry. exact (Forall2_length Hm). }
  split; [exact Hlen|]. split; [now exists sorted|]. split.
  - clear Hlen Es. induction Hm as [|p r l l' Hr _ IH]; constructor; [|exact IH].
    destruct (panel_resource_fields _ _ _ Hr) as (H1 & _ & _ & _ & H2 & H3).
    split; [exact H1|]. split; assumption.
  - intros r Hin. clear Hlen.
    assert (Hex : exists p, In p sorted /\ panel_resource dashboardId p = Ok r).
    { clear Es. induction Hm as [|p r' l l' Hr _ IH]; [contradiction|].
      destruct Hin as [->|Hin].
      - exists p. split; [now left | assumption].
      - destruct (IH Hin) as (q & Hq & Hqr). exists q. split; [now right|assumption]. }
    destruct Hex as (p & Hp & Hr). exists p.
    split; [exact (Permutation_in _ (Permutation_sym Es) Hp)|].
    destruct (panel_resource_fields _ _ _ Hr) as (_ & H1 & H2 & H3 & _).
    split; [exact H1|]. split; assumption.
Qed.

Lemma harvest_resources_witness :
  exists found,
    harvest_panels (Some (JStr "abc-123")) scenario_B_panels = Ok found
    /\ List.length found = 2%nat.
Proof.
  eexists. split; [reflexivity|].
  apply (harvest_resources (Some (JStr "abc-123")) scenario_B_panels).
  reflexivity.
Defined.

(* ================================================================== *)
(** * Errors of the embedded export *)
(* ================================================================== *)

Lemma find_panel_none (panelIndex : jsval) (panels : list json) :
  Forall (fun p => p <> JNull
                   /\ strict_eq (lookup p "panelIndex") panelIndex = false) panels ->
  find_panel panelIndex panels = Ok None.
Proof.
  induction 1 as [|p l [Hp Hne] _ IH]; cbn [find_panel]; [reflexivity|].
  rewrite member_not_null by assumption. cbn [bind]. now rewrite Hne.
Qed.

(** The embedded export, once the dashboard is read. *)
Lemma exportEmbeddedPanel_fetched (w : world) (id : string) (panelIndex : jsval)
  (r : http_response) (dashboard : json) :
  fetch w (dashboard_request w id) = Ok r -> resp_ok r = true ->
  response_json r = Ok dashboard -> dashboard <> JNull ->
  run (exportEmbeddedPanel w (Some (JStr id)) panelIndex)
  = ([dashboard_request w id],
     let attributes := lookup dashboard "attributes" in
     let panelsJSON := opt_member attributes "panelsJSON" in
     if negb (truthy panelsJSON) then Throw (Error "Dashboard has no panels")
     else
       parsed <- JSON_parse_value panelsJSON ;;
       panels <- as_array parsed ;;
       found <- find_panel panelIndex panels ;;
       if truthy found then
         match found with
         | Some panel =>
             constructPanelExport w panel
               (or_default (opt_member attributes "title") (JStr "Dashboard"))
         | None => Unmodelled
         end
       else
         text <- to_js_string panelIndex ;;
         Throw (Error ("Panel " ++ text ++ " not found in dashboard"))).
Proof.
  intros Hf Hok Hj Hd.
  unfold run, exportEmbeddedPanel, fetchDashboardData, getKibanaBaseUrl, bind_io,
    lift, do_fetch, throw, ret.
  cbn [to_js_string app]. fold (dashboard_request w id).
  rewrite Hf, Hok, Hj. cbn [negb]. rewrite member_not_null by assumption.
  cbv zeta.
  destruct (negb (truthy (opt_member (lookup dashboard "attributes") "panelsJSON")));
    [reflexivity|].
  destruct (JSON_parse_value _) as [parsed| |]; try reflexivity. cbn [bind].
  destruct (as_array parsed) as [panels| |]; try reflexivity. cbn [bind].
  destruct (find_panel panelIndex panels) as [[panel|]| |]; try reflexivity;
    cbn [bind].
  - destruct (truthy (Some panel)); [reflexivity|].
    destruct (to_js_string panelIndex); reflexivity.
  - cbn [truthy]. destruct (to_js_string panelIndex); reflexivity.
Qed.

Lemma embedded_failure (w : world) (request : export_request) (id : string)
  (tr : list http_request) (e : js_error) :
  embedded_request request = true ->
  rq_dashboardId request = Some (JStr id) ->
  run (exportEmbeddedPanel w (Some (JStr id)) (rq_panelIndex request))
  = (tr, Throw e) ->
  run (onExportSavedObject w request) = (tr, Ok (Failed e)).
Proof.
  intros Hemb Hid Hrun. apply export_failure_answer.
  rewrite (export_content_embedded w request Hemb), Hid.
  unfold run, bind_io in *. now rewrite Hrun.
Qed.

(** X5.  An embedded export reads the dashboard once and reports what
    goes wrong as a failure: the exception of a fetch that fails;
    [Failed to fetch dashboard: <status>] for a response that is not OK;
    [Dashboard has no panels] when the document has no truthy
    [panelsJSON]; [Panel <index> not found in dashboard] when no panel
    of the list has a strictly equal [panelIndex]. *)
Theorem embedded_export_errors (w : world) (request : export_request) (id : string) :
  embedded_request request = true ->
  rq_dashboardId request = Some (JStr id) ->
  let q := dashboard_request w id in
  (forall e,
     fetch w q = Throw e ->
     run (onExportSavedObject w request) = ([q], Ok (Failed e)))
  /\ (forall r,
      fetch w q = Ok r -> resp_ok r = false ->
      run (onExportSavedObject w request)
      = ([q], Ok (Failed (Error ("Failed to fetch dashboard: "
                                 ++ print_Z (resp_status r))))))
  /\ (forall r dashboard,
      fetch w q = Ok r -> resp_ok r = true ->
      response_json r = Ok dashboard -> dashboard <> JNull ->
      truthy (opt_member (lookup dashboard "attributes") "panelsJSON") = false ->
      run (onExportSavedObject w request)
      = ([q], Ok (Failed (Error "Dashboard has no panels"))))
  /\ (forall r dashboard text panels index,
      fetch w q = Ok r -> resp_ok r = true ->
      response_json r = Ok dashboard -> dashboard <> JNull ->
      opt_member (lookup dashboard "attributes") "panelsJSON" = Some (JStr text) ->
      JSON.parse text = Ok (JArr panels) ->
      Forall (fun p => p <> JNull
                       /\ strict_eq (lookup p "panelIndex") (rq_panelIndex request)
                          = false) panels ->
      to_js_string (rq_panelIndex request) = Ok index ->
      run (onExportSavedObject w request)
      = ([q], Ok (Failed (Error ("Panel " ++ index ++ " not found in dashboard"))))).
Proof.
  intros Hemb Hid q. split; [|split; [|split]].
  - intros e Hf. apply (embedded_failure w request id); try assumption.
    unfold run, exportEmbeddedPanel, fetchDashboardData, getKibanaBaseUrl, bind_io,
      lift, do_fetch. cbn [to_js_string app]. fold (dashboard_request w id). fold q.
    now rewrite Hf.
  - intros r Hf Hok. apply (embedded_failure w request id); try assumption.
    unfold run, exportEmbeddedPanel, fetchDashboardData, getKibanaBaseUrl, bind_io,
      lift, do_fetch, throw. cbn [to_js_string app].
    fold (dashboard_request w id). fold q.
    now rewrite Hf, Hok.
  - intros r dashboard Hf Hok Hj Hd Hp.
    apply (embedded_failure w request id); try assumption.
    rewrite (exportEmbeddedPanel_fetched w id _ r dashboard) by assumption.
    cbv zeta. now rewrite Hp.
  - intros r dashboard text panels index Hf Hok Hj Hd Hp Hparse Hall Hindex.
    apply (embedded_failure w request id); try assumption.
    rewrite (exportEmbeddedPanel_fetched w id _ r dashboard) by assumption.
    cbv zeta. rewrite Hp, (parse_truthy text _ Hparse). cbn [negb].
    unfold JSON_parse_value. cbn [to_js_string bind]. rewrite Hparse.
    cbn [bind as_array]. rewrite (find_panel_none _ _ Hall). cbn [bind truthy].
    now rewrite Hindex.
Qed.

Lemma embedded_export_errors_witness :
  run (onExportSavedObject offline_page sales_request)
  = ([dashboard_request offline_page "abc-123"], Ok (Failed TypeError)).
Proof.
  destruct (embedded_export_errors offline_page sales_request "abc-123"
              eq_refl eq_refl) as (H & _).
  apply H. reflexivity.
Defined.

(* ================================================================== *)
(** * What every synthesized record holds *)
(* ================================================================== *)

Lemma is_type_eq (v : jsval) (name : string) :
  is_type v name = true -> v = Some (JStr name).
Proof. unfold is_type. apply strict_eq_eq. Qed.

Lemma savedObject_type (w : world) (panel record : json) :
  savedObject w panel = Ok record ->
  lookup record "type" = lookup panel "type".
Proof.
  unfold savedObject.
  destruct (member (Some panel) "type") as [panelType| |] eqn:Et; try discriminate.
  apply valid_not_null_member in Et as [-> Hp].
  cbn [bind].
  destruct (extractPanelTitle panel) as [title| |]; try discriminate.
  cbn [bind].
  destruct (is_type (lookup panel "type") "lens") eqn:E1.
  { apply is_type_eq in E1. rewrite E1. intros H; now injection H as <-. }
  destruct (is_type (lookup panel "type") "visualization") eqn:E2.
  { apply is_type_eq in E2. rewrite E2. intros H; now injection H as <-. }
  destruct (is_type (lookup panel "type") "map") eqn:E3.
  { apply is_type_eq in E3. rewrite E3. intros H; now injection H as <-. }
  destruct (is_type (lookup panel "type") "search") eqn:E4.
  { apply is_type_eq in E4. rewrite E4. intros H; now injection H as <-. }
  intros H; injection H as <-.
  destruct (lookup panel "type"); reflexivity.
Qed.

(** X9.  Whatever the kind of the panel, the synthesized record is
    unmanaged, created and updated at the same instant (the clock is read
    once), of core migration version 8.8.0 and of the panel's type; its
    id is the panel index when that is truthy and a fresh UUID
    otherwise.  For the four known kinds its title is the harvested
    title. *)
Theorem record_invariants (w : world) (panel record : json) :
  savedObject w panel = Ok record ->
  lookup record "managed" = Some (JBool false)
  /\ lookup record "created_at" = Some (JStr (now w))
  /\ lookup record "updated_at" = Some (JStr (now w))
  /\ lookup record "coreMigrationVersion" = Some (JStr "8.8.0")
  /\ lookup record "type" = lookup panel "type"
  /\ lookup record "id"
     = Some (or_default (lookup panel "panelIndex") (JStr (randomUUID w)))
  /\ (forall kind,
      In kind known_kinds -> lookup panel "type" = Some (JStr kind) ->
      opt_member (lookup record "attributes") "title"
      = Some (first_truthy (title_candidates panel) (JStr "Untitled Panel"))).
Proof.
  unfold savedObject.
  destruct (member (Some panel) "type") as [panelType| |] eqn:Et; try discriminate.
  apply valid_not_null_member in Et as [-> Hp].
  cbn [bind].
  destruct (extractPanelTitle panel) as [title| |] eqn:Etitle; try discriminate.
  apply extractPanelTitle_candidates in Etitle. rewrite <- Etitle.
  cbn [bind].
  destruct (is_type (lookup panel "type") "lens") eqn:E1.
  { apply is_type_eq in E1. rewrite E1.
    intros H; injection H as <-. repeat split. }
  destruct (is_type (lookup panel "type") "visualization") eqn:E2.
  { apply is_type_eq in E2. rewrite E2.
    intros H; injection H as <-. repeat split. }
  destruct (is_type (lookup panel "type") "map") eqn:E3.
  { apply is_type_eq in E3. rewrite E3.
    intros H; injection H as <-. repeat split. }
  destruct (is_type (lookup panel "type") "search") eqn:E4.
  { apply is_type_eq in E4. rewrite E4.
    intros H; injection H as <-. repeat split. }
  intros H; injection H as <-.
  destruct (lookup panel "type") as [t|] eqn:Etype; repeat split; intros;
    match goal with
    | H : None = Some _ |- _ => discriminate H
    | H : Some _ = Some (JStr ?k), Hk : In ?k known_kinds |- _ =>
        injection H as ->; exfalso;
        destruct Hk as [<-|[<-|[<-|[<-|[]]]]];
        [ vm_compute in E1 | vm_compute in E2 | vm_compute in E3
        | vm_compute in E4 ]; discriminate
    end.
Qed.

Lemma record_invariants_witness :
  exists record,
    savedObject scenario_D sales_panel = Ok record
    /\ lookup record "managed" = Some (JBool false)
    /\ lookup record "id" = Some (JStr "p-sales").
Proof.
  eexists. split; [reflexivity|].
  destruct (record_invariants scenario_D sales_panel _ eq_refl)
    as (H1 & _ & _ & _ & _ & H2 & _).
  split; [exact H1 | exact H2].
Defined.

(* ================================================================== *)
(** * A text of [JSON.stringify] is one line *)
(* ================================================================== *)

Lemma free_of_app (p : ascii -> bool) (a b : string) :
  free_of p (a ++ b) = free_of p a && free_of p b.
Proof.
  induction a as [|c a IH]; cbn [append free_of]; [reflexivity|].
  now rewrite IH, andb_assoc.
Qed.

Lemma escape_char_line (c : ascii) : free_of is_newline (JSON.escape_char c) = true.
Proof.
  destruct c as [[|] [|] [|] [|] [|] [|] [|] [|]]; reflexivity.
Qed.

Lemma quote_line (s : string) : free_of is_newline (JSON.quote s) = true.
Proof.
  unfold JSON.quote. cbn [free_of]. rewrite free_of_app.
  change (is_newline dquote) with false. cbn [negb andb free_of].
  rewrite andb_true_r.
  induction s as [|c s IH]; cbn [JSON.escape]; [reflexivity|].
  now rewrite free_of_app, escape_char_line, IH.
Qed.

Lemma digit_char_line (d : Z) : 0 <= d < 10 -> is_newline (digit_char d) = false.
Proof. intros H. each_digit d H; reflexivity. Qed.

Lemma digits_line (f : nat) : forall n acc,
  free_of is_newline acc = true -> free_of is_newline (digits f n acc) = true.
Proof.
  induction f as [|f IH]; intros n acc Hacc; cbn [digits]; [assumption|].
  assert (Hstep : free_of is_newline (String (digit_char (n mod 10)) acc) = true).
  { cbn [free_of]. rewrite digit_char_line, Hacc; [reflexivity|].
    apply Z.mod_pos_bound. lia. }
  destruct (n <? 10); [assumption | now apply IH].
Qed.

Lemma print_Z_line (n : Z) : free_of is_newline (print_Z n) = true.
Proof.
  unfold print_Z, print_nat. destruct (n <? 0).
  - cbn [free_of]. change (is_newline "-") with false. cbn [negb andb].
    now apply digits_line.
  - now apply digits_line.
Qed.

Lemma join_comma_line (l : list string) :
  Forall (fun s => free_of is_newline s = true) l ->
  free_of is_newline (JSON.join_comma l) = true.
Proof.
  induction 1 as [|s l Hs Hl IH]; [reflexivity|].
  destruct l as [|t l]; [exact Hs|].
  rewrite join_comma_cons, !free_of_app, Hs, IH. reflexivity.
Qed.

Lemma stringify_line (v : json) : free_of is_newline (JSON.stringify v) = true.
Proof.
  induction v as [|b|n|s|l IH|l IH] using json_ind; cbn [JSON.stringify].
  - reflexivity.
  - destruct b; reflexivity.
  - apply print_Z_line.
  - apply quote_line.
  - rewrite !free_of_app, join_comma_line; [reflexivity|].
    rewrite Forall_forall in IH |- *. intros s Hin.
    apply in_map_iff in Hin as (x & <- & Hx). now apply IH.
  - rewrite !free_of_app, join_comma_line; [reflexivity|].
    rewrite Forall_forall in IH |- *. intros s Hin.
    apply in_map_iff in Hin as ([k x] & <- & Hx). cbn [fst snd].
    rewrite !free_of_app, quote_line. cbn [free_of].
    change (is_newline ":") with false. cbn [negb andb].
    exact (IH _ Hx).
Qed.

(* ================================================================== *)
(** * The synthesized record stands for a JavaScript value *)
(* ================================================================== *)

Lemma valid_object (l : list (string * json)) :
  JSON.distinct (map fst l) = true ->
  forallb (fun kv => JSON.valid (snd kv)) l = true ->
  JSON.valid (JObj l) = true.
Proof. intros H1 H2. cbn [JSON.valid]. now rewrite H1, H2. Qed.

Lemma valid_string_or_stringify (v : jsval) (d : json) :
  JSON.valid (string_or_stringify v d) = true.
Proof. destruct v as [[| | | | |]|]; reflexivity. Qed.

Ltac valid_fields :=
  apply valid_object; [reflexivity|];
  cbn [forallb snd JSON.valid];
  repeat (rewrite valid_or_default by (auto 8 with valid));
  rewrite ?valid_string_or_stringify.

Lemma savedObject_valid (w : world) (panel record : json) :
  JSON.valid panel = true -> object_attributes panel ->
  savedObject w panel = Ok record -> JSON.valid record = true.
Proof.
  intros Hv [fields Hfields]. unfold savedObject.
  destruct (member (Some panel) "type") as [panelType| |] eqn:Et; try discriminate.
  apply valid_not_null_member in Et as [-> Hp].
  cbn [bind].
  destruct (extractPanelTitle panel) as [title| |] eqn:Etitle; try discriminate.
  pose proof (valid_title panel title Hv Etitle) as Hvt.
  pose proof (valid_attributes panel Hv) as Hva.
  pose proof (valid_savedVis panel Hv) as Hvs.
  pose proof (valid_embeddableConfig panel Hv) as Hve.
  assert (Hid : JSON.valid (or_default (lookup panel "panelIndex")
                              (JStr (randomUUID w))) = true)
    by auto with valid.
  cbn [bind].
  fold (embeddableConfig_of panel). fold (attributes_of panel).
  fold (savedVis_of panel).
  destruct (is_type (lookup panel "type") "lens").
  { intros H; injection H as <-.
    valid_fields. rewrite ?Hvt, ?Hid. reflexivity. }
  destruct (is_type (lookup panel "type") "visualization").
  { intros H; injection H as <-.
    valid_fields. rewrite ?Hvt, ?Hid. reflexivity. }
  destruct (is_type (lookup panel "type") "map").
  { intros H; injection H as <-.
    valid_fields. rewrite ?Hvt, ?Hid. reflexivity. }
  destruct (is_type (lookup panel "type") "search").
  { intros H; injection H as <-. rewrite Hfields in *.
    cbn [attributes_sort literal].
    valid_fields. rewrite ?Hvt, ?Hid. reflexivity. }
  intros H; injection H as <-.
  assert (Hspread : JSON.valid (JObj (spread_over [("title", title)]
                                        (attributes_of panel))) = true).
  { rewrite Hfields in *. cbn [spread_over].
    cbn [JSON.valid] in Hva. apply andb_true_iff in Hva as [_ Hva].
    apply spread_fields_valid; [assumption|].
    cbn [JSON.valid map fst snd forallb JSON.distinct existsb negb andb].
    now rewrite Hvt. }
  pose proof (valid_lookup panel "type" Hv) as Htype.
  destruct (lookup panel "type") as [t|]; cbn [literal valid_opt] in *.
  - valid_fields. cbn [JSON.valid] in Hspread. rewrite ?Hspread, ?Htype, ?Hid.
    reflexivity.
  - valid_fields. cbn [JSON.valid] in Hspread. rewrite ?Hspread, ?Hid.
    reflexivity.
Qed.

(** X10.  The export of an embedded panel is two lines of JSON: the
    first is the text of the synthesized record, the second the text of
    the export summary; neither holds a line break, and each is read back
    by [JSON.parse] as the value it was written from. *)
Theorem ndjson_two_lines (w : world) (panel dashboardTitle : json) (content : string) :
  JSON.valid panel = true -> object_attributes panel ->
  constructPanelExport w panel dashboardTitle = Ok content ->
  exists record first second,
    content = first ++ JSON.newline ++ second
    /\ free_of is_newline first = true
    /\ free_of is_newline second = true
    /\ savedObject w panel = Ok record
    /\ JSON.parse first = Ok record
    /\ JSON.parse second = Ok exportSummary.
Proof.
  intros Hv Ha Hc.
  destruct (constructPanelExport_ok w panel dashboardTitle content Hc)
    as (record & Hr & ->).
  exists record, (JSON.stringify record), (JSON.stringify exportSummary).
  split; [reflexivity|]. split; [apply stringify_line|].
  split; [apply stringify_line|]. split; [assumption|].
  split; [|apply parse_stringify; reflexivity].
  apply parse_stringify. exact (savedObject_valid w panel record Hv Ha Hr).
Qed.

Lemma ndjson_two_lines_witness :
  exists content record first second,
    constructPanelExport scenario_D sales_panel (JStr "Dashboard") = Ok content
    /\ content = first ++ JSON.newline ++ second
    /\ free_of is_newline first = true
    /\ free_of is_newline second = true
    /\ savedObject scenario_D sales_panel = Ok record
    /\ JSON.parse first = Ok record
    /\ JSON.parse second = Ok exportSummary.
Proof.
  assert (Hc : exists content,
             constructPanelExport scenario_D sales_panel (JStr "Dashboard")
             = Ok content) by (eexists; reflexivity).
  destruct Hc as (content & Hc).
  destruct (ndjson_two_lines scenario_D sales_panel (JStr "Dashboard") content
              eq_refl (ex_intro _ _ eq_refl) Hc)
    as (record & first & second & H).
  exists content, record, first, second. split; assumption.
Defined.

(* ================================================================== *)
(** * What the classifier returns *)
(* ================================================================== *)

Lemma detected_shape (w : world) (main : json) :
  detectSavedObject w = Some main ->
  exists type id,
    In type recognized_types /\ id <> "" /\ main = detected w type id.
Proof.
  intros Hd. unfold detectSavedObject in Hd.
  pose proof (detect_in_spec w KIBANA_PATTERNS) as H. rewrite Hd in H.
  destruct H as (type & pat & id & earlier & later & E & _
                 & (before & (rest & _ & Hne & _) & _) & ->).
  exists type, id. split; [|split; [assumption | reflexivity]].
  unfold recognized_types. rewrite E, map_app, in_app_iff. right. now left.
Qed.

Ltac each_type H :=
  unfold recognized_types in H; cbn [map fst KIBANA_PATTERNS] in H;
  repeat (destruct H as [<-|H]); [..|contradiction].

Lemma detected_flags (w : world) (type id : string) :
  In type recognized_types -> id <> "" ->
  lookup (detected w type id) "type" = Some (JStr type)
  /\ lookup (detected w type id) "id" = Some (JStr id)
  /\ lookup (detected w type id) "title" = Some (extractTitle w)
  /\ lookup (detected w type id) "isEmbedded" = None
  /\ truthy (lookup (detected w type id) "notExportable") = (type =? "cases")%string
  /\ truthy (lookup (detected w type id) "useAlternativeApi")
     = ((type =? "slo") || (type =? "alert"))%string
  /\ canExport (detected w type id) = negb (type =? "cases")%string.
Proof.
  intros Ht Hid.
  assert (Hi : truthy (Some (JStr id)) = true)
    by (destruct id; [congruence | reflexivity]).
  unfold canExport.
  each_type Ht; repeat split;
    cbn [detected literal table_get own_entry ALTERNATIVE_API_TYPES
         NON_EXPORTABLE_TYPES String.eqb Ascii.eqb Bool.eqb existsb
         object_prototype_names entry_truthy lookup assoc orb andb negb];
    rewrite ?Hi; reflexivity.
Qed.

(* ================================================================== *)
(** * What the scan requests *)
(* ================================================================== *)

Lemma catch_ret_requests {A : Type} (m : io A) (a : A) :
  requests_of (try_catch m (fun _ => ret a)) = requests_of m.
Proof.
  unfold requests_of, run, try_catch, ret.
  destruct (m []) as [tr [x|e|]]; reflexivity.
Qed.

Lemma bind_ret_requests {A B : Type} (m : io A) (f : A -> B) :
  requests_of (x <~ m ;; ret (f x)) = requests_of m.
Proof.
  unfold requests_of, run, bind_io, ret.
  destruct (m []) as [tr [x|e|]]; reflexivity.
Qed.

Lemma getAllResources_requests (w : world) (type id : string) :
  In type recognized_types -> id <> "" ->
  detectSavedObject w = Some (detected w type id) ->
  requests_of (getAllResources w)
  = if includes "/app/dashboards" (href w) then [dashboard_request w id] else [].
Proof.
  intros Ht Hid Hd.
  destruct (detected_flags w type id Ht Hid) as (_ & Hi & _).
  destruct (includes "/app/dashboards" (href w)) eqn:Einc.
  - unfold requests_of.
    rewrite (getAllResources_dashboard w _ Hd Einc)
      by (rewrite Hi; destruct id; [congruence | reflexivity]).
    rewrite Hi, harvest_by_answer.
    destruct (fetch w (dashboard_request w id)) as [r| |]; [|reflexivity..].
    destruct (resp_ok r); [|reflexivity].
    destruct (dashboard <- response_json r ;; _); reflexivity.
  - unfold requests_of, run, getAllResources. rewrite Einc. reflexivity.
Qed.

(** X11.  The scan reads the dashboard document exactly when the
    classifier recognizes the page and the URL contains
    [/app/dashboards], whatever the recognized type; it asks for the
    recognized id and makes no other request. *)
Theorem scan_requests (w : world) :
  match detectSavedObject w with
  | None => requests_of (onGetAllResources w) = []
  | Some main =>
      exists id,
        lookup main "id" = Some (JStr id)
        /\ requests_of (onGetAllResources w)
           = if includes "/app/dashboards" (href w)
             then [dashboard_request w id] else []
  end.
Proof.
  unfold onGetAllResources. rewrite catch_ret_requests, bind_ret_requests.
  destruct (detectSavedObject w) as [main|] eqn:Hd.
  - destruct (detected_shape w main Hd) as (type & id & Ht & Hid & ->).
    exists id. split; [apply detected_id|].
    now apply (getAllResources_requests w type id).
  - unfold requests_of. now rewrite getAllResources_unrecognized.
Qed.

(* ================================================================== *)
(** * The info handler and the popup *)
(* ================================================================== *)

Lemma detected_truthy (w : world) (main : json) :
  detectSavedObject w = Some main -> truthy (Some main) = true.
Proof.
  intros Hd. destruct (detected_shape w main Hd) as (type & id & _ & _ & ->).
  reflexivity.
Qed.

Lemma info_by_scan (w : world) (tr : list http_request) (answer : scan_response) :
  run (onGetAllResources w) = (tr, Ok answer) ->
  run (onGetSavedObjectInfo w)
  = (tr, Ok {| info_savedObject := detectSavedObject w;
               info_baseUrl := baseUrl w;
               info_isKibanaPage :=
                 match detectSavedObject w with Some _ => true | None => false end;
               info_additionalResourceCount :=
                 Z.max 0 (Z.of_nat (List.length (resources answer)) - 1) |}).
Proof.
  unfold onGetSavedObjectInfo, onGetAllResources, getKibanaBaseUrl.
  destruct (detectSavedObject w) as [main|] eqn:Hd.
  - rewrite (detected_truthy w main Hd). cbn [andb].
    destruct (includes "/app/dashboards" (href w)) eqn:Einc.
    + unfold run, try_catch, bind_io, ret.
      destruct (getAllResources w []) as [tr' [found|e|]]; cbn [fst snd];
        intros H; try discriminate; now injection H as <- <-.
    + unfold run, try_catch, bind_io, ret, getAllResources.
      rewrite Hd, Einc. cbn [andb]. intros H. now injection H as <- <-.
  - cbn [truthy andb]. unfold run, try_catch, bind_io, ret.
    fold (run (getAllResources w)). rewrite (getAllResources_unrecognized w Hd).
    intros H. now injection H as <- <-.
Qed.

(** X12.  The info handler never lets an exception escape, and it agrees
    with the scan: whenever the scan answers with a resource list, the
    info handler makes the same requests and reports the classifier's
    result, whether the classifier recognized the page, and as the
    number of additional resources the length of that list less one
    (zero for an empty list). *)
Theorem info_agrees_with_scan (w : world) :
  (forall tr e, run (onGetSavedObjectInfo w) <> (tr, Throw e))
  /\ (forall tr answer,
      run (onGetAllResources w) = (tr, Ok answer) ->
      run (onGetSavedObjectInfo w)
      = (tr, Ok {| info_savedObject := detectSavedObject w;
                   info_baseUrl := baseUrl w;
                   info_isKibanaPage :=
                     match detectSavedObject w with
                     | Some _ => true
                     | None => false
                     end;
                   info_additionalResourceCount :=
                     Z.max 0 (Z.of_nat (List.length (resources answer)) - 1) |})).
Proof.
  split; [|apply info_by_scan].
  intros tr e. unfold onGetSavedObjectInfo, run, try_catch, bind_io, ret.
  destruct (truthy (detectSavedObject w) && includes "/app/dashboards" (href w));
    [|discriminate].
  destruct (getAllResources w []) as [tr' [found|e'|]]; discriminate.
Qed.

Lemma info_agrees_with_scan_witness :
  exists info,
    run (onGetSavedObjectInfo scenario_B)
    = ([dashboard_request scenario_B "abc-123"], Ok info)
    /\ info_additionalResourceCount info = 2.
Proof.
  eexists. split.
  - apply (proj2 (info_agrees_with_scan scenario_B)). reflexivity.
  - reflexivity.
Defined.

(** X13.  The popup shows "not detected" on a page the classifier does
    not recognize, "not exportable" exactly on a cases page, and
    otherwise the detected object with a button that reads
    [Explore N more in Side Panel] when the scan lists [N + 1 > 1]
    resources and [Open Side Panel] when it lists at most one. *)
Theorem popup_state_by_page (w : world) (tr : list http_request)
  (answer : scan_response) :
  run (onGetAllResources w) = (tr, Ok answer) ->
  let n := Z.of_nat (List.length (resources answer)) in
  run (popup_getSavedObjectInfo w)
  = (tr, Ok match detectSavedObject w with
            | None => st_notDetected
            | Some main =>
                if is_type (lookup main "type") "cases" then st_notExportable
                else st_detected
                       (if 1 <? n
                        then "Explore " ++ print_Z (n - 1) ++ " more in Side Panel"
                        else "Open Side Panel")
            end).
Proof.
  intros Hscan n. unfold popup_getSavedObjectInfo.
  unfold run, try_catch, bind_io. fold (run (onGetSavedObjectInfo w)).
  rewrite (info_by_scan w tr answer Hscan). cbn [info_savedObject info_isKibanaPage
    info_additionalResourceCount].
  destruct (detectSavedObject w) as [main|] eqn:Hd; [|reflexivity].
  rewrite (detected_truthy w main Hd). cbn [andb].
  destruct (detected_shape w main Hd) as (type & id & Ht & Hid & ->).
  destruct (detected_flags w type id Ht Hid) as (Htype & _ & _ & _ & Hne & _).
  rewrite Hne, Htype. unfold is_type. cbn [strict_eq].
  destruct (type =? "cases")%string; [reflexivity|].
  unfold ret, updateExploreBtnText. fold n.
  destruct (Z.ltb_spec 1 n) as [H1|H1].
  - replace (Z.max 0 (n - 1)) with (n - 1) by lia.
    destruct (Z.ltb_spec 0 (n - 1)); [reflexivity | lia].
  - destruct (Z.ltb_spec 0 (Z.max 0 (n - 1))); [lia | reflexivity].
Qed.

Lemma popup_state_by_page_witness :
  run (popup_getSavedObjectInfo scenario_B)
  = ([dashboard_request scenario_B "abc-123"],
     Ok (st_detected "Explore 2 more in Side Panel")).
Proof.
  exact (popup_state_by_page scenario_B _ _ eq_refl).
Defined.

(* ================================================================== *)
(** * From the classifier to the export *)
(* ================================================================== *)

Lemma handler_requests (w : world) (request : export_request) :
  requests_of (onExportSavedObject w request)
  = fst (run (export_content w request)).
Proof.
  unfold requests_of, onExportSavedObject, run, try_catch, bind_io, lift, ret.
  destruct (export_content w request []) as [tr [[content ext]|e|]];
    try reflexivity.
  cbn [fst snd]. destruct (sendMessage w _); reflexivity.
Qed.

Lemma truthy_or_false (a : jsval) :
  truthy (Some (or_default a (JBool false))) = truthy a.
Proof.
  destruct a as [v|]; [|reflexivity]. cbn [or_default].
  destruct (truthy (Some v)) eqn:E; [assumption | reflexivity].
Qed.

(** The requests of an export that names a recognized type and id and is
    flagged as the classifier flags it. *)
Lemma primary_requests (w : world) (request : export_request) (type id : string) :
  In type recognized_types -> id <> "" ->
  embedded_request request = false ->
  rq_type request = Some (JStr type) ->
  rq_id request = Some (JStr id) ->
  truthy (rq_useAlternativeApi request) = ((type =? "slo") || (type =? "alert"))%string ->
  type <> "cases" ->
  requests_of (onExportSavedObject w request) = primary_route w type id.
Proof.
  intros Ht Hid Hemb Htype Hi Hflag Hcases.
  assert (Hti : truthy (rq_id request) = true)
    by (rewrite Hi; destruct id; [congruence | reflexivity]).
  rewrite handler_requests. unfold primary_route.
  destruct (String.eqb_spec type "cases") as [->|_]; [congruence|].
  destruct (String.eqb_spec type "slo") as [->|Hslo].
  { rewrite (export_content_alternate_run w request "slo"
               {| apiPath := fun id => "/api/observability/slos/" ++ id;
                  fileExtension := "json" |} id);
      try assumption; try reflexivity; now rewrite ?Htype, ?Hi. }
  destruct (String.eqb_spec type "alert") as [->|Halert].
  { rewrite (export_content_alternate_run w request "alert"
               {| apiPath := fun id => "/api/alerting/rule/" ++ id;
                  fileExtension := "json" |} id);
      try assumption; try reflexivity; now rewrite ?Htype, ?Hi. }
  cbn [orb] in Hflag.
  rewrite (export_content_bulk_run w request Hemb (or_introl Hflag) Hti).
  now rewrite Htype, Hi.
Qed.

(** X14.  From the classifier to the network.  For the object the
    classifier recognizes on a page, the side panel sends no export at
    all when the type is not exportable (cases); otherwise its export,
    and the popup's, makes exactly one request: a read of the alternate
    API for an SLO or an alerting rule, and the bulk export of
    [{type, id}] for every other type. *)
Theorem primary_export_route (w : world) (main : json) (others : list json) :
  detectSavedObject w = Some main ->
  exists type id,
    lookup main "type" = Some (JStr type)
    /\ lookup main "id" = Some (JStr id)
    /\ requests_of (handleDownload w (main :: others) 0) = primary_route w type id
    /\ (type = "cases" ->
        run (handleDownload w (main :: others) 0) = ([], Ok None))
    /\ (type <> "cases" ->
        requests_of (onExportSavedObject w (popup_message main))
        = primary_route w type id).
Proof.
  intros Hd. destruct (detected_shape w main Hd) as (type & id & Ht & Hid & ->).
  destruct (detected_flags w type id Ht Hid)
    as (Htype & Hi & _ & Hemb & Hne & Halt & Hcan).
  exists type, id. split; [assumption|]. split; [assumption|].
  assert (Hcases : type = "cases" ->
            run (handleDownload w (detected w type id :: others) 0) = ([], Ok None)).
  { intros ->. unfold handleDownload. cbn [nth_error]. rewrite Hcan. reflexivity. }
  split; [|split; [exact Hcases|]].
  - destruct (String.eqb_spec type "cases") as [E|E].
    + unfold requests_of. rewrite (Hcases E). subst type. reflexivity.
    + unfold handleDownload. cbn [nth_error].
      rewrite Hcan. cbn [negb].
      change (truthy (Some (detected w type id))) with true. cbn [negb].
      rewrite (bind_ret_requests _ (@Some export_response)).
      apply primary_requests; try assumption.
      * unfold embedded_request, export_message. cbn [rq_isEmbedded].
        now rewrite Hemb.
      * unfold export_message. cbn [rq_useAlternativeApi].
        now rewrite truthy_or_false.
  - intros E. apply primary_requests; try assumption.
    + reflexivity.
    + unfold popup_message. cbn [rq_useAlternativeApi].
      now rewrite truthy_or_false.
Qed.

Lemma primary_export_route_witness :
  exists type id,
    lookup (detected slo_page "slo" "abc") "type" = Some (JStr type)
    /\ lookup (detected slo_page "slo" "abc") "id" = Some (JStr id)
    /\ requests_of (handleDownload slo_page [detected slo_page "slo" "abc"] 0)
       = primary_route slo_page type id.
Proof.
  destruct (primary_export_route slo_page (detected slo_page "slo" "abc") []
              eq_refl) as (type & id & H1 & H2 & H3 & _).
  exists type, id. repeat split; assumption.
Defined.

(* ================================================================== *)
(** * From the scan to the export of a panel *)
(* ================================================================== *)

Lemma extractPanelTitle_total (panel : json) :
  panel <> JNull -> exists title, extractPanelTitle panel = Ok title.
Proof.
  intros Hp. unfold extractPanelTitle. rewrite member_not_null by assumption.
  cbn [bind]. now eexists.
Qed.

Lemma extractPanelTitle_not_null (panel title : json) :
  extractPanelTitle panel = Ok title -> panel <> JNull.
Proof. intros H ->. discriminate. Qed.

Lemma savedObject_total (w : world) (panel : json) :
  panel <> JNull -> exists record, savedObject w panel = Ok record.
Proof.
  intros Hp. unfold savedObject. rewrite member_not_null by assumption.
  destruct (extractPanelTitle_total panel Hp) as (title & ->). cbn [bind].
  destruct (is_type (lookup panel "type") "lens"); [now eexists|].
  destruct (is_type (lookup panel "type") "visualization"); [now eexists|].
  destruct (is_type (lookup panel "type") "map"); [now eexists|].
  destruct (is_type (lookup panel "type") "search"); now eexists.
Qed.

Lemma panel_resource_not_null (dashboardId : jsval) (panel r : json) :
  panel_resource dashboardId panel = Ok r -> panel <> JNull.
Proof. intros H ->. discriminate. Qed.

(** [find] returns the first panel with the index, when the list has
    one. *)
Lemma find_panel_first (panelIndex : jsval) (panels : list json) (p : json) :
  Forall (fun q => q <> JNull) panels ->
  In p panels -> strict_eq (lookup p "panelIndex") panelIndex = true ->
  exists found,
    find_panel panelIndex panels = Ok (Some found)
    /\ In found panels /\ lookup found "panelIndex" = panelIndex.
Proof.
  induction 1 as [|q l Hq Hl IH]; [contradiction|].
  intros Hin Heq. cbn [find_panel]. rewrite member_not_null by assumption.
  cbn [bind]. destruct (strict_eq (lookup q "panelIndex") panelIndex) eqn:E.
  - exists q. split; [reflexivity|]. split; [now left|]. now apply strict_eq_eq.
  - destruct Hin as [->|Hin]; [congruence|].
    destruct (IH Hin Heq) as (found & Hf & Hfin & Hidx).
    exists found. split; [assumption|]. split; [now right | assumption].
Qed.

Lemma exportEmbeddedPanel_read (w : world) (dashboardId panelIndex : jsval)
  (tr : list http_request) (dashboard : json) (text : string) (panels : list json) :
  run (fetchDashboardData w dashboardId) = (tr, Ok dashboard) ->
  opt_member (lookup dashboard "attributes") "panelsJSON" = Some (JStr text) ->
  JSON.parse text = Ok (JArr panels) ->
  forall panel,
  find_panel panelIndex panels = Ok (Some panel) -> truthy (Some panel) = true ->
  run (exportEmbeddedPanel w dashboardId panelIndex)
  = (tr, constructPanelExport w panel
           (or_default (opt_member (lookup dashboard "attributes") "title")
              (JStr "Dashboard"))).
Proof.
  intros Hf Hp Hparse panel Hfind Ht.
  assert (Hd : dashboard <> JNull) by (intros ->; discriminate).
  unfold exportEmbeddedPanel. rewrite (run_bind _ _ _ _ Hf).
  unfold bind_io, lift, throw. rewrite member_not_null by assumption.
  cbn [fst snd]. rewrite Hp, (parse_truthy text _ Hparse). cbn [negb].
  unfold JSON_parse_value. cbn [to_js_string bind]. rewrite Hparse.
  cbn [as_array]. rewrite Hfind, Ht. reflexivity.
Qed.

Lemma no_target_answer (w : world) (request : export_request) :
  embedded_request request = false ->
  truthy (rq_useAlternativeApi request) = false ->
  truthy (rq_id request) = false ->
  run (onExportSavedObject w request)
  = ([], Ok (Failed (Error "No valid export target specified"))).
Proof.
  intros Hemb Hflag Hid. apply export_failure_answer.
  rewrite (export_content_plain w request Hemb (or_introl Hflag)), Hid.
  reflexivity.
Qed.

(** X15.  From the scan to the export.  Every panel resource the API
    harvest lists is offered for export by the side panel.  Exporting
    one with a truthy panel index (a string or a number) reads the same
    dashboard document and hands on the two-line record of the first
    panel of the list with that index, whose id is that index; when no
    two panels share an index, that panel is the one the resource was
    listed for.  (The dashboard id is not empty: the classifier captures
    at least one character.)  Exporting one whose panel index is falsy makes no
    request and fails with [No valid export target specified]. *)
Theorem scan_then_export (w : world) (id text : string) (tr : list http_request)
  (dashboard : json) (panels found : list json) (r : json) :
  id <> "" ->
  run (fetchDashboardData w (Some (JStr id))) = (tr, Ok dashboard) ->
  opt_member (lookup dashboard "attributes") "panelsJSON" = Some (JStr text) ->
  JSON.parse text = Ok (JArr panels) ->
  harvest_panels (Some (JStr id)) panels = Ok found ->
  In r found ->
  canExport r = true
  /\ (truthy (lookup r "panelIndex") = false ->
      run (onExportSavedObject w (export_message r))
      = ([], Ok (Failed (Error "No valid export target specified"))))
  /\ (truthy (lookup r "panelIndex") = true -> primitive (lookup r "panelIndex") ->
      exists panel record,
        In panel panels
        /\ lookup panel "panelIndex" = lookup r "panelIndex"
        /\ savedObject w panel = Ok record
        /\ lookup record "id" = lookup r "panelIndex"
        /\ run (export_content w (export_message r))
           = (tr, Ok (JSON.stringify record ++ JSON.newline
                      ++ JSON.stringify exportSummary, "ndjson"))
        /\ (unique_indexes panels ->
            panel_resource (Some (JStr id)) panel = Ok r
            /\ lookup record "type" = lookup r "type")).
Proof.
  intros Hne_id Hf Hp Hparse Hh Hin.
  assert (Htid : truthy (Some (JStr id)) = true)
    by (destruct id; [congruence | reflexivity]).
  destruct (harvest_panels_spec _ _ _ Hh) as (sorted & Hperm & Hall).
  destruct (Forall2_in_right _ _ _ _ Hall Hin) as (p & Hps & Hr).
  assert (Hpin : In p panels) by exact (Permutation_in _ (Permutation_sym Hperm) Hps).
  destruct (panel_resource_fields _ _ _ Hr)
    as ((Hid & Hemb & Hdash & Halt & Hne) & Htype & Hidx & _ & _ & Hcan).
  assert (Hnn : Forall (fun q => q <> JNull) panels).
  { apply (Permutation_Forall (Permutation_sym Hperm)).
    clear - Hall. induction Hall as [|a b l l' Hab _ IH]; constructor; [|exact IH].
    exact (panel_resource_not_null _ _ _ Hab). }
  split; [exact Hcan|]. split.
  - intros Hfalsy. apply no_target_answer.
    + unfold embedded_request, export_message. cbn [rq_isEmbedded rq_dashboardId
        rq_panelIndex]. rewrite Hfalsy. now rewrite !andb_false_r.
    + unfold export_message. cbn [rq_useAlternativeApi]. now rewrite Halt.
    + unfold export_message. cbn [rq_id]. now rewrite Hid.
  - intros Htruthy Hprim.
    assert (Heq : strict_eq (lookup p "panelIndex") (lookup r "panelIndex") = true)
      by (rewrite <- Hidx; exact Hprim).
    destruct (find_panel_first _ _ p Hnn Hpin Heq) as (panel & Hfind & Hpanel & Hpi).
    assert (Hpn : panel <> JNull)
      by (rewrite Forall_forall in Hnn; now apply Hnn).
    destruct (savedObject_total w panel Hpn) as (record & Hrec).
    exists panel, record. split; [assumption|]. split; [assumption|].
    split; [assumption|].
    assert (Hrid : lookup record "id" = lookup r "panelIndex").
    { rewrite (savedObject_id w panel record Hrec), Hpi.
      destruct (lookup r "panelIndex") as [v|]; [|discriminate].
      now rewrite or_default_truthy. }
    split; [exact Hrid|]. split.
    + assert (Hemb' : embedded_request (export_message r) = true).
      { unfold embedded_request, export_message. cbn [rq_isEmbedded rq_dashboardId
          rq_panelIndex]. rewrite Hemb, Hdash, Htruthy, Htid. reflexivity. }
      rewrite (export_content_embedded w _ Hemb').
      unfold export_message. cbn [rq_dashboardId rq_panelIndex]. rewrite Hdash.
      unfold run, bind_io.
      pose proof (exportEmbeddedPanel_read w (Some (JStr id)) (lookup r "panelIndex")
                    tr dashboard text panels Hf Hp Hparse panel Hfind) as Hrun.
      unfold run in Hrun. rewrite Hrun.
      * unfold constructPanelExport. rewrite Hrec. reflexivity.
      * destruct panel; try reflexivity; try congruence;
          rewrite <- Hpi in Htruthy; discriminate.
    + intros Huniq.
      assert (panel = p) by (apply Huniq; [assumption | assumption | congruence]).
      subst panel. split; [assumption|].
      pose proof (savedObject_type w p record Hrec) as Hty. congruence.
Qed.

Lemma scan_then_export_witness :
  let r := JObj [ ("type", JStr "lens"); ("subType", JStr "bar stacked");
                  ("id", JNull); ("title", JStr "Sales");
                  ("panelIndex", JStr "p-sales");
                  ("dashboardId", JStr "abc-123"); ("isEmbedded", JBool true) ] in
  harvest_panels (Some (JStr "abc-123")) [sales_panel] = Ok [r]
  /\ canExport r = true.
Proof.
  intros r. split; [reflexivity|].
  apply (scan_then_export scenario_D "abc-123"
           (JSON.stringify (JArr [sales_panel]))
           [dashboard_request scenario_D "abc-123"]
           (dashboard_document [sales_panel]) [sales_panel] [r] r);
    [ discriminate | vm_compute; reflexivity | reflexivity
    | vm_compute; reflexivity | reflexivity | left; reflexivity ].
Defined.

(* ================================================================== *)
(** * File names *)
(* ================================================================== *)

Lemma is_dash_eq (c : ascii) : is_dash c = true -> c = "-"%char.
Proof. apply Ascii.eqb_eq. Qed.

Lemma free_of_or (p q : ascii -> bool) (s : string) :
  free_of (fun c => p c || q c) s = free_of p s && free_of q s.
Proof.
  induction s as [|c s IH]; cbn [free_of]; [reflexivity|].
  rewrite IH, negb_orb. destruct (p c), (q c), (free_of p s), (free_of q s);
    reflexivity.
Qed.

(** ** What each step leaves *)

Lemma replace_chars_free (set : string) (s : string) :
  mem_char "-" set = false ->
  free_of (fun c => mem_char c set) (replace_chars set s) = true.
Proof.
  intros Hd. induction s as [|c s IH]; cbn [replace_chars free_of]; [reflexivity|].
  rewrite IH, andb_true_r. destruct (mem_char c set) eqn:E; now rewrite ?Hd, ?E.
Qed.

Lemma replace_chars_length (set : string) (s : string) :
  String.length (replace_chars set s) = String.length s.
Proof. induction s as [|c s IH]; cbn; congruence. Qed.

Lemma replace_runs_keeps (p q : ascii -> bool) (s : string) : forall inside,
  q "-"%char = false -> free_of q s = true ->
  free_of q (replace_runs p inside s) = true.
Proof.
  intros inside Hd. revert inside.
  induction s as [|c s IH]; intros inside; cbn [replace_runs free_of]; [trivial|].
  intros H. apply andb_true_iff in H as [Hc Hs].
  destruct (p c); [destruct inside|]; cbn [free_of];
    rewrite ?Hd, ?Hc, ?IH; auto.
Qed.

Lemma replace_runs_free (p : ascii -> bool) (s : string) : forall inside,
  p "-"%char = false -> free_of p (replace_runs p inside s) = true.
Proof.
  intros inside Hd. revert inside.
  induction s as [|c s IH]; intros inside; cbn [replace_runs free_of]; [trivial|].
  destruct (p c) eqn:E; [destruct inside|]; cbn [free_of];
    rewrite ?Hd, ?E, ?IH; auto.
Qed.

Lemma replace_runs_length (p : ascii -> bool) (s : string) : forall inside,
  (String.length (replace_runs p inside s) <= String.length s)%nat.
Proof.
  induction s as [|c s IH]; intros inside; cbn [replace_runs String.length]; [lia|].
  pose proof (IH true). pose proof (IH false).
  destruct (p c); [destruct inside|]; cbn [String.length]; lia.
Qed.

Lemma single_dashes_cons (c : ascii) (s : string) :
  single_dashes (String c s)
  = negb (is_dash c && starts_with_dash s) && single_dashes s.
Proof. destruct s; cbn [single_dashes starts_with_dash]; now rewrite ?andb_false_r. Qed.

Lemma collapse_dashes (s : string) : forall inside,
  single_dashes (replace_runs is_dash inside s) = true
  /\ (inside = true -> starts_with_dash (replace_runs is_dash inside s) = false).
Proof.
  induction s as [|c s IH]; intros inside; cbn [replace_runs].
  - now split.
  - destruct (is_dash c) eqn:E; [destruct inside|].
    + apply IH.
    + destruct (IH true) as (H1 & H2). split; [|discriminate].
      rewrite single_dashes_cons, H1, H2 by reflexivity.
      now rewrite andb_false_r.
    + destruct (IH false) as (H1 & _). split.
      * rewrite single_dashes_cons, H1, E. reflexivity.
      * intros _. cbn [starts_with_dash]. exact E.
Qed.

Lemma drop_last_dash_cons (c : ascii) (s : string) :
  drop_last_dash (String c s)
  = match s with
    | EmptyString => if is_dash c then "" else String c ""
    | _ => String c (drop_last_dash s)
    end.
Proof. destruct s; reflexivity. Qed.

Lemma ends_with_dash_cons (c : ascii) (s : string) :
  ends_with_dash (String c s)
  = match s with
    | EmptyString => is_dash c
    | _ => ends_with_dash s
    end.
Proof. destruct s; reflexivity. Qed.

Lemma drop_last_dash_keeps (q : ascii -> bool) (s : string) :
  free_of q s = true -> free_of q (drop_last_dash s) = true.
Proof.
  induction s as [|c s IH]; [trivial|].
  rewrite drop_last_dash_cons. cbn [free_of]. intros H.
  apply andb_true_iff in H as [Hc Hs].
  destruct s as [|d s]; [destruct (is_dash c); cbn [free_of]; now rewrite ?Hc|].
  cbn [free_of] in *. now rewrite Hc, IH.
Qed.

Lemma drop_last_dash_length (s : string) :
  (String.length (drop_last_dash s) <= String.length s)%nat.
Proof.
  induction s as [|c s IH]; [simpl; lia|].
  rewrite drop_last_dash_cons.
  destruct s as [|d s]; [destruct (is_dash c); simpl; lia|].
  cbn [String.length] in *. lia.
Qed.

Lemma drop_last_dash_start (s : string) :
  starts_with_dash s = false -> starts_with_dash (drop_last_dash s) = false.
Proof.
  destruct s as [|c s]; [trivial|]. rewrite drop_last_dash_cons.
  cbn [starts_with_dash]. intros Hc.
  destruct s; [now rewrite Hc | exact Hc].
Qed.

Lemma drop_last_dash_single (s : string) :
  single_dashes s = true ->
  single_dashes (drop_last_dash s) = true
  /\ ends_with_dash (drop_last_dash s) = false.
Proof.
  induction s as [|c s IH]; [now split|].
  rewrite single_dashes_cons, drop_last_dash_cons. intros H.
  apply andb_true_iff in H as [Hc Hs]. apply negb_true_iff in Hc.
  destruct s as [|d s].
  - destruct (is_dash c) eqn:E; [now split|]. split; [reflexivity|].
    cbn [ends_with_dash]. exact E.
  - destruct (IH Hs) as (H1 & H2).
    rewrite single_dashes_cons, H1, ends_with_dash_cons.
    destruct (drop_last_dash (String d s)) as [|e t] eqn:Ed.
    + (* the rest was a single dash *)
      split; [now rewrite andb_false_r|].
      rewrite drop_last_dash_cons in Ed.
      destruct s; [|discriminate].
      destruct (is_dash d) eqn:Hd; [|discriminate].
      cbn [starts_with_dash] in Hc. rewrite Hd, andb_true_r in Hc. exact Hc.
    + split; [|exact H2].
      rewrite andb_true_r. apply negb_true_iff.
      rewrite drop_last_dash_cons in Ed.
      destruct s as [|f s].
      * destruct (is_dash d) eqn:Hd; [discriminate|].
        injection Ed as <- <-. cbn [starts_with_dash]. rewrite Hd.
        now rewrite andb_false_r.
      * injection Ed as <- _. exact Hc.
Qed.

Lemma trim_dashes_keeps (q : ascii -> bool) (s : string) :
  free_of q s = true -> free_of q (trim_dashes s) = true.
Proof.
  destruct s as [|c s]; [trivial|]. unfold trim_dashes.
  destruct (is_dash c); [|apply drop_last_dash_keeps].
  cbn [free_of]. intros H. apply andb_true_iff in H as [_ H].
  now apply drop_last_dash_keeps.
Qed.

Lemma trim_dashes_length (s : string) :
  (String.length (trim_dashes s) <= String.length s)%nat.
Proof.
  destruct s as [|c s]; [simpl; lia|]. unfold trim_dashes.
  destruct (is_dash c).
  - pose proof (drop_last_dash_length s). cbn [String.length]. lia.
  - apply drop_last_dash_length.
Qed.

Lemma trim_dashes_single (s : string) :
  single_dashes s = true ->
  single_dashes (trim_dashes s) = true
  /\ starts_with_dash (trim_dashes s) = false
  /\ ends_with_dash (trim_dashes s) = false.
Proof.
  destruct s as [|c s]; [now repeat split|]. unfold trim_dashes.
  intros H. destruct (is_dash c) eqn:E.
  - rewrite single_dashes_cons, E in H. apply andb_true_iff in H as [Hc Hs].
    apply negb_true_iff in Hc. cbn [andb] in Hc.
    destruct (drop_last_dash_single s Hs) as (H1 & H2).
    repeat split; [assumption | now apply drop_last_dash_start | assumption].
  - destruct (drop_last_dash_single (String c s) H) as (H1 & H2).
    repeat split; [assumption | | assumption].
    apply drop_last_dash_start. exact E.
Qed.

(** ** Prefixes *)

Lemma substring_prefix (n : nat) : forall s,
  exists rest, s = String.substring 0 n s ++ rest.
Proof.
  induction n as [|n IH]; intros [|c s]; cbn [String.substring].
  - now exists "".
  - now exists (String c s).
  - now exists "".
  - destruct (IH s) as (rest & E). exists rest. cbn [append]. now rewrite <- E.
Qed.

Lemma substring_length (n : nat) : forall s,
  (String.length (String.substring 0 n s) <= n)%nat.
Proof.
  induction n as [|n IH]; intros [|c s]; cbn [String.substring String.length];
    try lia.
  specialize (IH s). lia.
Qed.

Lemma substring_all (n : nat) : forall s,
  (String.length s <= n)%nat -> String.substring 0 n s = s.
Proof.
  induction n as [|n IH]; intros [|c s]; cbn [String.substring String.length];
    try reflexivity; try lia.
  intros H. rewrite IH; [reflexivity | lia].
Qed.

Lemma single_dashes_prefix (a b : string) :
  single_dashes (a ++ b) = true -> single_dashes a = true.
Proof.
  induction a as [|c a IH]; [reflexivity|]. cbn [append].
  rewrite !single_dashes_cons. intros H.
  apply andb_true_iff in H as [Hc Hs]. rewrite (IH Hs), andb_true_r.
  destruct a as [|d a]; [cbn [starts_with_dash]; now rewrite andb_false_r|].
  exact Hc.
Qed.

Lemma starts_with_dash_prefix (a b : string) :
  starts_with_dash (a ++ b) = false -> starts_with_dash a = false.
Proof. destruct a; [reflexivity | trivial]. Qed.

(** ** The sanitized name *)

Lemma invalid_not_dash : mem_char "-" invalid_chars = false.
Proof. reflexivity. Qed.

Lemma space_not_dash : is_space "-" = false.
Proof. reflexivity. Qed.

Lemma sanitized_steps (name : string) :
  let cleaned :=
    trim_dashes (replace_runs is_dash false
                   (replace_runs is_space false
                      (replace_chars invalid_chars name))) in
  free_of unsafe_char cleaned = true
  /\ single_dashes cleaned = true
  /\ starts_with_dash cleaned = false
  /\ ends_with_dash cleaned = false
  /\ (String.length cleaned <= String.length name)%nat.
Proof.
  intros cleaned. unfold cleaned.
  set (s1 := replace_chars invalid_chars name).
  set (s2 := replace_runs is_space false s1).
  set (s3 := replace_runs is_dash false s2).
  assert (H1 : free_of (fun c => mem_char c invalid_chars) s1 = true)
    by (apply replace_chars_free; reflexivity).
  assert (H2 : free_of (fun c => mem_char c invalid_chars) s2 = true)
    by (apply replace_runs_keeps; [reflexivity | assumption]).
  assert (H2' : free_of is_space s2 = true)
    by (apply replace_runs_free; reflexivity).
  assert (H3 : free_of unsafe_char s3 = true).
  { unfold unsafe_char, s3. rewrite free_of_or.
    rewrite !replace_runs_keeps; first [reflexivity | assumption]. }
  destruct (collapse_dashes s2 false) as (H4 & _). fold s3 in H4.
  destruct (trim_dashes_single s3 H4) as (H5 & H6 & H7).
  repeat split; try assumption.
  - now apply trim_dashes_keeps.
  - pose proof (trim_dashes_length s3).
    pose proof (replace_runs_length is_dash s2 false).
    pose proof (replace_runs_length is_space s1 false).
    pose proof (replace_chars_length invalid_chars name).
    unfold s3, s2, s1 in *. lia.
Qed.

(** X20.  A sanitized name holds none of the nine characters the first
    replacement removes and no white space, has no two dashes in a row,
    does not start with a dash, and is at most 200 characters long and
    no longer than the name.  It ends with a dash only if the name was
    cut: a name of at most 200 characters gives a name that does not end
    with a dash. *)
Theorem sanitized_name_safe (name : string) :
  free_of unsafe_char (sanitizeFilename name) = true
  /\ single_dashes (sanitizeFilename name) = true
  /\ starts_with_dash (sanitizeFilename name) = false
  /\ (String.length (sanitizeFilename name) <= 200)%nat
  /\ (String.length (sanitizeFilename name) <= String.length name)%nat
  /\ ((String.length name <= 200)%nat ->
      ends_with_dash (sanitizeFilename name) = false).
Proof.
  destruct (sanitized_steps name) as (H1 & H2 & H3 & H4 & H5).
  unfold sanitizeFilename.
  set (cleaned := trim_dashes _) in *.
  destruct (substring_prefix 200 cleaned) as (rest & E).
  pose proof (substring_length 200 cleaned) as Hlen.
  assert (Hle : (String.length (String.substring 0 200 cleaned)
                 <= String.length cleaned)%nat).
  { rewrite E at 2. rewrite length_append. lia. }
  rewrite E in H1, H2, H3.
  rewrite free_of_app in H1. apply andb_true_iff in H1 as [H1 _].
  apply single_dashes_prefix in H2. apply starts_with_dash_prefix in H3.
  repeat split; try assumption; try lia.
  intros Hn. rewrite substring_all by lia. exact H4.
Qed.

Lemma sanitized_name_safe_witness :
  ends_with_dash (sanitizeFilename "Web traffic: 2024/05 ") = false.
Proof.
  apply (sanitized_name_safe "Web traffic: 2024/05 "). simpl. lia.
Defined.

(* ================================================================== *)
(** * Names the sanitizer leaves alone *)
(* ================================================================== *)

Lemma replace_chars_id (set : string) (s : string) :
  free_of (fun c => mem_char c set) s = true -> replace_chars set s = s.
Proof.
  induction s as [|c s IH]; cbn [free_of replace_chars]; [reflexivity|].
  intros H. apply andb_true_iff in H as [Hc Hs]. apply negb_true_iff in Hc.
  now rewrite Hc, IH.
Qed.

Lemma replace_runs_id (p : ascii -> bool) (s : string) : forall inside,
  free_of p s = true -> replace_runs p inside s = s.
Proof.
  induction s as [|c s IH]; intros inside; cbn [free_of replace_runs];
    [reflexivity|].
  intros H. apply andb_true_iff in H as [Hc Hs]. apply negb_true_iff in Hc.
  now rewrite Hc, IH.
Qed.

Lemma collapse_id (s : string) : forall inside,
  single_dashes s = true -> (inside = true -> starts_with_dash s = false) ->
  replace_runs is_dash inside s = s.
Proof.
  induction s as [|c s IH]; intros inside; [reflexivity|].
  rewrite single_dashes_cons. cbn [replace_runs starts_with_dash].
  intros H Hstart. apply andb_true_iff in H as [Hc Hs].
  apply negb_true_iff in Hc.
  destruct (is_dash c) eqn:E.
  - destruct inside; [now specialize (Hstart eq_refl)|].
    apply is_dash_eq in E. subst c. cbn [andb] in Hc.
    now rewrite IH.
  - now rewrite IH.
Qed.

Lemma drop_last_dash_id (s : string) :
  ends_with_dash s = false -> drop_last_dash s = s.
Proof.
  induction s as [|c s IH]; [reflexivity|].
  rewrite ends_with_dash_cons, drop_last_dash_cons.
  destruct s as [|d s]; [now intros -> | intros H; now rewrite IH].
Qed.

Lemma trim_dashes_id (s : string) :
  starts_with_dash s = false -> ends_with_dash s = false -> trim_dashes s = s.
Proof.
  destruct s as [|c s]; [reflexivity|]. unfold trim_dashes.
  cbn [starts_with_dash]. intros -> H. now apply drop_last_dash_id.
Qed.

Lemma tidy_fixed (s : string) : tidy s = true -> sanitizeFilename s = s.
Proof.
  unfold tidy, unsafe_char. rewrite free_of_or. intros H.
  repeat (apply andb_true_iff in H as [H ?]).
  repeat match goal with
         | Hn : negb _ = true |- _ => apply negb_true_iff in Hn
         | Hl : (_ <=? _)%nat = true |- _ => apply Nat.leb_le in Hl
         end.
  unfold sanitizeFilename.
  rewrite (replace_chars_id invalid_chars), (replace_runs_id is_space),
    collapse_id, trim_dashes_id, substring_all;
    try assumption; try reflexivity.
  discriminate.
Qed.

Lemma sanitized_tidy (name : string) :
  (String.length name <= 200)%nat -> tidy (sanitizeFilename name) = true.
Proof.
  intros Hn. destruct (sanitized_steps name) as (H1 & H2 & H3 & H4 & H5).
  unfold sanitizeFilename. rewrite substring_all by lia.
  unfold tidy. rewrite H1, H2, H3, H4. cbn [negb andb].
  apply Nat.leb_le. lia.
Qed.

(** X21.  A name that is already tidy (no replaced character, no two
    dashes in a row, no dash at either end, at most 200 characters) is
    left as it is.  Sanitizing a name of at most 200 characters gives a
    tidy name, so sanitizing twice is sanitizing once.  Without the
    bound this fails: a name cut after a dash ends with that dash, which
    a second pass removes. *)
Theorem sanitize_fixed_point (name : string) :
  (tidy name = true -> sanitizeFilename name = name)
  /\ ((String.length name <= 200)%nat ->
      tidy (sanitizeFilename name) = true
      /\ sanitizeFilename (sanitizeFilename name) = sanitizeFilename name)
  /\ ends_with_dash (sanitizeFilename cut_name) = true
  /\ sanitizeFilename (sanitizeFilename cut_name) <> sanitizeFilename cut_name.
Proof.
  split; [apply tidy_fixed|]. split.
  - intros Hn. pose proof (sanitized_tidy name Hn) as Ht.
    split; [exact Ht | now apply tidy_fixed].
  - split; [vm_compute; reflexivity|].
    vm_compute. discriminate.
Qed.

Lemma sanitize_fixed_point_witness :
  sanitizeFilename "Web-traffic" = "Web-traffic"
  /\ sanitizeFilename (sanitizeFilename "Web  traffic")
     = sanitizeFilename "Web  traffic".
Proof.
  destruct (sanitize_fixed_point "Web-traffic") as (H & _).
  destruct (sanitize_fixed_point "Web  traffic") as (_ & H' & _).
  split; [apply H; reflexivity|].
  apply H'. simpl. lia.
Defined.

(* ================================================================== *)
(** * Names that sanitize to nothing *)
(* ================================================================== *)

Lemma all_dashes_collapse (s : string) : forall inside,
  all_of is_dash s = true ->
  replace_runs is_dash inside s
  = match s with
    | EmptyString => ""
    | _ => if inside then "" else "-"
    end.
Proof.
  unfold all_of.
  induction s as [|c s IH]; intros inside; cbn [free_of replace_runs];
    [reflexivity|].
  intros H. apply andb_true_iff in H as [Hc Hs].
  apply negb_true_iff, negb_false_iff in Hc. rewrite Hc.
  destruct inside; rewrite (IH true Hs); destruct s; reflexivity.
Qed.

Lemma spaces_to_dashes (s : string) : forall inside,
  all_of (fun c => is_dash c || is_space c) s = true ->
  all_of is_dash (replace_runs is_space inside s) = true.
Proof.
  unfold all_of.
  induction s as [|c s IH]; intros inside; cbn [free_of replace_runs];
    [reflexivity|].
  intros H. apply andb_true_iff in H as [Hc Hs].
  apply negb_true_iff, negb_false_iff in Hc.
  destruct (is_space c) eqn:E.
  - destruct inside; cbn [free_of]; now rewrite ?IH.
  - rewrite orb_false_r in Hc. cbn [free_of]. now rewrite Hc, IH.
Qed.

Lemma invalid_to_dashes (s : string) :
  dashes_only s = true ->
  all_of (fun c => is_dash c || is_space c) (replace_chars invalid_chars s) = true.
Proof.
  unfold dashes_only, all_of, unsafe_char.
  induction s as [|c s IH]; cbn [free_of replace_chars]; [reflexivity|].
  intros H. apply andb_true_iff in H as [Hc Hs].
  apply negb_true_iff, negb_false_iff in Hc. rewrite (IH Hs), andb_true_r.
  destruct (mem_char c invalid_chars); [reflexivity|].
  cbn [orb] in Hc. apply negb_true_iff, negb_false_iff.
  now rewrite orb_comm.
Qed.

Lemma dashes_only_empty (name : string) :
  dashes_only name = true -> sanitizeFilename name = "".
Proof.
  intros H. unfold sanitizeFilename.
  rewrite (all_dashes_collapse _ false
             (spaces_to_dashes _ false (invalid_to_dashes name H))).
  destruct (replace_runs is_space false (replace_chars invalid_chars name));
    reflexivity.
Qed.

(** X22.  The file name is [<sanitized title>-<type>.<extension>].  A
    falsy title (missing, [null], empty) gives [untitled-...]; a title
    that is truthy and not a string is a TypeError; a title made only of
    replaced characters, white space and dashes sanitizes to nothing, so
    the file name starts with a dash. *)
Theorem filename_shape (title type : jsval) (extension type_text : string) :
  to_js_string type = Ok type_text ->
  (truthy title = false ->
   generateFilename title type extension
   = Ok ("untitled-" ++ type_text ++ "." ++ extension))
  /\ (forall name,
      title = Some (JStr name) -> name <> "" ->
      generateFilename title type extension
      = Ok (sanitizeFilename name ++ "-" ++ type_text ++ "." ++ extension)
      /\ (dashes_only name = true ->
          generateFilename title type extension
          = Ok ("-" ++ type_text ++ "." ++ extension)))
  /\ (truthy title = true -> (forall name, title <> Some (JStr name)) ->
      generateFilename title type extension = Throw TypeError).
Proof.
  intros Ht. unfold generateFilename. split; [|split].
  - intros Hf. rewrite or_default_falsy by assumption. cbn [bind].
    rewrite Ht. reflexivity.
  - intros name -> Hne.
    assert (Htr : truthy (Some (JStr name)) = true)
      by (destruct name; [congruence | reflexivity]).
    rewrite or_default_truthy by assumption. cbn [bind]. rewrite Ht. cbn [bind].
    split; [reflexivity|]. intros Hd. now rewrite dashes_only_empty.
  - intros Htr Hns. destruct title as [v|]; [|discriminate].
    rewrite or_default_truthy by assumption.
    destruct v; try reflexivity. exfalso. now apply (Hns s).
Qed.

Lemma filename_shape_witness :
  generateFilename (Some (JStr "Web traffic: 2024/05")) (Some (JStr "dashboard"))
    "ndjson"
  = Ok (sanitizeFilename "Web traffic: 2024/05" ++ "-dashboard.ndjson").
Proof.
  destruct (filename_shape (Some (JStr "Web traffic: 2024/05"))
              (Some (JStr "dashboard")) "ndjson" "dashboard" eq_refl)
    as (_ & H & _).
  destruct (H "Web traffic: 2024/05" eq_refl) as (E & _); [discriminate|].
  exact E.
Defined.

(* ================================================================== *)
(** * From the export to the download *)
(* ================================================================== *)

Lemma bind_io_ok {A B : Type} (m : io A) (k : A -> io B)
  (tr tr' : list http_request) (b : B) :
  bind_io m k tr = (tr', Ok b) ->
  exists a tr1, m tr = (tr1, Ok a) /\ k a tr1 = (tr', Ok b).
Proof.
  unfold bind_io. destruct (m tr) as [tr1 [a|e|]]; try discriminate.
  intros H. now exists a, tr1.
Qed.

Lemma export_extension (w : world) (request : export_request)
  (tr : list http_request) (content extension : string) :
  run (export_content w request) = (tr, Ok (content, extension)) ->
  extension = "ndjson"
  \/ (extension = "json" /\ truthy (rq_useAlternativeApi request) = true).
Proof.
  unfold run, export_content.
  destruct (truthy (rq_isEmbedded request) && truthy (rq_dashboardId request)
            && truthy (rq_panelIndex request)).
  - intros H. apply bind_io_ok in H as (c & tr1 & _ & H).
    injection H as _ _ <-. now left.
  - intros H. apply bind_io_ok in H as (alternative & tr1 & Ha & H).
    destruct (entry_truthy alternative) eqn:Et.
    + apply bind_io_ok in H as (c & tr2 & Hc & H). injection H as _ _ <-.
      destruct (truthy (rq_useAlternativeApi request)) eqn:Ef.
      * right. split; [|reflexivity].
        unfold lift, alternative_api in Ha.
        destruct (to_js_string (rq_type request)) as [key| |]; try discriminate.
        cbn [bind] in Ha. injection Ha as _ <-. unfold table_get.
        destruct (own_entry ALTERNATIVE_API_TYPES key) as [config|] eqn:Eo.
        -- destruct (alternate_configs key config Eo) as (Hext & _).
           unfold alternative_extension. now rewrite Hext.
        -- destruct (existsb _ _); reflexivity.
      * injection Ha as _ <-. discriminate.
    + destruct (truthy (rq_id request)); [|discriminate].
      apply bind_io_ok in H as (c & tr2 & _ & H). injection H as _ _ <-. now left.
Qed.

(** X23.  Whatever the content script hands to the background worker has
    the extension [ndjson] or [json], [json] only for an export flagged
    for an alternate API; the worker maps them to
    [application/x-ndjson] and [application/json], never to the
    fallback type. *)
Theorem export_mime_type (w : world) (request : export_request)
  (tr : list http_request) (content extension : string) :
  run (export_content w request) = (tr, Ok (content, extension)) ->
  (extension = "ndjson" /\ getMimeType extension = Ok "application/x-ndjson")
  \/ (extension = "json" /\ getMimeType extension = Ok "application/json"
      /\ truthy (rq_useAlternativeApi request) = true).
Proof.
  intros H. destruct (export_extension w request tr content extension H)
    as [->|[-> Hf]]; [left | right]; repeat split; assumption.
Qed.

Lemma export_mime_type_witness :
  getMimeType "ndjson" = Ok "application/x-ndjson".
Proof.
  destruct (export_mime_type plain_server
              (primary_request "dashboard" "abc-123" false)
              [bulk_request plain_server (Some (JStr "dashboard"))
                 (Some (JStr "abc-123"))] "{}" "ndjson" eq_refl)
    as [[_ H]|[H _]]; [exact H | discriminate H].
Defined.

(* ================================================================== *)
(** * The download handler *)
(* ================================================================== *)

(** X24.  The download handler never lets an exception escape.  With a
    file name and a MIME type it asks the browser for one download, of
    the data URL of the content under that file name, and answers with
    the file name when the browser accepts it and with the browser's
    error otherwise; a title that is not a string is answered as a
    failure without any download. *)
Theorem download_always_answers (download : string -> string -> outcome Z)
  (request : download_request) :
  (forall e, onDownloadFile download request <> Throw e)
  /\ (forall filename mimeType,
      generateFilename (dl_title request) (dl_type request)
        (dl_fileExtension request) = Ok filename ->
      getMimeType (dl_fileExtension request) = Ok mimeType ->
      onDownloadFile download request
      = match download (dataUrl mimeType (dl_content request)) filename with
        | Ok _ => Ok (Saved filename)
        | Throw e => Ok (NotSaved e)
        | Unmodelled => Unmodelled
        end)
  /\ (forall e,
      generateFilename (dl_title request) (dl_type request)
        (dl_fileExtension request) = Throw e ->
      onDownloadFile download request = Ok (NotSaved e)).
Proof.
  unfold onDownloadFile, downloadAsFile. split; [|split].
  - intros e. destruct (generateFilename _ _ _) as [filename| |]; cbn [bind];
      try discriminate.
    destruct (getMimeType _) as [mimeType| |]; cbn [bind]; try discriminate.
    destruct (download _ _); discriminate.
  - intros filename mimeType -> ->. cbn [bind].
    destruct (download _ _); reflexivity.
  - intros e ->. reflexivity.
Qed.

Lemma download_always_answers_witness :
  onDownloadFile (fun _ _ => Ok 1)
    {| dl_content := "{}"; dl_title := Some (JStr "Web traffic");
       dl_type := Some (JStr "dashboard"); dl_fileExtension := "ndjson" |}
  = Ok (Saved "Web-traffic-dashboard.ndjson").
Proof.
  destruct (download_always_answers (fun _ _ => Ok 1)
              {| dl_content := "{}"; dl_title := Some (JStr "Web traffic");
                 dl_type := Some (JStr "dashboard");
                 dl_fileExtension := "ndjson" |}) as (_ & H & _).
  apply (H "Web-traffic-dashboard.ndjson" "application/x-ndjson");
    vm_compute; reflexivity.
Defined.

(* ================================================================== *)
(** * The data URL of a download *)
(* ================================================================== *)

Ltac div_lia := Z.to_euclidean_division_equations; lia.

Lemma code_range (c : ascii) : 0 <= code c < 256.
Proof. unfold code. pose proof (nat_ascii_bounded c). lia. Qed.

Lemma char_of_code (c : ascii) : char_of (code c) = c.
Proof. unfold char_of, code. rewrite Nat2Z.id. apply ascii_nat_embedding. Qed.

Lemma code_char_of (n : Z) : 0 <= n < 256 -> code (char_of n) = n.
Proof.
  intros H. unfold char_of, code. rewrite nat_ascii_embedding by lia. lia.
Qed.

Lemma sextet_cases (n : Z) :
  0 <= n < 64 -> exists k, (k < 64)%nat /\ n = Z.of_nat k.
Proof. intros H. exists (Z.to_nat n). lia. Qed.

Lemma base64_index_char (n : Z) :
  0 <= n < 64 ->
  base64_index (base64_char n) = Some n
  /\ (base64_char n =? "=")%char = false.
Proof.
  intros H. destruct (sextet_cases n H) as (k & Hk & ->). clear H.
  do 64 (destruct k as [|k]; [split; vm_compute; reflexivity|]).
  lia.
Qed.

Lemma atob_btoa_bounded (n : nat) : forall bytes,
  (String.length bytes <= n)%nat -> atob (btoa bytes) = Some bytes.
Proof.
  induction n as [|n IH]; intros bytes Hn.
  - destruct bytes; [reflexivity | simpl in Hn; lia].
  - destruct bytes as [|a [|b [|c r]]]; [reflexivity|..].
    + pose proof (code_range a) as Ha.
      cbn [btoa atob].
      destruct (base64_index_char (code a / 4)) as (-> & _); [div_lia|].
      destruct (base64_index_char (code a mod 4 * 16)) as (-> & _); [div_lia|].
      change ("=" =? "=")%char with true. cbv iota.
      replace (code a / 4 * 4 + code a mod 4 * 16 / 16) with (code a) by div_lia.
      now rewrite char_of_code.
    + pose proof (code_range a) as Ha. pose proof (code_range b) as Hb.
      cbn [btoa atob].
      destruct (base64_index_char (code a / 4)) as (-> & _); [div_lia|].
      destruct (base64_index_char (code a mod 4 * 16 + code b / 16))
        as (-> & _); [div_lia|].
      destruct (base64_index_char (code b mod 16 * 4)) as (-> & ->); [div_lia|].
      change ("=" =? "=")%char with true. cbv iota.
      replace (code a / 4 * 4 + (code a mod 4 * 16 + code b / 16) / 16)
        with (code a) by div_lia.
      replace ((code a mod 4 * 16 + code b / 16) mod 16 * 16
               + code b mod 16 * 4 / 4) with (code b) by div_lia.
      now rewrite !char_of_code.
    + pose proof (code_range a) as Ha. pose proof (code_range b) as Hb.
      pose proof (code_range c) as Hc.
      cbn [btoa atob].
      destruct (base64_index_char (code a / 4)) as (-> & _); [div_lia|].
      destruct (base64_index_char (code a mod 4 * 16 + code b / 16))
        as (-> & _); [div_lia|].
      destruct (base64_index_char (code b mod 16 * 4 + code c / 64))
        as (-> & ->); [div_lia|].
      destruct (base64_index_char (code c mod 64)) as (-> & ->); [div_lia|].
      rewrite IH by (simpl in Hn; lia).
      replace (code a / 4 * 4 + (code a mod 4 * 16 + code b / 16) / 16)
        with (code a) by div_lia.
      replace ((code a mod 4 * 16 + code b / 16) mod 16 * 16
               + (code b mod 16 * 4 + code c / 64) / 4) with (code b) by div_lia.
      replace ((code b mod 16 * 4 + code c / 64) mod 4 * 64 + code c mod 64)
        with (code c) by div_lia.
      now rewrite !char_of_code.
Qed.

Lemma atob_btoa (bytes : string) : atob (btoa bytes) = Some bytes.
Proof. now apply (atob_btoa_bounded (String.length bytes)). Qed.

Lemma utf8_decode_utf8 (s : string) : utf8_decode (utf8 s) = Some s.
Proof.
  induction s as [|c s IH]; [reflexivity|].
  pose proof (code_range c) as Hc. cbn [utf8].
  destruct (Z.ltb_spec (code c) 128) as [Hlow|Hhigh].
  - cbn [utf8_decode].
    destruct (Z.ltb_spec (code c) 128); [|lia]. now rewrite IH.
  - cbn [utf8_decode].
    rewrite !code_char_of by div_lia.
    destruct (Z.ltb_spec (192 + code c / 64) 128); [div_lia|].
    destruct (Z.leb_spec 192 (192 + code c / 64)); [|div_lia].
    destruct (Z.ltb_spec (192 + code c / 64) 196); [|div_lia].
    destruct (Z.leb_spec 128 (128 + code c mod 64)); [|div_lia].
    destruct (Z.ltb_spec (128 + code c mod 64) 192); [|div_lia].
    cbn [andb]. rewrite IH.
    replace ((192 + code c / 64 - 192) * 64 + (128 + code c mod 64 - 128))
      with (code c) by div_lia.
    now rewrite char_of_code.
Qed.

Lemma btoa_length_bounded (n : nat) : forall bytes,
  (String.length bytes <= n)%nat ->
  Z.of_nat (String.length (btoa bytes))
  = 4 * ((Z.of_nat (String.length bytes) + 2) / 3).
Proof.
  induction n as [|n IH]; intros bytes Hn.
  - destruct bytes; [reflexivity | simpl in Hn; lia].
  - destruct bytes as [|a [|b [|c r]]]; try reflexivity.
    cbn [btoa String.length] in *.
    specialize (IH r ltac:(lia)).
    rewrite !Nat2Z.inj_succ, IH. div_lia.
Qed.

(** X25.  The data URL of a download loses nothing: decoding its base64
    payload and then the UTF-8 bytes gives the content back, so two
    contents with the same data URL are the same.  The payload is
    padded: its length is four characters for every three bytes, rounded
    up. *)
Theorem data_url_roundtrip (mimeType content : string) :
  data_of (dataUrl mimeType content) mimeType = Some content
  /\ (forall other, dataUrl mimeType other = dataUrl mimeType content ->
                    other = content)
  /\ Z.of_nat (String.length (btoa (utf8 content)))
     = 4 * ((Z.of_nat (String.length (utf8 content)) + 2) / 3).
Proof.
  assert (H : forall c, data_of (dataUrl mimeType c) mimeType = Some c).
  { intros c. unfold data_of, dataUrl.
    rewrite <- !append_assoc.
    rewrite (proj2 (strip_prefix_spec _ _ (btoa (utf8 c)))) by reflexivity.
    now rewrite atob_btoa, utf8_decode_utf8. }
  split; [apply H|]. split.
  - intros other E. pose proof (H other) as Ho. rewrite E, H in Ho. congruence.
  - now apply (btoa_length_bounded (String.length (utf8 content))).
Qed.

(* ================================================================== *)
(** * The highlight *)
(* ================================================================== *)

Lemma compareRect_pure (a b : element) :
  exists r, compareRect a b = Ok r /\ goes_after r = rect_after a b.
Proof.
  unfold compareRect, rect_after. cbv zeta.
  destruct (rowThreshold <? Z.abs (el_top a - el_top b)); eexists;
    (split; [reflexivity|]); reflexivity.
Qed.

Lemma sort_elements (l : list element) :
  Array_sort compareRect l = Ok (sort_by rect_after l).
Proof.
  assert (H : Array_sort compareRect (map (fun e : element => e) l)
              = Ok (map (fun e : element => e) (sort_by rect_after l))).
  { apply (Array_sort_pure rect_after (fun e : element => e) compareRect
             (fun _ => True)).
    - intros x y _ _. apply compareRect_pure.
    - rewrite Forall_forall. trivial. }
  now rewrite !map_id in H.
Qed.

(** [highlightPanel], by the place of the resource in the list. *)
Lemma highlightPanel_number (w : world) (panelIndex index : jsval) (k : Z)
  (s : highlight_state) :
  to_number index = Ok (Some k) ->
  highlightPanel w panelIndex index s
  = Ok match nth_error (highlight_order w) (Z.to_nat (k - 1)) with
       | Some panel =>
           if 1 <=? k then
             {| highlightedElement := Some panel;
                highlightOverlay := Some (created s);
                body := (body (unhighlightPanel s)
                         ++ [{| ov_node := created s; ov_top := el_top panel;
                                ov_left := el_left panel |}])%list;
                created := S (created s) |}
           else unhighlightPanel s
       | None => unhighlightPanel s
       end.
Proof.
  intros Hk. unfold highlightPanel, highlight_order.
  destruct (first_matching w highlightSelectors) as [|e l] eqn:E.
  - cbn [sort_by nth_error]. now destruct (Z.to_nat (k - 1)).
  - rewrite sort_elements. unfold js_sub. rewrite Hk. cbn [bind to_number].
    set (sorted := sort_by rect_after (e :: l)).
    destruct (Z.leb_spec 0 (k - 1)) as [H0|H0]; cbn [andb].
    + destruct (Z.leb_spec 1 k); [|lia].
      destruct (Z.ltb_spec (k - 1) (Z.of_nat (List.length sorted))) as [H1|H1].
      * destruct (nth_error sorted (Z.to_nat (k - 1))); reflexivity.
      * assert (Hn : nth_error sorted (Z.to_nat (k - 1)) = None)
          by (apply nth_error_None; lia).
        now rewrite Hn.
    + destruct (Z.leb_spec 1 k); [lia|].
      now destruct (nth_error sorted (Z.to_nat (k - 1))).
Qed.

Lemma highlightPanel_nan (w : world) (panelIndex index : jsval)
  (s : highlight_state) :
  to_number index = Ok None ->
  highlightPanel w panelIndex index s = Ok (unhighlightPanel s).
Proof.
  intros Hk. unfold highlightPanel.
  destruct (first_matching w highlightSelectors) as [|e l]; [reflexivity|].
  rewrite sort_elements. unfold js_sub. rewrite Hk. reflexivity.
Qed.

Lemma highlightPanel_beyond (w : world) (panelIndex index : jsval)
  (s s' : highlight_state) :
  to_number index = Unmodelled ->
  highlightPanel w panelIndex index s = Ok s' -> s' = unhighlightPanel s.
Proof.
  intros Hk. unfold highlightPanel.
  destruct (first_matching w highlightSelectors) as [|e l];
    [intros H; now injection H as <-|].
  rewrite sort_elements. unfold js_sub. rewrite Hk. discriminate.
Qed.

Lemma unhighlight_consistent (s : highlight_state) :
  consistent s ->
  consistent (unhighlightPanel s) /\ body (unhighlightPanel s) = [].
Proof.
  unfold consistent, unhighlightPanel. cbn [highlightedElement highlightOverlay body].
  destruct (highlightedElement s), (highlightOverlay s) as [node|];
    try contradiction.
  - intros (_ & o & -> & <-). cbn [filter]. rewrite Nat.eqb_refl. now split.
  - intros ->. now split.
Qed.

Lemma highlight_consistent (w : world) (panelIndex index : jsval)
  (s s' : highlight_state) :
  consistent s -> highlightPanel w panelIndex index s = Ok s' -> consistent s'.
Proof.
  intros Hs. destruct (unhighlight_consistent s Hs) as (Hu & Hb).
  destruct (to_number index) as [[k|]|e|] eqn:Ek.
  - rewrite (highlightPanel_number w panelIndex index k s Ek).
    destruct (nth_error (highlight_order w) (Z.to_nat (k - 1))) as [panel|];
      [|intros H; now injection H as <-].
    destruct (1 <=? k); [|intros H; now injection H as <-].
    intros H. injection H as <-. unfold consistent.
    cbn [highlightedElement highlightOverlay body created].
    unfold unhighlightPanel in Hb. cbn [body] in Hb. rewrite Hb.
    split; [lia|]. eexists. split; reflexivity.
  - rewrite (highlightPanel_nan w panelIndex index s Ek).
    intros H. now injection H as <-.
  - destruct index as [[|[|]| | | |]|]; discriminate.
  - intros H. now rewrite (highlightPanel_beyond w panelIndex index s s' Ek H).
Qed.

Lemma update_consistent (rect : element -> Z * Z) (s : highlight_state) :
  consistent s -> consistent (updateHighlightPosition rect s).
Proof.
  unfold consistent, updateHighlightPosition.
  destruct (highlightedElement s) as [panel|] eqn:Ee,
           (highlightOverlay s) as [node|] eqn:Eo; try contradiction.
  - cbn [highlightedElement highlightOverlay body created]. rewrite ?Ee, ?Eo.
    intros (Hn & o & -> & <-). split; [assumption|].
    cbn [map]. rewrite Nat.eqb_refl. eexists. split; reflexivity.
  - rewrite ?Ee, ?Eo. trivial.
Qed.

Lemma events_consistent (w : world) (events : list highlight_event) :
  forall s s', consistent s -> handle_events w events s = Ok s' -> consistent s'.
Proof.
  induction events as [|e events IH]; intros s s' Hs; cbn [handle_events].
  - intros H. now injection H as <-.
  - destruct (handle_event w e s) as [s1| |] eqn:E; try discriminate.
    cbn [bind]. apply IH.
    destruct e as [panelIndex index| |rect]; cbn [handle_event] in E.
    + exact (highlight_consistent w _ _ s s1 Hs E).
    + injection E as <-. now apply unhighlight_consistent.
    + injection E as <-. now apply update_consistent.
Qed.

Lemma events_total (w : world) (events : list highlight_event) :
  Forall numeric_event events ->
  forall s, exists s', handle_events w events s = Ok s'.
Proof.
  induction 1 as [|e events He _ IH]; intros s; cbn [handle_events].
  - now eexists.
  - destruct e as [panelIndex [[| |k| | |]|]| |rect]; try contradiction;
      cbn [handle_event].
    + rewrite (highlightPanel_number w panelIndex (Some (JNum k)) k s eq_refl).
      cbn [bind]. apply IH.
    + rewrite (highlightPanel_nan w panelIndex None s eq_refl).
      cbn [bind]. apply IH.
    + cbn [bind]. apply IH.
    + cbn [bind]. apply IH.
Qed.

(** X17.  Whatever highlight, unhighlight, scroll and resize events
    reach the script, in whatever order, it ends in a state where its two
    variables and the document agree: either nothing is highlighted and
    the document holds no overlay of the script, or one element is
    highlighted and the document holds exactly one overlay, the one the
    script refers to.  No overlay is ever left behind.  With numeric
    indexes the events never fail. *)
Theorem highlight_one_overlay (w : world) (events : list highlight_event) :
  (forall s', handle_events w events initial_state = Ok s' ->
     consistent s' /\ (List.length (body s') <= 1)%nat)
  /\ (Forall numeric_event events ->
      exists s', handle_events w events initial_state = Ok s').
Proof.
  split.
  - intros s' H.
    assert (Hc : consistent s')
      by (apply (events_consistent w events initial_state s'); [reflexivity | exact H]).
    split; [exact Hc|]. unfold consistent in Hc.
    destruct (highlightedElement s'), (highlightOverlay s'); try contradiction.
    + destruct Hc as (_ & o & -> & _). simpl. lia.
    + rewrite Hc. simpl. lia.
  - intros Hn. now apply events_total.
Qed.

Lemma highlight_one_overlay_witness :
  exists s',
    handle_events two_row_page
      [ on_highlightPanel None (Some (JNum 1));
        on_highlightPanel None (Some (JNum 2));
        on_unhighlightPanel ] initial_state = Ok s'.
Proof.
  apply (proj2 (highlight_one_overlay two_row_page _)).
  repeat constructor.
Defined.

(* ================================================================== *)
(** * Which container is highlighted *)
(* ================================================================== *)

(** X18.  The highlight depends on the place of the resource in the
    list only: the panel index of the message is ignored.  Place 0 (the
    dashboard itself), a place beyond the containers of the page and a
    missing place clear the highlight; place [k] between 1 and the
    number of containers highlights the [k]-th container in position
    order and puts the overlay where that container is. *)
Theorem highlight_selection (w : world) (panelIndex : jsval) (k : Z)
  (s : highlight_state) :
  (forall other,
     highlightPanel w other (Some (JNum k)) s
     = highlightPanel w panelIndex (Some (JNum k)) s)
  /\ Permutation (first_matching w highlightSelectors) (highlight_order w)
  /\ (k <= 0 \/ Z.of_nat (List.length (highlight_order w)) < k ->
      highlightPanel w panelIndex (Some (JNum k)) s = Ok (unhighlightPanel s))
  /\ highlightPanel w panelIndex None s = Ok (unhighlightPanel s)
  /\ (1 <= k <= Z.of_nat (List.length (highlight_order w)) ->
      exists panel s',
        nth_error (highlight_order w) (Z.to_nat (k - 1)) = Some panel
        /\ highlightPanel w panelIndex (Some (JNum k)) s = Ok s'
        /\ highlightedElement s' = Some panel
        /\ exists o, nth_error (body s') (List.length (body (unhighlightPanel s)))
                     = Some o
                     /\ ov_top o = el_top panel /\ ov_left o = el_left panel).
Proof.
  split; [|split; [|split; [|split]]].
  - intros other.
    now rewrite !(highlightPanel_number w _ (Some (JNum k)) k s eq_refl).
  - apply sort_by_perm.
  - intros Hk. rewrite (highlightPanel_number w _ (Some (JNum k)) k s eq_refl).
    destruct Hk as [Hk|Hk].
    + destruct (Z.leb_spec 1 k); [lia|].
      now destruct (nth_error _ _).
    + assert (Hn : nth_error (highlight_order w) (Z.to_nat (k - 1)) = None)
        by (apply nth_error_None; lia).
      now rewrite Hn.
  - exact (highlightPanel_nan w panelIndex None s eq_refl).
  - intros Hk. rewrite (highlightPanel_number w _ (Some (JNum k)) k s eq_refl).
    destruct (nth_error (highlight_order w) (Z.to_nat (k - 1))) as [panel|] eqn:E.
    + destruct (Z.leb_spec 1 k); [|lia].
      exists panel. eexists. split; [reflexivity|]. split; [reflexivity|].
      split; [reflexivity|]. cbn [body].
      eexists. rewrite nth_error_app2, Nat.sub_diag by lia.
      split; [reflexivity|]. split; reflexivity.
    + apply nth_error_None in E. lia.
Qed.

Lemma highlight_selection_witness :
  exists panel s',
    nth_error (highlight_order two_row_page) (Z.to_nat (2 - 1)) = Some panel
    /\ highlightPanel two_row_page None (Some (JNum 2)) initial_state = Ok s'
    /\ highlightedElement s' = Some panel
    /\ exists o, nth_error (body s')
                   (List.length (body (unhighlightPanel initial_state))) = Some o
                 /\ ov_top o = el_top panel /\ ov_left o = el_left panel.
Proof.
  apply (highlight_selection two_row_page None 2 initial_state).
  vm_compute. split; discriminate.
Defined.

(* ================================================================== *)
(** * The highlight and the panels of the DOM path *)
(* ================================================================== *)

Lemma first_matching_app (w : world) (l l' : list string) :
  first_matching w (l ++ l')
  = match first_matching w l with
    | [] => first_matching w l'
    | elements => elements
    end.
Proof.
  induction l as [|selector l IH]; cbn [app first_matching].
  - now destruct (first_matching w l').
  - destruct (querySelectorAll w selector); [exact IH | reflexivity].
Qed.

Lemma highlight_same_containers (w : world) :
  first_matching w panelSelectors <> [] ->
  first_matching w highlightSelectors = first_matching w panelSelectors.
Proof.
  intros H. unfold highlightSelectors. rewrite first_matching_app.
  destruct (first_matching w panelSelectors); [congruence | reflexivity].
Qed.

Lemma insert_by_map {A B : Type} (g : A -> B) (after : A -> A -> bool)
  (after' : B -> B -> bool) (x : A) (l : list A) :
  (forall a b, after' (g a) (g b) = after a b) ->
  insert_by after' (g x) (map g l) = map g (insert_by after x l).
Proof.
  intros H. induction l as [|y l IH]; cbn [map insert_by]; [reflexivity|].
  rewrite H. destruct (after x y); cbn [map]; [now rewrite IH | reflexivity].
Qed.

Lemma sort_by_map {A B : Type} (g : A -> B) (after : A -> A -> bool)
  (after' : B -> B -> bool) (l : list A) :
  (forall a b, after' (g a) (g b) = after a b) ->
  sort_by after' (map g l) = map g (sort_by after l).
Proof.
  intros H. induction l as [|x l IH]; cbn [map sort_by]; [reflexivity|].
  rewrite IH. now apply insert_by_map.
Qed.

Lemma placed_of_all (elements : list element) :
  Forall (fun e => exists info, extractPanelInfo e = Ok (Some info)) elements ->
  placed_of elements = map placed_at elements.
Proof.
  induction 1 as [|e l (info & He) _ IH]; [reflexivity|].
  cbn [placed_of map]. unfold placed_at at 1. unfold extractPanelInfo in He.
  now rewrite He, IH.
Qed.

Lemma detectEmbeddedPanels_all (w : world) :
  Forall (fun e => exists info, extractPanelInfo e = Ok (Some info))
    (first_matching w panelSelectors) ->
  detectEmbeddedPanels w
  = Ok (map (fun e => JObj (panelInfo_fields (fst (placed_at e))))
          (sort_by rect_after (first_matching w panelSelectors))).
Proof.
  intros Hall. unfold detectEmbeddedPanels, positioned_panels.
  rewrite collect_panels_placed.
  2:{ eapply Forall_impl; [|exact Hall]. intros e (info & He). eexists. exact He. }
  cbn [bind].
  rewrite (Array_sort_pure placed_after placed_json comparePosition (fun _ => True)).
  - cbn [bind]. rewrite strip_placed, (placed_of_all _ Hall).
    rewrite (sort_by_map placed_at rect_after placed_after) by (intros; reflexivity).
    now rewrite map_map.
  - intros x y _ _. apply comparePosition_pure.
  - rewrite Forall_forall. trivial.
Qed.

(** X19.  When the panels come from the DOM path and every container
    yields panel information, hovering over a row of the side panel
    highlights the container that row was harvested from: the DOM path
    lists one resource per container, and for the resource at place
    [k + 1] of the list (the dashboard is at place 0) [highlightPanel]
    picks a container whose panel information is that resource. *)
Theorem highlight_follows_dom_harvest (w : world) (panelIndex : jsval)
  (s : highlight_state) :
  first_matching w panelSelectors <> [] ->
  Forall (fun e => exists info, extractPanelInfo e = Ok (Some info))
    (first_matching w panelSelectors) ->
  exists dom,
    detectEmbeddedPanels w = Ok dom
    /\ List.length dom = List.length (first_matching w panelSelectors)
    /\ forall k r,
       nth_error dom k = Some r ->
       exists s' panel info,
         highlightPanel w panelIndex (Some (JNum (Z.of_nat k + 1))) s = Ok s'
         /\ highlightedElement s' = Some panel
         /\ In panel (first_matching w panelSelectors)
         /\ extractPanelInfo panel = Ok (Some info)
         /\ r = JObj (panelInfo_fields info).
Proof.
  intros Hne Hall. eexists. split; [exact (detectEmbeddedPanels_all w Hall)|].
  split.
  - rewrite length_map. symmetry. apply Permutation_length, sort_by_perm.
  - intros k r Hr.
    rewrite nth_error_map in Hr.
    destruct (nth_error (sort_by rect_after (first_matching w panelSelectors)) k)
      as [panel|] eqn:Ek; [|discriminate].
    injection Hr as <-.
    assert (Hin : In panel (first_matching w panelSelectors)).
    { apply (sort_by_in rect_after). exact (nth_error_In _ _ Ek). }
    rewrite Forall_forall in Hall. destruct (Hall panel Hin) as (info & Hinfo).
    rewrite (highlightPanel_number w _ (Some (JNum (Z.of_nat k + 1)))
               (Z.of_nat k + 1) s eq_refl).
    unfold highlight_order. rewrite (highlight_same_containers w Hne).
    replace (Z.to_nat (Z.of_nat k + 1 - 1)) with k by lia. rewrite Ek.
    destruct (Z.leb_spec 1 (Z.of_nat k + 1)); [|lia].
    eexists. exists panel, info. split; [reflexivity|]. split; [reflexivity|].
    split; [assumption|]. split; [assumption|].
    unfold placed_at. unfold extractPanelInfo in Hinfo. now rewrite Hinfo.
Qed.

Lemma highlight_follows_dom_harvest_witness :
  exists dom,
    detectEmbeddedPanels two_row_page = Ok dom /\ List.length dom = 3%nat.
Proof.
  destruct (highlight_follows_dom_harvest two_row_page None initial_state)
    as (dom & H1 & H2 & _).
  - discriminate.
  - repeat constructor; eexists; reflexivity.
  - exists dom. split; [exact H1 | exact H2].
Defined.

(* ================================================================== *)
(** * Exporting a panel of the DOM path *)
(* ================================================================== *)

Lemma collect_panels_shape (elements : list element) : forall l,
  collect_panels elements = Ok l ->
  Forall (fun j => exists e info,
                     In e elements /\ extractPanelInfo e = Ok (Some info)
                     /\ j = placed_json (info, (el_top e, el_left e))) l.
Proof.
  induction elements as [|e elements IH]; intros l; cbn [collect_panels].
  - intros H. injection H as <-. constructor.
  - destruct (extractPanelInfo e) as [found| |] eqn:Ee; try discriminate.
    cbn [bind].
    destruct (collect_panels elements) as [more| |]; try discriminate.
    cbn [bind].
    assert (Hmore : Forall (fun j => exists e' info,
                       In e' (e :: elements)
                       /\ extractPanelInfo e' = Ok (Some info)
                       /\ j = placed_json (info, (el_top e', el_left e'))) more).
    { eapply Forall_impl; [|exact (IH more eq_refl)].
      intros j (e' & info & Hin & He' & ->). exists e', info.
      split; [now right | now split]. }
    destruct found as [info|]; intros H; injection H as <-; [|exact Hmore].
    constructor; [|exact Hmore].
    exists e, info. split; [now left | now split].
Qed.

Lemma dom_resource_shape (w : world) (dom : list json) (r : json) :
  detectEmbeddedPanels w = Ok dom -> In r dom ->
  exists e info,
    In e (first_matching w panelSelectors)
    /\ extractPanelInfo e = Ok (Some info)
    /\ r = JObj (panelInfo_fields info).
Proof.
  unfold detectEmbeddedPanels, positioned_panels. intros H Hin.
  destruct (collect_panels _) as [l| |] eqn:El; try discriminate.
  cbn [bind] in H.
  destruct (Array_sort comparePosition l) as [sorted| |] eqn:Es; try discriminate.
  cbn [bind] in H.
  destruct (map_outcome_in _ _ _ _ H Hin) as (j & Hj & Hr).
  apply Array_sort_perm in Es.
  apply (Permutation_in _ (Permutation_sym Es)) in Hj.
  pose proof (collect_panels_shape _ _ El) as Hshape.
  rewrite Forall_forall in Hshape.
  destruct (Hshape j Hj) as (e & info & He & Hinfo & ->).
  rewrite without_position_placed in Hr. injection Hr as <-.
  now exists e, info.
Qed.

(** X16.  A panel listed by the DOM path carries no dashboard id and no
    panel index, so it is never exported as an embedded panel.  The
    side panel offers it for export exactly when the page gave an id
    for it; its export then posts the bulk request for the type and id
    read from the page, and makes no other request. *)
Theorem dom_resource_export (w : world) (dom : list json) (r : json) :
  detectEmbeddedPanels w = Ok dom -> In r dom ->
  exists e info,
    In e (first_matching w panelSelectors)
    /\ extractPanelInfo e = Ok (Some info)
    /\ r = JObj (panelInfo_fields info)
    /\ embedded_request (export_message r) = false
    /\ canExport r = match pi_id info with
                     | Some id => negb (id =? "")%string
                     | None => false
                     end
    /\ (forall id,
        pi_id info = Some id -> id <> "" ->
        requests_of (onExportSavedObject w (export_message r))
        = [bulk_request w (Some (JStr (pi_type info))) (Some (JStr id))]).
Proof.
  intros H Hin. destruct (dom_resource_shape w dom r H Hin) as (e & info & He & Hi & ->).
  exists e, info. split; [assumption|]. split; [assumption|].
  split; [reflexivity|]. split; [reflexivity|]. split.
  - unfold canExport. cbn [panelInfo_fields lookup assoc String.eqb Ascii.eqb
      Bool.eqb truthy negb andb orb].
    destruct (pi_id info) as [id|]; [|reflexivity].
    cbn [truthy]. now rewrite !orb_false_r.
  - intros id Hid Hne.
    assert (Ht : truthy (Some (JStr id)) = true)
      by (destruct id; [congruence | reflexivity]).
    rewrite handler_requests.
    rewrite export_content_bulk_run.
    + cbn [fst]. unfold export_message.
      cbn [rq_type rq_id panelInfo_fields lookup assoc String.eqb Ascii.eqb Bool.eqb].
      now rewrite Hid.
    + reflexivity.
    + left. reflexivity.
    + unfold export_message.
      cbn [rq_id panelInfo_fields lookup assoc String.eqb Ascii.eqb Bool.eqb].
      now rewrite Hid.
Qed.

Lemma dom_resource_export_witness :
  exists e info,
    In e (first_matching two_row_page panelSelectors)
    /\ extractPanelInfo e = Ok (Some info)
    /\ JObj [("type", JStr "lens"); ("id", JNull); ("title", JStr "Sales")]
       = JObj (panelInfo_fields info).
Proof.
  destruct (dom_resource_export two_row_page
              [ JObj [("type", JStr "visualization"); ("id", JNull);
                      ("title", JStr "Notes")];
                JObj [("type", JStr "lens"); ("id", JNull); ("title", JStr "Sales")];
                JObj [("type", JStr "map"); ("id", JNull); ("title", JStr "Sites")] ]
              (JObj [("type", JStr "lens"); ("id", JNull); ("title", JStr "Sales")])
              eq_refl (or_intror (or_introl eq_refl)))
    as (e & info & H1 & H2 & H3 & _).
  exists e, info. repeat split; assumption.
Defined.

(* ================================================================== *)
(** * The page title *)
(* ================================================================== *)

Lemma skip_spaces_fixed (s : string) : skip_spaces (skip_spaces s) = skip_spaces s.
Proof.
  induction s as [|c s IH]; [reflexivity|]. cbn [skip_spaces].
  destruct (is_space c) eqn:E; [exact IH|]. cbn [skip_spaces]. now rewrite E.
Qed.

Lemma trim_end_fixed (s : string) : trim_end (trim_end s) = trim_end s.
Proof.
  induction s as [|c s IH]; [reflexivity|]. cbn [trim_end].
  destruct (trim_end s) as [|k kept] eqn:E.
  - destruct (is_space c) eqn:Ec; [reflexivity|]. cbn [trim_end]. now rewrite Ec.
  - change (trim_end (String c (String k kept))) with
      (match trim_end (String k kept) with
       | EmptyString => if is_space c then "" else String c ""
       | kept' => String c kept'
       end).
    now rewrite IH.
Qed.

Lemma trim_end_skip (s : string) : trim_end (skip_spaces s) = skip_spaces (trim_end s).
Proof.
  induction s as [|c s IH]; [reflexivity|]. cbn [skip_spaces trim_end].
  destruct (is_space c) eqn:Ec.
  - rewrite IH. destruct (trim_end s) as [|k kept]; [reflexivity|].
    cbn [skip_spaces]. now rewrite Ec.
  - cbn [trim_end].
    destruct (trim_end s) as [|k kept]; rewrite ?Ec; cbn [skip_spaces];
      now rewrite Ec.
Qed.

Lemma trim_fixed (s : string) : trim (trim s) = trim s.
Proof.
  unfold trim. now rewrite trim_end_skip, trim_end_fixed, skip_spaces_fixed.
Qed.

Lemma blank_trim_end (s : string) : all_of is_space s = true -> trim_end s = "".
Proof.
  unfold all_of. induction s as [|c s IH]; [reflexivity|]. cbn [free_of trim_end].
  intros H. apply andb_true_iff in H as [Hc Hs]. rewrite (IH Hs).
  rewrite negb_involutive in Hc. now rewrite Hc.
Qed.

Lemma trim_end_blank (s : string) : all_of is_space s = false -> trim_end s <> "".
Proof.
  unfold all_of. induction s as [|c s IH]; [discriminate|]. cbn [free_of trim_end].
  rewrite negb_involutive. intros H.
  destruct (trim_end s) as [|k kept]; [|discriminate].
  destruct (is_space c); [|discriminate].
  cbn [andb] in H. now specialize (IH H).
Qed.

Lemma skip_spaces_blank (sp : string) (c : ascii) (rest : string) :
  all_of is_space sp = true -> is_space c = false ->
  skip_spaces (sp ++ String c rest) = String c rest.
Proof.
  unfold all_of. intros Hsp Hc. induction sp as [|k sp IH].
  - cbn [append skip_spaces]. now rewrite Hc.
  - cbn [free_of] in Hsp. apply andb_true_iff in Hsp as [Hk Hsp].
    rewrite negb_involutive in Hk. cbn [append skip_spaces]. rewrite Hk.
    exact (IH Hsp).
Qed.

(** ** The suffix pattern *)

Lemma strip_suffix_eq (s : string) :
  strip_suffix s
  = if suffix_at s then ""
    else match s with
         | String c r => String c (strip_suffix r)
         | EmptyString => ""
         end.
Proof. now destruct s. Qed.

Lemma skip_spaces_free (p : ascii -> bool) (s : string) :
  free_of p s = true -> free_of p (skip_spaces s) = true.
Proof.
  induction s as [|c s IH]; [reflexivity|]. cbn [skip_spaces].
  destruct (is_space c); [|trivial].
  cbn [free_of]. intros H. apply andb_true_iff in H as [_ H]. exact (IH H).
Qed.

Lemma suffix_at_free (s : string) : free_of is_dash s = true -> suffix_at s = false.
Proof.
  intros H. apply skip_spaces_free in H. unfold suffix_at.
  destruct (skip_spaces s) as [|c r]; [reflexivity|].
  cbn [free_of] in H. apply andb_true_iff in H as [Hc _].
  apply negb_true_iff in Hc. now rewrite Hc.
Qed.

(** A text without a dash holds no match. *)
Lemma strip_suffix_free (s : string) : free_of is_dash s = true -> strip_suffix s = s.
Proof.
  induction s as [|c s IH]; [reflexivity|]. intros H.
  rewrite strip_suffix_eq, (suffix_at_free _ H).
  cbn [free_of] in H. apply andb_true_iff in H as [_ H]. now rewrite (IH H).
Qed.

Lemma suffix_at_head (head rest : string) :
  free_of is_dash head = true -> suffix_at rest = true ->
  suffix_at (head ++ rest) = all_of is_space head.
Proof.
  intros Hh Hr. unfold all_of. induction head as [|c head IH]; [exact Hr|].
  cbn [free_of] in *. apply andb_true_iff in Hh as [Hc Hh].
  apply negb_true_iff in Hc. rewrite negb_involutive.
  specialize (IH Hh). unfold suffix_at in *. cbn [append skip_spaces].
  destruct (is_space c); [exact IH|]. now rewrite Hc.
Qed.

(** The leftmost match starts where the white space before the first
    dash starts. *)
Lemma strip_suffix_head (head rest : string) :
  free_of is_dash head = true -> suffix_at rest = true ->
  strip_suffix (head ++ rest) = trim_end head.
Proof.
  intros Hh Hr. induction head as [|c head IH].
  - cbn [append]. now rewrite strip_suffix_eq, Hr.
  - rewrite strip_suffix_eq, (suffix_at_head _ _ Hh Hr).
    destruct (all_of is_space (String c head)) eqn:E.
    + symmetry. now apply blank_trim_end.
    + pose proof (trim_end_blank _ E) as Hne.
      cbn [free_of] in Hh. apply andb_true_iff in Hh as [_ Hh].
      cbn [append]. rewrite (IH Hh).
      cbn [trim_end] in *. destruct (trim_end head); [|reflexivity].
      now destruct (is_space c).
Qed.

Lemma lower_space (c : ascii) : is_space c = true -> lower_char c = c.
Proof.
  destruct c as [[] [] [] [] [] [] [] []]; vm_compute; congruence.
Qed.

Lemma toLowerCase_length (s : string) :
  String.length (toLowerCase s) = String.length s.
Proof. induction s as [|c s IH]; [reflexivity|]. cbn. now rewrite IH. Qed.

Lemma starts_with_word_lower (word tail : string) :
  starts_with_word (toLowerCase word) (word ++ tail) = true.
Proof.
  induction word as [|c word IH]; [reflexivity|].
  cbn [toLowerCase append starts_with_word]. now rewrite Ascii.eqb_refl, IH.
Qed.

Lemma drop_app (word tail : string) : drop (String.length word) (word ++ tail) = tail.
Proof. induction word as [|c word IH]; [now destruct tail | exact IH]. Qed.

Lemma product_letter (word : string) :
  In (toLowerCase word) products ->
  exists c r, word = String c r /\ is_space c = false.
Proof.
  intros H. destruct word as [|c r].
  - cbn in H. now destruct H as [H|[H|[]]].
  - exists c, r. split; [reflexivity|].
    destruct (is_space c) eqn:E; [|reflexivity].
    pose proof (lower_space c E) as El. cbn [toLowerCase] in H. rewrite El in H.
    destruct H as [H|[H|[]]]; injection H as <- _; discriminate E.
Qed.

Lemma suffix_at_product (sp1 sp2 word tail : string) :
  all_of is_space sp1 = true -> all_of is_space sp2 = true ->
  In (toLowerCase word) products ->
  free_of is_line_terminator tail = true ->
  suffix_at (sp1 ++ "-" ++ sp2 ++ word ++ tail) = true.
Proof.
  intros H1 H2 Hw Ht. unfold suffix_at.
  change ("-" ++ sp2 ++ word ++ tail) with (String "-" (sp2 ++ word ++ tail)).
  rewrite (skip_spaces_blank sp1 "-" _ H1 eq_refl).
  cbn [is_dash Ascii.eqb Bool.eqb andb].
  change (is_dash "-") with true. cbn [andb].
  destruct (product_letter word Hw) as (c & r & -> & Hc).
  change (String c r ++ tail) with (String c (r ++ tail)).
  rewrite (skip_spaces_blank sp2 c _ H2 Hc).
  apply existsb_exists. exists (toLowerCase (String c r)). split; [exact Hw|].
  change (String c (r ++ tail)) with (String c r ++ tail).
  rewrite starts_with_word_lower, toLowerCase_length, drop_app. exact Ht.
Qed.

(** ** The selectors *)

Lemma first_text_trimmed (d : document_view) (selectors : list string) (t : string) :
  Title.first_text d selectors = Some t -> trim t = t /\ t <> "".
Proof.
  induction selectors as [|selector rest IH]; cbn [Title.first_text]; [discriminate|].
  destruct (doc_querySelector d selector) as [text|]; [|exact IH].
  destruct (String.eqb_spec (trim text) "") as [E|E]; cbn [negb]; [exact IH|].
  intros H. injection H as <-. split; [apply trim_fixed | exact E].
Qed.

Lemma first_text_none (d : document_view) (selectors : list string) :
  Title.first_text d selectors = None <-> no_text d selectors = true.
Proof.
  unfold no_text.
  induction selectors as [|selector rest IH]; cbn [Title.first_text forallb];
    [tauto|].
  destruct (doc_querySelector d selector) as [text|]; [|exact IH].
  destruct (trim text =? "")%string; cbn [negb andb]; [exact IH|].
  split; discriminate.
Qed.

Lemma first_text_priority (d : document_view) (before after : list string)
    (selector text : string) :
  no_text d before = true ->
  doc_querySelector d selector = Some text -> trim text <> "" ->
  Title.first_text d (before ++ selector :: after)%list = Some (trim text).
Proof.
  unfold no_text. intros Hb Hq Hne.
  induction before as [|b before IH]; cbn [app Title.first_text].
  - rewrite Hq. apply String.eqb_neq in Hne. now rewrite Hne.
  - cbn [forallb] in Hb. apply andb_true_iff in Hb as [Hb1 Hb2].
    destruct (doc_querySelector d b) as [t|]; [|exact (IH Hb2)].
    rewrite Hb1. exact (IH Hb2).
Qed.

(** X26.  [extractTitle] returns [null] exactly when no selector finds
    an element with text and the document has no title; otherwise it
    returns a string without white space at either end.  The first
    selector of the list whose element has text gives the title,
    whatever the later selectors and the document title are, and that
    title is not empty. *)
Theorem page_title_shape (d : document_view) :
  (Title.extractTitle d = JNull
   <-> no_text d Title.selectors = true /\ doc_title d = "")
  /\ (Title.extractTitle d = JNull
      \/ exists t, Title.extractTitle d = JStr t /\ trim t = t)
  /\ (forall (before : list string) selector after text,
      Title.selectors = (before ++ selector :: after)%list ->
      no_text d before = true ->
      doc_querySelector d selector = Some text -> trim text <> "" ->
      Title.extractTitle d = JStr (trim text) /\ trim text <> "")
  /\ (no_text d Title.selectors = false ->
      exists t, Title.extractTitle d = JStr t /\ t <> "").
Proof.
  unfold Title.extractTitle. split; [|split; [|split]].
  - destruct (Title.first_text d Title.selectors) as [t|] eqn:E.
    + split; [discriminate|]. intros [H _].
      apply first_text_none in H. congruence.
    + apply first_text_none in E.
      destruct (String.eqb_spec (doc_title d) "") as [Ed|Ed]; cbn [negb].
      * now split.
      * split; [discriminate|]. now intros [_ H].
  - destruct (Title.first_text d Title.selectors) as [t|] eqn:E.
    + right. exists t. split; [reflexivity|]. exact (proj1 (first_text_trimmed _ _ _ E)).
    + destruct (negb (doc_title d =? "")%string); [|now left].
      right. eexists. split; [reflexivity|]. apply trim_fixed.
  - intros before selector after text -> Hb Hq Hne.
    now rewrite (first_text_priority d before after selector text Hb Hq Hne).
  - intros H.
    destruct (Title.first_text d Title.selectors) as [t|] eqn:E.
    + exists t. split; [reflexivity|]. exact (proj2 (first_text_trimmed _ _ _ E)).
    + apply first_text_none in E. congruence.
Qed.

(** X27.  When no selector finds an element with text, the title comes
    from the document title.  Of a document title made of a head
    without a dash, then optional white space, a dash, optional white
    space, the word Elastic or Kibana in any case and a tail on the
    same line, only the head is kept, without the white space at its
    ends: the result is the empty string when the head is blank.  A
    document title without a dash is returned whole, trimmed. *)
Theorem document_title_suffix (d : document_view) :
  no_text d Title.selectors = true ->
  (forall head sp1 sp2 word tail,
      free_of is_dash head = true ->
      all_of is_space sp1 = true -> all_of is_space sp2 = true ->
      In (toLowerCase word) products ->
      free_of is_line_terminator tail = true ->
      doc_title d = head ++ sp1 ++ "-" ++ sp2 ++ word ++ tail ->
      Title.extractTitle d = JStr (trim head)
      /\ (all_of is_space head = true -> Title.extractTitle d = JStr ""))
  /\ (free_of is_dash (doc_title d) = true -> doc_title d <> "" ->
      Title.extractTitle d = JStr (trim (doc_title d))).
Proof.
  intros Hn. apply first_text_none in Hn. unfold Title.extractTitle. rewrite Hn.
  split.
  - intros head sp1 sp2 word tail Hh H1 H2 Hw Ht Hd.
    assert (Hne : doc_title d <> "").
    { rewrite Hd. destruct head; [|discriminate]. destruct sp1; discriminate. }
    apply String.eqb_neq in Hne. rewrite Hne. cbn [negb].
    rewrite Hd, (strip_suffix_head head _ Hh (suffix_at_product _ _ _ _ H1 H2 Hw Ht)).
    assert (E : trim (trim_end head) = trim head)
      by (unfold trim; now rewrite trim_end_fixed).
    rewrite E. split; [reflexivity|].
    intros Hb. unfold trim. now rewrite (blank_trim_end _ Hb).
  - intros Hf Hne. apply String.eqb_neq in Hne. rewrite Hne. cbn [negb].
    now rewrite (strip_suffix_free _ Hf).
Qed.

Lemma document_title_suffix_witness :
  Title.extractTitle (bare_document "Sales by region  - elastic (dev)")
  = JStr "Sales by region"
  /\ Title.extractTitle (bare_document " | Kibana") = JStr "| Kibana".
Proof.
  split.
  - exact (proj1 (proj1 (document_title_suffix
                           (bare_document "Sales by region  - elastic (dev)") eq_refl)
                    "Sales by region" "  " " " "elastic" " (dev)"
                    eq_refl eq_refl eq_refl (or_introl eq_refl) eq_refl eq_refl)).
  - refine (proj2 (document_title_suffix (bare_document " | Kibana") eq_refl)
              eq_refl _).
    discriminate.
Defined.

(* ================================================================== *)
(** * Panel information from the markup *)
(* ================================================================== *)

Lemma present_some (v : string) : present (Some v) = true <-> v <> "".
Proof.
  cbn [present]. destruct (String.eqb_spec v "") as [E|E]; cbn [negb].
  - split; [discriminate | congruence].
  - now split.
Qed.

Lemma find_title_trimmed (panel : panel_view) (selectors : list string) (t : string) :
  Dom.find_title panel selectors = Some t -> trim t = t /\ t <> "".
Proof.
  induction selectors as [|selector rest IH]; cbn [Dom.find_title]; [discriminate|].
  destruct (pv_querySelector panel selector) as [titleEl|]; [|exact IH].
  destruct (String.eqb_spec (trim (textContent titleEl)) "") as [E|E]; cbn [negb];
    [exact IH|].
  intros H. injection H as <-. split; [apply trim_fixed | exact E].
Qed.


Lemma known_kind_present (k : string) : In k known_kinds -> present (Some k) = true.
Proof. intros [<-|[<-|[<-|[<-|[]]]]]; reflexivity. Qed.

Lemma link_type_kind (href : string) : kind_or_null (Dom.link_type href None).
Proof.
  unfold Dom.link_type, kind_or_null, known_kinds.
  destruct (includes "/lens" href); [right; eexists; split; [reflexivity|cbn; tauto]|].
  destruct (includes "/visualize" href);
    [right; eexists; split; [reflexivity|cbn; tauto]|].
  destruct (includes "/maps" href); [right; eexists; split; [reflexivity|cbn; tauto]|].
  destruct (includes "/discover" href);
    [right; eexists; split; [reflexivity|cbn; tauto]|].
  now left.
Qed.

Lemma capture_present (pat : pattern) (s id : string) :
  regex_capture pat s = Some id -> present (Some id) = true.
Proof.
  induction s as [|c s IH]; cbn [regex_capture]; unfold match_at.
  - destruct (strip_prefix (prefix pat) ""); [|discriminate].
    destruct (take_run (excluded pat) s); [discriminate|].
    intros H. now injection H as <-.
  - destruct (strip_prefix (prefix pat) (String c s)) as [r|]; [|exact IH].
    destruct (take_run (excluded pat) r); [exact IH|].
    intros H. now injection H as <-.
Qed.

(** The loop over the edit links: it leaves id and type as they were, or
    sets the id to a capture. *)
Lemma link_id_result (id : option string) (links : list node)
    (r : option string * option string) :
  Dom.link_id id None links = Ok r ->
  (r = (id, None) \/ present (fst r) = true) /\ kind_or_null (snd r).
Proof.
  induction links as [|link rest IH]; cbn [Dom.link_id].
  - intros H. injection H as <-. split; [now left | now left].
  - destruct (getAttribute "href" (attributes link)) as [href|]; [|discriminate].
    destruct (regex_capture Dom.editPattern href) as [captured|] eqn:E; [|exact IH].
    intros H. injection H as <-. cbn [fst snd]. split.
    + right. exact (capture_present _ _ _ E).
    + apply link_type_kind.
Qed.




Lemma content_id_kind (panel : panel_view) (id type : option string) :
  kind_or_null type -> kind_or_null (snd (Dom.content_id panel id type)).
Proof.
  intros H. unfold Dom.content_id.
  assert (Hl : kind_or_null (match pv_querySelector panel Dom.lensSelector with
                            | Some _ => Some "lens"
                            | None => type
                            end)).
  { destruct (pv_querySelector panel Dom.lensSelector); [|exact H].
    right. exists "lens". split; [reflexivity | now left]. }
  now destruct (pv_querySelector panel Dom.visSelector).
Qed.

Lemma guess_type_known (panel : panel_view) : In (Dom.guess_type panel) known_kinds.
Proof.
  unfold Dom.guess_type, known_kinds. cbv zeta.
  repeat match goal with
         | |- In (if ?b then _ else _) _ => destruct b
         end; cbn; tauto.
Qed.

(** The type of the answer, from the type the cascade found. *)
Lemma final_type_known (panel : panel_view) (type : option string) :
  kind_or_null type ->
  In (if negb (present type) then Dom.guess_type panel
      else match type with Some t => t | None => "" end) known_kinds.
Proof.
  intros [->|(k & -> & Hk)]; [apply guess_type_known|].
  now rewrite (known_kind_present k Hk).
Qed.

(** What the cascade computes: an id and a type, from which the answer
    is built. *)
Lemma extractPanelInfo_result (panel : panel_view) (result : option panel_info) :
  Dom.extractPanelInfo panel = Ok result ->
  exists id type,
    kind_or_null type
    /\ result
       = if present (Dom.find_title panel Dom.titleSelectors) || present id
         then Some {| pi_type := if negb (present type) then Dom.guess_type panel
                                 else match type with Some t => t | None => "" end;
                      pi_id := if present id then id else None;
                      pi_title :=
                        match Dom.find_title panel Dom.titleSelectors with
                        | Some t =>
                            if present (Dom.find_title panel Dom.titleSelectors)
                            then t else "Untitled Panel"
                        | None => "Untitled Panel"
                        end |}
         else None.
Proof.
  unfold Dom.extractPanelInfo. cbv zeta.
  set (id2 := if negb (present (Dom.own_id panel Dom.dataAttrs))
              then Dom.child_id (Dom.own_id panel Dom.dataAttrs)
                     (pv_querySelectorAll panel Dom.childSelector)
              else Dom.own_id panel Dom.dataAttrs).
  destruct (if negb (present id2)
            then Dom.link_id id2 None (pv_querySelectorAll panel Dom.editSelector)
            else Ok (id2, None)) as [found| |] eqn:E3; try discriminate.
  cbn [bind].
  assert (H3 : kind_or_null (snd found)).
  { destruct (negb (present id2)).
    - exact (proj2 (link_id_result _ _ _ E3)).
    - injection E3 as <-. now left. }
  destruct (if negb (present (fst found))
            then Dom.content_id panel (fst found) (snd found)
            else found) as [id4 type4] eqn:E4.
  assert (H4 : kind_or_null type4).
  { destruct (negb (present (fst found))).
    - pose proof (content_id_kind panel (fst found) (snd found) H3) as H.
      now rewrite E4 in H.
    - now rewrite E4 in H3. }
  intros H.
  exists (if negb (present id4)
          then Dom.uuid_id id4 (pv_querySelectorAll panel "*") else id4), type4.
  split; [exact H4|].
  destruct (present (Dom.find_title panel Dom.titleSelectors) || present _);
    now injection H as <-.
Qed.

(** Type, id and title of an answer. *)
Lemma markup_info (panel : panel_view) (info : panel_info) :
  Dom.extractPanelInfo panel = Ok (Some info) ->
  In (pi_type info) known_kinds /\ pi_title info <> "" /\ pi_id info <> Some "".
Proof.
  intros H. destruct (extractPanelInfo_result panel _ H) as (id & type & Hk & Hr).
  remember (Dom.find_title panel Dom.titleSelectors) as title eqn:Et.
  destruct (present title || present id); [|discriminate].
  injection Hr as ->. cbn [pi_type pi_title pi_id].
  split; [now apply final_type_known|]. split.
  - destruct title as [t|]; [|discriminate].
    destruct (present (Some t)) eqn:Ep; [|discriminate]. now apply present_some.
  - destruct id as [v|]; cbn [present]; [|discriminate].
    destruct (String.eqb_spec v "") as [->|E]; cbn [negb]; congruence.
Qed.

(** X28.  When [extractPanelInfo] returns panel information, its type
    is one of lens, visualization, map and search, its title is not
    empty and has no white space at either end, and its id is [null] or
    a non-empty string.  A panel without id carries a title found in
    its markup: the placeholder title only comes with an id. *)
Theorem panel_info_shape (panel : panel_view) (info : panel_info) :
  Dom.extractPanelInfo panel = Ok (Some info) ->
  In (pi_type info) known_kinds
  /\ pi_title info <> "" /\ trim (pi_title info) = pi_title info
  /\ pi_id info <> Some ""
  /\ (pi_id info = None ->
      Dom.find_title panel Dom.titleSelectors = Some (pi_title info))
  /\ (Dom.find_title panel Dom.titleSelectors = None ->
      pi_title info = "Untitled Panel" /\ pi_id info <> None).
Proof.
  intros H. destruct (markup_info panel info H) as (Hty & Hti & Hid).
  split; [exact Hty|]. split; [exact Hti|].
  destruct (extractPanelInfo_result panel _ H) as (id & type & _ & Hr).
  destruct (Dom.find_title panel Dom.titleSelectors) as [t|] eqn:Et.
  - destruct (find_title_trimmed _ _ _ Et) as [Htrim Hne].
    pose proof (proj2 (present_some t) Hne) as Hp. rewrite Hp in Hr.
    cbn [orb] in Hr. injection Hr as ->. cbn [pi_title pi_id].
    split; [exact Htrim|]. split; [exact Hid|].
    split; [reflexivity | discriminate].
  - cbn [present orb] in Hr. destruct (present id) eqn:Ep; [|discriminate].
    injection Hr as ->. cbn [pi_title pi_id] in *.
    split; [reflexivity|]. split; [exact Hid|].
    destruct id as [v|]; [|discriminate].
    split; [discriminate|]. intros _. split; [reflexivity | discriminate].
Qed.

Lemma panel_info_shape_witness :
  (let info := {| pi_type := "visualization"; pi_id := Some "7f3a";
                  pi_title := "Revenue" |} in
   In (pi_type info) known_kinds /\ pi_title info <> "")
  /\ Dom.extractPanelInfo captioned_panel
     = Ok (Some {| pi_type := "map"; pi_id := None; pi_title := "Sites" |}).
Proof.
  split; [|reflexivity].
  destruct (panel_info_shape linked_panel
              {| pi_type := "visualization"; pi_id := Some "7f3a";
                 pi_title := "Revenue" |} eq_refl) as (H1 & H2 & _).
  now split.
Defined.

(* ================================================================== *)
(** * Where the id of a panel comes from *)
(* ================================================================== *)












(* ================================================================== *)
(** * The DOM harvest over the markup *)
(* ================================================================== *)




